(* ===== verification/_CoqProject ===== *)
-Q . S2P
Prelude.v
GoStd.v
GoNet.v
GoCrypto.v
GoPath.v
Types.v
Runtime.v
Validate.v
Paths.v
Wire.v
GoFlag.v
Locale.v
Envelope.v
Profile.v
Xray.v
Options.v
Host.v
Service.v
Embedded.v
Registry.v
RateLimit.v
Auth.v
NodeClient.v
AdminClient.v
NodeConfig.v
NodeRuntime.v
Menu.v
RelayProtocol.v
Inbox.v
Command.v
CommandLine.v
Relay.v
Effects.v
RelayRules.v
Broker.v
Bridge.v
Supervisor.v
ConnSpec.v
EnrollSpec.v
World.v
Steps.v
Cleanup.v
Enrollment.v
Directory.v
Connections.v
LongPoll.v
Http.v
System.v
Demo.v
ControlTheorems.v
AccessTheorems.v
ServiceTheorems.v
NodeDemo.v
NodeTheorems.v
ClientTheorems.v
EndToEnd.v
Agreement.v
RelayTheorems.v
InboxTheorems.v
ManagerTheorems.v
MenuTheorems.v
Isolation.v
CommandTheorems.v
Workers.v
