(* ===== verification/Prelude.v ===== *)
(** * mayoiga: a verification development of the program

    mayoiga connects the services of nodes in a virtual network.  A
    _coordinator_ (src/internal/app/coordinator_*.go, connection_server.go)
    enrolls nodes, keeps the directory of what they publish, and carries
    connection requests from one node to another through long polls.
    _Nodes_ (coordinator_client.go, connection_*.go) register, discover and
    answer; _relays_ (relay_*.go) carry traffic between segments; a _manager_
    (service_*.go) keeps the nodes of a host running; the command line and its
    menus (main.go, interactive.go, node_*.go, runtime.go) configure them.

    The development has two halves that meet in a few theorems.  The
    coordinator is one [registry] behind one mutex, served by two listeners:
    its handlers are computations [M] that read and change a [world]; the
    interleaving of their critical sections is a transition system; everything
    is proved for every clock, random source, file system, map iteration
    order, JSON codec and signature scheme, the fields of the class [Env].
    The node side is computations [IO] on a [host], which may fail: files, what
    was sent and printed, and the memory of the process; the answers of the
    operating system, the network, the codec and the clock are the fields of
    the class [HostEnv], one per tick.

    ** The files

    The language and its library
    - Prelude: notation, tactics, hint database, lists and maps.
    - GoStd, GoNet, GoCrypto, GoPath: the values and library functions the
      code uses (time, strings, strconv; net; hex, base64, SHA-256;
      path/filepath), executable.  GoFlag: package flag, the literals it
      reads, and fmt.Scanln.

    The coordinator
    - Types: the records and limits of coordinator_types.go and
      connection_types.go.  Runtime: the class [Env], the [world], the monad
      [M] and its weakest preconditions [wp].
    - Validate: the pure checks on addresses, pins, codes, names.  Wire:
      requests, responses and the error envelope of coordinator_http.go.
      Envelope: the same envelope as bytes, from the captured writer to the
      error a node reads (coordinatorResponseError).
      Paths: the shape of absolute paths.
      Registry: persistence, audit, rate limits and signals.  RateLimit:
      lemmas on the limiter.  Auth: verifySignatureLocked, adminAuthorized and
      authenticatedConnectionBody.
    - ConnSpec and EnrollSpec: the two protocols, abstractly, as step
      relations on what they are about, with their invariants.  A connection
      request goes from queued to offered and back, and from either to
      accepted, rejected, canceled or expired; a handshake from requested
      (100) to approved (200) to completed (201), or to rejected (403) or
      expired (410).
    - World: the abstraction functions [connOf] and [enrollOf], the
      coordinator's invariant [worldInv], and [stepsTo a actor], which says that a
      change refines both protocols on the authority [a] and on behalf of the
      node [actor], keeps the invariant, forgets no waiter ([wakes]), and makes
      no handshake but under a new identifier ([handshakesKept]).
      Steps: the rules of the shared operations.
    - Cleanup: cleanupLocked.  Enrollment: coordinator_enrollment.go.
      Directory: coordinator_nodes.go.  Connections and LongPoll:
      connection_server.go.  Http: the dispatch of both listeners.
      [serves] says what serving a request to the public listener may do: a
      handler, or the start, any round and the end of a long poll, the world
      being whatever the other requests have made of it in between.
    - System: [sysStep] interleaves the critical sections of all handlers with
      the rounds of any number of long polls, deadlines, clients that go away,
      and restarts from the state file with any token and timings, on the same
      network and with at least the same capacity.

    The host and its nodes
    - Profile: the profile of profile.go and the checks of
      service_profiles.go.  Xray: the documents of render.go and the typed
      configuration of xraycore.go, and what it is for the two to say the same.
      Options: the options of main.go.  Locale: locale.go and its two files.
    - Host: the class [HostEnv], the monad [IO], files, profiles, the
      manager's scan of them (managedProfiles) and the listeners configured on
      the host.  Effects: what a computation leaves alone, that it returns,
      and that the clock goes on.
    - NodeClient: enrollment, discovery and signed requests
      (coordinator_client.go).  AdminClient: the administrator's actions of
      the same file.  NodeConfig: add-node, configure-node and the mapping
      actions (node_config.go).  NodeRuntime: running, switching, deleting,
      rendering and listing nodes (runtime.go, node_manager.go).
    - Inbox: connection_client.go, connection_inbox.go and
      connection_workers.go: requests, the cached inbox, one turn of every
      worker, and the steps of the goroutine that serves an offer
      ([offerGoroutine]).  Workers: the loops of the three workers interleaved, as a step
      relation, with their theorems.
    - RelayProtocol: handshakes, their encoding and dialing
      (relay_protocol.go, relay_dial.go).  Embedded: mappings in the process and
      the connectors of relay_types.go.  Relay: routes, pull listeners and the
      relay's handler (relay_pull.go, relay_server.go); RelayRules: lemmas
      about it.  Broker: reverse connections between goroutines, and Bridge: the
      copying of bytes between two connections (relay_protocol.go), as step
      relations, with their theorems.  A connection of the bridge takes only so
      many bytes before its peer reads ([ep_room]), and a write waits for room.
    - Service: the staged program and the systemd unit (service_stage.go,
      service_linux.go).  Supervisor: the workers of service_supervisor.go, on
      a monad of its own over the goroutines; when each ends, by itself or after
      its cancellation, is an oracle's ([hasEnded]).
    - Menu: interactive.go, as computations on the lines typed.  Command: the
      dispatch of main.go.  CommandLine: its Run, from the arguments to the
      action; CommandTheorems: its theorems.

    The properties
    - Demo, ControlTheorems, AccessTheorems, ServiceTheorems: the coordinator.
      NodeDemo, NodeTheorems (configuration), ClientTheorems (a node towards
      its coordinator), EndToEnd and Agreement (the enrollment of a node at the
      coordinator of this repository, and its connection requests there), InboxTheorems (connection requests), RelayTheorems,
      ManagerTheorems (parts, admin client, service, connectors, the two
      configurations of a mapping), MenuTheorems
      and Isolation (what an action or a worker may change).  Demo and NodeDemo are concrete environments in which each
      property with hypotheses has an instance.

    ** How the model reads

    A Go map is a [gmap]; a [range] over it visits an arbitrary permutation.
    A pointer that may be nil is an [option].  A time is a [Z] of nanoseconds
    whose zero is Go's, a duration is an int64 and a cursor or revision a
    uint64, with their wrap-around.  A handler whose Go code unlocks the mutex
    in the middle is a composition of definitions, one for each critical
    section ([enrollLocked], [createLocked], [inboxRound] …).  An error of the
    coordinator is an HTTP response with its status and text, an error of the
    node side is [None] without its text (a relay's refusals keep their code);
    the value a handler encodes is kept as the value.  A Go function that
    returns only an error is a boolean.  A file is written whole, not at all,
    or in part, as the environment decides, and a rename is atomic.
    sort.Slice, which is not stable, is one sorted order.

    Handlers share no mutable values except the maps of the registry, with
    one exception: the candidate arrays that cleanupLocked filters in place
    are also reached from responses still being encoded.  The model gives
    each response the values at the end of its critical section.  On the node
    side the one array that is shared, between the inbox cache and what the
    inbox worker dispatches, is modelled with its sharing ([callerEvents]).

    ** What is shown

    - System: every reachable state satisfies the invariant, and so does the
      state file, over restarts; no signal is closed twice; no poll
      sleeps through news; at most one inbox poll runs for a node; the public
      handlers are sequences of the sections that are interleaved.
    - Refinement: every request stays within both protocols, on the
      authority of its signature or of the admin token.  Hence only a request
      its target has signed decides a connection request and only one its source
      has signed cancels it, terminal requests are frozen, and nothing that the
      public listener serves, long polls included, changes a credential.
    - Function: what each successful answer means for memory and disk, for
      enrollment, approval, rejection, revocation, registration, discovery,
      create, accept, reject, cancel, acknowledge and both polls; the exact
      effect of the sweep, of a signature check and of the limiter.
    - Nodes: what they install the manager accepts; what they publish and sign
      the coordinator admits; a request is acknowledged only after it is
      saved, and accepted only after both ends are connected.
    - Both: the key a node ends an enrollment with is the one an administrator
      has approved, whatever the coordinator did in between; what a node is told
      of its connection request is true, and accepted means that the target has
      accepted it.
    - Relays: what a dialed handshake is, that a relay serves only what an
      authorized source asked for, once, by the route that follows from the
      peers it has read, and that a pull listener goes only by such a route;
      the broker hands a reverse connection to the one waiter it is for, and
      keeps nothing; the bridge between two connections is transparent, waits
      only for its peers, and ends when both have ended and read.
    - Workers: however their steps interleave, the status file says where they
      are and the newest revision of the directory is followed.
    - The command line: flags read back as they were spelled; the processes the
      manager and systemd start run what they were started for; a node
      recovers the code and the text of what the coordinator refuses.
    - Hosts: one process per node however scans interleave with exits; every
      part of a node that was opened is closed, with its connectors; what a
      success and a failure of installing the service leave, a unit that is
      there being taken for the service; the two descriptions of a mapping say
      the same; the menus and the actions agree; the admin actions are
      authorized; the files of one node are not another's.

    Bounds: the retry loops for identifiers have [deviceCodeAttempts] turns,
    as in the code; the IPv6 parser's fuel is nine turns for at most eight
    groups; SHA-256 and the other library functions recurse on their input.
    The fuel of [awaitTerminal] counts the answers a wait takes; a theorem
    bounds it by the answers that are not final.  The fuel of
    [runControlPlane] counts the polls of an enrollment that is not decided.  Uniqueness of 32-byte random
    tokens is the hypothesis [UniqueTokens].

    ** What is not modelled

    TLS, HTTP framing, timers' precision, and JSON text (the codecs are
    parameters, as are Ed25519, certificates and the Xray library, whose
    addresses are kept as the text they are parsed from); a coordinator
    restarted for another network or with a lower capacity than before; the loops
    that accept connections; signals
    and the coordinator's HTTP servers; the loop in which a node process is
    run again, but for its delays.  Output with formatted times and prompts,
    and the error texts of the node side other than those of the coordinator
    and of relays, are input and output; hash.go, the signal wrappers of
    platform*.go and the refusals of service_other.go are one-line glue.  A relay's verification reads the clock before it takes its lock;
    a goroutine delayed between the two is not interleaved. *)
From stdpp Require Export gmap strings list fin_maps sorting pretty.
From Stdlib Require Export ZArith Lia.
From Stdlib Require Ascii.
Export Stdlib.Strings.Ascii (ascii(..), ascii_of_nat, nat_of_ascii).
Export (notations) Stdlib.Strings.Ascii.

Local Open Scope Z_scope.

(** ** Automation *)

(** The development's hint database: lemmas about orders, lengths and the
    runtime that close routine side conditions. *)
Create HintDb mayoiga.
Create Rewrite HintDb mayoiga.

(** Turns boolean hypotheses produced by the code's conditions into
    propositions and splits conjunctions. *)
Ltac bool_simpl :=
  repeat match goal with
  | H : _ && _ = true |- _ => apply andb_true_iff in H as [??]
  | H : _ || _ = false |- _ => apply orb_false_iff in H as [??]
  | H : negb _ = true |- _ => apply negb_true_iff in H
  | H : negb _ = false |- _ => apply negb_false_iff in H
  | H : bool_decide _ = true |- _ => apply bool_decide_eq_true_1 in H
  | H : bool_decide _ = false |- _ => apply bool_decide_eq_false_1 in H
  | H : (_ <? _)%Z = true |- _ => apply Z.ltb_lt in H
  | H : (_ <? _)%Z = false |- _ => apply Z.ltb_ge in H
  | H : (_ <=? _)%Z = true |- _ => apply Z.leb_le in H
  | H : (_ <=? _)%Z = false |- _ => apply Z.leb_gt in H
  | H : (_ =? _)%Z = true |- _ => apply Z.eqb_eq in H
  | H : (_ =? _)%Z = false |- _ => apply Z.eqb_neq in H
  | H : (_ =? _)%string = true |- _ => apply String.eqb_eq in H
  | H : (_ =? _)%string = false |- _ => apply String.eqb_neq in H
  end.

(** Case analysis on the first condition or match of the goal. *)
Ltac step_case :=
  match goal with
  | |- context [if ?b then _ else _] => destruct b eqn:?
  | |- context [match ?x with _ => _ end] => destruct x eqn:?
  end.

(** ** Options and lists *)

Lemma from_option_default {A} (d : A) o x : o = Some x → default d o = x.
Proof. by intros ->. Qed.

(** [list_find]-free first match, as a Go [for … { if … { break } }] loop
    computes it. *)
Fixpoint firstMatch {A} (f : A → bool) (l : list A) : option A :=
  match l with
  | [] => None
  | x :: l => if f x then Some x else firstMatch f l
  end.

Lemma firstMatch_Some {A} (f : A → bool) l x :
  firstMatch f l = Some x → x ∈ l ∧ f x = true.
Proof.
  induction l as [|y l IH]; simpl; [done|].
  destruct (f y) eqn:E; intros H; simplify_eq.
  - split; [left|done].
  - destruct (IH H); split; [by right|done].
Qed.

Lemma firstMatch_None {A} (f : A → bool) l :
  firstMatch f l = None ↔ ∀ x, x ∈ l → f x = false.
Proof.
  induction l as [|y l IH]; simpl; [set_solver|].
  destruct (f y) eqn:E; split.
  - done.
  - intros H. specialize (H y ltac:(left)). congruence.
  - intros H x [->|Hx]%elem_of_cons; [done|]. by apply IH.
  - intros H. apply IH. intros x Hx. apply H. by right.
Qed.

(** Sorting as [sort.Slice] does it: by a strict "less" test.  [notAfter]
    is the non-strict order the sorted result satisfies. *)
Definition notAfter {A} (less : A → A → bool) (x y : A) : Prop := less y x = false.

#[export] Instance notAfter_dec {A} (less : A → A → bool) x y :
  Decision (notAfter less x y).
Proof. unfold notAfter. apply _. Defined.

#[export] Typeclasses Opaque notAfter.

Definition sortSlice {A} (less : A → A → bool) (l : list A) : list A :=
  merge_sort (notAfter less) l.

Lemma sortSlice_perm {A} (less : A → A → bool) l : sortSlice less l ≡ₚ l.
Proof. apply merge_sort_Permutation. Qed.

Lemma sortSlice_length {A} (less : A → A → bool) l :
  length (sortSlice less l) = length l.
Proof. by rewrite sortSlice_perm. Qed.

Lemma sortSlice_elem {A} (less : A → A → bool) l x :
  x ∈ sortSlice less l ↔ x ∈ l.
Proof. by rewrite sortSlice_perm. Qed.

(** Sorting by an integer key gives a strongly sorted list. *)
Lemma sortSlice_key_sorted {A} (key : A → Z) l :
  StronglySorted (λ x y, key x ≤ key y) (sortSlice (λ x y, key x <? key y) l).
Proof.
  assert (StronglySorted (notAfter (λ x y, key x <? key y))
            (sortSlice (λ x y, key x <? key y) l)) as H.
  { assert (Transitive (notAfter (λ x y, key x <? key y))).
    { intros x y z. unfold notAfter. rewrite !Z.ltb_ge. lia. }
    assert (Total (notAfter (λ x y, key x <? key y))).
    { intros x y. unfold notAfter. rewrite !Z.ltb_ge. lia. }
    apply StronglySorted_merge_sort; apply _. }
  induction H as [|x l' _ IH Hall]; constructor; [done|].
  eapply Forall_impl; [exact Hall|]. intros y. unfold notAfter.
  rewrite Z.ltb_ge. done.
Qed.

#[export] Hint Resolve sortSlice_perm sortSlice_length : mayoiga.

(** Go compares strings byte by byte; so does [String.ltb]. *)
Lemma string_compare_le_trans s1 s2 s3 :
  String.compare s1 s2 ≠ Gt → String.compare s2 s3 ≠ Gt → String.compare s1 s3 ≠ Gt.
Proof.
  revert s2 s3. induction s1 as [|c1 s1 IH]; intros [|c2 s2] [|c3 s3]; simpl; try done.
  unfold Stdlib.Strings.Ascii.compare.
  destruct (N.compare_spec (Stdlib.Strings.Ascii.N_of_ascii c1) (Stdlib.Strings.Ascii.N_of_ascii c2)) as [E1|E1|E1]; [| |done];
  destruct (N.compare_spec (Stdlib.Strings.Ascii.N_of_ascii c2) (Stdlib.Strings.Ascii.N_of_ascii c3)) as [E2|E2|E2]; try done.
  - rewrite E1, E2, N.compare_refl. apply IH.
  - intros _ _. rewrite E1, (proj2 (N.compare_lt_iff _ _) E2). done.
  - intros _ _. rewrite <- E2, (proj2 (N.compare_lt_iff _ _) E1). done.
  - intros _ _. rewrite (proj2 (N.compare_lt_iff _ _)) by (etrans; eassumption). done.
Qed.

Section ByText.
Context {A : Type} (key : A → string).
Let less (x y : A) : bool := (key x <? key y)%string.

Lemma notAfter_text x y : notAfter less x y ↔ String.compare (key x) (key y) ≠ Gt.
Proof.
  unfold notAfter, less, String.ltb. rewrite (String.compare_antisym (key x)).
  by destruct (String.compare (key y) (key x)).
Qed.

Lemma notAfter_text_trans : Transitive (notAfter less).
Proof. intros x y z. rewrite !notAfter_text. apply string_compare_le_trans. Qed.

Lemma notAfter_text_total : Total (notAfter less).
Proof.
  intros x y. rewrite !notAfter_text, (String.compare_antisym (key x)).
  destruct (String.compare (key y) (key x)); auto; by left.
Qed.

Lemma sortSlice_text_sorted l : StronglySorted (notAfter less) (sortSlice less l).
Proof.
  pose proof notAfter_text_trans. pose proof notAfter_text_total.
  apply StronglySorted_merge_sort; apply _.
Qed.
End ByText.

Lemma filter_keep {A} (P : A → Prop) `{!∀ x, Decision (P x)} l : Forall P l → filter P l = l.
Proof. induction 1 as [|x l Hx _ IH]; [done|]. by rewrite filter_cons_True, IH. Qed.

(** Elements of a list without repeated keys are determined by their key. *)
Lemma NoDup_key_inj {A B} (f : A → B) l x y : NoDup (f <$> l) → x ∈ l → y ∈ l → f x = f y → x = y.
Proof.
  induction l as [|z l IH]; intros Hl Hx Hy He; [by apply not_elem_of_nil in Hx|].
  rewrite fmap_cons in Hl. apply NoDup_cons in Hl as [Hz Hl].
  apply elem_of_cons in Hx as [->|Hx]; apply elem_of_cons in Hy as [->|Hy]; try done.
  - exfalso. apply Hz. rewrite He. by apply list_elem_of_fmap_2.
  - exfalso. apply Hz. rewrite <- He. by apply list_elem_of_fmap_2.
  - by apply IH.
Qed.

Lemma StronglySorted_filter {A} (R : A → A → Prop) (P : A → Prop) `{!∀ x, Decision (P x)} l :
  StronglySorted R l → StronglySorted R (filter P l).
Proof.
  induction 1 as [|x l _ IH Hall]; [constructor|]. rewrite filter_cons. case_decide; [|done].
  constructor; [done|]. rewrite Forall_forall in Hall |- *. intros y [_ Hy]%list_elem_of_filter. auto.
Qed.

(** ** Counting the entries of a map

    A Go loop [for _, v := range m { if p(v) { n++ } }]. *)
Definition countMap {V} (p : V → bool) (m : gmap string V) : nat :=
  length (filter (λ kv, p kv.2 = true) (map_to_list m)).

Definition b2n (b : bool) : nat := if b then 1 else 0.

Section CountMap.
Context {V : Type} (p : V → bool).
Implicit Types m : gmap string V.

Lemma countMap_perm m order :
  order ≡ₚ map_to_list m → length (filter (λ kv, p kv.2 = true) order) = countMap p m.
Proof. intros H. unfold countMap. by rewrite H. Qed.

Lemma countMap_empty : countMap p ∅ = 0%nat.
Proof. unfold countMap. by rewrite map_to_list_empty. Qed.

Lemma countMap_insert_new m i x :
  m !! i = None → countMap p (<[i:=x]> m) = (b2n (p x) + countMap p m)%nat.
Proof.
  intros Hi. unfold countMap. rewrite (map_to_list_insert m i x Hi).
  rewrite filter_cons. simpl. destruct (p x); simpl; done.
Qed.

Lemma countMap_delete m i x :
  m !! i = Some x → countMap p m = (b2n (p x) + countMap p (delete i m))%nat.
Proof.
  intros Hi. rewrite <- (insert_delete_id m i x Hi) at 1.
  rewrite countMap_insert_new; [done|apply lookup_delete_eq].
Qed.

Lemma countMap_update m i x y :
  m !! i = Some x →
  (b2n (p x) + countMap p (<[i:=y]> m) = b2n (p y) + countMap p m)%nat.
Proof.
  intros Hi. rewrite <- insert_delete_eq, countMap_insert_new; [|apply lookup_delete_eq].
  rewrite (countMap_delete m i x Hi). lia.
Qed.

Lemma countMap_update_le m i x y :
  m !! i = Some x → (p y = true → p x = true) →
  (countMap p (<[i:=y]> m) ≤ countMap p m)%nat.
Proof.
  intros Hi Hp. pose proof (countMap_update m i x y Hi) as H.
  destruct (p x), (p y); simpl in H; lia.
Qed.

Lemma countMap_delete_le m i : (countMap p (delete i m) ≤ countMap p m)%nat.
Proof.
  destruct (m !! i) as [x|] eqn:Hi.
  - rewrite (countMap_delete m i x Hi). lia.
  - by rewrite delete_id.
Qed.

Lemma countMap_subseteq m1 m2 : m1 ⊆ m2 → (countMap p m1 ≤ countMap p m2)%nat.
Proof.
  intros (l & Hl)%map_to_list_submseteq%submseteq_Permutation. unfold countMap.
  rewrite Hl, filter_app, length_app. lia.
Qed.

Lemma countMap_pos m i x : m !! i = Some x → p x = true → (0 < countMap p m)%nat.
Proof. intros Hi Hp. rewrite (countMap_delete m i x Hi), Hp. simpl. lia. Qed.
End CountMap.

(** ** Sequences of steps *)

Section Star.
Context {A : Type} (R : A → A → Prop).

Lemma star_invariant (I : A → Prop) :
  (∀ x y, R x y → I x → I y) → ∀ x y, rtc R x y → I x → I y.
Proof. intros H x y. induction 1; eauto. Qed.

Lemma star_monotone (P : A → A → Prop) `{!PreOrder P} :
  (∀ x y, R x y → P x y) → ∀ x y, rtc R x y → P x y.
Proof. intros H x y. induction 1; [reflexivity|]. etrans; eauto. Qed.
End Star.

#[export] Hint Resolve rtc_refl rtc_once rtc_l : mayoiga.
