(* ===== verification/GoStd.v ===== *)
(** * The Go values and standard-library functions the program uses

    Machine integers with their wrap-around, [time.Time] and
    [time.Duration] in nanoseconds, and the functions of [strings] and
    [strconv] the coordinator calls.  A Go string or byte slice is a
    [string], one [ascii] per byte. *)
From S2P Require Import Prelude.

Local Open Scope Z_scope.

(** ** Machine integers *)

Definition wrapInt64 (z : Z) : Z := (z + 2 ^ 63) `mod` 2 ^ 64 - 2 ^ 63.
Definition wrapUint64 (z : Z) : Z := z `mod` 2 ^ 64.

Lemma wrapInt64_range z : - 2 ^ 63 ≤ wrapInt64 z < 2 ^ 63.
Proof. unfold wrapInt64. pose proof (Z.mod_pos_bound (z + 2 ^ 63) (2 ^ 64)). lia. Qed.

Lemma wrapInt64_id z : - 2 ^ 63 ≤ z < 2 ^ 63 → wrapInt64 z = z.
Proof. intros H. unfold wrapInt64. rewrite Z.mod_small; lia. Qed.

Lemma wrapUint64_id z : 0 ≤ z < 2 ^ 64 → wrapUint64 z = z.
Proof. apply Z.mod_small. Qed.

Lemma wrapUint64_range z : 0 ≤ wrapUint64 z < 2 ^ 64.
Proof. apply Z.mod_pos_bound. lia. Qed.

(** ** Package [time]

    A [time.Time] is the number of nanoseconds since the Unix epoch; the
    program compares only UTC times without monotonic reading.  The zero
    [time.Time] is January 1, year 1. *)
Module Time.
Definition nanosecond : Z := 1.
Definition second : Z := 1000000000.
Definition minute : Z := 60 * second.
Definition hour : Z := 60 * minute.

Definition unixToInternal : Z := 62135596800.
Definition zero : Z := - unixToInternal * second.

Definition IsZero (t : Z) : bool := t =? zero.
Definition Before (t u : Z) : bool := t <? u.
Definition After (t u : Z) : bool := u <? t.
Definition Add (t d : Z) : Z := t + d.
(** [t.Sub(u)] saturates at the bounds of a [Duration]. *)
Definition Sub (t u : Z) : Z := Z.max (- 2 ^ 63) (Z.min (2 ^ 63 - 1) (t - u)).
(** [time.Unix(sec, 0)]: the seconds are shifted to the year-1 epoch in an
    int64, which wraps. *)
Definition Unix (sec : Z) : Z :=
  (wrapInt64 (sec + unixToInternal) - unixToInternal) * second.

(** [t.Unix()]: whole seconds, rounded towards the past. *)
Definition ToUnix (t : Z) : Z := t / second.

(** [time.Duration(n) * time.Second] in int64 arithmetic. *)
Definition Seconds (n : Z) : Z := wrapInt64 (n * second).
End Time.

Lemma Unix_small sec :
  - 2 ^ 62 ≤ sec ≤ 2 ^ 62 → Time.Unix sec = sec * Time.second.
Proof.
  intros H. unfold Time.Unix. rewrite wrapInt64_id; [f_equal; lia|].
  unfold Time.unixToInternal. lia.
Qed.

(** A time cut to whole seconds. *)
Lemma Unix_ToUnix now :
  0 ≤ now < 2 ^ 62 → 0 ≤ Time.ToUnix now < 2 ^ 62 ∧ now - Time.second < Time.Unix (Time.ToUnix now) ≤ now.
Proof.
  intros H. assert (0 ≤ Time.ToUnix now < 2 ^ 62) as Hu.
  { unfold Time.ToUnix, Time.second. split; [apply Z.div_pos; lia|]. apply Z.div_lt_upper_bound; lia. }
  split; [done|]. rewrite Unix_small by lia. unfold Time.ToUnix.
  pose proof (Z.mod_pos_bound now Time.second ltac:(done)). pose proof (Z.div_mod now Time.second ltac:(done)). lia.
Qed.

(** ** Package [strings] *)
Module Strings.
Definition bytes (s : string) : list ascii := String.list_ascii_of_string s.
Definition ofBytes (l : list ascii) : string := String.string_of_list_ascii l.

Fixpoint hasPrefixBytes (p l : list ascii) : bool :=
  match p, l with
  | [], _ => true
  | a :: p, b :: l => bool_decide (a = b) && hasPrefixBytes p l
  | _, _ => false
  end.

Definition HasPrefix (s p : string) : bool := hasPrefixBytes (bytes p) (bytes s).

Definition TrimPrefix (s p : string) : string :=
  if HasPrefix s p then ofBytes (drop (String.length p) (bytes s)) else s.

(** [strings.ReplaceAll(s, c, "")] for a one-byte [c]. *)
Definition RemoveAll (s : string) (c : ascii) : string :=
  ofBytes (filter (λ a, a ≠ c) (bytes s)).

(** The UTF-8 encodings of the code points [unicode.IsSpace] accepts. *)
Definition spaces : list (list ascii) :=
  map (map ascii_of_nat)
  ([[9]; [10]; [11]; [12]; [13]; [32]; [194; 133]; [194; 160];
    [225; 154; 128]; [226; 128; 168]; [226; 128; 169]; [226; 128; 175];
    [226; 129; 159]; [227; 128; 128]]
   ++ map (λ n, [226; 128; 128 + n]) (seq 0 11))%nat.

Definition leadingSpace (table : list (list ascii)) (l : list ascii) : option nat :=
  length <$> firstMatch (λ p, hasPrefixBytes p l) table.

Fixpoint trimLeft (table : list (list ascii)) (fuel : nat) (l : list ascii) : list ascii :=
  match fuel with
  | O => l
  | S fuel => match leadingSpace table l with
              | Some n => trimLeft table fuel (drop n l)
              | None => l
              end
  end.

(** [strings.TrimSpace]: every white-space rune has at least one byte, so
    the length of the string is enough fuel. *)
Definition TrimSpace (s : string) : string :=
  let l := bytes s in
  let l := trimLeft spaces (length l) l in
  ofBytes (reverse (trimLeft (reverse <$> spaces) (length l) (reverse l))).

Definition isASCII (s : string) : bool :=
  forallb (λ a, (nat_of_ascii a <? 128)%nat) (bytes s).

Definition upperByte (a : ascii) : ascii :=
  let n := nat_of_ascii a in
  if ((97 <=? n) && (n <=? 122))%nat then ascii_of_nat (n - 32) else a.
Definition lowerByte (a : ascii) : ascii :=
  let n := nat_of_ascii a in
  if ((65 <=? n) && (n <=? 90))%nat then ascii_of_nat (n + 32) else a.

Definition upperASCII (s : string) : string := ofBytes (upperByte <$> bytes s).
Definition lowerASCII (s : string) : string := ofBytes (lowerByte <$> bytes s).

Fixpoint indexByte (c : ascii) (l : list ascii) : option nat :=
  match l with
  | [] => None
  | a :: l => if bool_decide (a = c) then Some O else S <$> indexByte c l
  end.

(** The position of the last [c]. *)
Definition lastIndexByte (c : ascii) (l : list ascii) : option nat :=
  (λ i, length l - 1 - i)%nat <$> indexByte c (reverse l).
End Strings.

Lemma bytes_ofBytes l : Strings.bytes (Strings.ofBytes l) = l.
Proof. apply String.list_ascii_of_string_of_list_ascii. Qed.
Lemma ofBytes_bytes s : Strings.ofBytes (Strings.bytes s) = s.
Proof. apply String.string_of_list_ascii_of_string. Qed.
Lemma bytes_inj s t : Strings.bytes s = Strings.bytes t → s = t.
Proof. intros H. by rewrite <- (ofBytes_bytes s), H, ofBytes_bytes. Qed.
Lemma bytes_length s : length (Strings.bytes s) = String.length s.
Proof. induction s as [|a s IH]; simpl; [done|]. by f_equal. Qed.
Lemma bytes_app s t : Strings.bytes (s +:+ t) = Strings.bytes s ++ Strings.bytes t.
Proof. unfold Strings.bytes. induction s as [|a s IH]; [done|]. simpl. by f_equal. Qed.

Lemma append_assoc (a b c : string) : (a +:+ b) +:+ c = a +:+ (b +:+ c).
Proof. apply bytes_inj. by rewrite !bytes_app, app_assoc. Qed.

#[export] Hint Rewrite bytes_ofBytes ofBytes_bytes bytes_app : mayoiga.

Lemma indexByte_None c l : c ∉ l → Strings.indexByte c l = None.
Proof.
  induction l as [|a l IH]; intros H; simpl; [done|]. apply not_elem_of_cons in H as [Ha H].
  rewrite bool_decide_eq_false_2 by congruence. by rewrite IH.
Qed.
Lemma indexByte_app c l r : c ∉ l → Strings.indexByte c (l ++ c :: r) = Some (length l).
Proof.
  induction l as [|a l IH]; intros H; simpl; [by rewrite bool_decide_eq_true_2|].
  apply not_elem_of_cons in H as [Ha H]. rewrite bool_decide_eq_false_2 by congruence. by rewrite IH.
Qed.

(** ** Package [strconv] *)
Module Strconv.
Definition digit (a : ascii) : option Z :=
  let n := Z.of_nat (nat_of_ascii a) in
  if (48 <=? n) && (n <=? 57) then Some (n - 48) else None.

Fixpoint digits (acc : Z) (l : list ascii) : option Z :=
  match l with
  | [] => Some acc
  | a :: l => match digit a with
              | Some d => digits (10 * acc + d) l
              | None => None
              end
  end.

(** [strconv.ParseInt(s, 10, 64)] and [strconv.Atoi] on a 64-bit platform:
    the value and whether the error is nil.  A syntax error gives 0, a
    range error the nearest bound. *)
Definition ParseInt (s : string) : Z * bool :=
  let '(neg, l) :=
    match Strings.bytes s with
    | ("+" :: l)%char => (false, l)
    | ("-" :: l)%char => (true, l)
    | l => (false, l)
    end in
  match l with
  | [] => (0, false)
  | _ => match digits 0 l with
         | None => (0, false)
         | Some n =>
             if neg then if 2 ^ 63 <? n then (- 2 ^ 63, false) else (- n, true)
             else if 2 ^ 63 <=? n then (2 ^ 63 - 1, false) else (n, true)
         end
  end.

Definition Atoi : string → Z * bool := ParseInt.

(** [strconv.Itoa] and [strconv.FormatInt(n, 10)]. *)
Definition FormatInt (n : Z) : string := pretty n.
End Strconv.

Example trim_space_1 : Strings.TrimSpace "  ab c	" = "ab c".
Proof. vm_compute. reflexivity. Qed.
Example parse_int_1 : Strconv.ParseInt "-120" = (-120, true).
Proof. vm_compute. reflexivity. Qed.
Example parse_int_2 : Strconv.ParseInt "9223372036854775808" = (9223372036854775807, false).
Proof. vm_compute. reflexivity. Qed.
Example parse_int_3 : Strconv.ParseInt "12a" = (0, false).
Proof. vm_compute. reflexivity. Qed.

(** ** Decimal text *)

Lemma digit_char d : (d < 10)%N → Strconv.digit (pretty_N_char d) = Some (Z.of_N d).
Proof.
  intros H. assert (d ∈ [0; 1; 2; 3; 4; 5; 6; 7; 8; 9]%N) as Hd by (rewrite !elem_of_cons; lia).
  rewrite !elem_of_cons, elem_of_nil in Hd. by repeat destruct Hd as [->|Hd].
Qed.

Lemma pretty_go_digits n s :
  ∃ l, Strings.bytes (pretty_N_go n s) = l ++ Strings.bytes s
    ∧ Forall (λ a, is_Some (Strconv.digit a)) l
    ∧ (l = [] ↔ n = 0%N)
    ∧ ∀ rest, Strconv.digits 0 (l ++ rest) = Strconv.digits (Z.of_N n) rest.
Proof.
  revert s. induction n as [n IH] using (well_founded_induction N.lt_wf_0). intros s.
  destruct (decide (0 < n)%N) as [Hn|Hn].
  - rewrite pretty_N_go_step by done.
    destruct (IH (n / 10)%N ltac:(apply N.div_lt; lia) (String (pretty_N_char (n `mod` 10)) s)) as (l & Hl & Hall & _ & Hd).
    pose proof (digit_char (n `mod` 10) ltac:(apply N.mod_lt; lia)) as Hc.
    exists (l ++ [pretty_N_char (n `mod` 10)]). split_and!.
    + rewrite Hl, <- app_assoc. done.
    + apply Forall_app. split; [done|]. constructor; [by rewrite Hc|constructor].
    + split; [by intros [_ ?]%app_nil|lia].
    + intros rest. rewrite <- app_assoc, Hd. simpl. rewrite Hc. f_equal.
      pose proof (N.div_mod n 10 ltac:(lia)). lia.
  - assert (n = 0%N) as -> by lia. exists []. rewrite pretty_N_go_0. by split_and!; [|constructor| |].
Qed.

Lemma parse_sign_none a l :
  a ≠ "+"%char → a ≠ "-"%char →
  match a :: l with
  | ("+" :: l)%char => (false, l)
  | ("-" :: l)%char => (true, l)
  | l => (false, l)
  end = (false, a :: l).
Proof. intros ??. by destruct a as [[] [] [] [] [] [] [] []]. Qed.

Lemma ParseInt_FormatInt n :
  0 ≤ n < 2 ^ 63 → Strconv.ParseInt (Strconv.FormatInt n) = (n, true).
Proof.
  intros H. unfold Strconv.FormatInt.
  destruct (decide (n = 0)) as [->|Hne]; [done|].
  assert (∃ p, n = Z.pos p) as [p ->] by (destruct n; [done|by eexists|lia]).
  change (pretty (Z.pos p)) with (pretty_N_go (N.pos p) "").
  destruct (pretty_go_digits (N.pos p) "") as (l & Hl & Hall & Hnil & Hd).
  unfold Strconv.ParseInt. rewrite Hl, app_nil_r. specialize (Hd []). rewrite app_nil_r in Hd. simpl in Hd.
  destruct l as [|a l]; [by destruct (proj1 Hnil eq_refl)|].
  apply Forall_cons in Hall as [Ha _].
  assert (a ≠ "+"%char ∧ a ≠ "-"%char) as [Hplus Hminus].
  { split; intros ->; by destruct Ha as [? [=]]. }
  rewrite (parse_sign_none a l Hplus Hminus), Hd.
  rewrite (proj2 (Z.leb_gt _ _)) by (simpl; lia). done.
Qed.

(** ** Trimming a line *)

(** A byte that starts and ends no white space. *)
Definition solid (c : ascii) : bool :=
  forallb (λ p, match p with a :: _ => negb (bool_decide (a = c)) | [] => false end)
    (Strings.spaces ++ (reverse <$> Strings.spaces)).

Lemma leadingSpace_solid table c l :
  forallb (λ p, match p with a :: _ => negb (bool_decide (a = c)) | [] => false end) table = true →
  Strings.leadingSpace table (c :: l) = None.
Proof.
  intros H. unfold Strings.leadingSpace. apply fmap_None. induction table as [|p table IH]; simpl in *; [done|].
  apply andb_true_iff in H as [Hp H]. destruct p as [|a p]; [done|]. simpl.
  apply negb_true_iff in Hp. rewrite Hp. simpl. by apply IH.
Qed.

Lemma trimLeft_solid table fuel c l :
  forallb (λ p, match p with a :: _ => negb (bool_decide (a = c)) | [] => false end) table = true →
  Strings.trimLeft table fuel (c :: l) = c :: l.
Proof. intros H. destruct fuel; simpl; [done|]. by rewrite (leadingSpace_solid _ _ _ H). Qed.

(** Trimming takes the line feed off a line that starts and ends with solid
    bytes. *)
Lemma TrimSpace_line c m d :
  solid c = true → solid d = true →
  Strings.TrimSpace (Strings.ofBytes ((c :: m ++ [d]) ++ [ascii_of_nat 10])) = Strings.ofBytes (c :: m ++ [d]).
Proof.
  unfold solid. rewrite !forallb_app, !andb_true_iff. intros [Hc _] [_ Hd]. unfold Strings.TrimSpace.
  unfold Strings.bytes. rewrite String.list_ascii_of_string_of_list_ascii. cbn [app].
  rewrite trimLeft_solid by done. cbv zeta. f_equal.
  rewrite reverse_cons, !reverse_app. cbn [length]. change (reverse [ascii_of_nat 10]) with [ascii_of_nat 10].
  change (reverse [d]) with [d]. cbn [app]. cbn [Strings.trimLeft].
  change (Strings.leadingSpace (reverse <$> Strings.spaces) (ascii_of_nat 10 :: ?l)) with (Some 1%nat).
  cbn [drop]. rewrite trimLeft_solid by done. rewrite reverse_cons, reverse_app, reverse_involutive. done.
Qed.


(** A trimmed string does not change when it is trimmed again. *)
Lemma leadingSpace_length table l n :
  Forall (λ p, p ≠ []) table → Strings.leadingSpace table l = Some n → (0 < n ≤ length l)%nat.
Proof.
  intros Hne H. unfold Strings.leadingSpace in H. apply fmap_Some in H as (p & [Hp Hpre]%firstMatch_Some & ->).
  rewrite Forall_forall in Hne. pose proof (Hne _ Hp) as Hp0. clear Hp. split; [by destruct p; [|simpl; lia]|].
  clear Hp0. revert l Hpre. induction p as [|a p IH]; intros [|b l] H; simpl in *; try done; [lia|].
  apply andb_true_iff in H as [_ H]. apply IH in H. lia.
Qed.

Lemma trimLeft_clean table fuel l :
  Forall (λ p, p ≠ []) table → (length l ≤ fuel)%nat → Strings.leadingSpace table (Strings.trimLeft table fuel l) = None.
Proof.
  intros Hne. revert l. induction fuel as [|fuel IH]; intros l Hl; simpl;
    destruct (Strings.leadingSpace table l) as [n|] eqn:E; try done.
  - pose proof (leadingSpace_length table l n Hne E). lia.
  - pose proof (leadingSpace_length table l n Hne E). apply IH. rewrite length_drop. lia.
Qed.

Lemma trimLeft_id table fuel l : Strings.leadingSpace table l = None → Strings.trimLeft table fuel l = l.
Proof. intros H. destruct fuel; simpl; [done|]. by rewrite H. Qed.

Lemma trimLeft_suffix table fuel l : ∃ k, l = k ++ Strings.trimLeft table fuel l.
Proof.
  revert l. induction fuel as [|fuel IH]; intros l; simpl; [by exists []|].
  destruct (Strings.leadingSpace table l) as [n|]; [|by exists []].
  destruct (IH (drop n l)) as [k Hk]. exists (take n l ++ k). by rewrite <- app_assoc, <- Hk, take_drop.
Qed.

Lemma hasPrefixBytes_app p l k : Strings.hasPrefixBytes p l = true → Strings.hasPrefixBytes p (l ++ k) = true.
Proof.
  revert l. induction p as [|a p IH]; intros [|b l] H; simpl in *; try done.
  apply andb_true_iff in H as [-> H]. by apply IH.
Qed.

Lemma leadingSpace_prefix table l k : Strings.leadingSpace table (l ++ k) = None → Strings.leadingSpace table l = None.
Proof.
  unfold Strings.leadingSpace. rewrite !fmap_None. induction table as [|p table IH]; simpl; [done|]. intros H.
  destruct (Strings.hasPrefixBytes p l) eqn:E; [by rewrite (hasPrefixBytes_app _ _ _ E) in H|].
  apply IH. by destruct (Strings.hasPrefixBytes p (l ++ k)).
Qed.

Lemma spaces_nonempty : Forall (λ p, p ≠ []) Strings.spaces ∧ Forall (λ p, p ≠ []) (reverse <$> Strings.spaces).
Proof. split; by repeat (constructor; [discriminate|]). Qed.

Lemma TrimSpace_idem s : Strings.TrimSpace (Strings.TrimSpace s) = Strings.TrimSpace s.
Proof.
  destruct spaces_nonempty as [Hleft Hright].
  unfold Strings.TrimSpace at 2 3. set (l := Strings.trimLeft Strings.spaces _ (Strings.bytes s)).
  assert (Strings.leadingSpace Strings.spaces l = None) as Hl by (by apply trimLeft_clean).
  set (r := Strings.trimLeft (reverse <$> Strings.spaces) (length l) (reverse l)).
  assert (Strings.leadingSpace (reverse <$> Strings.spaces) r = None) as Hr
    by (apply trimLeft_clean; [done|by rewrite length_reverse]).
  destruct (trimLeft_suffix (reverse <$> Strings.spaces) (length l) (reverse l)) as [k Hk]. fold r in Hk.
  assert (Strings.leadingSpace Strings.spaces (reverse r) = None) as Hrev.
  { apply (leadingSpace_prefix _ _ (reverse k)). by rewrite <- reverse_app, <- Hk, reverse_involutive. }
  unfold Strings.TrimSpace. rewrite bytes_ofBytes, (trimLeft_id _ _ _ Hrev), reverse_involutive. by rewrite trimLeft_id.
Qed.
