(* ===== verification/GoNet.v ===== *)
(** * Package [net]: host:port splitting and IP addresses

    [net.SplitHostPort], [net.JoinHostPort], [net.ParseIP] (for IPv4 and IPv6
    text), [IP.String] and the address-class predicates, as executable
    functions.  An IP is its 16-byte form, a list of 16 octets; an IPv4
    address is the IPv4-mapped one. *)
From S2P Require Import Prelude GoStd.

Local Open Scope Z_scope.

Module Net.
Import Strings.

(** ** host:port *)

Definition colon : ascii := ":".
Definition lbracket : ascii := "[".
Definition rbracket : ascii := "]".

Definition has (c : ascii) (l : list ascii) : bool :=
  match indexByte c l with Some _ => true | None => false end.

Definition SplitHostPort (hostport : string) : option (string * string) :=
  let l := bytes hostport in
  match lastIndexByte colon l with
  | None => None
  | Some i =>
      let port := drop (S i) l in
      match l with
      | c :: _ =>
          if bool_decide (c = lbracket) then
            match indexByte rbracket l with
            | None => None
            | Some e =>
                if bool_decide (S e = length l) then None
                else if bool_decide (S e = i) then
                  if has lbracket (drop 1 l) || has rbracket (drop (S e) l) then None
                  else Some (ofBytes (drop 1 (take e l)), ofBytes port)
                else None
            end
          else if has colon (take i l) then None
          else if has lbracket l || has rbracket l then None
          else Some (ofBytes (take i l), ofBytes port)
      | [] => None
      end
  end.

Definition JoinHostPort (host port : string) : string :=
  if has colon (bytes host) then "[" +:+ host +:+ "]:" +:+ port
  else host +:+ ":" +:+ port.

(** ** IP addresses *)

Abbreviation ip := (list Z).

Fixpoint splitOn (c : ascii) (l : list ascii) : list (list ascii) :=
  match l with
  | [] => [[]]
  | a :: l =>
      if bool_decide (a = c) then [] :: splitOn c l
      else match splitOn c l with
           | f :: fs => (a :: f) :: fs
           | [] => [[a]]
           end
  end.

(** One decimal octet: digits only, no leading zero, at most 255. *)
Definition octet (l : list ascii) : option Z :=
  match l with
  | [] => None
  | c :: rest =>
      if bool_decide (c = ("0" : ascii)%char) && negb (bool_decide (rest = [])) then None
      else match Strconv.digits 0 l with
           | Some n => if n <=? 255 then Some n else None
           | None => None
           end
  end.

Definition ipv4Fields (l : list ascii) : option (list Z) :=
  match splitOn "." l with
  | [a; b; c; d] =>
      match octet a, octet b, octet c, octet d with
      | Some a, Some b, Some c, Some d => Some [a; b; c; d]
      | _, _, _, _ => None
      end
  | _ => None
  end.

Definition mapped (v4 : list Z) : ip := replicate 10 0 ++ [255; 255] ++ v4.

Definition hexDigit (a : ascii) : option Z :=
  let n := Z.of_nat (nat_of_ascii a) in
  if (48 <=? n) && (n <=? 57) then Some (n - 48)
  else if (97 <=? n) && (n <=? 102) then Some (n - 87)
  else if (65 <=? n) && (n <=? 70) then Some (n - 55)
  else None.

(** The leading hexadecimal digits: how many, their value, the rest. *)
Fixpoint hexGroup (n : nat) (acc : Z) (l : list ascii) : nat * Z * list ascii :=
  match l with
  | a :: l' => match hexDigit a with
               | Some d => hexGroup (S n) (16 * acc + d) l'
               | None => (n, acc, l)
               end
  | [] => (n, acc, [])
  end.

(** The loop of the IPv6 parser: [done] are the octets read so far, [ell]
    the position of the ellipsis.  Each turn reads at least two octets and
    at most sixteen are read, so 9 turns are enough. *)
Fixpoint ipv6Loop (fuel : nat) (l : list ascii) (done : list Z) (ell : option nat)
    : option (list Z * option nat) :=
  match fuel with
  | O => None
  | S fuel =>
      if (16 <=? length done)%nat
      then match l with [] => Some (done, ell) | _ => None end
      else
      let '(n, acc, rest) := hexGroup 0 0 l in
      if (n =? 0)%nat || (4 <? n)%nat then None
      else
      match rest with
      | ("." :: _)%char =>
          if (match ell with None => negb (length done =? 12)%nat | _ => false end)
             || (16 <? length done + 4)%nat then None
          else match ipv4Fields l with
               | Some v4 => Some (done ++ v4, ell)
               | None => None
               end
      | [] => Some (done ++ [acc / 256; acc `mod` 256], ell)
      | (":" :: rest)%char =>
          let done := done ++ [acc / 256; acc `mod` 256] in
          match rest with
          | [] => None
          | (":" :: rest)%char =>
              match ell with
              | Some _ => None
              | None =>
                  match rest with
                  | [] => Some (done, Some (length done))
                  | _ => ipv6Loop fuel rest done (Some (length done))
                  end
              end
          | _ => ipv6Loop fuel rest done ell
          end
      | _ => None
      end
  end.

Definition expand (r : list Z * option nat) : option ip :=
  let '(octets, ell) := r in
  if (length octets <? 16)%nat
  then match ell with
       | None => None
       | Some e => Some (take e octets ++ replicate (16 - length octets) 0 ++ drop e octets)
       end
  else match ell with None => Some octets | Some _ => None end.

Definition ipv6 (l : list ascii) : option ip :=
  match l with
  | (":" :: ":" :: [])%char => Some (replicate 16 0)
  | (":" :: ":" :: rest)%char =>
      match ipv6Loop 9 rest [] (Some 0%nat) with Some r => expand r | None => None end
  | _ => match ipv6Loop 9 l [] None with Some r => expand r | None => None end
  end.

(** [net.ParseIP]: the first of the bytes dot, colon and percent decides; a
    zone is refused. *)
Definition ParseIP (s : string) : option ip :=
  let l := bytes s in
  match firstMatch (λ a, bool_decide (a ∈ [("." : ascii); (":" : ascii); ("%" : ascii)]%char)) l with
  | Some "."%char => mapped <$> ipv4Fields l
  | Some ":"%char => if has "%" l then None else ipv6 l
  | _ => None
  end.

(** ** [IP.String] *)

Definition To4 (a : ip) : option (list Z) :=
  if bool_decide (take 12 a = replicate 10 0 ++ [255; 255])
  then Some (drop 12 a) else None.

Definition hexChar (n : Z) : ascii :=
  if n <? 10 then ascii_of_nat (Z.to_nat (48 + n)) else ascii_of_nat (Z.to_nat (87 + n)).

(** A 16-bit group without leading zeros. *)
Definition groupText (g : Z) : list ascii :=
  let ds := [g / 4096; (g / 256) `mod` 16; (g / 16) `mod` 16; g `mod` 16] in
  match ds with
  | [a; b; c; d] =>
      if 0 <? a then hexChar <$> [a; b; c; d]
      else if 0 <? b then hexChar <$> [b; c; d]
      else if 0 <? c then hexChar <$> [c; d]
      else [hexChar d]
  | _ => []
  end.

Fixpoint groups (a : ip) : list Z :=
  match a with
  | x :: y :: a => (256 * x + y) :: groups a
  | _ => []
  end.

Fixpoint zerosPrefix (l : list Z) : nat :=
  match l with
  | g :: l => if g =? 0 then S (zerosPrefix l) else O
  | [] => O
  end.

(** The first longest run of at least two zero groups: (start, length). *)
Definition longestRun (l : list Z) : nat * nat :=
  foldl (λ best i, let n := zerosPrefix (drop i l) in
           if ((2 <=? n) && (best.2 <? n))%nat then (i, n) else best)
    (0, 0)%nat (seq 0 (length l)).

Fixpoint joinColon (l : list (list ascii)) : list ascii :=
  match l with
  | [] => []
  | [g] => g
  | g :: l => g ++ colon :: joinColon l
  end.

Definition String16 (a : ip) : string :=
  match To4 a with
  | Some [b; c; d; e] =>
      pretty b +:+ "." +:+ pretty c +:+ "." +:+ pretty d +:+ "." +:+ pretty e
  | _ =>
      let gs := groups a in
      match longestRun gs with
      | (_, O) => ofBytes (joinColon (groupText <$> gs))
      | (i, n) => ofBytes (joinColon (groupText <$> take i gs) ++ [colon; colon]
                           ++ joinColon (groupText <$> drop (i + n) gs))
      end
  end.

(** ** Address classes *)

Definition IsUnspecified (a : ip) : bool :=
  bool_decide (a = mapped [0; 0; 0; 0]) || bool_decide (a = replicate 16 0).

Definition IsLoopback (a : ip) : bool :=
  match To4 a with
  | Some (b :: _) => b =? 127
  | _ => bool_decide (a = replicate 15 0 ++ [1])
  end.

Definition IsMulticast (a : ip) : bool :=
  match To4 a with
  | Some (b :: _) => Z.land b 240 =? 224
  | _ => match a with b :: _ => b =? 255 | [] => false end
  end.

Definition IsPrivate (a : ip) : bool :=
  match To4 a with
  | Some (b :: c :: _) =>
      (b =? 10) || ((b =? 172) && (Z.land c 240 =? 16)) || ((b =? 192) && (c =? 168))
  | _ => match a with b :: _ => Z.land b 254 =? 252 | [] => false end
  end.
End Net.

Example split_1 : Net.SplitHostPort "127.0.0.1:80" = Some ("127.0.0.1", "80").
Proof. reflexivity. Qed.
Example split_2 : Net.SplitHostPort "[::1]:80" = Some ("::1", "80").
Proof. reflexivity. Qed.
Example split_3 : Net.SplitHostPort "::1:80" = None.
Proof. reflexivity. Qed.
Example split_4 : Net.SplitHostPort ":80" = Some ("", "80").
Proof. reflexivity. Qed.
Example parse_1 : Net.ParseIP "192.168.1.20" = Some (Net.mapped [192; 168; 1; 20]).
Proof. reflexivity. Qed.
Example parse_2 : Net.ParseIP "192.168.01.20" = None.
Proof. reflexivity. Qed.
Example parse_3 : Net.String16 <$> Net.ParseIP "2001:DB8:0:0:1:0:0:1" = Some "2001:db8::1:0:0:1".
Proof. vm_compute. reflexivity. Qed.
Example parse_4 : Net.String16 <$> Net.ParseIP "::ffff:10.0.0.1" = Some "10.0.0.1".
Proof. vm_compute. reflexivity. Qed.
Example parse_5 : Net.String16 <$> Net.ParseIP "::1" = Some "::1".
Proof. vm_compute. reflexivity. Qed.
Example parse_6 : Net.ParseIP "1:2:3:4:5:6:7:8:9" = None.
Proof. vm_compute. reflexivity. Qed.
Example parse_7 : Net.String16 <$> Net.ParseIP "fc00::" = Some "fc00::".
Proof. vm_compute. reflexivity. Qed.
