(* ===== verification/GoCrypto.v ===== *)
(** * Packages [encoding/hex], [encoding/base64], [crypto/sha256], [crypto/subtle]

    Byte slices are strings.  SHA-256 is the FIPS 180-4 function, so the
    secrets and tokens the program compares by digest can be evaluated. *)
From S2P Require Import Prelude GoStd GoNet.

Local Open Scope Z_scope.

Module Hex.
Definition hexPair (a : ascii) : list ascii :=
  let n := Z.of_nat (nat_of_ascii a) in [Net.hexChar (n / 16); Net.hexChar (n `mod` 16)].

Definition EncodeToString (b : string) : string :=
  Strings.ofBytes (concat (hexPair <$> Strings.bytes b)).

Fixpoint decodePairs (l : list ascii) : option (list ascii) :=
  match l with
  | [] => Some []
  | a :: b :: l =>
      match Net.hexDigit a, Net.hexDigit b, decodePairs l with
      | Some h, Some k, Some r => Some (ascii_of_nat (Z.to_nat (16 * h + k)) :: r)
      | _, _, _ => None
      end
  | [_] => None
  end.

Definition DecodeString (s : string) : option string :=
  Strings.ofBytes <$> decodePairs (Strings.bytes s).
End Hex.

Module Base64.
Definition sextet (a : ascii) : option Z :=
  let n := Z.of_nat (nat_of_ascii a) in
  if (65 <=? n) && (n <=? 90) then Some (n - 65)
  else if (97 <=? n) && (n <=? 122) then Some (n - 71)
  else if (48 <=? n) && (n <=? 57) then Some (n + 4)
  else if n =? 43 then Some 62
  else if n =? 47 then Some 63
  else None.

Definition byteOf (n : Z) : ascii := ascii_of_nat (Z.to_nat (n `mod` 256)).

Fixpoint quads (l : list Z) : option (list ascii) :=
  match l with
  | [] => Some []
  | [_] => None
  | [a; b] => Some [byteOf (4 * a + b / 16)]
  | [a; b; c] => Some [byteOf (4 * a + b / 16); byteOf (16 * b + c / 4)]
  | a :: b :: c :: d :: l =>
      match quads l with
      | Some r => Some (byteOf (4 * a + b / 16) :: byteOf (16 * b + c / 4)
                        :: byteOf (64 * c + d) :: r)
      | None => None
      end
  end.

Definition letter (n : Z) : ascii :=
  ascii_of_nat (Z.to_nat (if n <? 26 then n + 65 else if n <? 52 then n + 71
                          else if n <? 62 then n - 4 else if n =? 62 then 43 else 47)).

Fixpoint encodeTriples (l : list Z) : list Z :=
  match l with
  | a :: b :: c :: l => a / 4 :: a `mod` 4 * 16 + b / 16 :: b `mod` 16 * 4 + c / 64 :: c `mod` 64 :: encodeTriples l
  | [a; b] => [a / 4; a `mod` 4 * 16 + b / 16; b `mod` 16 * 4]
  | [a] => [a / 4; a `mod` 4 * 16]
  | [] => []
  end.

(** [base64.RawStdEncoding.EncodeToString]. *)
Definition RawStdEncode (s : string) : string :=
  Strings.ofBytes (letter <$> encodeTriples ((λ a, Z.of_nat (nat_of_ascii a)) <$> Strings.bytes s)).

(** [base64.RawStdEncoding.DecodeString]: unpadded, carriage returns and
    line feeds are skipped, trailing bits are not checked. *)
Definition RawStdDecode (s : string) : option string :=
  let l := filter (λ a, nat_of_ascii a ≠ 10%nat ∧ nat_of_ascii a ≠ 13%nat) (Strings.bytes s) in
  match mapM sextet l with
  | Some ns => Strings.ofBytes <$> quads ns
  | None => None
  end.
End Base64.

Module Sha256.
Definition mask : Z := 2 ^ 32 - 1.
Definition add32 (a b : Z) : Z := Z.land (a + b) mask.
Definition rotr (n x : Z) : Z :=
  Z.lor (Z.shiftr x n) (Z.land (Z.shiftl x (32 - n)) mask).
Definition not32 (x : Z) : Z := Z.lxor x mask.

Definition K : list Z :=
  [1116352408; 1899447441; 3049323471; 3921009573; 961987163; 1508970993; 2453635748; 2870763221;
   3624381080; 310598401; 607225278; 1426881987; 1925078388; 2162078206; 2614888103; 3248222580;
   3835390401; 4022224774; 264347078; 604807628; 770255983; 1249150122; 1555081692; 1996064986;
   2554220882; 2821834349; 2952996808; 3210313671; 3336571891; 3584528711; 113926993; 338241895;
   666307205; 773529912; 1294757372; 1396182291; 1695183700; 1986661051; 2177026350; 2456956037;
   2730485921; 2820302411; 3259730800; 3345764771; 3516065817; 3600352804; 4094571909; 275423344;
   430227734; 506948616; 659060556; 883997877; 958139571; 1322822218; 1537002063; 1747873779;
   1955562222; 2024104815; 2227730452; 2361852424; 2428436474; 2756734187; 3204031479; 3329325298].

Definition H0 : list Z :=
  [1779033703; 3144134277; 1013904242; 2773480762; 1359893119; 2600822924; 528734635; 1541459225].

(** The message schedule, most recent word first. *)
Fixpoint schedule (n : nat) (w : list Z) : list Z :=
  match n with
  | O => w
  | S n =>
      let at_ i := nth i w 0 in
      let w15 := at_ 14%nat in
      let w2 := at_ 1%nat in
      let s0 := Z.lxor (Z.lxor (rotr 7 w15) (rotr 18 w15)) (Z.shiftr w15 3) in
      let s1 := Z.lxor (Z.lxor (rotr 17 w2) (rotr 19 w2)) (Z.shiftr w2 10) in
      schedule n (add32 (add32 (at_ 15%nat) s0) (add32 (at_ 6%nat) s1) :: w)
  end.

Definition round (st : list Z) (kw : Z * Z) : list Z :=
  match st with
  | [a; b; c; d; e; f; g; h] =>
      let s1 := Z.lxor (Z.lxor (rotr 6 e) (rotr 11 e)) (rotr 25 e) in
      let ch := Z.lxor (Z.land e f) (Z.land (not32 e) g) in
      let t1 := add32 (add32 (add32 h s1) (add32 ch kw.1)) kw.2 in
      let s0 := Z.lxor (Z.lxor (rotr 2 a) (rotr 13 a)) (rotr 22 a) in
      let mj := Z.lxor (Z.lxor (Z.land a b) (Z.land a c)) (Z.land b c) in
      [add32 t1 (add32 s0 mj); a; b; c; add32 d t1; e; f; g]
  | _ => st
  end.

Fixpoint words (l : list Z) : list Z :=
  match l with
  | a :: b :: c :: d :: l => (16777216 * a + 65536 * b + 256 * c + d) :: words l
  | _ => []
  end.

Definition compress (h : list Z) (block : list Z) : list Z :=
  let w := reverse (schedule 48 (reverse (words block))) in
  zip_with add32 h (foldl round h (zip K w)).

Fixpoint blocks (fuel : nat) (h l : list Z) : list Z :=
  match fuel, l with
  | S fuel, _ :: _ => blocks fuel (compress h (take 64 l)) (drop 64 l)
  | _, _ => h
  end.

Definition be (n : nat) (z : Z) : list Z :=
  reverse ((λ i, Z.shiftr z (8 * Z.of_nat i) `mod` 256) <$> seq 0 n).

Definition pad (l : list Z) : list Z :=
  let n := Z.of_nat (length l) in
  l ++ 128 :: replicate (Z.to_nat ((55 - n) `mod` 64)) 0 ++ be 8 (8 * n).

(** [sha256.Sum256]: 32 bytes.  The padded message has one block per 64
    bytes, so its length is enough fuel. *)
Definition Sum256 (s : string) : string :=
  let l := (λ a, Z.of_nat (nat_of_ascii a)) <$> Strings.bytes s in
  let p := pad l in
  Strings.ofBytes ((λ n, ascii_of_nat (Z.to_nat n)) <$>
                   concat (be 4 <$> blocks (length p) H0 p)).

Definition Size : nat := 32.
End Sha256.

(** [subtle.ConstantTimeCompare]: 1 exactly when the slices are equal. *)
Definition ConstantTimeCompare (x y : string) : Z := if bool_decide (x = y) then 1 else 0.

(** [ed25519.PublicKeySize] and [ed25519.PrivateKeySize]. *)
Definition PublicKeySize : nat := 32.
Definition PrivateKeySize : nat := 64.

Lemma ConstantTimeCompare_1 x y : ConstantTimeCompare x y = 1 ↔ x = y.
Proof. unfold ConstantTimeCompare. case_bool_decide; naive_solver. Qed.

Example sha_abc : Hex.EncodeToString (Sha256.Sum256 "abc") =
  "ba7816bf8f01cfea414140de5dae2223b00361a396177a9cb410ff61f20015ad".
Proof. vm_compute. reflexivity. Qed.
Example sha_empty : Hex.EncodeToString (Sha256.Sum256 "") =
  "e3b0c44298fc1c149afbf4c8996fb92427ae41e4649b934ca495991b7852b855".
Proof. vm_compute. reflexivity. Qed.
Example sha_two_blocks : Hex.EncodeToString (Sha256.Sum256
    "abcdbcdecdefdefgefghfghighijhijkijkljklmklmnlmnomnopnopq") =
  "248d6a61d20638b8e5c026930c3e6039a33ce45964ff2167f6ecedd419db06c1".
Proof. vm_compute. reflexivity. Qed.
Example base64_1 : Base64.RawStdDecode "aGVsbG8" = Some "hello".
Proof. vm_compute. reflexivity. Qed.

(** ** Hexadecimal text *)

Lemma hexPair_decode a :
  match Hex.hexPair a with
  | [x; y] => match Net.hexDigit x, Net.hexDigit y with
              | Some h, Some k => ascii_of_nat (Z.to_nat (16 * h + k)) = a
              | _, _ => False
              end
  | _ => False
  end.
Proof. destruct a as [[] [] [] [] [] [] [] []]; vm_compute; done. Qed.

Lemma hex_decode_encode s : Hex.DecodeString (Hex.EncodeToString s) = Some s.
Proof.
  unfold Hex.DecodeString, Hex.EncodeToString. rewrite bytes_ofBytes.
  assert (∀ l, Hex.decodePairs (concat (Hex.hexPair <$> l)) = Some l) as ->.
  { induction l as [|a l IH]; [done|]. rewrite fmap_cons. 
    change (concat (Hex.hexPair a :: (Hex.hexPair <$> l))) with (Hex.hexPair a ++ concat (Hex.hexPair <$> l)).
    pose proof (hexPair_decode a) as Ha. destruct (Hex.hexPair a) as [|x [|y [|]]]; try done.
    change (Hex.decodePairs ([x; y] ++ concat (Hex.hexPair <$> l)))
      with (match Net.hexDigit x, Net.hexDigit y, Hex.decodePairs (concat (Hex.hexPair <$> l)) with
            | Some h, Some k, Some r => Some (ascii_of_nat (Z.to_nat (16 * h + k)) :: r)
            | _, _, _ => None
            end).
    rewrite IH. destruct (Net.hexDigit x), (Net.hexDigit y); try done. by rewrite Ha. }
  simpl. by rewrite ofBytes_bytes.
Qed.

Lemma hex_inj s t : Hex.EncodeToString s = Hex.EncodeToString t → s = t.
Proof.
  intros H. apply (f_equal Hex.DecodeString) in H. rewrite !hex_decode_encode in H. congruence.
Qed.

(** ** Base64 text *)

Example base64_2 : Base64.RawStdEncode "hello" = "aGVsbG8".
Proof. vm_compute. reflexivity. Qed.

Lemma base64_letter n :
  0 ≤ n < 64 →
  Base64.sextet (Base64.letter n) = Some n
  ∧ nat_of_ascii (Base64.letter n) ≠ 10%nat ∧ nat_of_ascii (Base64.letter n) ≠ 13%nat.
Proof.
  intros H.
  assert (forallb (λ n, bool_decide (Base64.sextet (Base64.letter n) = Some n)
                        && negb (nat_of_ascii (Base64.letter n) =? 10)%nat
                        && negb (nat_of_ascii (Base64.letter n) =? 13)%nat) (seqZ 0 64) = true) as Hall
    by (vm_compute; reflexivity).
  rewrite forallb_forall in Hall. specialize (Hall n). rewrite <- list_elem_of_In, elem_of_seqZ in Hall.
  specialize (Hall ltac:(lia)). bool_simpl.
  by rewrite !Nat.eqb_neq in *.
Qed.

Lemma list_ind3 {A} (P : list A → Prop) :
  P [] → (∀ a, P [a]) → (∀ a b, P [a; b]) → (∀ a b c l, P l → P (a :: b :: c :: l)) → ∀ l, P l.
Proof.
  intros H0 H1 H2 H3. fix IH 1. intros [|a [|b [|c l]]]; [done|apply H1|apply H2|apply H3, IH].
Qed.

Lemma byteOf_of a z :
  z `mod` 256 = Z.of_nat (nat_of_ascii a) → Base64.byteOf z = a.
Proof. intros H. unfold Base64.byteOf. by rewrite H, Nat2Z.id, Stdlib.Strings.Ascii.ascii_nat_embedding. Qed.

Lemma byte_range a : 0 ≤ Z.of_nat (nat_of_ascii a) < 256.
Proof. pose proof (Stdlib.Strings.Ascii.nat_ascii_bounded a). lia. Qed.

Lemma encodeTriples_range l :
  Forall (λ n, 0 ≤ n < 256) l → Forall (λ n, 0 ≤ n < 64) (Base64.encodeTriples l).
Proof.
  induction l as [| | |a b c l IH] using list_ind3; intros H; simpl;
    repeat match goal with H : Forall _ (_ :: _) |- _ => apply Forall_cons in H as [??] end;
    repeat constructor; try (Z.to_euclidean_division_equations; lia). by apply IH.
Qed.

Lemma quads_encode l :
  Base64.quads (Base64.encodeTriples ((λ a, Z.of_nat (nat_of_ascii a)) <$> l)) = Some l.
Proof.
  induction l as [|a|a b|a b c l IH] using list_ind3.
  - done.
  - pose proof (byte_range a). simpl. do 2 f_equal. apply byteOf_of.
    Z.to_euclidean_division_equations. lia.
  - pose proof (byte_range a). pose proof (byte_range b). simpl.
    do 3 f_equal; [|f_equal]; apply byteOf_of; Z.to_euclidean_division_equations; lia.
  - pose proof (byte_range a). pose proof (byte_range b). pose proof (byte_range c).
    rewrite !fmap_cons. cbn [Base64.encodeTriples Base64.quads]. rewrite IH.
    do 2 f_equal; [|f_equal; [|f_equal]]; apply byteOf_of; Z.to_euclidean_division_equations; lia.
Qed.

Lemma base64_decode_encode s : Base64.RawStdDecode (Base64.RawStdEncode s) = Some s.
Proof.
  unfold Base64.RawStdDecode, Base64.RawStdEncode. rewrite bytes_ofBytes.
  pose proof (encodeTriples_range ((λ a, Z.of_nat (nat_of_ascii a)) <$> Strings.bytes s)) as Hr.
  pose proof (quads_encode (Strings.bytes s)) as Hq.
  revert Hr Hq. generalize (Base64.encodeTriples ((λ a, Z.of_nat (nat_of_ascii a)) <$> Strings.bytes s)).
  intros l Hr Hq. specialize (Hr ltac:(apply Forall_fmap, Forall_true; intros a; apply byte_range)).
  assert (filter (λ a, nat_of_ascii a ≠ 10%nat ∧ nat_of_ascii a ≠ 13%nat) (Base64.letter <$> l) = Base64.letter <$> l) as ->.
  { clear Hq. induction Hr as [|n l Hn _ IH]; [done|]. rewrite fmap_cons, filter_cons_True, IH; [done|].
    by apply base64_letter. }
  assert (mapM Base64.sextet (Base64.letter <$> l) = Some l) as ->.
  { clear Hq. apply mapM_Some. induction Hr as [|n l Hn _ IH]; constructor; [|done]. by apply base64_letter. }
  rewrite Hq. simpl. by rewrite ofBytes_bytes.
Qed.

Lemma base64_inj s t : Base64.RawStdEncode s = Base64.RawStdEncode t → s = t.
Proof. intros H. apply (f_equal Base64.RawStdDecode) in H. rewrite !base64_decode_encode in H. congruence. Qed.

(** ** Lengths *)

Definition isHex (a : ascii) : bool := bool_decide (is_Some (Net.hexDigit a)).

Lemma decodePairs_spec l n :
  (∃ r, Hex.decodePairs l = Some r ∧ length r = n) ↔ forallb isHex l = true ∧ length l = (2 * n)%nat.
Proof.
  revert l. induction n as [|n IH]; intros l.
  - destruct l as [|a [|b l]]; simpl.
    + split; [done|]. intros _. by exists [].
    + split; [by intros (? & ? & ?)|by intros []].
    + split; [|by intros []]. intros (r & Hr & Hlen). destruct r; [|done].
      destruct (Net.hexDigit a), (Net.hexDigit b), (Hex.decodePairs l); discriminate.
  - destruct l as [|a [|b l]]; simpl.
    + split; [|lia]. intros (r & [= <-] & ?). done.
    + split; [by intros (? & ? & ?)|lia].
    + unfold isHex at 1 2. specialize (IH l). destruct (Net.hexDigit a), (Net.hexDigit b); simpl;
        [|split; [by intros (? & ? & ?)|by intros []]..].
      split.
      * intros (r & Hr & Hlen). destruct (Hex.decodePairs l) as [r'|]; [|done]. injection Hr as <-.
        destruct IH as [IH _]. destruct IH as [? ?]; [exists r'; by injection Hlen|]. split; [done|lia].
      * intros [Hall Hlen]. destruct IH as [_ IH]. destruct IH as (r & -> & ?); [split; [done|lia]|].
        eexists. split; [done|]. simpl. lia.
Qed.

Lemma hex_decode_spec s n :
  (∃ b, Hex.DecodeString s = Some b ∧ String.length b = n)
  ↔ forallb isHex (Strings.bytes s) = true ∧ String.length s = (2 * n)%nat.
Proof.
  rewrite <- bytes_length, <- decodePairs_spec. unfold Hex.DecodeString. split.
  - intros (b & Hb & Hlen). destruct (Hex.decodePairs _) as [r|]; [|done]. injection Hb as <-.
    exists r. split; [done|]. by rewrite <- bytes_length, bytes_ofBytes in Hlen.
  - intros (r & -> & Hlen). exists (Strings.ofBytes r). split; [done|].
    by rewrite <- bytes_length, bytes_ofBytes.
Qed.

Lemma round_length st kw : length st = 8%nat → length (Sha256.round st kw) = 8%nat.
Proof. by destruct st as [|? [|? [|? [|? [|? [|? [|? [|? [|]]]]]]]]]. Qed.

Lemma compress_length h block : length h = 8%nat → length (Sha256.compress h block) = 8%nat.
Proof.
  intros Hh. unfold Sha256.compress. rewrite length_zip_with, Hh.
  cut (length (foldl Sha256.round h (zip Sha256.K (reverse (Sha256.schedule 48 (reverse (Sha256.words block)))))) = 8%nat);
    [by intros ->|].
  generalize (zip Sha256.K (reverse (Sha256.schedule 48 (reverse (Sha256.words block))))).
  intros l. revert h Hh. induction l as [|x l IH]; intros h Hh; [done|]. simpl. by apply IH, round_length.
Qed.

Lemma blocks_length f h l : length h = 8%nat → length (Sha256.blocks f h l) = 8%nat.
Proof.
  revert h l. induction f as [|f IH]; intros h l Hh; simpl; [by destruct l|].
  destruct l; [done|]. by apply IH, compress_length.
Qed.

Lemma sha256_length s : String.length (Sha256.Sum256 s) = Sha256.Size.
Proof.
  unfold Sha256.Sum256. rewrite <- bytes_length, bytes_ofBytes, length_fmap.
  match goal with |- context [Sha256.blocks ?f Sha256.H0 ?l] =>
    assert (length (Sha256.blocks f Sha256.H0 l) = 8%nat) as Hb end.
  { apply blocks_length. reflexivity. }
  revert Hb. generalize (Sha256.blocks (length (Sha256.pad ((λ a, Z.of_nat (nat_of_ascii a)) <$> Strings.bytes s)))
    Sha256.H0 (Sha256.pad ((λ a, Z.of_nat (nat_of_ascii a)) <$> Strings.bytes s))).
  intros l Hl. by destruct l as [|? [|? [|? [|? [|? [|? [|? [|? [|]]]]]]]]].
Qed.

Lemma hexPair_hex a : forallb isHex (Hex.hexPair a) = true.
Proof. by destruct a as [[] [] [] [] [] [] [] []]. Qed.

Lemma hex_encode_hex s :
  forallb isHex (Strings.bytes (Hex.EncodeToString s)) = true
  ∧ String.length (Hex.EncodeToString s) = (2 * String.length s)%nat.
Proof. apply hex_decode_spec. exists s. by rewrite hex_decode_encode. Qed.

Lemma hex_nonempty s : s ≠ "" → Hex.EncodeToString s ≠ "".
Proof. intros Hs He. apply Hs, hex_inj. by rewrite He. Qed.

Lemma base64_nonempty s : s ≠ "" → Base64.RawStdEncode s ≠ "".
Proof. intros Hs He. apply Hs, base64_inj. by rewrite He. Qed.
