(* ===== verification/GoPath.v ===== *)
(** * Package [path/filepath] on Unix

    The lexical functions the program builds its file names with. *)
From S2P Require Import Prelude GoStd GoNet.

Module Filepath.
Import Strings.

Definition slash : ascii := "/".

(** One element of the path in [filepath.Clean], on the elements kept so far
    (last first). *)
Definition cleanElement (rooted : bool) (kept : list (list ascii)) (e : list ascii) : list (list ascii) :=
  if bool_decide (e = [] ∨ e = bytes ".") then kept
  else if bool_decide (e = bytes "..") then
    match kept with
    | [] => if rooted then [] else [e]
    | top :: rest => if bool_decide (top = e) then e :: kept else rest
    end
  else e :: kept.

Fixpoint joinSlash (l : list (list ascii)) : list ascii :=
  match l with
  | [] => []
  | [e] => e
  | e :: l => e ++ slash :: joinSlash l
  end.

Definition Clean (path : string) : string :=
  let l := bytes path in
  let rooted := match l with c :: _ => bool_decide (c = slash) | [] => false end in
  let kept := reverse (foldl (cleanElement rooted) [] (Net.splitOn slash l)) in
  match rooted, kept with
  | true, _ => ofBytes (slash :: joinSlash kept)
  | false, [] => "."
  | false, _ => ofBytes (joinSlash kept)
  end.

(** [filepath.Join]: empty elements are ignored. *)
Definition Join (elements : list string) : string :=
  match filter (λ e, e ≠ ""%string) elements with
  | [] => ""
  | l => Clean (ofBytes (joinSlash (bytes <$> l)))
  end.

Definition Dir (path : string) : string :=
  let l := bytes path in
  match lastIndexByte slash l with
  | Some i => Clean (ofBytes (take (S i) l))
  | None => Clean ""
  end.

(** [filepath.Abs], in a working directory. *)
Definition Abs (workingDirectory path : string) : string :=
  if Strings.HasPrefix path "/" then Clean path else Join [workingDirectory; path].
End Filepath.

Example clean_1 : Filepath.Clean "/a/./b//../c/" = "/a/c".
Proof. vm_compute. reflexivity. Qed.
Example clean_2 : Filepath.Clean "/../a" = "/a".
Proof. vm_compute. reflexivity. Qed.
Example clean_3 : Filepath.Clean "../../a/.." = "../..".
Proof. vm_compute. reflexivity. Qed.
Example join_1 : Filepath.Join ["/cfg"; "nodes"; "n1"; "profile.json"] = "/cfg/nodes/n1/profile.json".
Proof. vm_compute. reflexivity. Qed.
Example dir_1 : Filepath.Dir "/cfg/nodes/n1/profile.json" = "/cfg/nodes/n1".
Proof. vm_compute. reflexivity. Qed.
Example dir_2 : Filepath.Dir "/profile.json" = "/".
Proof. vm_compute. reflexivity. Qed.
Example dir_3 : Filepath.Dir "profile.json" = ".".
Proof. vm_compute. reflexivity. Qed.

Lemma clean_ne path : Filepath.Clean path ≠ "".
Proof.
  unfold Filepath.Clean. set (rooted := match Strings.bytes path with c :: _ => _ | [] => _ end).
  set (kept := foldl _ _ _).
  assert (Forall (λ e, e ≠ []) kept) as Hk.
  { unfold kept. generalize (Net.splitOn Filepath.slash (Strings.bytes path)). intros l.
    assert (Forall (λ e : list ascii, e ≠ []) []) as H0 by constructor. revert H0.
    generalize (@nil (list ascii)). induction l as [|e l IH]; intros acc Hacc; [done|]. simpl. apply IH.
    unfold Filepath.cleanElement. case_bool_decide as H1; [done|]. case_bool_decide as H2.
    - destruct acc as [|top rest]; [destruct rooted; [done|constructor; [|done]]; by subst|].
      apply Forall_cons in Hacc as [??]. case_bool_decide; [|done]. subst. by repeat constructor.
    - constructor; [|done]. naive_solver. }
  apply Forall_reverse in Hk. clearbody kept. destruct (reverse kept) as [|e l].
  - by destruct rooted.
  - apply Forall_cons in Hk as [He _]. destruct rooted; [done|].
    destruct e as [|a e]; [done|]. by destruct l.
Qed.

(** A name joined to a directory is never empty. *)
Lemma join_dir_ne path name : Filepath.Join [Filepath.Dir path; name] ≠ "".
Proof.
  assert (Filepath.Dir path ≠ "") as Hd.
  { unfold Filepath.Dir. destruct (Strings.lastIndexByte _ _); apply clean_ne. }
  unfold Filepath.Join. rewrite filter_cons_True by done. apply clean_ne.
Qed.
