(* ===== verification/Types.v ===== *)
(** * The coordinator's data

    The records of coordinator_types.go and connection_types.go, field by
    field.  Go fields of different structs share names, so each record's
    fields carry a two-letter prefix; the fields of [coordinatorState] and
    [registry] keep their names.  A Go [map[string]T] that is never nil after
    construction is a [gmap string T]; a [time.Time] is a [Z] (see GoStd); a
    nil pointer is [None]; an [int] is a [Z]. *)
From S2P Require Import Prelude GoStd.

Local Open Scope Z_scope.

(** ** Constants (coordinator_types.go, connection_types.go) *)

Definition handshakeLifetime : Z := 10 * Time.minute.
Definition maxPendingHandshakes : Z := 1024.
Definition maxPendingPerSource : Z := 10.
Definition maxHandshakeHistory : Z := 10000.
Definition maxAuditEvents : Z := 10000.
Definition deviceCodeAttempts : nat := 32.
Definition publicRequestsPerMinute : Z := 120.
Definition adminRequestsPerMinute : Z := 120.
Definition directCandidateLease : Z := 90 * Time.second.
Definition maxDirectCandidates : Z := 16.
Definition maxEnrollmentReason : Z := 512.

Definition connectionRequestLifetime : Z := 2 * Time.minute.
Definition connectionOfferLease : Z := 15 * Time.second.
Definition connectionWaitMaximum : Z := 25 * Time.second.
Definition maxConnectionRequests : Z := 10000.
Definition maxConnectionsPerTarget : Z := 128.
Definition maxInboxEvents : Z := 32.
Definition maxConnectionReason : Z := 512.

(** ** Discovery data *)

Record directCandidate := mkDirectCandidate {
  dc_Address : string;
  dc_ExpiresAt : Z;
}.

Record publishedService := mkPublishedService {
  ps_NodeID : string;
  ps_Name : string;
  ps_Segment : string;
  ps_DirectCandidates : list directCandidate;
  ps_UUID : string;
  ps_PinnedSHA256 : string;
}.

Record relayAdvertisement := mkRelayAdvertisement {
  ra_Endpoint : string;
  ra_PinnedSHA256 : string;
  ra_Priority : Z;
}.

Record discoveredNode := mkDiscoveredNode {
  dn_ID : string;
  dn_Name : string;
  dn_Role : string;
  dn_Segment : string;
  dn_VirtualNetwork : string;
  dn_IdentityKey : string;
  dn_Services : list publishedService;
  dn_Relay : option relayAdvertisement;
  dn_UpstreamRelay : string;
  dn_LastSeen : Z;
}.

Record discoveryRequest := mkDiscoveryRequest {
  dq_Node : discoveredNode;
  dq_PublicKey : string;
}.

Record discoveryResponse := mkDiscoveryResponse {
  dr_Revision : Z;
  dr_Changed : bool;
  dr_Nodes : list discoveredNode;
}.

Record heartbeatResponse := mkHeartbeatResponse {
  hr_Revision : Z;
  hr_ServerTime : Z;
}.

Record discoverySyncRequest := mkDiscoverySyncRequest { sy_AfterRevision : Z }.

(** ** Enrollment data *)

Record nodeCredential := mkNodeCredential { nc_PublicKey : string; nc_PrivateKey : string }.

Record enrollmentState := mkEnrollmentState {
  es_RequestID : string;
  es_Secret : string;
  es_DeviceCode : string;
  es_ExpiresAt : Z;
  es_Status : string;
  es_Credential : option nodeCredential;
}.

Record pendingHandshake := mkPendingHandshake {
  ph_RequestID : string;
  ph_SecretHash : string;
  ph_DeviceCode : string;
  ph_Node : discoveredNode;
  ph_PublicKey : string;
  ph_Source : string;
  ph_ExpiresAt : Z;
  ph_Approved : bool;
  ph_Rejected : bool;
}.

Record authorizedNode := mkAuthorizedNode { an_PublicKey : string }.

Record handshakeHistory := mkHandshakeHistory {
  hh_RequestID : string;
  hh_DeviceCode : string;
  hh_Node : discoveredNode;
  hh_StatusCode : Z;
  hh_Reason : string;
  hh_CreatedAt : Z;
  hh_ExpiresAt : Z;
  hh_HandledAt : Z;
}.

Record auditEvent := mkAuditEvent {
  ae_Time : Z;
  ae_Action : string;
  ae_NodeID : string;
  ae_NodeName : string;
  ae_RequestID : string;
  ae_Source : string;
}.

Record pollRequest := mkPollRequest { pq_RequestID : string; pq_Secret : string }.

Record pollResponse := mkPollResponse {
  pr_Status : string;
  pr_ExpiresAt : Z;
  pr_Reason : string;
}.

Record approveRequest := mkApproveRequest {
  aq_DeviceCode : string;
  aq_Replace : bool;
  aq_Reason : string;
}.

Record revokeRequest := mkRevokeRequest { rq_NodeID : string }.

(** ** Connection control data *)

Record connectionRequest := mkConnectionRequest {
  cr_ID : string;
  cr_IdempotencyKey : string;
  cr_SourceNode : string;
  cr_TargetNode : string;
  cr_Service : string;
  cr_ReturnRelay : string;
  cr_State : string;
  cr_StatusCode : Z;
  cr_Reason : string;
  cr_Cursor : Z;
  cr_CreatedAt : Z;
  cr_UpdatedAt : Z;
  cr_ExpiresAt : Z;
  cr_OfferLeaseEnds : Z;
}.

Record createConnectionInput := mkCreateConnectionInput {
  ci_IdempotencyKey : string;
  ci_TargetNode : string;
  ci_Service : string;
  ci_ReturnRelay : string;
}.

Record connectionIDInput := mkConnectionIDInput { ii_RequestID : string; ii_Reason : string }.

Record inboxWaitInput := mkInboxWaitInput {
  iw_AfterCursor : Z;
  iw_WaitSeconds : Z;
  iw_MaxEvents : Z;
}.

Record inboxWaitResponse := mkInboxWaitResponse {
  ir_Cursor : Z;
  ir_Events : list connectionRequest;
}.

Record inboxAckInput := mkInboxAckInput { ia_Cursor : Z }.

Record connectionStatusWaitInput := mkConnectionStatusWaitInput {
  sw_RequestID : string;
  sw_KnownState : string;
  sw_WaitSeconds : Z;
}.

(** ** Coordinator state *)

Record coordinatorState := mkCoordinatorState {
  Pending : gmap string pendingHandshake;
  History : gmap string handshakeHistory;
  Authorized : gmap string authorizedNode;
  Nodes : gmap string discoveredNode;
  Revision : Z;
  Connections : gmap string connectionRequest;
  ConnectionIdempotency : gmap string string;
  ConnectionCursors : gmap string Z;
  ConnectionAcks : gmap string Z;
  Audit : list auditEvent;
}.

Record rateWindow := mkRateWindow { rw_Started : Z; rw_Count : Z }.

(** A Go channel is a reference into the runtime's channel heap. *)
Abbreviation chan := nat (only parsing).

Record registry := mkRegistry {
  adminToken : string;
  network : string;
  state : coordinatorState;
  nonces : gmap string Z;
  rates : gmap string rateWindow;
  connectionSignals : gmap string chan;
  requestSignals : gmap string chan;
  inboxWaiters : gmap string bool;
  connectionWait : Z;
  connectionTTL : Z;
  connectionLease : Z;
  connectionMax : Z;
}.

(** ** Zero values, which a Go map lookup yields for a missing key *)

Definition zeroNode : discoveredNode :=
  mkDiscoveredNode "" "" "" "" "" "" [] None "" Time.zero.
Definition zeroHistory : handshakeHistory :=
  mkHandshakeHistory "" "" zeroNode 0 "" Time.zero Time.zero Time.zero.
Definition zeroRateWindow : rateWindow := mkRateWindow Time.zero 0.
Definition emptyState : coordinatorState :=
  mkCoordinatorState ∅ ∅ ∅ ∅ 0 ∅ ∅ ∅ ∅ [].

(** ** Field updates *)

Definition setPending f s := mkCoordinatorState (f (Pending s)) (History s) (Authorized s) (Nodes s)
  (Revision s) (Connections s) (ConnectionIdempotency s) (ConnectionCursors s) (ConnectionAcks s) (Audit s).
Definition setHistory f s := mkCoordinatorState (Pending s) (f (History s)) (Authorized s) (Nodes s)
  (Revision s) (Connections s) (ConnectionIdempotency s) (ConnectionCursors s) (ConnectionAcks s) (Audit s).
Definition setAuthorized f s := mkCoordinatorState (Pending s) (History s) (f (Authorized s)) (Nodes s)
  (Revision s) (Connections s) (ConnectionIdempotency s) (ConnectionCursors s) (ConnectionAcks s) (Audit s).
Definition setNodes f s := mkCoordinatorState (Pending s) (History s) (Authorized s) (f (Nodes s))
  (Revision s) (Connections s) (ConnectionIdempotency s) (ConnectionCursors s) (ConnectionAcks s) (Audit s).
Definition setRevision f s := mkCoordinatorState (Pending s) (History s) (Authorized s) (Nodes s)
  (f (Revision s)) (Connections s) (ConnectionIdempotency s) (ConnectionCursors s) (ConnectionAcks s) (Audit s).
Definition setConnections f s := mkCoordinatorState (Pending s) (History s) (Authorized s) (Nodes s)
  (Revision s) (f (Connections s)) (ConnectionIdempotency s) (ConnectionCursors s) (ConnectionAcks s) (Audit s).
Definition setIdempotency f s := mkCoordinatorState (Pending s) (History s) (Authorized s) (Nodes s)
  (Revision s) (Connections s) (f (ConnectionIdempotency s)) (ConnectionCursors s) (ConnectionAcks s) (Audit s).
Definition setCursors f s := mkCoordinatorState (Pending s) (History s) (Authorized s) (Nodes s)
  (Revision s) (Connections s) (ConnectionIdempotency s) (f (ConnectionCursors s)) (ConnectionAcks s) (Audit s).
Definition setAcks f s := mkCoordinatorState (Pending s) (History s) (Authorized s) (Nodes s)
  (Revision s) (Connections s) (ConnectionIdempotency s) (ConnectionCursors s) (f (ConnectionAcks s)) (Audit s).
Definition setAudit f s := mkCoordinatorState (Pending s) (History s) (Authorized s) (Nodes s)
  (Revision s) (Connections s) (ConnectionIdempotency s) (ConnectionCursors s) (ConnectionAcks s) (f (Audit s)).

Definition setState f r := mkRegistry (adminToken r) (network r) (f (state r)) (nonces r) (rates r)
  (connectionSignals r) (requestSignals r) (inboxWaiters r) (connectionWait r) (connectionTTL r)
  (connectionLease r) (connectionMax r).
Definition setNonces f r := mkRegistry (adminToken r) (network r) (state r) (f (nonces r)) (rates r)
  (connectionSignals r) (requestSignals r) (inboxWaiters r) (connectionWait r) (connectionTTL r)
  (connectionLease r) (connectionMax r).
Definition setRates f r := mkRegistry (adminToken r) (network r) (state r) (nonces r) (f (rates r))
  (connectionSignals r) (requestSignals r) (inboxWaiters r) (connectionWait r) (connectionTTL r)
  (connectionLease r) (connectionMax r).
Definition setConnectionSignals f r := mkRegistry (adminToken r) (network r) (state r) (nonces r) (rates r)
  (f (connectionSignals r)) (requestSignals r) (inboxWaiters r) (connectionWait r) (connectionTTL r)
  (connectionLease r) (connectionMax r).
Definition setRequestSignals f r := mkRegistry (adminToken r) (network r) (state r) (nonces r) (rates r)
  (connectionSignals r) (f (requestSignals r)) (inboxWaiters r) (connectionWait r) (connectionTTL r)
  (connectionLease r) (connectionMax r).
Definition setInboxWaiters f r := mkRegistry (adminToken r) (network r) (state r) (nonces r) (rates r)
  (connectionSignals r) (requestSignals r) (f (inboxWaiters r)) (connectionWait r) (connectionTTL r)
  (connectionLease r) (connectionMax r).

Definition setServices f n := mkDiscoveredNode (dn_ID n) (dn_Name n) (dn_Role n) (dn_Segment n)
  (dn_VirtualNetwork n) (dn_IdentityKey n) (f (dn_Services n)) (dn_Relay n) (dn_UpstreamRelay n) (dn_LastSeen n).
Definition setIdentityKey k n := mkDiscoveredNode (dn_ID n) (dn_Name n) (dn_Role n) (dn_Segment n)
  (dn_VirtualNetwork n) k (dn_Services n) (dn_Relay n) (dn_UpstreamRelay n) (dn_LastSeen n).
Definition setRelay r n := mkDiscoveredNode (dn_ID n) (dn_Name n) (dn_Role n) (dn_Segment n)
  (dn_VirtualNetwork n) (dn_IdentityKey n) (dn_Services n) r (dn_UpstreamRelay n) (dn_LastSeen n).
Definition setUpstreamRelay u n := mkDiscoveredNode (dn_ID n) (dn_Name n) (dn_Role n) (dn_Segment n)
  (dn_VirtualNetwork n) (dn_IdentityKey n) (dn_Services n) (dn_Relay n) u (dn_LastSeen n).
Definition setLastSeen t n := mkDiscoveredNode (dn_ID n) (dn_Name n) (dn_Role n) (dn_Segment n)
  (dn_VirtualNetwork n) (dn_IdentityKey n) (dn_Services n) (dn_Relay n) (dn_UpstreamRelay n) t.

Definition setDirectCandidates l s := mkPublishedService (ps_NodeID s) (ps_Name s) (ps_Segment s) l
  (ps_UUID s) (ps_PinnedSHA256 s).

(** [history.StatusCode, history.HandledAt = code, at]. *)
Definition handleHistory code at_ h := mkHandshakeHistory (hh_RequestID h) (hh_DeviceCode h) (hh_Node h)
  code (hh_Reason h) (hh_CreatedAt h) (hh_ExpiresAt h) at_.
Definition setReason reason h := mkHandshakeHistory (hh_RequestID h) (hh_DeviceCode h) (hh_Node h)
  (hh_StatusCode h) reason (hh_CreatedAt h) (hh_ExpiresAt h) (hh_HandledAt h).

Definition setApproved b p := mkPendingHandshake (ph_RequestID p) (ph_SecretHash p) (ph_DeviceCode p)
  (ph_Node p) (ph_PublicKey p) (ph_Source p) (ph_ExpiresAt p) b (ph_Rejected p).
Definition setRejected b p := mkPendingHandshake (ph_RequestID p) (ph_SecretHash p) (ph_DeviceCode p)
  (ph_Node p) (ph_PublicKey p) (ph_Source p) (ph_ExpiresAt p) (ph_Approved p) b.

(** The fields the connection state machine assigns:
    [State, StatusCode, Reason, Cursor, UpdatedAt, OfferLeaseEnds]. *)
Definition moveConnection c st code reason cursor at_ lease :=
  mkConnectionRequest (cr_ID c) (cr_IdempotencyKey c) (cr_SourceNode c) (cr_TargetNode c) (cr_Service c)
    (cr_ReturnRelay c) st code reason cursor (cr_CreatedAt c) at_ (cr_ExpiresAt c) lease.

(** ** Decidable equality *)

#[export] Instance directCandidate_eq_dec : EqDecision directCandidate.
Proof. solve_decision. Defined.
#[export] Instance publishedService_eq_dec : EqDecision publishedService.
Proof. solve_decision. Defined.
#[export] Instance relayAdvertisement_eq_dec : EqDecision relayAdvertisement.
Proof. solve_decision. Defined.
#[export] Instance discoveredNode_eq_dec : EqDecision discoveredNode.
Proof. solve_decision. Defined.
#[export] Instance pendingHandshake_eq_dec : EqDecision pendingHandshake.
Proof. solve_decision. Defined.
#[export] Instance authorizedNode_eq_dec : EqDecision authorizedNode.
Proof. solve_decision. Defined.
#[export] Instance handshakeHistory_eq_dec : EqDecision handshakeHistory.
Proof. solve_decision. Defined.
#[export] Instance auditEvent_eq_dec : EqDecision auditEvent.
Proof. solve_decision. Defined.
#[export] Instance connectionRequest_eq_dec : EqDecision connectionRequest.
Proof. solve_decision. Defined.
