(* ===== verification/Runtime.v ===== *)
(** * The runtime the coordinator runs in

    The state [world] a handler transforms: the registry in memory, the
    coordinator-state.json file, the heap of signal channels, and how far the
    sources of nondeterminism have been consumed.  The sources themselves —
    the clock, [crypto/rand], the file system, Go's map iteration order, the
    JSON codec and Ed25519 — are the class [Env]: every theorem holds for
    every one of them.

    A handler is a computation [M A] (explicit state passing).  [wp] is its
    weakest precondition; the tactics [wp_step] and [wp_run] execute a handler
    symbolically. *)
From S2P Require Import Prelude GoStd Types.

Local Open Scope Z_scope.

(** ** Environment *)

(** Case mapping of a string that has non-ASCII bytes ([strings.ToUpper] and
    [strings.ToLower] take a separate path for them). *)
Class Unicode := {
  unicodeUpper : string → string;
  unicodeLower : string → string;
}.

(** [encoding/json] on the types the coordinator exchanges.  The [decode…]
    fields are [json.NewDecoder(…).Decode] (the value at the start of the
    text), the [unmarshal…] ones [json.Unmarshal] (the whole text);
    [marshalNode] is [json.Marshal]. *)
Class Json := {
  decodeDiscoveryRequest : string → option discoveryRequest;
  decodePollRequest : string → option pollRequest;
  decodeApproveRequest : string → option approveRequest;
  decodeRevokeRequest : string → option revokeRequest;
  unmarshalDiscoveryRequest : string → option discoveryRequest;
  unmarshalDiscoverySync : string → option discoverySyncRequest;
  unmarshalCreateConnection : string → option createConnectionInput;
  unmarshalConnectionID : string → option connectionIDInput;
  unmarshalInboxWait : string → option inboxWaitInput;
  unmarshalInboxAck : string → option inboxAckInput;
  unmarshalStatusWait : string → option connectionStatusWaitInput;
  marshalNode : discoveredNode → string;
}.

(** [clock i] is what the [i]-th [time.Now().UTC()] returns; [randRead i n]
    the [i]-th read of [n] bytes from the secure random source; [fileWrite i]
    whether the [i]-th write-and-rename of the state file succeeds;
    [mapOrder i m] the order in which the [i]-th [range] loop visits [m];
    [ed25519Verify key message signature] is [ed25519.Verify]. *)
Class Env := {
  #[global] env_unicode :: Unicode;
  #[global] env_json :: Json;
  clock : nat → Z;
  randRead : nat → nat → option string;
  randRead_length : ∀ i n b, randRead i n = Some b → String.length b = n;
  fileWrite : nat → bool;
  mapOrder : ∀ {V}, nat → gmap string V → list (string * V);
  mapOrder_perm : ∀ V i (m : gmap string V), mapOrder i m ≡ₚ map_to_list m;
  ed25519Verify : string → string → string → bool;
}.

(** ** World and computations *)

(** Channels carry no values: one is either open or closed.  Closing a closed
    channel panics. *)
Record chanHeap := mkChanHeap {
  nextChan : nat;
  closedChans : gset nat;
  closePanics : bool;
}.

Record world := mkWorld {
  w_reg : registry;
  w_disk : option coordinatorState;
  w_chans : chanHeap;
  w_clock : nat;
  w_rand : nat;
  w_files : nat;
  w_order : nat;
}.

Definition w_state (w : world) : coordinatorState := state (w_reg w).

Definition setReg f w := mkWorld (f (w_reg w)) (w_disk w) (w_chans w) (w_clock w) (w_rand w) (w_files w) (w_order w).
Definition setDisk d w := mkWorld (w_reg w) d (w_chans w) (w_clock w) (w_rand w) (w_files w) (w_order w).
Definition setChans f w := mkWorld (w_reg w) (w_disk w) (f (w_chans w)) (w_clock w) (w_rand w) (w_files w) (w_order w).
Definition tickClock w := mkWorld (w_reg w) (w_disk w) (w_chans w) (S (w_clock w)) (w_rand w) (w_files w) (w_order w).
Definition tickRand w := mkWorld (w_reg w) (w_disk w) (w_chans w) (w_clock w) (S (w_rand w)) (w_files w) (w_order w).
Definition tickFiles w := mkWorld (w_reg w) (w_disk w) (w_chans w) (w_clock w) (w_rand w) (S (w_files w)) (w_order w).
Definition tickOrder w := mkWorld (w_reg w) (w_disk w) (w_chans w) (w_clock w) (w_rand w) (w_files w) (S (w_order w)).

Definition M (A : Type) : Type := world → A * world.
#[export] Instance M_ret : MRet M := λ A a w, (a, w).
#[export] Instance M_bind : MBind M := λ A B k m w, let '(a, w') := m w in k a w'.

Definition run {A} (m : M A) (w : world) : A * world := m w.

Definition getReg : M registry := λ w, (w_reg w, w).
Definition getState : M coordinatorState := λ w, (w_state w, w).
Definition modReg (f : registry → registry) : M unit := λ w, (tt, setReg f w).
Definition modState (f : coordinatorState → coordinatorState) : M unit := modReg (setState f).

(** [for _, x := range l { body }], in the order of [l]. *)
Fixpoint forEach {A} (l : list A) (body : A → M unit) : M unit :=
  match l with
  | [] => mret tt
  | x :: l => body x ;; forEach l body
  end.

(** A loop that accumulates a flag ([changed = true] in the body). *)
Fixpoint forAny {A} (l : list A) (body : A → M bool) : M bool :=
  match l with
  | [] => mret false
  | x :: l => b ← body x; c ← forAny l body; mret (b || c)
  end.

Section Primitives.
Context {env : Env}.

Definition timeNow : M Z := λ w, (clock (w_clock w), tickClock w).
Definition readRandom (n : nat) : M (option string) := λ w, (randRead (w_rand w) n, tickRand w).
Definition rangeMap {V} (m : gmap string V) : M (list (string * V)) :=
  λ w, (mapOrder (w_order w) m, tickOrder w).
(** Writing the ".new" file and renaming it: on success the file holds the
    state, on failure the old file is still in place. *)
Definition writeStateFile (s : coordinatorState) : M bool :=
  λ w, (fileWrite (w_files w), tickFiles (if fileWrite (w_files w) then setDisk (Some s) w else w)).
(** [make(chan struct{})] and [close]. *)
Definition makeChan : M chan :=
  λ w, (nextChan (w_chans w),
        setChans (λ h, mkChanHeap (S (nextChan h)) (closedChans h) (closePanics h)) w).
Definition closeChan (c : chan) : M unit :=
  λ w, (tt, setChans (λ h, if bool_decide (c ∈ closedChans h)
                           then mkChanHeap (nextChan h) (closedChans h) true
                           else mkChanHeap (nextChan h) ({[c]} ∪ closedChans h) (closePanics h)) w).

(** [strings.ToUpper], [strings.ToLower]: the ASCII path of the library is
    modelled, the other one is the environment's. *)
Definition ToUpper `{Unicode} (s : string) : string :=
  if Strings.isASCII s then Strings.upperASCII s else unicodeUpper s.
Definition ToLower `{Unicode} (s : string) : string :=
  if Strings.isASCII s then Strings.lowerASCII s else unicodeLower s.
End Primitives.

(** ** Weakest preconditions *)

Definition wp {A} (m : M A) (Q : A → world → Prop) (w : world) : Prop :=
  Q (m w).1 (m w).2.

Lemma wp_ret {A} (a : A) Q w : Q a w → wp (mret a) Q w.
Proof. done. Qed.

Lemma wp_bind {A B} (m : M A) (k : A → M B) Q w :
  wp m (λ a, wp (k a) Q) w → wp (m ≫= k) Q w.
Proof. unfold wp, mbind, M_bind. by destruct (m w). Qed.

Lemma wp_mono {A} (m : M A) (P Q : A → world → Prop) w :
  wp m P w → (∀ a w', P a w' → Q a w') → wp m Q w.
Proof. unfold wp. eauto. Qed.

Lemma wp_run {A} (m : M A) Q w a w' : run m w = (a, w') → wp m Q w → Q a w'.
Proof. unfold wp, run. by intros ->. Qed.

Lemma wp_of_run {A} (m : M A) Q w a w' : run m w = (a, w') → Q a w' → wp m Q w.
Proof. unfold wp, run. by intros ->. Qed.

Lemma wp_self {A} (m : M A) Q w : wp m Q w → wp m (λ a w', Q a w' ∧ w' = (run m w).2) w.
Proof. by split. Qed.

Lemma wp_getReg Q w : Q (w_reg w) w → wp getReg Q w.
Proof. done. Qed.
Lemma wp_getState Q w : Q (w_state w) w → wp getState Q w.
Proof. done. Qed.
Lemma wp_modReg f Q w : Q tt (setReg f w) → wp (modReg f) Q w.
Proof. done. Qed.
Lemma wp_modState f Q w : Q tt (setReg (setState f) w) → wp (modState f) Q w.
Proof. done. Qed.

(** The loop rule: an invariant indexed by the elements still to visit. *)
Lemma wp_forEach {A} (I : list A → world → Prop) (l : list A) body Q w :
  I l w →
  (∀ x l' w', I (x :: l') w' → wp (body x) (λ _, I l') w') →
  (∀ w', I [] w' → Q tt w') →
  wp (forEach l body) Q w.
Proof.
  intros HI Hstep HQ. revert w HI. induction l as [|x l IH]; intros w HI; simpl.
  - apply wp_ret. auto.
  - apply wp_bind. eapply wp_mono; [by apply Hstep|]. intros [] w' ?. auto.
Qed.

Lemma wp_forAny {A} (I : list A → world → Prop) (l : list A) body Q w :
  I l w →
  (∀ x l' w', I (x :: l') w' → wp (body x) (λ _, I l') w') →
  (∀ b w', I [] w' → Q b w') →
  wp (forAny l body) Q w.
Proof.
  intros HI Hstep. revert w Q HI. induction l as [|x l IH]; intros w Q HI HQ; simpl.
  - apply wp_ret. auto.
  - apply wp_bind. eapply wp_mono; [by apply Hstep|]. intros b w' ?.
    apply wp_bind. apply IH; [done|]. intros c w'' ?. apply wp_ret. auto.
Qed.

Section PrimitiveRules.
Context {env : Env}.

Lemma wp_timeNow Q w : Q (clock (w_clock w)) (tickClock w) → wp timeNow Q w.
Proof. done. Qed.
Lemma wp_readRandom n Q w : Q (randRead (w_rand w) n) (tickRand w) → wp (readRandom n) Q w.
Proof. done. Qed.
Lemma wp_rangeMap {V} (m : gmap string V) Q w :
  (∀ l, l ≡ₚ map_to_list m → Q l (tickOrder w)) → wp (rangeMap m) Q w.
Proof. intros HQ. apply HQ, mapOrder_perm. Qed.
Lemma wp_writeStateFile s Q w :
  (∀ b : bool, Q b (tickFiles (if b then setDisk (Some s) w else w))) → wp (writeStateFile s) Q w.
Proof. intros HQ. apply HQ. Qed.
End PrimitiveRules.

(** One step of symbolic execution. *)
Ltac wp_step :=
  lazymatch goal with
  | |- wp (mbind _ _) _ _ => apply wp_bind
  | |- wp (mret _) _ _ => apply wp_ret
  | |- wp getReg _ _ => apply wp_getReg
  | |- wp getState _ _ => apply wp_getState
  | |- wp (modReg _) _ _ => apply wp_modReg
  | |- wp (modState _) _ _ => apply wp_modState
  | |- wp timeNow _ _ => apply wp_timeNow
  | |- wp (readRandom _) _ _ => apply wp_readRandom
  | |- wp (if ?b then _ else _) _ _ => destruct b eqn:?
  | |- wp (match ?x with _ => _ end) _ _ => destruct x eqn:?
  | |- wp (let _ := _ in _) _ _ => cbv zeta
  end.

Ltac wp_steps := repeat (wp_step; cbv beta).
