(* ===== verification/Validate.v ===== *)
(** * Validation and normalisation of addresses, pins, secrets and codes

    The pure helpers of coordinator_runtime.go, coordinator_nodes.go,
    coordinator_client.go, profile.go, node_manager.go and
    connection_workers.go.  A Go function that returns only an [error] is a
    boolean here: [true] when the error is nil. *)
From S2P Require Import Prelude GoStd GoNet GoCrypto Types Runtime.

Local Open Scope Z_scope.

(** ** Listen addresses *)

Definition validateHostPort (address : string) : bool :=
  match Net.SplitHostPort address with
  | None => false
  | Some (_, portText) =>
      let '(port, ok) := Strconv.Atoi portText in
      ok && negb ((port <? 1) || (65535 <? port))
  end.

(** [splitAddress]: the host and the port number. *)
Definition splitAddress (s : string) : option (string * Z) :=
  match Net.SplitHostPort s with
  | None => None
  | Some (host, port) =>
      let '(number, ok) := Strconv.Atoi port in
      if negb ok || (number <? 1) || (65535 <? number) then None else Some (host, number)
  end.

Definition validateAdminListen (address : string) : bool :=
  if negb (validateHostPort address) then false
  else match Net.SplitHostPort address with
       | Some (host, _) =>
           negb (negb (host =? "localhost")%string
                 && match Net.ParseIP host with
                    | None => true
                    | Some ip => negb (Net.IsLoopback ip)
                    end)
       | None => false
       end.

Section Normalize.
Context {unicode : Unicode}.

(** The closure [normalize] of [sameListenAddress]. *)
Definition normalizeListenHost (host : string) : string :=
  if (host =? "localhost")%string then "127.0.0.1"
  else match Net.ParseIP host with
       | Some ip => Net.String16 ip
       | None => ToLower host
       end.

Definition wildcardHost (host : string) : bool :=
  (host =? "")%string || (host =? "0.0.0.0")%string || (host =? "::")%string.

Definition sameListenAddress (first second : string) : bool :=
  match Net.SplitHostPort first, Net.SplitHostPort second with
  | Some (firstHost, firstPort), Some (secondHost, secondPort) =>
      if negb (firstPort =? secondPort)%string then false
      else (normalizeListenHost firstHost =? normalizeListenHost secondHost)%string
           || wildcardHost firstHost || wildcardHost secondHost
  | _, _ => false
  end.

(** ** Certificate pins *)

Definition normalizePin (s : string) : string :=
  ToLower (Strings.RemoveAll (Strings.TrimSpace s) ":").

Definition validSHA256Pin (pinText : string) : bool :=
  match Hex.DecodeString (normalizePin pinText) with
  | Some pin => (String.length pin =? Sha256.Size)%nat
  | None => false
  end.

(** ** Device codes *)

Definition normalizeDeviceCode (s : string) : string :=
  let s := ToUpper (Strings.RemoveAll (Strings.TrimSpace s) "-") in
  if negb (String.length s =? 8)%nat then ""
  else Strings.ofBytes (take 4 (Strings.bytes s) ++ ("-" : ascii)%char :: drop 4 (Strings.bytes s)).
End Normalize.

(** ** Direct candidates *)

Definition validateDirectCandidate (address : string) : bool :=
  if negb (validateHostPort address) then false
  else match Net.SplitHostPort address with
       | None => false
       | Some (host, _) =>
           match Net.ParseIP host with
           | None => false
           | Some ip => negb (negb (Net.IsPrivate ip) || Net.IsLoopback ip
                              || Net.IsUnspecified ip || Net.IsMulticast ip)
           end
       end.

Definition loopbackEndpoint (endpoint : string) : string :=
  match Net.SplitHostPort endpoint with
  | None => endpoint
  | Some (host, port) =>
      let host := if wildcardHost host || (host =? "[::]")%string then "127.0.0.1" else host in
      Net.JoinHostPort host port
  end.

(** ** Random identifiers *)

Definition deviceAlphabet : string := "ABCDEFGHJKLMNPQRSTUVWXYZ23456789".

(** The text [randomDeviceCode] builds from eight random bytes. *)
Definition deviceCodeText (random : string) : string :=
  let alphabet := Strings.bytes deviceAlphabet in
  let b := (λ a, nth (nat_of_ascii a mod length alphabet) alphabet ("A" : ascii)%char)
             <$> Strings.bytes random in
  Strings.ofBytes (take 4 b ++ ("-" : ascii)%char :: drop 4 b).

Section Random.
Context {env : Env}.

Definition randomToken : M (option string) :=
  b ← readRandom 32;
  mret (Hex.EncodeToString <$> b).

Definition randomDeviceCode : M (option string) :=
  random ← readRandom 8;
  mret (deviceCodeText <$> random).
End Random.

(** [matchesHash]: the hexadecimal SHA-256 of the secret is the stored one. *)
Definition matchesHash (secret expected : string) : bool :=
  let got := Hex.EncodeToString (Sha256.Sum256 secret) in
  (String.length got =? String.length expected)%nat && (ConstantTimeCompare got expected =? 1).

(** ** Instance names *)

Definition instanceByte (i : nat) (a : ascii) : bool :=
  let n := Z.of_nat (nat_of_ascii a) in
  ((97 <=? n) && (n <=? 122)) || ((48 <=? n) && (n <=? 57))
  || ((0 <? i)%nat && ((n =? 45) || (n =? 95))).

(** A rune outside ASCII has only bytes from 128 on, which are refused, so the
    loop over runes is the loop over bytes. *)
Definition validateInstance (instance : string) : bool :=
  if (instance =? "")%string || (32 <? Z.of_nat (String.length instance)) then false
  else forallb (λ '(i, a), instanceByte i a) (imap pair (Strings.bytes instance)).

(** ** Lemmas *)

Lemma ofBytes_length l : String.length (Strings.ofBytes l) = length l.
Proof. by rewrite <- bytes_length, bytes_ofBytes. Qed.

Lemma matchesHash_spec secret expected :
  matchesHash secret expected = true ↔ expected = Hex.EncodeToString (Sha256.Sum256 secret).
Proof.
  unfold matchesHash. split.
  - intros H. bool_simpl. symmetry. by apply ConstantTimeCompare_1.
  - intros ->. rewrite Nat.eqb_refl. simpl. apply Z.eqb_eq. by apply ConstantTimeCompare_1.
Qed.

Lemma validateHostPort_iff address :
  validateHostPort address = true ↔
  ∃ host portText port, Net.SplitHostPort address = Some (host, portText)
    ∧ Strconv.Atoi portText = (port, true) ∧ 1 ≤ port ≤ 65535.
Proof.
  unfold validateHostPort. split.
  - destruct (Net.SplitHostPort address) as [[h p]|]; [|done].
    destruct (Strconv.Atoi p) as [port ok] eqn:E. intros H.
    destruct ok; simpl in H; [|done]. apply negb_true_iff in H. bool_simpl.
    exists h, p, port. split_and!; [done|by rewrite E|lia|lia].
  - intros (h & p & port & -> & -> & ?). simpl.
    apply negb_true_iff, orb_false_iff. split; apply Z.ltb_ge; lia.
Qed.

(** A byte at which [TrimSpace] stops, from either end. *)
Definition plainByte (a : ascii) : Prop :=
  (∀ l, Strings.leadingSpace Strings.spaces (a :: l) = None)
  ∧ (∀ l, Strings.leadingSpace (reverse <$> Strings.spaces) (a :: l) = None).

Lemma trimLeft_stop table fuel l :
  Strings.leadingSpace table l = None → Strings.trimLeft table fuel l = l.
Proof. intros H. destruct fuel; simpl; [done|]. by rewrite H. Qed.

Lemma TrimSpace_plain l :
  Forall plainByte l → Strings.TrimSpace (Strings.ofBytes l) = Strings.ofBytes l.
Proof.
  intros Hl. unfold Strings.TrimSpace. rewrite bytes_ofBytes.
  rewrite (trimLeft_stop _ _ l), (trimLeft_stop _ _ (reverse l)), reverse_involutive; [done| |].
  - destruct (reverse l) as [|a l'] eqn:E; [by vm_compute|].
    apply Forall_reverse in Hl. rewrite E in Hl. inv Hl. by destruct H1.
  - destruct Hl as [|a l' Ha _]; [by vm_compute|]. by destruct Ha.
Qed.

(** The bytes a device code is made of, and what a user may type for one. *)
Definition codeByte (a : ascii) : bool := bool_decide (a ∈ Strings.bytes deviceAlphabet).
Definition typedAs (t a : ascii) : Prop := t = a ∨ t = Strings.lowerByte a.

Lemma codeByte_typed a t :
  codeByte a = true → typedAs t a →
  (nat_of_ascii t <? 128)%nat = true ∧ Strings.upperByte t = a ∧ plainByte t.
Proof.
  intros H%bool_decide_eq_true_1 Ht. apply list_elem_of_In in H. simpl in H.
  repeat destruct H as [<-|H]; [..|done]; destruct Ht as [->| ->];
    (split_and!; [done|done|split; intros l; vm_compute; done]).
Qed.

Lemma typed_bytes ts cs :
  forallb codeByte cs = true → Forall2 typedAs ts cs →
  forallb (λ a, (nat_of_ascii a <? 128)%nat) ts = true ∧ Strings.upperByte <$> ts = cs.
Proof.
  intros Hcs H. revert Hcs. induction H as [|t c ts cs Ht _ IH]; intros Hcs; [done|].
  simpl in Hcs. apply andb_true_iff in Hcs as [Hc Hcs].
  destruct (codeByte_typed c t Hc Ht) as (Ha & Hu & _). destruct (IH Hcs) as [IH1 IH2].
  split; [simpl; by rewrite Ha, IH1|]. rewrite fmap_cons, Hu. by f_equal.
Qed.

Lemma typed_plain l ts cs :
  filter (λ a, a ≠ ("-" : ascii)%char) l = ts → forallb codeByte cs = true →
  Forall2 typedAs ts cs → Forall plainByte l.
Proof.
  intros Hf Hcs H2. apply Forall_forall. intros a Ha.
  destruct (decide (a = ("-" : ascii)%char)) as [->|Hne]; [by split; intros; vm_compute|].
  assert (a ∈ ts) as [i Hi]%list_elem_of_lookup by (subst ts; by apply list_elem_of_filter).
  destruct (Forall2_lookup_l _ _ _ _ _ H2 Hi) as (c & Hc & Ht).
  apply (codeByte_typed c); [|done].
  rewrite forallb_forall in Hcs. apply Hcs, list_elem_of_In. by eapply list_elem_of_lookup_2.
Qed.

Lemma deviceCodeText_form random :
  ∃ cs, forallb codeByte cs = true ∧ length cs = String.length random
    ∧ deviceCodeText random =
      Strings.ofBytes (take 4 cs ++ ("-" : ascii)%char :: drop 4 cs).
Proof.
  eexists. split_and!; [| |reflexivity].
  - apply forallb_forall. intros a [r [<- _]]%in_map_iff.
    apply bool_decide_eq_true_2. apply list_elem_of_In, nth_In.
    apply Nat.mod_upper_bound. by vm_compute.
  - rewrite length_fmap. apply bytes_length.
Qed.

Lemma filter_hyphen_code cs :
  forallb codeByte cs = true → filter (λ a, a ≠ ("-" : ascii)%char) cs = cs.
Proof.
  induction cs as [|c cs IH]; [done|]. simpl. intros [Hc Hcs]%andb_true_iff.
  rewrite filter_cons_True; [by rewrite IH|]. intros ->. by vm_compute in Hc.
Qed.

(** What [normalizeDeviceCode] makes of a typed code. *)
Lemma normalizeDeviceCode_typed {unicode : Unicode} (typed : string) (cs : list ascii) :
  forallb codeByte cs = true → length cs = 8%nat →
  Forall2 typedAs (filter (λ a, a ≠ ("-" : ascii)%char) (Strings.bytes typed)) cs →
  normalizeDeviceCode typed = Strings.ofBytes (take 4 cs ++ ("-" : ascii)%char :: drop 4 cs).
Proof.
  intros Hcs Hlen H2. unfold normalizeDeviceCode.
  assert (Strings.TrimSpace typed = typed) as ->.
  { rewrite <- (ofBytes_bytes typed). apply TrimSpace_plain. by eapply typed_plain. }
  unfold Strings.RemoveAll, ToUpper, Strings.isASCII, Strings.upperASCII.
  destruct (typed_bytes _ _ Hcs H2) as [Ha Hu].
  rewrite !bytes_ofBytes, Ha, Hu, ofBytes_length, Hlen. simpl. by rewrite bytes_ofBytes.
Qed.

(** ** Pins *)

Lemma isHex_byte a :
  isHex a = true →
  plainByte a ∧ (nat_of_ascii a <? 128)%nat = true ∧ a ≠ (":" : ascii)%char
  ∧ isHex (Strings.lowerByte a) = true.
Proof.
  destruct a as [[] [] [] [] [] [] [] []]; try (vm_compute; discriminate);
    intros _; (split_and!; [split; intros l; vm_compute; reflexivity|vm_compute; done..]).
Qed.

Lemma hex_normalize {unicode : Unicode} s :
  forallb isHex (Strings.bytes s) = true → normalizePin s = Strings.lowerASCII s.
Proof.
  intros Hs. assert (Forall (λ a, isHex a = true) (Strings.bytes s)) as Hall.
  { apply Forall_forall. rewrite forallb_forall in Hs. intros a Ha. by apply Hs, list_elem_of_In. }
  unfold normalizePin.
  assert (Strings.TrimSpace s = s) as ->.
  { rewrite <- (ofBytes_bytes s). apply TrimSpace_plain. eapply Forall_impl; [exact Hall|].
    intros a Ha. by apply isHex_byte. }
  assert (Strings.RemoveAll s ":" = s) as ->.
  { unfold Strings.RemoveAll. rewrite (filter_keep _ (Strings.bytes s)); [apply ofBytes_bytes|].
    eapply Forall_impl; [exact Hall|]. intros a Ha. by apply isHex_byte. }
  unfold ToLower, Strings.isASCII. rewrite (proj2 (forallb_forall _ _)); [done|].
  intros a Ha. rewrite forallb_forall in Hs. by apply isHex_byte, Hs.
Qed.

Lemma validSHA256Pin_iff {unicode : Unicode} s :
  validSHA256Pin s = true ↔
  forallb isHex (Strings.bytes (normalizePin s)) = true ∧ String.length (normalizePin s) = 64%nat.
Proof.
  unfold validSHA256Pin. rewrite <- (hex_decode_spec _ 32). split.
  - destruct (Hex.DecodeString _) as [b|]; [|done]. intros ?%Nat.eqb_eq. by exists b.
  - intros (b & -> & Hb). by apply Nat.eqb_eq.
Qed.

Lemma hex_validPin {unicode : Unicode} s :
  forallb isHex (Strings.bytes s) = true → String.length s = 64%nat → validSHA256Pin s = true.
Proof.
  intros Hs Hlen. apply validSHA256Pin_iff. rewrite hex_normalize by done.
  unfold Strings.lowerASCII. rewrite bytes_ofBytes. split.
  - rewrite forallb_forall in Hs |- *. intros a (b & <- & Hb)%in_map_iff. by apply isHex_byte, Hs.
  - rewrite ofBytes_length, length_fmap. by rewrite bytes_length.
Qed.

Lemma validPin_normalized {unicode : Unicode} s :
  validSHA256Pin s = true → validSHA256Pin (normalizePin s) = true.
Proof. intros [? ?]%validSHA256Pin_iff. by apply hex_validPin. Qed.

Lemma digest_validPin {unicode : Unicode} s :
  validSHA256Pin (Hex.EncodeToString (Sha256.Sum256 s)) = true.
Proof.
  destruct (hex_encode_hex (Sha256.Sum256 s)) as [? Hlen]. apply hex_validPin; [done|].
  by rewrite Hlen, sha256_length.
Qed.
