(* ===== verification/Paths.v ===== *)
(** * The shape of absolute paths

    A clean absolute path is a slash and its elements, separated by slashes;
    [Clean], [Join] and [Dir] on such paths; the files of a node's directory. *)
From S2P Require Import Prelude GoStd GoNet GoPath Validate.

Import Filepath.

(** An element that [Clean] keeps as it is. *)
Definition plain (e : list ascii) : Prop :=
  e ≠ [] ∧ e ≠ Strings.bytes "." ∧ e ≠ Strings.bytes ".." ∧ slash ∉ e.
#[export] Instance plain_dec e : Decision (plain e).
Proof. unfold plain. apply _. Defined.
Lemma plain_check e : bool_decide (plain e) = true → plain e.
Proof. apply bool_decide_eq_true_1. Qed.

(** The path with these elements. *)
Definition absolutePath (l : list (list ascii)) : string := Strings.ofBytes (slash :: joinSlash l).

Lemma joinSlash_app l k : l ≠ [] → k ≠ [] → joinSlash (l ++ k) = joinSlash l ++ slash :: joinSlash k.
Proof.
  intros Hl Hk. induction l as [|e l IH]; [done|]. destruct l as [|e' l]; [by destruct k|].
  cbn [app]. change (e ++ slash :: joinSlash (e' :: l ++ k) = (e ++ slash :: joinSlash (e' :: l)) ++ slash :: joinSlash k).
  rewrite <- app_assoc. cbn. do 2 f_equal. by apply IH.
Qed.

Lemma splitOn_free c e : c ∉ e → Net.splitOn c e = [e].
Proof.
  induction e as [|a e IH]; intros Hc; [done|]. cbn. apply not_elem_of_cons in Hc as [Hne Hc].
  rewrite bool_decide_eq_false_2 by done. by rewrite IH.
Qed.

Lemma splitOn_app c l k : Net.splitOn c (l ++ c :: k) = Net.splitOn c l ++ Net.splitOn c k.
Proof.
  induction l as [|a l IH]; cbn; [by rewrite bool_decide_eq_true_2|]. rewrite IH. case_bool_decide; [done|].
  assert (Net.splitOn c l ≠ []) as Hne.
  { destruct l as [|b l]; cbn; [done|]. case_bool_decide; [done|]. by destruct (Net.splitOn c l). }
  by destruct (Net.splitOn c l).
Qed.

Lemma splitOn_joinSlash l : l ≠ [] → Forall (λ e, slash ∉ e) l → Net.splitOn slash (joinSlash l) = l.
Proof.
  intros Hl Hall. induction Hall as [|e l He Hall IH]; [done|]. destruct l as [|e' l]; [by apply splitOn_free|].
  change (Net.splitOn slash (e ++ slash :: joinSlash (e' :: l)) = e :: e' :: l). rewrite splitOn_app, splitOn_free by done.
  by rewrite IH.
Qed.

Lemma splitOn_elements c l : Forall (λ e, c ∉ e) (Net.splitOn c l).
Proof.
  induction l as [|a l IH]; cbn; [constructor; [apply not_elem_of_nil|done]|]. case_bool_decide as Ha.
  - constructor; [apply not_elem_of_nil|done].
  - destruct (Net.splitOn c l) as [|e k]; [constructor; [|done]; rewrite not_elem_of_cons; split; [by apply not_eq_sym|apply not_elem_of_nil]|].
    apply Forall_cons in IH as [He Hk]. constructor; [|done]. rewrite not_elem_of_cons. split; [by apply not_eq_sym|done].
Qed.

(** What [Clean] keeps of an absolute path. *)
Lemma cleanElements_plain l kept :
  Forall (λ e, slash ∉ e) l → Forall plain kept → Forall plain (foldl (cleanElement true) kept l).
Proof.
  intros Hl. revert kept. induction Hl as [|e l He Hl IH]; intros kept Hk; [done|]. cbn. apply IH.
  unfold cleanElement. case_bool_decide as H1; [done|]. case_bool_decide as H2.
  - destruct kept as [|top rest]; [done|]. apply Forall_cons in Hk as [(_ & _ & Htop & _) Hk].
    case_bool_decide; [|done]. subst. done.
  - constructor; [|done]. split_and!; naive_solver.
Qed.

Lemma cleanElements_keep l kept : Forall plain l → foldl (cleanElement true) kept l = reverse l ++ kept.
Proof.
  intros Hl. revert kept. induction Hl as [|e l (H1 & H2 & H3 & _) Hl IH]; intros kept; [done|].
  rewrite reverse_cons, <- app_assoc. cbn [foldl app]. rewrite <- IH. f_equal.
  unfold cleanElement. rewrite bool_decide_eq_false_2 by naive_solver. by rewrite bool_decide_eq_false_2.
Qed.

(** A cleaned absolute path has plain elements. *)
Lemma Clean_absolute path :
  Strings.HasPrefix path "/" = true → ∃ l, Forall plain l ∧ Clean path = absolutePath l.
Proof.
  intros Hp. unfold Clean. unfold Strings.HasPrefix in Hp. destruct (Strings.bytes path) as [|c k] eqn:Hb; [done|].
  cbn in Hp. rewrite andb_true_r in Hp. apply bool_decide_eq_true_1 in Hp as <-. rewrite bool_decide_eq_true_2 by done.
  set (kept := foldl _ _ _). exists (reverse kept). split; [|done]. apply Forall_reverse, cleanElements_plain; [|constructor].
  apply splitOn_elements.
Qed.

Lemma slash_plain l : Forall plain l → Forall (λ e, slash ∉ e) l.
Proof. intros H. eapply Forall_impl; [exact H|]. by intros e (_ & _ & _ & ?). Qed.

(** [Clean] of a slash and elements, some of them empty. *)
Lemma Clean_elements l : Forall (λ e, slash ∉ e) l → l ≠ [] → Forall (λ e, e = [] ∨ plain e) l →
  Clean (absolutePath l) = absolutePath (filter (λ e, e ≠ []) l).
Proof.
  intros Hs Hne Hl. unfold Clean, absolutePath. rewrite bytes_ofBytes. rewrite bool_decide_eq_true_2 by done. do 3 f_equal.
  change (Net.splitOn slash (slash :: joinSlash l)) with ([] :: Net.splitOn slash (joinSlash l)). rewrite splitOn_joinSlash by done.
  cbn [foldl]. change (cleanElement true [] []) with (@nil (list ascii)).
  assert (∀ kept, foldl (cleanElement true) kept l = foldl (cleanElement true) kept (filter (λ e, e ≠ []) l)) as ->.
  { clear Hs Hne. induction Hl as [|e l He Hl IH]; intros kept; [done|]. destruct e as [|a e].
    - rewrite filter_cons_False by (by intros ?). apply IH.
    - rewrite filter_cons_True by done. apply IH. }
  rewrite cleanElements_keep, app_nil_r; [apply reverse_involutive|].
  apply Forall_forall. intros e [Hn He]%list_elem_of_filter. rewrite Forall_forall in Hl. by destruct (Hl e He).
Qed.

Lemma filter_plain l : Forall plain l → filter (λ e, e ≠ []) l = l.
Proof.
  induction 1 as [|e l (He & _) Hl IH]; [done|]. rewrite filter_cons_True by done. by rewrite IH.
Qed.

(** Elements joined to an absolute path. *)
Lemma Join_absolute l es :
  l ≠ [] → es ≠ [] → Forall plain l → Forall plain (Strings.bytes <$> es) →
  Join (absolutePath l :: es) = absolutePath (l ++ (Strings.bytes <$> es)).
Proof.
  intros Hl Hes Hpl Hpe. unfold Join. rewrite filter_cons_True by done.
  replace (filter (λ e, e ≠ "") es) with es.
  2:{ clear Hes. induction es as [|e es IH]; [done|]. apply Forall_cons in Hpe as [(He & _) Hpe].
      rewrite filter_cons_True; [by rewrite <- IH|by intros ->]. }
  cbn [fmap list_fmap]. unfold absolutePath at 1. rewrite bytes_ofBytes.
  replace (joinSlash ((slash :: joinSlash l) :: (Strings.bytes <$> es))) with (slash :: joinSlash (l ++ (Strings.bytes <$> es))).
  - change (Clean (absolutePath (l ++ (Strings.bytes <$> es))) = absolutePath (l ++ (Strings.bytes <$> es))).
    rewrite Clean_elements; [|by apply slash_plain, Forall_app|by destruct l|].
    + by rewrite filter_plain by (by apply Forall_app).
    + apply Forall_app. split; (eapply Forall_impl; [done|]); by right.
  - rewrite joinSlash_app by (by destruct es || done). by destruct es.
Qed.

Lemma lastIndexByte_app c l k : c ∉ k → Strings.lastIndexByte c (l ++ c :: k) = Some (length l).
Proof.
  intros Hc. unfold Strings.lastIndexByte. rewrite reverse_app, reverse_cons, length_app. cbn [length].
  rewrite <- app_assoc. cbn [app]. rewrite indexByte_app by (by rewrite elem_of_reverse). cbn. f_equal. rewrite length_reverse. lia.
Qed.

(** The directory of an absolute path. *)
Lemma Dir_absolute l e : l ≠ [] → Forall plain l → plain e → Dir (absolutePath (l ++ [e])) = absolutePath l.
Proof.
  intros Hl Hpl He. unfold Dir.
  assert (Strings.bytes (absolutePath (l ++ [e])) = (slash :: joinSlash l) ++ slash :: e) as ->
    by (unfold absolutePath; by rewrite bytes_ofBytes, joinSlash_app).
  rewrite lastIndexByte_app by apply He.
  replace (take (S (length (slash :: joinSlash l))) ((slash :: joinSlash l) ++ slash :: e)) with (slash :: joinSlash (l ++ [[]])).
  - change (Clean (absolutePath (l ++ [[]])) = absolutePath l). rewrite Clean_elements.
    + by rewrite filter_app, filter_plain, app_nil_r.
    + apply Forall_app. split; [by apply slash_plain|]. constructor; [apply not_elem_of_nil|done].
    + by destruct l.
    + apply Forall_app. split; [eapply Forall_impl; [done|]; by right|]. constructor; [by left|done].
  - rewrite joinSlash_app by done. cbn. f_equal. rewrite take_app, take_ge by lia.
    replace (S (length (joinSlash l)) - length (joinSlash l))%nat with 1%nat by lia. done.
Qed.

(** A name joined to any absolute path is the last element. *)
Lemma Join_last path e :
  Strings.HasPrefix path "/" = true → plain (Strings.bytes e) →
  ∃ l, Forall plain l ∧ Join [path; e] = absolutePath (l ++ [Strings.bytes e]).
Proof.
  intros Hp He. unfold Join.
  assert (path ≠ "" ∧ e ≠ "") as [Hp0 He0] by (split; [by intros ->|intros ->; by destruct He]).
  rewrite !filter_cons_True by done. cbn [filter list_filter fmap list_fmap joinSlash]. unfold Clean. rewrite bytes_ofBytes.
  unfold Strings.HasPrefix in Hp. destruct (Strings.bytes path) as [|c k] eqn:Hb; [done|]. cbn in Hp. rewrite andb_true_r in Hp.
  apply bool_decide_eq_true_1 in Hp as <-. cbn [app]. rewrite bool_decide_eq_true_2 by done.
  change ("/"%char :: k ++ slash :: Strings.bytes e) with ((slash :: k) ++ slash :: Strings.bytes e).
  rewrite splitOn_app, (splitOn_free slash (Strings.bytes e)) by apply He. rewrite foldl_app. cbn [foldl].
  set (kept := foldl _ [] _). assert (Forall plain kept) as Hk by (apply cleanElements_plain; [apply splitOn_elements|constructor]).
  exists (reverse kept). split; [by apply Forall_reverse|].
  replace (cleanElement true kept (Strings.bytes e)) with (Strings.bytes e :: kept); [by rewrite reverse_cons|].
  destruct He as (H1 & H2 & H3 & _). unfold cleanElement. rewrite bool_decide_eq_false_2 by naive_solver. by rewrite bool_decide_eq_false_2.
Qed.
