(* ===== verification/Wire.v ===== *)
(** * HTTP requests and responses

    What a handler sees of an [http.Request] and what it writes to its
    [http.ResponseWriter] (coordinator_http.go): status and body, with the
    body kept as the JSON value the handler encodes.  [serveStructured] turns
    the captured response into the one on the wire. *)
From S2P Require Import Prelude GoStd GoNet GoCrypto Types Runtime.

Local Open Scope Z_scope.

Record request := mkRequest {
  rq_Method : string;
  rq_Path : string;
  rq_RemoteAddr : string;
  rq_Header : gmap string string;
  rq_Query : gmap string string;
  rq_Body : string;
}.

(** [req.Header.Get(name)] and [req.URL.Query().Get(name)]: the first value,
    or the empty string. *)
Definition headerGet (req : request) (name : string) : string := default "" (rq_Header req !! name).
Definition queryGet (req : request) (name : string) : string := default "" (rq_Query req !! name).

(** The values handlers pass to [writeJSON]. *)
Inductive payload :=
  | JEnrollment (e : enrollmentState)
  | JPoll (p : pollResponse)
  | JHandshakes (items : list handshakeHistory)
  | JAudit (items : list auditEvent)
  | JApproved (node : string) (expiresAt : Z)
  | JRejected (node : string)
  | JRevoked (nodeID : string)
  | JDiscovery (d : discoveryResponse)
  | JHeartbeat (h : heartbeatResponse)
  | JConnection (c : connectionRequest)
  | JInbox (i : inboxWaitResponse)
  | JAcknowledged (cursor : Z).

Inductive body :=
  | Text (s : string)
  | Encoded (p : payload).

Record response := mkResponse { rs_Status : Z; rs_Body : body }.

(** [http.Error] writes the message and a line feed. *)
Definition httpError (message : string) (status : Z) : response :=
  mkResponse status (Text (message +:+ Strings.ofBytes [ascii_of_nat 10])).
Definition writeJSON (status : Z) (value : payload) : response := mkResponse status (Encoded value).
(** [http.NotFound] *)
Definition notFound : response := httpError "404 page not found" 404.

(** [if cond { http.Error(w, message, status); return }] *)
Notation "'reject' c 'with' m '@' s ';;' k" := (if c then mret (httpError m s) else k)
  (at level 100, c at level 99, m at level 50, s at level 50, k at level 200, right associativity,
   only parsing) : stdpp_scope.

Definition maxBody : Z := 65536.

(** [decodeJSON]: the decoder reads at most 64 KiB of the body; it succeeds
    when the value is complete within them. *)
Definition decodeJSON {A} (decode : string → option A) (req : request) : option A :=
  decode (Strings.ofBytes (take (Z.to_nat maxBody) (Strings.bytes (rq_Body req)))).

(** [io.ReadAll(http.MaxBytesReader(w, req.Body, 64<<10))]. *)
Definition readBody (req : request) : option string :=
  if maxBody <? Z.of_nat (String.length (rq_Body req)) then None else Some (rq_Body req).

Definition requestSource (req : request) : string :=
  match Net.SplitHostPort (rq_RemoteAddr req) with
  | Some (host, _) => host
  | None => rq_RemoteAddr req
  end.

Definition isLoopbackRequest (req : request) : bool :=
  let host := requestSource req in
  (host =? "localhost")%string
  || match Net.ParseIP host with Some ip => Net.IsLoopback ip | None => false end.

(** ** Structured errors *)

Record apiErrorResponse := mkApiErrorResponse { ae_Code : string; ae_Message : string }.

Definition knownErrors : list (string * string) := [
  ("invalid body", "request_body_invalid");
  ("invalid JSON", "request_json_invalid");
  ("invalid JSON or node id", "node_identity_invalid");
  ("invalid node signature", "node_signature_invalid");
  ("node rate limit exceeded", "node_rate_limited");
  ("rate limit exceeded", "request_rate_limited");
  ("node must heartbeat before discovery", "node_not_active");
  ("source or target node is not active", "connection_node_inactive");
  ("target service is not published", "published_service_missing");
  ("return relay is not active in the source segment", "return_relay_invalid");
  ("connection request capacity reached", "connection_capacity_reached");
  ("target connection queue is full", "connection_target_queue_full");
  ("an inbox wait is already active for this node", "inbox_wait_already_active");
  ("cursor is ahead of server state", "inbox_cursor_invalid");
  ("connection request not found", "connection_request_missing");
  ("only the target node can decide this request", "connection_decision_forbidden");
  ("only the source node can cancel this request", "connection_cancel_forbidden");
  ("connection request cannot be decided in its current state", "connection_state_terminal");
  ("connection request is already terminal", "connection_state_terminal");
  ("connection reason is too long", "connection_reason_too_long");
  ("enrollment reason is too long", "enrollment_reason_too_long");
  ("connection request is not visible to this node", "connection_request_hidden");
  ("handshake not found or expired", "enrollment_missing_or_expired");
  ("unexpired handshake not found", "enrollment_missing_or_expired");
  ("handshake was rejected", "enrollment_rejected");
  ("handshake was already approved", "enrollment_already_approved");
  ("node id is already authorized; explicit replacement is required", "node_credential_conflict");
  ("unauthorized", "admin_authentication_failed")
].

Definition apiErrorCode (status : Z) (message : string) : string :=
  match (list_to_map knownErrors : gmap string string) !! message with
  | Some code => code
  | None =>
      if status =? 401 then "authentication_failed"
      else if status =? 403 then "access_denied"
      else if status =? 404 then "resource_not_found"
      else if status =? 409 then "request_conflict"
      else if status =? 429 then "request_rate_limited"
      else if status =? 503 then "service_unavailable"
      else "request_failed"
  end.

(** [http.StatusText] of the status codes the coordinator writes. *)
Definition statusText (status : Z) : string :=
  match status with
  | 200 => "OK" | 201 => "Created" | 400 => "Bad Request" | 401 => "Unauthorized"
  | 403 => "Forbidden" | 404 => "Not Found" | 409 => "Conflict" | 410 => "Gone"
  | 429 => "Too Many Requests" | 500 => "Internal Server Error" | 503 => "Service Unavailable"
  | _ => ""
  end.

(** What goes out on the wire: an error envelope, or the captured body. *)
Inductive wireBody :=
  | ErrorEnvelope (e : apiErrorResponse)
  | Passed (b : body).

(** [serveStructured] on the response [next] captured; [None] when the
    handler wrote nothing (status 0, which becomes 200 with an empty body).
    A JSON value is never written with an error status, so the message of an
    error is the captured text. *)
Definition serveStructured (captured : option response) : Z * wireBody :=
  let status := match captured with Some r => rs_Status r | None => 200 end in
  let b := match captured with Some r => rs_Body r | None => Text "" end in
  if 400 <=? status then
    let message := match b with Text s => Strings.TrimSpace s | Encoded _ => "" end in
    let message := if (message =? "")%string then statusText status else message in
    (status, ErrorEnvelope (mkApiErrorResponse (apiErrorCode status message) message))
  else (status, Passed b).
