(* ===== verification/GoFlag.v ===== *)
(** * Packages [flag] and [fmt], as the start of the program uses them

    [strconv.ParseInt(s, 0, 64)] and [strconv.ParseBool], which read the values
    of flags; [FlagSet.Parse] with [ExitOnError]; and [fmt.Scanln] into one
    string.  Executable. *)
From S2P Require Import Prelude GoStd.

Local Open Scope Z_scope.

(** ** Package [strconv]: literals *)
Module Literal.
Definition isDecimal (a : ascii) : bool := bool_decide (is_Some (Strconv.digit a)).

(** [0-9], [a-z] and [A-Z]. *)
Definition digitOf (a : ascii) : option Z :=
  match Strconv.digit a with
  | Some d => Some d
  | None =>
      let n := Z.of_nat (nat_of_ascii (Strings.lowerByte a)) in
      if (97 <=? n) && (n <=? 122) then Some (n - 87) else None
  end.

(** The letter of a base prefix. *)
Definition prefixBase (a : ascii) : option Z :=
  let a := Strings.lowerByte a in
  if bool_decide (a = "b"%char) then Some 2
  else if bool_decide (a = "o"%char) then Some 8
  else if bool_decide (a = "x"%char) then Some 16
  else None.

(** The base of a literal and what its digits are read from. *)
Definition splitBase (l : list ascii) : Z * list ascii :=
  match l with
  | ("0" :: rest)%char =>
      match rest with
      | c :: ((_ :: _) as digits) => match prefixBase c with Some b => (b, digits) | None => (8, rest) end
      | _ => (8, rest)
      end
  | _ => (10, l)
  end.

Fixpoint numeral (base acc : Z) (l : list ascii) : option Z :=
  match l with
  | [] => Some acc
  | ("_" :: l)%char => numeral base acc l
  | a :: l =>
      match digitOf a with
      | Some d => if d <? base then numeral base (base * acc + d) l else None
      | None => None
      end
  end.

(** What [underscoreOK] saw last. *)
Inductive seen := Start | Digit | Underscore | Other.

Fixpoint separated (hex : bool) (last : seen) (l : list ascii) : bool :=
  match l with
  | [] => match last with Underscore => false | _ => true end
  | a :: l =>
      if isDecimal a || (hex && match digitOf a with Some d => d <? 16 | None => false end) then separated hex Digit l
      else if bool_decide (a = "_"%char) then match last with Digit => separated hex Underscore l | _ => false end
      else match last with Underscore => false | _ => separated hex Other l end
  end.

Definition underscoreOK (l : list ascii) : bool :=
  match l with
  | ("0" :: c :: rest)%char =>
      match prefixBase c with
      | Some b => separated (b =? 16) Digit rest
      | None => separated false Start l
      end
  | _ => separated false Start l
  end.

(** [strconv.ParseInt(s, 0, 64)]: the value when the error is nil. *)
Definition ParseInt (s : string) : option Z :=
  let '(neg, l) :=
    match Strings.bytes s with
    | ("+" :: l)%char => (false, l)
    | ("-" :: l)%char => (true, l)
    | l => (false, l)
    end in
  match l with
  | [] => None
  | _ =>
      let '(base, digits) := splitBase l in
      match numeral base 0 digits with
      | None => None
      | Some n =>
          if negb (underscoreOK l) then None
          else if neg then if 2 ^ 63 <? n then None else Some (- n)
          else if 2 ^ 63 <=? n then None else Some n
      end
  end.

Definition ParseBool (s : string) : option bool :=
  if bool_decide (s ∈ ["1"; "t"; "T"; "TRUE"; "true"; "True"]) then Some true
  else if bool_decide (s ∈ ["0"; "f"; "F"; "FALSE"; "false"; "False"]) then Some false
  else None.
End Literal.

Example literal_1 : Literal.ParseInt "-0x_1F" = Some (-31).
Proof. vm_compute. reflexivity. Qed.
Example literal_2 : Literal.ParseInt "010" = Some 8.
Proof. vm_compute. reflexivity. Qed.
Example literal_3 : Literal.ParseInt "1_000" = Some 1000 ∧ Literal.ParseInt "1__0" = None ∧ Literal.ParseInt "9x" = None.
Proof. vm_compute. done. Qed.

(** ** Package [flag] *)
Module Flag.
(** How an argument reads. *)
Inductive argument :=
  | Operand
  | Terminator
  | Malformed
  | Named (name : string) (value : option string).

Definition named (l : list ascii) : argument :=
  match l with
  | [] => Malformed
  | c :: tail =>
      if bool_decide (c = "-"%char) || bool_decide (c = "="%char) then Malformed else
      match Strings.indexByte "="%char tail with
      | Some i => Named (Strings.ofBytes (c :: take i tail)) (Some (Strings.ofBytes (drop (S i) tail)))
      | None => Named (Strings.ofBytes l) None
      end
  end.

Definition classify (arg : string) : argument :=
  match Strings.bytes arg with
  | ("-" :: c :: rest)%char =>
      if bool_decide (c = "-"%char) then match rest with [] => Terminator | _ => named rest end
      else named (c :: rest)
  | _ => Operand
  end.

(** How [Parse] ends: the values, the flags that were given and the operands;
    the usage that was asked for (exit 0); or an error (exit 2). *)
Inductive parsed (S : Type) := Parsed (s : S) (actual : gset string) (operands : list string) | Help | Misused.
#[global] Arguments Parsed {S} s actual operands.
#[global] Arguments Help {S}.
#[global] Arguments Misused {S}.

Section Parse.
(** [formal] finds a flag by its name, [isBool] says whether it needs no
    value, and [set] is [flag.Value.Set]. *)
Context {T S : Type} (formal : string → option T) (isBool : T → bool) (set : T → string → S → option S).

Fixpoint Parse (args : list string) (s : S) (actual : gset string) : parsed S :=
  match args with
  | [] => Parsed s actual []
  | arg :: rest =>
      match classify arg with
      | Operand => Parsed s actual args
      | Terminator => Parsed s actual rest
      | Malformed => Misused
      | Named name value =>
          match formal name with
          | None => if (name =? "help")%string || (name =? "h")%string then Help else Misused
          | Some t =>
              if isBool t then
                match set t (default "true" value) s with
                | Some s => Parse rest s ({[name]} ∪ actual)
                | None => Misused
                end
              else
                match value, rest with
                | Some v, _ => match set t v s with Some s => Parse rest s ({[name]} ∪ actual) | None => Misused end
                | None, v :: rest => match set t v s with Some s => Parse rest s ({[name]} ∪ actual) | None => Misused end
                | None, [] => Misused
                end
          end
      end
  end.
End Parse.
End Flag.

(** ** Package [fmt] *)
Module Fmt.
(** The length of the UTF-8 encoding of a rune that starts with a byte. *)
Definition runeLength (a : ascii) : nat :=
  let n := nat_of_ascii a in
  (if n <? 192 then 1 else if n <? 224 then 2 else if n <? 240 then 3 else 4)%nat.

(** The length of the first field. *)
Fixpoint fieldLength (l : list ascii) : nat :=
  match l with
  | [] => O
  | _ :: tail => match Strings.leadingSpace Strings.spaces l with Some _ => O | None => S (fieldLength tail) end
  end.

(** [fmt.Scanln(&s)] on the lines that follow: the field read, and what is
    left.  When the line goes on after the field, one rune of the rest is
    consumed with the error, and the line ends where it ends. *)
Definition Scanln (lines : list string) : string * list string :=
  match lines with
  | [] => ("", [])
  | line :: lines =>
      let l := Strings.bytes line in
      let l := Strings.trimLeft Strings.spaces (length l) l in
      let field := take (fieldLength l) l in
      let rest := drop (fieldLength l) l in
      match Strings.trimLeft Strings.spaces (length rest) rest with
      | [] => (Strings.ofBytes field, lines)
      | (a :: _) as rest => (Strings.ofBytes field, Strings.ofBytes (drop (runeLength a) rest) :: lines)
      end
  end.
End Fmt.

Example scanln_1 : Fmt.Scanln ["  2 "; "5"] = ("2", ["5"]).
Proof. vm_compute. reflexivity. Qed.
Example scanln_2 : Fmt.Scanln ["2 abc"; "5"] = ("2", ["bc"; "5"]).
Proof. vm_compute. reflexivity. Qed.

(** ** Decimal text is a literal *)

Lemma pretty_head n s :
  (0 < n)%N → ∃ a l, Strings.bytes (pretty_N_go n s) = a :: l ∧ a ≠ "0"%char.
Proof.
  revert s. induction n as [n IH] using (well_founded_induction N.lt_wf_0). intros s Hn.
  rewrite pretty_N_go_step by done. destruct (decide (n < 10)%N) as [Hsmall|].
  - rewrite N.div_small, pretty_N_go_0, N.mod_small by done. eexists _, _. split; [done|].
    assert (n ∈ [1; 2; 3; 4; 5; 6; 7; 8; 9]%N) as Hd by (rewrite !elem_of_cons; lia).
    rewrite !elem_of_cons, elem_of_nil in Hd. by repeat destruct Hd as [->|Hd].
  - apply IH; [by apply N.div_lt|]. apply N.div_str_pos. lia.
Qed.

Lemma digit_bounds a d : Strconv.digit a = Some d → 0 ≤ d < 10.
Proof. unfold Strconv.digit. intros H. case_match; simplify_eq. bool_simpl. lia. Qed.

Lemma numeral_decimal l acc :
  Forall (λ a, is_Some (Strconv.digit a)) l → Literal.numeral 10 acc l = Strconv.digits acc l.
Proof.
  intros H. revert acc. induction H as [|a l [d Ha] _ IH]; intros acc; [done|].
  assert (a ≠ "_"%char) as Hne by (intros ->; done).
  assert (Literal.digitOf a = Some d) as Hd by (unfold Literal.digitOf; by rewrite Ha).
  pose proof (digit_bounds a d Ha) as [_ Hlt%Z.ltb_lt].
  transitivity (match Literal.digitOf a with
                | Some d => if d <? 10 then Literal.numeral 10 (10 * acc + d) l else None
                | None => None
                end); [by destruct a as [[] [] [] [] [] [] [] []]|].
  simpl. by rewrite Hd, Ha, Hlt, IH.
Qed.

Lemma separated_decimal hex last l :
  Forall (λ a, is_Some (Strconv.digit a)) l → last ≠ Literal.Underscore → Literal.separated hex last l = true.
Proof.
  intros H. revert last. induction H as [|a l Ha _ IH]; intros last Hlast; simpl; [by destruct last|].
  unfold Literal.isDecimal. rewrite bool_decide_eq_true_2 by done. by apply IH.
Qed.

(** A decimal text without a leading zero. *)
Lemma literal_digits a l :
  Forall (λ a, is_Some (Strconv.digit a)) (a :: l) → a ≠ "0"%char →
  Literal.splitBase (a :: l) = (10, a :: l) ∧ Literal.underscoreOK (a :: l) = true.
Proof.
  intros H Hne. split; [by destruct a as [[] [] [] [] [] [] [] []]|].
  transitivity (Literal.separated false Literal.Start (a :: l)); [by destruct a as [[] [] [] [] [] [] [] []]|].
  by apply separated_decimal.
Qed.

Lemma literal_positive p :
  ∃ a l, Strings.bytes (pretty_N_go (N.pos p) "") = a :: l
    ∧ a ≠ "+"%char ∧ a ≠ "-"%char ∧ Literal.splitBase (a :: l) = (10, a :: l) ∧ Literal.underscoreOK (a :: l) = true
    ∧ Literal.numeral 10 0 (a :: l) = Some (Z.pos p).
Proof.
  destruct (pretty_go_digits (N.pos p) "") as (l & Hl & Hall & _ & Hd). rewrite app_nil_r in Hl.
  destruct (pretty_head (N.pos p) "" ltac:(lia)) as (a & rest & Hrest & Hne). rewrite Hl in Hrest. subst l. rewrite Hrest in *.
  destruct (literal_digits a rest Hall Hne) as [Hbase Hok]. exists a, rest. split_and!; try done.
  - intros ->. apply Forall_cons in Hall as [[? [=]] _].
  - intros ->. apply Forall_cons in Hall as [[? [=]] _].
  - rewrite numeral_decimal by done. specialize (Hd []). by rewrite app_nil_r in Hd.
Qed.

(** What [strconv.Itoa] writes reads back with any base allowed. *)
Lemma literal_FormatInt n :
  - 2 ^ 63 ≤ n < 2 ^ 63 → Literal.ParseInt (Strconv.FormatInt n) = Some n.
Proof.
  intros H. destruct n as [|p|p]; [done| |].
  - destruct (literal_positive p) as (a & l & Hl & Hplus & Hminus & Hbase & Hok & Hn).
    change (Strconv.FormatInt (Z.pos p)) with (pretty_N_go (N.pos p) "").
    unfold Literal.ParseInt. rewrite Hl, (parse_sign_none a l Hplus Hminus), Hbase, Hn, Hok. cbn [negb].
    by rewrite (proj2 (Z.leb_gt _ _)) by (simpl; lia).
  - destruct (literal_positive p) as (a & l & Hl & _ & _ & Hbase & Hok & Hn).
    change (Strconv.FormatInt (Z.neg p)) with ("-" +:+ pretty_N_go (N.pos p) "").
    unfold Literal.ParseInt. rewrite bytes_app, Hl.
    change (Strings.bytes "-" ++ a :: l) with ("-"%char :: a :: l). cbv beta iota. rewrite Hbase, Hn, Hok. cbn [negb].
    by rewrite (proj2 (Z.ltb_ge _ _)) by lia.
Qed.

(** ** Flags as they are spelled *)

(** A name [Parse] reads as it is. *)
Definition plainName (name : string) : bool :=
  match Strings.bytes name with
  | [] => false
  | c :: tail => negb (bool_decide (c = "-"%char)) && negb (bool_decide (c = "="%char)) && bool_decide ("="%char ∉ tail)
  end.

Lemma named_plain name :
  plainName name = true → Flag.named (Strings.bytes name) = Flag.Named name None.
Proof.
  unfold plainName, Flag.named. intros H. destruct (Strings.bytes name) as [|c tail] eqn:E; [done|]. bool_simpl.
  rewrite !bool_decide_eq_false_2 by done. cbn [orb]. rewrite indexByte_None by done. by rewrite <- E, ofBytes_bytes.
Qed.

Lemma named_joined name v :
  plainName name = true → Flag.named (Strings.bytes (name +:+ "=" +:+ v)) = Flag.Named name (Some v).
Proof.
  unfold plainName, Flag.named. intros H. rewrite !bytes_app. destruct (Strings.bytes name) as [|c tail] eqn:E; [done|].
  bool_simpl. cbn [app]. rewrite !bool_decide_eq_false_2 by done. cbn [orb].
  change (Strings.bytes "=") with ["="%char]. cbn [app]. rewrite indexByte_app by done.
  rewrite take_app_length, <- E, ofBytes_bytes.
  change (tail ++ "="%char :: Strings.bytes v) with (tail ++ ["="%char] ++ Strings.bytes v).
  rewrite (assoc_L (++)), drop_app_length' by (rewrite length_app; simpl; lia). by rewrite ofBytes_bytes.
Qed.

(** One dash or two. *)
Lemma classify_dashes (two : bool) s a l :
  Strings.bytes s = a :: l → a ≠ "-"%char →
  Flag.classify ((if two then "--" else "-") +:+ s) = Flag.named (Strings.bytes s).
Proof.
  intros Hs Ha. unfold Flag.classify. rewrite bytes_app, Hs. destruct two; simpl; [done|].
  by rewrite bool_decide_eq_false_2.
Qed.

Lemma classify_plain two name :
  plainName name = true → Flag.classify ((if two : bool then "--" else "-") +:+ name) = Flag.Named name None.
Proof.
  intros H. rewrite <- (named_plain name H). unfold plainName in H.
  destruct (Strings.bytes name) as [|c tail] eqn:E; [done|]. bool_simpl. rewrite <- E. by eapply classify_dashes.
Qed.

Lemma classify_joined two name v :
  plainName name = true →
  Flag.classify ((if two : bool then "--" else "-") +:+ name +:+ "=" +:+ v) = Flag.Named name (Some v).
Proof.
  intros H. rewrite <- (named_joined name v H). unfold plainName in H.
  destruct (Strings.bytes name) as [|c tail] eqn:E; [done|]. bool_simpl.
  eapply (classify_dashes _ _ c); [by rewrite bytes_app, E|done].
Qed.
