(* ===== verification/Locale.v ===== *)
(** * The texts of the user interface

    locale.go and the two files it embeds (locales/en.json and
    locales/zh_CN.json), as [encoding/json] reads them. *)
From S2P Require Import Prelude GoStd GoFlag.

(** A map of texts; [None] is the nil map, in which every key has the empty
    text. *)
Definition messages : Type := option (gmap string string).

Definition message (m : messages) (key : string) : string :=
  match m with Some m => default "" (m !! key) | None => "" end.

(** locales/en.json *)
Definition english : list (string * string) := [
  ("language_name", "English");
  ("app.title", "mayoiga interactive setup");
  ("prompt.role", "Select this machine's role:");
  ("prompt.action", "Select an action:");
  ("prompt.instance", "Node instance name: ");
  ("prompt.segment", "Network segment [default]: ");
  ("prompt.kind", "Mapping kind (pull/publish): ");
  ("prompt.name", "Mapping name: ");
  ("prompt.listen", "Listen address (host:port): ");
  ("prompt.target", "Reachable target (host:port): ");
  ("prompt.target_node", "Target node ID: ");
  ("prompt.service", "Published service name: ");
  ("prompt.confirm", "Type yes to remove configuration: ");
  ("prompt.network", "Virtual network name [default]: ");
  ("prompt.node_name", "Node name [hostname]: ");
  ("prompt.coordinator_listen", "Coordinator public listen address (host:port): ");
  ("prompt.admin_listen", "Local admin listen address (loopback host:port): ");
  ("prompt.connection_wait", "Maximum connection inbox wait, seconds: ");
  ("prompt.connection_ttl", "Connection request lifetime, seconds: ");
  ("prompt.connection_lease", "Connection offer lease, seconds: ");
  ("prompt.connection_capacity", "Maximum stored connection requests: ");
  ("prompt.transit_listen", "Relay transit listen address (host:port): ");
  ("prompt.transit_endpoint", "Reachable relay transit endpoint (host:port): ");
  ("prompt.upstream_relay_node", "Upstream relay node ID: ");
  ("prompt.upstream_relay_endpoint", "Reachable upstream relay endpoint (host:port): ");
  ("prompt.upstream_relay_pin", "Upstream relay certificate SHA-256: ");
  ("prompt.upstream_relay_token", "Upstream relay admission token: ");
  ("prompt.relay_priority", "Relay priority, lower is preferred [100]: ");
  ("prompt.coordinator", "Upstream coordinator HTTPS URL (empty for none): ");
  ("prompt.coordinator_pin", "Coordinator certificate SHA-256: ");
  ("prompt.device_code", "One-time device code: ");
  ("prompt.replace_existing", "Allow replacing an existing credential? Type yes to confirm: ");
  ("prompt.node_id", "Authorized node ID to revoke: ");
  ("prompt.request_id", "Connection request ID: ");
  ("prompt.reason", "Reason (optional): ");
  ("role.client", "client");
  ("role.relay", "relay");
  ("role.subnode", "subnode");
  ("role.coordinator", "coordinator");
  ("action.add_node", "add node");
  ("action.list_nodes", "list local nodes");
  ("action.configure_node", "configure node");
  ("action.delete_node", "delete node");
  ("action.status", "status");
  ("action.start", "start");
  ("action.stop", "stop");
  ("action.add", "add mapping");
  ("action.remove", "remove mapping");
  ("action.quit", "quit");
  ("action.sync", "sync discovery");
  ("action.nodes", "list discovered nodes");
  ("action.handshakes", "handshake requests/history");
  ("action.audit", "security audit log");
  ("action.approve", "approve device code");
  ("action.reject", "reject device code");
  ("action.revoke", "revoke node credential");
  ("action.request_connection", "request connection");
  ("action.wait_connection", "wait for connection decision");
  ("action.connection_status", "connection request status");
  ("action.connection_inbox", "connection request inbox");
  ("action.accept_connection", "accept connection request");
  ("action.reject_connection", "reject connection request");
  ("action.cancel_connection", "cancel connection request");
  ("action.service_install", "install node manager service");
  ("action.service_run", "run node manager in foreground");
  ("action.service_start", "start node manager service");
  ("action.service_stop", "stop node manager service");
  ("action.service_status", "node manager service status");
  ("action.service_uninstall", "uninstall node manager service");
  ("error.node_signature_invalid", "The node credential is invalid, revoked, or its clock differs by more than two minutes.");
  ("error.connection_node_inactive", "The source or target node is offline or has not completed discovery.");
  ("error.published_service_missing", "The target does not currently publish the requested service.");
  ("error.return_relay_invalid", "The requested return relay is not active in the source segment.");
  ("error.connection_capacity_reached", "The coordinator connection-request capacity is full; retry later.");
  ("error.connection_target_queue_full", "The target already has too many pending connection requests.");
  ("error.connection_request_missing", "The connection request no longer exists or has expired.");
  ("error.connection_decision_forbidden", "Only the target node may accept or reject this connection request.");
  ("error.connection_cancel_forbidden", "Only the source node may cancel this connection request.");
  ("error.connection_state_terminal", "This connection request has already reached a final state.");
  ("error.connection_reason_too_long", "The connection reason must be at most 512 characters.");
  ("error.enrollment_reason_too_long", "The enrollment reason must be at most 512 characters.");
  ("error.enrollment_missing_or_expired", "The enrollment request was not found or has expired; configure the node to request a new code.");
  ("error.enrollment_rejected", "The coordinator rejected this enrollment request.");
  ("error.node_credential_conflict", "This node ID already has a different credential; explicit replacement is required.");
  ("error.handshake_invalid", "The relay handshake is invalid or incomplete.");
  ("error.source_unauthorized", "The relay could not verify the source node credential.");
  ("error.source_route_denied", "This subnode is assigned to a different upstream relay.");
  ("error.reverse_unexpected", "The reverse connection request is no longer pending; retry the pull.");
  ("error.mode_unsupported", "The relay does not support this handshake mode.");
  ("error.target_service_missing", "The target node or published service is unavailable.");
  ("error.cross_segment_denied", "This source is not authorized for cross-segment relay routing.");
  ("error.target_unavailable", "No authenticated path to the target service is currently available.");
  ("error.coordinator_tunnel_unauthorized", "The relay admission token is missing, invalid, or not assigned to this subnode.");
  ("error.coordinator_tunnel_busy", "The relay is busy serving coordinator tunnels; retry shortly.");
  ("error.coordinator_tunnel_unavailable", "The relay has no valid upstream coordinator configuration.");
  ("error.coordinator_unavailable", "The relay cannot reach its configured coordinator.")
].

(** locales/zh_CN.json *)
Definition chinese : list (string * string) := [
  ("language_name", "简体中文");
  ("app.title", "mayoiga 交互式部署向导");
  ("prompt.role", "选择当前机器角色：");
  ("prompt.action", "选择操作：");
  ("prompt.instance", "节点实例名称：");
  ("prompt.segment", "网络分段 [default]：");
  ("prompt.kind", "映射类型（pull/publish）：");
  ("prompt.name", "映射名称：");
  ("prompt.listen", "监听地址（主机:端口）：");
  ("prompt.target", "本机可访问的目标（主机:端口）：");
  ("prompt.target_node", "目标节点 ID：");
  ("prompt.service", "已发布服务名称：");
  ("prompt.confirm", "输入 yes 删除配置：");
  ("prompt.network", "虚拟组网名称 [default]：");
  ("prompt.node_name", "节点名称 [当前主机名]：");
  ("prompt.coordinator_listen", "协调服务器公网监听地址（主机:端口）：");
  ("prompt.admin_listen", "本机管理接口监听地址（回环主机:端口）：");
  ("prompt.connection_wait", "连接收件箱最长等待秒数：");
  ("prompt.connection_ttl", "连接请求有效秒数：");
  ("prompt.connection_lease", "连接投递租约秒数：");
  ("prompt.connection_capacity", "连接请求最大存储数量：");
  ("prompt.transit_listen", "中继入口监听地址（主机:端口）：");
  ("prompt.transit_endpoint", "外部可达的中继入口（主机:端口）：");
  ("prompt.upstream_relay_node", "上游中继节点 ID：");
  ("prompt.upstream_relay_endpoint", "可达的上游中继入口（主机:端口）：");
  ("prompt.upstream_relay_pin", "上游中继证书 SHA-256：");
  ("prompt.upstream_relay_token", "上游中继准入令牌：");
  ("prompt.relay_priority", "中继优先级，数值越小越优先 [100]：");
  ("prompt.coordinator", "上游协调服务器 HTTPS 地址（留空则不设置）：");
  ("prompt.coordinator_pin", "协调服务器证书 SHA-256：");
  ("prompt.device_code", "一次性设备码：");
  ("prompt.replace_existing", "允许替换已有节点凭据吗？输入 yes 确认：");
  ("prompt.node_id", "要吊销凭据的节点 ID：");
  ("prompt.request_id", "连接请求 ID：");
  ("prompt.reason", "原因（可选）：");
  ("role.client", "客户端");
  ("role.relay", "可选中继");
  ("role.subnode", "亚节点");
  ("role.coordinator", "协调端");
  ("action.add_node", "添加节点");
  ("action.list_nodes", "查看本机节点列表");
  ("action.configure_node", "修改节点配置");
  ("action.delete_node", "删除节点");
  ("action.status", "查看状态");
  ("action.start", "启动");
  ("action.stop", "停止");
  ("action.add", "添加映射");
  ("action.remove", "删除映射");
  ("action.quit", "退出");
  ("action.sync", "立即同步节点");
  ("action.nodes", "查看已发现节点");
  ("action.handshakes", "查看握手申请与历史");
  ("action.audit", "查看安全审计日志");
  ("action.approve", "批准设备码");
  ("action.reject", "拒绝设备码");
  ("action.revoke", "吊销节点凭据");
  ("action.request_connection", "发起连接请求");
  ("action.wait_connection", "等待连接决定");
  ("action.connection_status", "查看连接请求状态");
  ("action.connection_inbox", "查看连接请求收件箱");
  ("action.accept_connection", "接受连接请求");
  ("action.reject_connection", "拒绝连接请求");
  ("action.cancel_connection", "取消连接请求");
  ("action.service_install", "安装节点管理服务");
  ("action.service_run", "前台运行节点管理器");
  ("action.service_start", "启动节点管理服务");
  ("action.service_stop", "停止节点管理服务");
  ("action.service_status", "查看节点管理服务状态");
  ("action.service_uninstall", "卸载节点管理服务");
  ("error.node_signature_invalid", "节点凭据无效、已被吊销，或本机时钟与协调服务器相差超过两分钟。");
  ("error.connection_node_inactive", "源节点或目标节点离线，或尚未完成发现同步。");
  ("error.published_service_missing", "目标节点当前没有发布所请求的服务。");
  ("error.return_relay_invalid", "指定的返回中继不在源网段中处于活动状态。");
  ("error.connection_capacity_reached", "协调服务器的连接请求容量已满，请稍后重试。");
  ("error.connection_target_queue_full", "目标节点已有过多待处理连接请求。");
  ("error.connection_request_missing", "连接请求不存在或已过期。");
  ("error.connection_decision_forbidden", "只有目标节点可以接受或拒绝此连接请求。");
  ("error.connection_cancel_forbidden", "只有源节点可以取消此连接请求。");
  ("error.connection_state_terminal", "此连接请求已进入最终状态。");
  ("error.connection_reason_too_long", "连接原因最多只能包含 512 个字符。");
  ("error.enrollment_reason_too_long", "入网申请原因最多只能包含 512 个字符。");
  ("error.enrollment_missing_or_expired", "入网申请不存在或已过期；请重新配置节点以获取新的设备码。");
  ("error.enrollment_rejected", "协调服务器已拒绝此入网申请。");
  ("error.node_credential_conflict", "此节点 ID 已有不同凭据；必须明确允许替换。");
  ("error.handshake_invalid", "中继握手无效或不完整。");
  ("error.source_unauthorized", "中继无法验证源节点凭据。");
  ("error.source_route_denied", "此亚节点被分配给了其他上游中继。");
  ("error.reverse_unexpected", "反向连接请求已不再等待中；请重新发起 pull。");
  ("error.mode_unsupported", "中继不支持该握手模式。");
  ("error.target_service_missing", "目标节点或已发布服务不可用。");
  ("error.cross_segment_denied", "此源节点无权使用跨网段网关路由。");
  ("error.target_unavailable", "当前没有到达目标服务的已认证路径。");
  ("error.coordinator_tunnel_unauthorized", "中继准入令牌缺失、无效，或未分配给此亚节点。");
  ("error.coordinator_tunnel_busy", "中继正在处理过多协调通道，请稍后重试。");
  ("error.coordinator_tunnel_unavailable", "中继没有有效的上游协调服务器配置。");
  ("error.coordinator_unavailable", "中继无法连接其配置的协调服务器。")
].

(** What [localeFiles] holds. *)
Definition localeFile (name : string) : option (list (string * string)) :=
  if (name =? "en")%string then Some english
  else if (name =? "zh_CN")%string then Some chinese
  else None.

(** The map, and whether the error is nil.  The result is read after the call
    that fills it, as the compiler orders the two. *)
Definition loadLocale (name : string) : messages * bool :=
  match localeFile name with
  | Some texts => (Some (list_to_map texts), true)
  | None => (None, false)
  end.

(** [active] is the variable [activeMessages]. *)
Definition localizedError (active : messages) (code fallback : string) : string :=
  let text := message active ("error." +:+ code) in
  if negb (text =? "")%string then text else fallback.

(** What it prints is left out; the answer is read from the lines typed. *)
Definition chooseLanguage (lines : list string) : string * list string :=
  let '(selection, lines) := Fmt.Scanln lines in
  (if (selection =? "2")%string then "zh_CN" else "en", lines).

(** ** Both files *)

(** The files have the same keys, each once, and no empty text. *)
Theorem locales_agree :
  english.*1 ≡ₚ chinese.*1 ∧ NoDup english.*1 ∧ Forall (λ kv, kv.2 ≠ "") (english ++ chinese).
Proof. split_and!; apply (bool_decide_unpack _); by vm_compute. Qed.

Lemma localizedError_unknown name code fallback :
  (loadLocale name).2 = false → localizedError (loadLocale name).1 code fallback = fallback.
Proof. unfold loadLocale. by destruct (localeFile name). Qed.
