(* ===== verification/Envelope.v ===== *)
(** * Errors on the wire

    coordinator_http.go on bytes: structuredResponseWriter, which captures what
    a handler writes, serveStructured around it, and coordinatorResponseError,
    with which a node reads an error back.  [Wire.serveStructured] says the same
    on values. *)
From S2P Require Import Prelude GoStd GoNet GoCrypto Types Runtime Wire Locale.

Local Open Scope Z_scope.

(** ** The captured response *)

Record structuredResponseWriter := mkCaptured { sw_status : Z; sw_body : string }.

Definition WriteHeader (status : Z) (w : structuredResponseWriter) : structuredResponseWriter :=
  if sw_status w =? 0 then mkCaptured status (sw_body w) else w.

Definition Write (text : string) (w : structuredResponseWriter) : structuredResponseWriter :=
  mkCaptured (if sw_status w =? 0 then 200 else sw_status w) (sw_body w +:+ text).

(** What a handler calls on its writer. *)
Inductive writerCall := CallWriteHeader (status : Z) | CallWrite (text : string).

Definition called (w : structuredResponseWriter) (c : writerCall) : structuredResponseWriter :=
  match c with CallWriteHeader status => WriteHeader status w | CallWrite text => Write text w end.

Definition capture (calls : list writerCall) : structuredResponseWriter := foldl called (mkCaptured 0 "") calls.

(** [encoding/json] on the values the coordinator writes and on the envelope.
    A text of ASCII characters is read back as it was, and a byte takes at
    most six in a JSON string. *)
Class WireCodec := {
  encodePayload : payload → string;
  encodeEnvelope : apiErrorResponse → string;
  decodeEnvelope : string → option apiErrorResponse;
  envelope_roundtrip : ∀ e, Strings.isASCII (ae_Code e) = true → Strings.isASCII (ae_Message e) = true →
    decodeEnvelope (encodeEnvelope e) = Some e;
  envelope_length : ∀ e,
    (String.length (encodeEnvelope e) ≤ 25 + 6 * (String.length (ae_Code e) + String.length (ae_Message e)))%nat;
}.

(** Why a request to the coordinator failed, as far as the response says. *)
Inductive responseError := CoordinatorError (code message : string) | RequestFailed (message : string).

Section Envelope.
Context {codec : WireCodec}.

(** The calls of [http.Error] and of [writeJSON]. *)
Definition writerCalls (r : response) : list writerCall :=
  [CallWriteHeader (rs_Status r);
   CallWrite (match rs_Body r with Text s => s | Encoded p => encodePayload p end)].

(** [serveStructured]: the status and the bytes that leave. *)
Definition serveCaptured (calls : list writerCall) : Z * string :=
  let captured := capture calls in
  let status := if sw_status captured =? 0 then 200 else sw_status captured in
  if 400 <=? status then
    let message := Strings.TrimSpace (sw_body captured) in
    let message := if (message =? "")%string then statusText status else message in
    (status, encodeEnvelope (mkApiErrorResponse (apiErrorCode status message) message))
  else (status, sw_body captured).

Definition maxErrorBody : nat := 4096.

(** [coordinatorResponseError] on a status, [response.Status] and a body. *)
Definition coordinatorResponseError (active : messages) (status : Z) (statusLine body : string) : responseError :=
  let body := Strings.ofBytes (take maxErrorBody (Strings.bytes body)) in
  let failed :=
    let message := Strings.TrimSpace body in
    RequestFailed (if (message =? "")%string then statusLine else message) in
  match decodeEnvelope body with
  | None => failed
  | Some remote =>
      if (ae_Code remote =? "")%string then failed else
      let message := Strings.TrimSpace (ae_Message remote) in
      let message := if (message =? "")%string then statusText status else message in
      CoordinatorError (ae_Code remote) (localizedError active (ae_Code remote) message)
  end.

(** ** The bytes and the values *)

Definition wireBytes (b : wireBody) : string :=
  match b with
  | ErrorEnvelope e => encodeEnvelope e
  | Passed (Text s) => s
  | Passed (Encoded p) => encodePayload p
  end.

(** The first status wins, whatever a handler calls afterwards. *)
Lemma capture_status calls w : sw_status w ≠ 0 → sw_status (foldl called w calls) = sw_status w.
Proof.
  revert w. induction calls as [|c calls IH]; intros w Hw; simpl; [done|].
  apply Z.eqb_neq in Hw as Hw'.
  assert (sw_status (called w c) = sw_status w) as Hc by (destruct c; simpl; unfold WriteHeader, Write; by rewrite Hw').
  rewrite IH; [done|]. by rewrite Hc.
Qed.

(** What a handler writes before any status is sent with 200. *)
Lemma capture_write_first text calls : sw_status (capture (CallWrite text :: calls)) = 200.
Proof. unfold capture. simpl. by rewrite capture_status. Qed.

Lemma capture_response r :
  rs_Status r ≠ 0 →
  capture (writerCalls r) = mkCaptured (rs_Status r) (match rs_Body r with Text s => s | Encoded p => encodePayload p end).
Proof.
  intros H%Z.eqb_neq. unfold capture, writerCalls. simpl. unfold WriteHeader, Write. simpl. by rewrite H.
Qed.

(** [Wire.serveStructured] is the function on bytes; the value of a
    [writeJSON] never goes with an error. *)
Lemma serveCaptured_structured r :
  rs_Status r ≠ 0 → (rs_Status r < 400 ∨ ∃ s, rs_Body r = Text s) →
  serveCaptured (writerCalls r) = ((serveStructured (Some r)).1, wireBytes (serveStructured (Some r)).2).
Proof.
  intros Hz Hr. unfold serveCaptured. rewrite capture_response by done. apply Z.eqb_neq in Hz. cbn -[statusText apiErrorCode].
  rewrite Hz. unfold serveStructured. destruct (400 <=? rs_Status r) eqn:Hs; bool_simpl.
  - destruct Hr as [?|[s Hb]]; [lia|]. by rewrite Hb.
  - simpl. by destruct (rs_Body r).
Qed.

(** ** Codes *)

Lemma apiErrorCode_cases status message :
  apiErrorCode status message ∈ knownErrors.*2 ++ ["authentication_failed"; "access_denied"; "resource_not_found";
    "request_conflict"; "request_rate_limited"; "service_unavailable"; "request_failed"].
Proof.
  unfold apiErrorCode. destruct ((list_to_map knownErrors : gmap string string) !! message) as [code|] eqn:E.
  - apply elem_of_list_to_map_2 in E. apply elem_of_app. left. by apply (list_elem_of_fmap_2 snd _ (message, code)).
  - apply elem_of_app. right. clear E. rewrite !elem_of_cons. repeat (case_match; [tauto|]). tauto.
Qed.

(** A code is a short ASCII word. *)
Lemma apiErrorCode_word status message :
  let code := apiErrorCode status message in
  code ≠ "" ∧ Strings.isASCII code = true ∧ (String.length code ≤ 32)%nat.
Proof.
  set (word code := negb (code =? "")%string && Strings.isASCII code && (String.length code <=? 32)%nat).
  assert (forallb word (knownErrors.*2 ++ ["authentication_failed"; "access_denied"; "resource_not_found";
    "request_conflict"; "request_rate_limited"; "service_unavailable"; "request_failed"]) = true) as Hall by (by vm_compute).
  rewrite forallb_forall in Hall. pose proof (Hall _ (proj1 (list_elem_of_In _ _) (apiErrorCode_cases status message))) as H.
  unfold word in H. bool_simpl. split_and!; [done..|]. by apply Nat.leb_le.
Qed.

Lemma apiErrorCode_known status text code : (text, code) ∈ knownErrors → apiErrorCode status text = code.
Proof.
  intros Hin. unfold apiErrorCode. rewrite (elem_of_list_to_map_1 knownErrors text code); [done| |done].
  by apply (bool_decide_unpack _).
Qed.

Lemma knownErrors_plain text code :
  (text, code) ∈ knownErrors →
  Strings.TrimSpace (text +:+ Strings.ofBytes [ascii_of_nat 10]) = text ∧ text ≠ ""
  ∧ Strings.isASCII text = true ∧ (String.length text ≤ 600)%nat.
Proof.
  set (plain (kv : string * string) := (Strings.TrimSpace (kv.1 +:+ Strings.ofBytes [ascii_of_nat 10]) =? kv.1)%string
    && negb (kv.1 =? "")%string && Strings.isASCII kv.1 && (String.length kv.1 <=? 600)%nat).
  assert (forallb plain knownErrors = true) as Hall by (by vm_compute). intros Hin.
  rewrite forallb_forall in Hall. pose proof (Hall _ (proj1 (list_elem_of_In _ _) Hin)) as H.
  unfold plain in H. cbn [fst] in H. bool_simpl. split_and!; [done..|]. by apply Nat.leb_le.
Qed.

(** ** Reading an envelope back *)

(** What the coordinator says when a handler's text is [text]. *)
Definition errorText (status : Z) (text : string) : string :=
  let message := Strings.TrimSpace text in
  if (message =? "")%string then statusText status else message.

Lemma statusText_cases (P : string → Prop) status :
  (∀ text, text ∈ [""; "OK"; "Created"; "Bad Request"; "Unauthorized"; "Forbidden"; "Not Found"; "Conflict"; "Gone";
                   "Too Many Requests"; "Internal Server Error"; "Service Unavailable"] → P text) → P (statusText status).
Proof.
  intros H. unfold statusText.
  repeat match goal with |- context [match ?p with _ => _ end] => is_var p; destruct p end;
    apply H; apply (bool_decide_unpack _); exact I.
Qed.

Lemma statusText_trimmed status : Strings.TrimSpace (statusText status) = statusText status.
Proof.
  apply (statusText_cases (λ text, Strings.TrimSpace text = text)), Forall_forall.
  repeat (constructor; [by vm_compute|]). constructor.
Qed.

Lemma errorText_trimmed status text :
  let m := errorText status text in
  (if (Strings.TrimSpace m =? "")%string then statusText status else Strings.TrimSpace m) = m.
Proof.
  cbv zeta. unfold errorText. cbv zeta. destruct (Strings.TrimSpace text =? "")%string eqn:E.
  - rewrite statusText_trimmed. by destruct (statusText status =? "")%string.
  - rewrite TrimSpace_idem, E. done.
Qed.

Lemma envelope_read active status statusLine text :
  Strings.isASCII (errorText status text) = true → (String.length (errorText status text) ≤ 600)%nat →
  let m := errorText status text in
  coordinatorResponseError active status statusLine (encodeEnvelope (mkApiErrorResponse (apiErrorCode status m) m))
  = CoordinatorError (apiErrorCode status m) (localizedError active (apiErrorCode status m) m).
Proof.
  intros Hascii Hlen m. destruct (apiErrorCode_word status m) as (Hne & Hcode & Hcl).
  set (e := mkApiErrorResponse _ _). pose proof (envelope_length e) as Hbound.
  unfold coordinatorResponseError. rewrite take_ge, ofBytes_bytes.
  2:{ rewrite bytes_length. unfold maxErrorBody. fold m in Hlen. subst e. cbn [ae_Code ae_Message] in Hbound. lia. }
  rewrite envelope_roundtrip by done. subst e. cbn [ae_Code ae_Message]. apply String.eqb_neq in Hne. rewrite Hne.
  cbv zeta. pose proof (errorText_trimmed status text) as Htrim. cbv zeta in Htrim. fold m in Htrim. by rewrite Htrim.
Qed.
End Envelope.

(** C18. A node recovers what the coordinator refused with: of every error a
    handler gives to [http.Error] with an ASCII text of at most 600 bytes, the
    response the coordinator sends carries the handler's status, and the node's
    error has the code of that text and the text without its white space (or
    the text of the status), translated when the active locale has the code.
    The texts of the table of known errors are recovered with their code,
    whatever the status. *)
Theorem coordinator_error_roundtrip {codec : WireCodec} active status statusLine text :
  400 ≤ status →
  let '(sent, bytes) := serveCaptured (writerCalls (httpError text status)) in
  let m := errorText status (text +:+ Strings.ofBytes [ascii_of_nat 10]) in
  let code := apiErrorCode status m in
  sent = status
  ∧ (Strings.isASCII m = true → (String.length m ≤ 600)%nat →
     coordinatorResponseError active sent statusLine bytes = CoordinatorError code (localizedError active code m))
  ∧ (∀ known, (text, known) ∈ knownErrors →
     coordinatorResponseError active sent statusLine bytes = CoordinatorError known (localizedError active known text)).
Proof.
  intros Hs. destruct (serveCaptured _) as [sent bytes] eqn:E. unfold serveCaptured in E.
  rewrite capture_response in E by (cbn [rs_Status httpError]; lia). cbn [sw_status sw_body rs_Status rs_Body httpError] in E.
  rewrite (proj2 (Z.eqb_neq status 0)), (proj2 (Z.leb_le 400 status)) in E by lia.
  set (line := text +:+ Strings.ofBytes [ascii_of_nat 10]) in *.
  change (if (Strings.TrimSpace line =? "")%string then statusText status else Strings.TrimSpace line)
    with (errorText status line) in E.
  injection E as <- <-. cbv zeta. split; [done|]. split; [by apply envelope_read|].
  intros known Hin. destruct (knownErrors_plain _ _ Hin) as (Htrim & Hne%String.eqb_neq & Hascii & Hlen).
  assert (errorText status line = text) as Hm by (unfold errorText; cbv zeta; unfold line; by rewrite Htrim, Hne).
  rewrite envelope_read by (by rewrite Hm). rewrite Hm. by rewrite (apiErrorCode_known status text known Hin).
Qed.

(** The known errors for which the locales have no text. *)
Theorem untranslated_errors name :
  name ∈ ["en"; "zh_CN"] →
  list_to_set (filter (λ code, message (loadLocale name).1 ("error." +:+ code) = "") knownErrors.*2)
  =@{gset string} {["request_body_invalid"; "request_json_invalid"; "node_identity_invalid"; "node_rate_limited";
    "request_rate_limited"; "node_not_active"; "inbox_wait_already_active"; "inbox_cursor_invalid";
    "connection_request_hidden"; "enrollment_already_approved"; "admin_authentication_failed"]}.
Proof. intros H. repeat (apply elem_of_cons in H as [->|H]; [apply (bool_decide_unpack _); by vm_compute|]). by apply not_elem_of_nil in H. Qed.

(** ** A codec *)

(** Every byte of the code after a mark, a bar, and the message. *)
Fixpoint marked (l : list ascii) : list ascii :=
  match l with [] => ["|"%char] | a :: l => "x"%char :: a :: marked l end.
Fixpoint unmark (l : list ascii) : option (list ascii * list ascii) :=
  match l with
  | ("x" :: a :: l)%char => match unmark l with Some (code, message) => Some (a :: code, message) | None => None end
  | ("|" :: l)%char => Some ([], l)
  | _ => None
  end.

Lemma unmark_marked l message : unmark (marked l ++ message) = Some (l, message).
Proof. induction l as [|a l IH]; simpl; [done|]. by rewrite IH. Qed.

Lemma marked_length l : length (marked l) = S (2 * length l).
Proof. induction l as [|a l IH]; simpl; [done|]. rewrite IH. lia. Qed.

#[refine] Definition demoCodec : WireCodec := {|
  encodePayload := λ _, "{}";
  encodeEnvelope := λ e, Strings.ofBytes (marked (Strings.bytes (ae_Code e)) ++ Strings.bytes (ae_Message e));
  decodeEnvelope := λ s, match unmark (Strings.bytes s) with
                         | Some (code, message) => Some (mkApiErrorResponse (Strings.ofBytes code) (Strings.ofBytes message))
                         | None => None
                         end |}.
Proof.
  - intros [code m] _ _. simpl. by rewrite bytes_ofBytes, unmark_marked, !ofBytes_bytes.
  - intros [code m]. simpl. rewrite <- bytes_length, bytes_ofBytes, length_app, marked_length, !bytes_length. lia.
Defined.

Lemma coordinator_error_roundtrip_witness :
  400 ≤ 503 ∧
  coordinatorResponseError (codec := demoCodec) (loadLocale "en").1 503 "503 Service Unavailable"
    (serveCaptured (codec := demoCodec) (writerCalls (codec := demoCodec) (httpError "target connection queue is full" 503))).2
  = CoordinatorError "connection_target_queue_full" "The target already has too many pending connection requests.".
Proof.
  split; [lia|].
  assert (localizedError (loadLocale "en").1 "connection_target_queue_full" "target connection queue is full"
    = "The target already has too many pending connection requests.") as <- by (by vm_compute).
  pose proof (coordinator_error_roundtrip (codec := demoCodec) (loadLocale "en").1 503 "503 Service Unavailable"
    "target connection queue is full" ltac:(lia)) as H.
  destruct (serveCaptured _) as [sent bytes]. destruct H as (Hsent & _ & H). rewrite <- Hsent at 1. apply H.
  do 11 right. left.
Defined.
