(* ===== verification/Profile.v ===== *)
(** * Profiles and node configuration

    The persistent configuration of a node instance (profile.go), what the
    manager accepts of it (service_profiles.go), the listener conflicts over
    the instances of a host (node_manager.go), and the configuration actions
    that change it (node_config.go).  A function that returns only an
    [error] is a boolean, [true] when the error is nil; one that returns a
    value and an [error] is an [option]. *)
From S2P Require Import Prelude GoStd GoNet GoCrypto Types Runtime Validate.

Local Open Scope Z_scope.

(** ** Data *)

Record nodeConfig := mkNodeConfig { nd_ID : string; nd_Name : string }.

Record coordinatorClient := mkCoordinatorClient {
  cl_URL : string;
  cl_PinnedSHA256 : string;
  cl_Credential : option nodeCredential;
  cl_Enrollment : option enrollmentState;
}.

Record coordinatorServer := mkCoordinatorServer {
  sv_Listen : string;
  sv_AdminListen : string;
  sv_AdminToken : string;
  sv_Certificate : string;
  sv_Key : string;
  sv_PinnedSHA256 : string;
  sv_ConnectionWaitSeconds : Z;
  sv_ConnectionRequestTTLSeconds : Z;
  sv_ConnectionOfferLeaseSeconds : Z;
  sv_ConnectionMaxPending : Z;
}.

Record relayConfig := mkRelayConfig {
  rl_Listen : string;
  rl_Endpoint : string;
  rl_Priority : Z;
  rl_Certificate : string;
  rl_Key : string;
  rl_PinnedSHA256 : string;
  rl_AdmissionTokenHash : string;
}.

Record subnodeConfig := mkSubnodeConfig {
  sn_RelayNodeID : string;
  sn_RelayEndpoint : string;
  sn_RelayPinnedSHA256 : string;
  sn_RelayToken : string;
}.

Record mapping := mkMapping {
  mp_Name : string;
  mp_Kind : string;
  mp_Listen : string;
  mp_Target : string;
  mp_TargetNode : string;
  mp_Service : string;
  mp_Upstream : string;
  mp_UUID : string;
  mp_UpstreamUUID : string;
  mp_Certificate : string;
  mp_Key : string;
  mp_PinnedSHA256 : string;
  mp_CertificateSHA256 : string;
}.

Record profile := mkProfile {
  pf_Version : Z;
  pf_Instance : string;
  pf_Disabled : bool;
  pf_Role : string;
  pf_Segment : string;
  pf_VirtualNetwork : string;
  pf_Node : nodeConfig;
  pf_Coordinator : coordinatorClient;
  pf_Server : coordinatorServer;
  pf_Relay : relayConfig;
  pf_Subnode : subnodeConfig;
  pf_Mappings : list mapping;
}.

Definition noCoordinator : coordinatorClient := mkCoordinatorClient "" "" None None.
Definition noServer : coordinatorServer := mkCoordinatorServer "" "" "" "" "" "" 0 0 0 0.
Definition noRelay : relayConfig := mkRelayConfig "" "" 0 "" "" "" "".
Definition noSubnode : subnodeConfig := mkSubnodeConfig "" "" "" "".

Definition setMappings (l : list mapping) (p : profile) : profile :=
  mkProfile (pf_Version p) (pf_Instance p) (pf_Disabled p) (pf_Role p) (pf_Segment p) (pf_VirtualNetwork p)
    (pf_Node p) (pf_Coordinator p) (pf_Server p) (pf_Relay p) (pf_Subnode p) l.

Definition profileVersion : Z := 8.

Definition validNodeRole (role : string) : bool :=
  bool_decide (role ∈ ["client"; "relay"; "subnode"; "coordinator"]).

(** The profile of a file that does not exist. *)
Definition defaultProfile : profile :=
  mkProfile profileVersion "" false "client" "default" "default" (mkNodeConfig "" "")
    noCoordinator noServer noRelay noSubnode [].

(** ** Coordinator URLs *)

(** A parsed URL ([url.URL]); [ur_User] says whether user information is
    present. *)
Record url := mkUrl {
  ur_Scheme : string;
  ur_User : bool;
  ur_Host : string;
  ur_Path : string;
  ur_RawQuery : string;
  ur_Fragment : string;
}.

(** [url.Parse]. *)
Class Urls := parseURL : string → option url.

(** [url.splitHostPort], which [Hostname] and [Port] use: an optional port
    of digits only, and the brackets of an IPv6 host. *)
Definition validOptionalPort (l : list ascii) : bool :=
  match l with
  | [] => true
  | c :: l => bool_decide (c = Net.colon) && forallb (λ a, bool_decide (is_Some (Strconv.digit a))) l
  end.

Definition splitURLHost (hostPort : string) : string * string :=
  let l := Strings.bytes hostPort in
  let '(host, port) :=
    match Strings.lastIndexByte Net.colon l with
    | Some i => if validOptionalPort (drop i l) then (take i l, drop (S i) l) else (l, [])
    | None => (l, [])
    end in
  let host := match host, last host with
              | c :: rest, Some d =>
                  if bool_decide (c = Net.lbracket) && bool_decide (d = Net.rbracket) && negb (bool_decide (rest = []))
                  then take (length rest - 1) rest else host
              | _, _ => host
              end in
  (Strings.ofBytes host, Strings.ofBytes port).

Definition validateCoordinatorURL `{Urls} (raw : string) : bool :=
  match parseURL raw with
  | None => false
  | Some u =>
      if negb (ur_Scheme u =? "https")%string || (ur_Host u =? "")%string || ur_User u
         || (negb (ur_Path u =? "")%string && negb (ur_Path u =? "/")%string)
         || negb (ur_RawQuery u =? "")%string || negb (ur_Fragment u =? "")%string
      then false
      else
        let '(hostname, port) := splitURLHost (ur_Host u) in
        if (hostname =? "")%string || (port =? "")%string then false
        else
          let '(number, ok) := Strconv.Atoi port in
          ok && negb ((number <? 1) || (65535 <? number))
  end.

(** ** What the manager accepts *)

Section Managed.
(** [regularFile path]: [os.Stat] finds a regular file. *)
Context {unicode : Unicode} {urls : Urls} (regularFile : string → bool).

Definition validateManagedFile (path : string) : bool :=
  if (path =? "")%string then false else regularFile path.

(** One iteration of the loop over the mappings, after the name. *)
Definition validMapping (m : mapping) : bool :=
  validateHostPort (mp_Listen m)
  && (if (mp_Kind m =? "publish")%string then
        validateHostPort (mp_Target m)
        && negb ((mp_UUID m =? "")%string || negb (validSHA256Pin (mp_CertificateSHA256 m)))
        && validateManagedFile (mp_Certificate m) && validateManagedFile (mp_Key m)
      else if (mp_Kind m =? "pull")%string then
        if negb (mp_TargetNode m =? "")%string then negb (mp_Service m =? "")%string
        else validateHostPort (mp_Upstream m)
             && negb ((mp_UUID m =? "")%string || negb (validSHA256Pin (mp_PinnedSHA256 m)))
      else false).

Fixpoint validMappings (names : gset string) (l : list mapping) : bool :=
  match l with
  | [] => true
  | m :: l =>
      if (mp_Name m =? "")%string then false
      else if bool_decide (mp_Name m ∈ names) then false
      else validMapping m && validMappings ({[mp_Name m]} ∪ names) l
  end.

Definition validateManagedMappings (p : profile) : bool := validMappings ∅ (pf_Mappings p).

Definition profileListeners (p : profile) : list string :=
  (if (pf_Role p =? "coordinator")%string then [sv_Listen (pf_Server p); sv_AdminListen (pf_Server p)] else [])
  ++ (if (pf_Role p =? "relay")%string then [rl_Listen (pf_Relay p)] else [])
  ++ (mp_Listen <$> pf_Mappings p).

Definition listenersConflict (a b : string) : bool :=
  negb (a =? "")%string && negb (b =? "")%string && sameListenAddress a b.

Fixpoint noConflicts (listeners : list string) : bool :=
  match listeners with
  | [] => true
  | a :: rest => forallb (λ b, negb (listenersConflict a b)) rest && noConflicts rest
  end.

Definition validateManagedListenerConflicts (p : profile) : bool := noConflicts (profileListeners p).

Definition validRelayAdmissionTokenHash (value : string) : bool :=
  match Hex.DecodeString value with
  | Some decoded => (String.length decoded =? Sha256.Size)%nat
  | None => false
  end.

(** The switch over the role at the end. *)
Definition validRole (p : profile) : bool :=
  let sv := pf_Server p in let rl := pf_Relay p in let sn := pf_Subnode p in
  if (pf_Role p =? "coordinator")%string then
    validateHostPort (sv_Listen sv) && validateAdminListen (sv_AdminListen sv)
    && negb (sameListenAddress (sv_Listen sv) (sv_AdminListen sv))
    && negb ((sv_AdminToken sv =? "")%string || negb (validSHA256Pin (sv_PinnedSHA256 sv)))
    && validateManagedFile (sv_Certificate sv) && validateManagedFile (sv_Key sv)
  else if (pf_Role p =? "relay")%string then
    negb (cl_URL (pf_Coordinator p) =? "")%string
    && validateHostPort (rl_Listen rl) && validateHostPort (rl_Endpoint rl)
    && negb ((rl_Priority rl <? 0) || negb (validSHA256Pin (rl_PinnedSHA256 rl))
             || (negb (rl_AdmissionTokenHash rl =? "")%string
                 && negb (validRelayAdmissionTokenHash (rl_AdmissionTokenHash rl))))
    && validateManagedFile (rl_Certificate rl) && validateManagedFile (rl_Key rl)
  else if (pf_Role p =? "subnode")%string then
    negb ((cl_URL (pf_Coordinator p) =? "")%string || (sn_RelayNodeID sn =? "")%string || (sn_RelayToken sn =? "")%string)
    && validateHostPort (sn_RelayEndpoint sn) && validSHA256Pin (sn_RelayPinnedSHA256 sn)
  else true.

Definition validateManagedProfile (p : profile) : bool :=
  if pf_Disabled p then true
  else if negb (validateInstance (pf_Instance p)) then false
  else if negb (validNodeRole (pf_Role p)) then false
  else if (Strings.TrimSpace (pf_VirtualNetwork p) =? "")%string || (Strings.TrimSpace (pf_Segment p) =? "")%string
  then false
  else if negb (cl_URL (pf_Coordinator p) =? "")%string
          && (negb (validateCoordinatorURL (cl_URL (pf_Coordinator p)))
              || negb (validSHA256Pin (cl_PinnedSHA256 (pf_Coordinator p))))
  then false
  else validateManagedMappings p && validateManagedListenerConflicts p && validRole p.
End Managed.

Definition serviceRoleOrder (role : string) : Z :=
  if (role =? "coordinator")%string then 0 else if (role =? "relay")%string then 1 else 2.

(** ** Lemmas *)

Section ManagedLemmas.
Context {unicode : Unicode} {urls : Urls} (regularFile : string → bool).

Lemma validMappings_iff names l :
  validMappings regularFile names l = true ↔
  NoDup (mp_Name <$> l)
  ∧ (∀ m, m ∈ l → (mp_Name m ∉ names) ∧ mp_Name m ≠ "" ∧ validMapping regularFile m = true).
Proof.
  revert names. induction l as [|m l IH]; intros names.
  - split; [|done]. intros _. split; [constructor|]. intros m Hm. by apply not_elem_of_nil in Hm.
  - cbn [validMappings]. rewrite fmap_cons, NoDup_cons.
    destruct (String.eqb_spec (mp_Name m) "") as [He|Hne].
    { split; [done|]. intros [_ H]. by destruct (H m ltac:(left)) as (_ & ? & _). }
    case_bool_decide as Hin.
    { split; [done|]. intros [_ H]. by destruct (H m ltac:(left)) as (? & _). }
    rewrite andb_true_iff, IH. split.
    + intros (Hm & Hnd & Hall). split_and!; [|done|].
      * intros (x & Hx & Hxl)%list_elem_of_fmap. destruct (Hall x Hxl) as [Hn _].
        apply not_elem_of_union in Hn as [Hn _]. by apply Hn, elem_of_singleton.
      * intros x [->|Hx]%elem_of_cons; [done|]. destruct (Hall x Hx) as (Hn & ? & ?).
        by apply not_elem_of_union in Hn as [_ ?].
    + intros ([Hnm Hnd] & Hall). split_and!; [by apply Hall; left|done|].
      intros x Hx. destruct (Hall x ltac:(by right)) as (? & ? & ?). split_and!; [|done..].
      intros [Hs|?]%elem_of_union; [|done]. apply elem_of_singleton in Hs. apply Hnm. rewrite <- Hs.
      by apply list_elem_of_fmap_2.
Qed.

Lemma noConflicts_snoc l x :
  noConflicts (l ++ [x]) = noConflicts l && forallb (λ a, negb (listenersConflict a x)) l.
Proof.
  induction l as [|a l IH]; [done|]. simpl. rewrite IH, forallb_app. simpl.
  destruct (forallb (λ b, negb (listenersConflict a b)) l), (listenersConflict a x), (noConflicts l); simpl;
    rewrite ?andb_true_r, ?andb_false_r; done.
Qed.

Lemma noConflicts_sublist l k : l `sublist_of` k → noConflicts k = true → noConflicts l = true.
Proof.
  induction 1 as [|a l k Hs IH|a l k Hs IH]; [done| |]; simpl; intros [Ha Hk]%andb_true_iff; [|by apply IH].
  rewrite IH by done. rewrite andb_true_r. rewrite forallb_forall in Ha |- *.
  intros b Hb%list_elem_of_In. apply Ha, list_elem_of_In. by eapply elem_of_sublist.
Qed.

Lemma noConflicts_pairs l i j a b :
  noConflicts l = true → l !! i = Some a → l !! j = Some b → (i < j)%nat → listenersConflict a b = false.
Proof.
  revert i j. induction l as [|x l IH]; [done|]. intros i j [Hx Hl]%andb_true_iff.
  destruct i as [|i], j as [|j]; simpl; try done; try lia.
  - intros [= <-] Hb _. rewrite forallb_forall in Hx. apply negb_true_iff, Hx, list_elem_of_In.
    by eapply list_elem_of_lookup_2.
  - intros Ha Hb ?. apply (IH i j); [done..|lia].
Qed.

(** Acceptance only depends on the mappings through the two checks. *)
Lemma validateManagedProfile_mappings p l :
  pf_Disabled p = false → validateManagedProfile regularFile p = true →
  validateManagedProfile regularFile (setMappings l p) =
  validateManagedMappings regularFile (setMappings l p) && validateManagedListenerConflicts (setMappings l p).
Proof.
  unfold validateManagedProfile.
  cbn [setMappings pf_Disabled pf_Instance pf_Role pf_VirtualNetwork pf_Segment pf_Coordinator]. intros ->.
  repeat match goal with |- (if ?c then false else _) = true → _ => destruct c; [done|] end.
  intros H. apply andb_true_iff in H as [_ Hr]. 
  change (validRole regularFile (setMappings l p)) with (validRole regularFile p). by rewrite Hr, andb_true_r.
Qed.

Lemma validateManagedProfile_checks p :
  pf_Disabled p = false → validateManagedProfile regularFile p = true →
  validateManagedMappings regularFile p = true ∧ validateManagedListenerConflicts p = true.
Proof.
  unfold validateManagedProfile. intros ->.
  repeat match goal with |- (if ?c then false else _) = true → _ => destruct c; [done|] end.
  intros H. bool_simpl. done.
Qed.

Lemma validateManagedProfile_role p :
  pf_Disabled p = false → validateManagedProfile regularFile p = true → validRole regularFile p = true.
Proof.
  unfold validateManagedProfile. intros ->.
  repeat match goal with |- (if ?c then false else _) = true → _ => destruct c; [done|] end.
  by intros [_ ?]%andb_true_iff.
Qed.

Lemma publish_mapping_valid m :
  mp_Kind m = "publish" → validMapping regularFile m = true →
  mp_UUID m ≠ "" ∧ validSHA256Pin (mp_CertificateSHA256 m) = true.
Proof.
  unfold validMapping. intros ->. cbn [String.eqb Stdlib.Strings.Ascii.eqb Bool.eqb].
  intros H. bool_simpl. done.
Qed.
End ManagedLemmas.
