(* ===== verification/Xray.v ===== *)
(** * The Xray documents of a profile

    The static document that [render] writes (render.go) and the configuration
    that runs a mapping inside the process (xraycore.go), up to the library
    that executes it.  A document is a JSON value before [json.MarshalIndent];
    the typed messages of the library are a record of what the code puts into
    them. *)
From S2P Require Import Prelude GoStd GoNet GoCrypto Types Runtime Validate Profile.

Local Open Scope Z_scope.

(** ** JSON values *)

#[warnings="-register-all"]
Inductive json :=
  | JString (s : string)
  | JNumber (n : Z)
  | JBool (b : bool)
  | JArray (l : list json)
  | JObject (fields : list (string * json)).

(** ** The static document *)

(** The UUID a mapping presents upstream. *)
Definition upstreamID (m : mapping) : string :=
  if (mp_UpstreamUUID m =? "")%string then mp_UUID m else mp_UpstreamUUID m.

Definition vlessInbound (tag host : string) (port : Z) (m : mapping) : json :=
  JObject [("tag", JString tag); ("listen", JString host); ("port", JNumber port); ("protocol", JString "vless");
    ("settings", JObject [("clients", JArray [JObject [("id", JString (mp_UUID m))]]); ("decryption", JString "none")]);
    ("streamSettings", JObject [("network", JString "tcp"); ("security", JString "tls");
      ("tlsSettings", JObject [("minVersion", JString "1.3");
         ("certificates", JArray [JObject [("certificateFile", JString (mp_Certificate m));
            ("keyFile", JString (mp_Key m)); ("oneTimeLoading", JBool true)]])])])].

Definition vlessOutbound (tag : string) (m : mapping) : option json :=
  '(h, p) ← splitAddress (mp_Upstream m);
  Some (JObject [("tag", JString tag); ("protocol", JString "vless");
    ("settings", JObject [("vnext", JArray [JObject [("address", JString h); ("port", JNumber p);
       ("users", JArray [JObject [("id", JString (upstreamID m)); ("encryption", JString "none")]])]])]);
    ("streamSettings", JObject [("network", JString "tcp"); ("security", JString "tls");
      ("tlsSettings", JObject [("serverName", JString "mayoiga");
         ("pinnedPeerCertSha256", JString (mp_PinnedSHA256 m)); ("minVersion", JString "1.3")])])]).

Definition inTag (m : mapping) : string := "in-" +:+ mp_Name m.
Definition outTag (m : mapping) : string := "out-" +:+ mp_Name m.

Definition pullInbound (tag host : string) (port : Z) : json :=
  JObject [("tag", JString tag); ("listen", JString host); ("port", JNumber port); ("protocol", JString "dokodemo-door");
    ("settings", JObject [("address", JString "127.0.0.1"); ("port", JNumber 1); ("network", JString "tcp")])].

Definition freedomOutbound (tag : string) (m : mapping) : json :=
  JObject [("tag", JString tag); ("protocol", JString "freedom"); ("settings", JObject [("redirect", JString (mp_Target m))])].

Definition ruleOf (m : mapping) : json :=
  JObject [("type", JString "field"); ("inboundTag", JArray [JString (inTag m)]); ("outboundTag", JString (outTag m))].

(** One turn of the loop over the mappings: the inbound and the outbound. *)
Definition renderMapping (m : mapping) : option (json * json) :=
  '(lh, lp) ← splitAddress (mp_Listen m);
  if (mp_Kind m =? "pull")%string then
    if negb (mp_TargetNode m =? "")%string then None else
    out ← vlessOutbound (outTag m) m;
    Some (pullInbound (inTag m) lh lp, out)
  else
    let inbound := vlessInbound (inTag m) lh lp m in
    if (mp_Kind m =? "publish")%string then Some (inbound, freedomOutbound (outTag m) m)
    else out ← vlessOutbound (outTag m) m; Some (inbound, out).

Fixpoint renderMappings (l : list mapping) : option (list json * list json * list json) :=
  match l with
  | [] => Some ([], [], [])
  | m :: rest =>
      '(inbound, outbound) ← renderMapping m;
      '(inbounds, outbounds, rules) ← renderMappings rest;
      Some (inbound :: inbounds, outbound :: outbounds, ruleOf m :: rules)
  end.

Definition renderXray (p : profile) : option json :=
  '(inbounds, outbounds, rules) ← renderMappings (pf_Mappings p);
  Some (JObject [("log", JObject [("loglevel", JString "warning")]); ("inbounds", JArray inbounds);
    ("outbounds", JArray outbounds);
    ("routing", JObject [("domainStrategy", JString "AsIs"); ("rules", JArray rules)])]).

(** ** The embedded configuration *)

(** An address of the library: [ParseAddress text] stands for
    [xnet.NewIPOrDomain(xnet.ParseAddress(text))] and [LocalHostIP] for
    [xnet.NewIPOrDomain(xnet.LocalHostIP)]; what the library makes of a text is
    its own. *)
Inductive xrayAddress := ParseAddress (text : string) | LocalHostIP.
Inductive xrayNetwork := Network_TCP.

(** [vless.Account]. *)
Record vlessAccount := mkVlessAccount { va_Id : string; va_Encryption : string }.

(** The message of an inbound's proxy ([dokodemo.Config], [vlessin.Config]) and
    of an outbound's ([freedom.Config] with its override, [vlessout.Config]). *)
Inductive xrayInbound :=
  | DokodemoIn (address : xrayAddress) (port : Z) (networks : list xrayNetwork)
  | VlessIn (clients : list vlessAccount) (decryption : string).
Inductive xrayOutbound :=
  | FreedomOut (address : xrayAddress) (port : Z)
  | VlessOut (address : xrayAddress) (port : Z) (user : vlessAccount).

(** [xtls.Certificate] and [xtls.Config]. *)
Record tlsCertificate := mkTlsCertificate { tc_Certificate : string; tc_Key : string; tc_OneTimeLoading : bool }.
Record tlsConfig := mkTlsConfig {
  tls_ServerName : string;
  tls_MinVersion : string;
  tls_DisableSystemRoot : bool;
  tls_PinnedPeerCertSha256 : list string;
  tls_Certificate : list tlsCertificate;
}.

(** The type of a security message ([serial.GetMessageType]), and
    [internet.StreamConfig]. *)
Inductive messageType := XtlsConfig.
Record streamConfig := mkStreamConfig {
  sc_ProtocolName : string;
  sc_SecurityType : messageType;
  sc_SecuritySettings : list tlsConfig;
}.

Definition streamConfigOf (c : tlsConfig) : streamConfig := mkStreamConfig "tcp" XtlsConfig [c].

Inductive xrayApp := Dispatcher | InboundManager | OutboundManager.

(** [core.Config] of one inbound and one outbound: the tags, the receiver (its
    port, address and stream settings), the sender's stream settings, and the
    two proxies.  The conversions of the port to [uint16] and [uint32] change
    nothing: [splitAddress] gives 1 to 65535. *)
Record xrayConfig := mkXrayConfig {
  xr_App : list xrayApp;
  xr_InTag : string;
  xr_Listen : xrayAddress;
  xr_Port : Z;
  xr_Receiver : option streamConfig;
  xr_Inbound : option xrayInbound;
  xr_OutTag : string;
  xr_Sender : option streamConfig;
  xr_Outbound : xrayOutbound;
}.

Definition clientStream (m : mapping) : option streamConfig :=
  match Hex.DecodeString (mp_PinnedSHA256 m) with
  | Some pin =>
      if (String.length pin =? Sha256.Size)%nat
      then Some (streamConfigOf (mkTlsConfig "mayoiga" "1.3" true [pin] [])) else None
  | None => None
  end.

(** [serverStream] of the certificate and the key it has read. *)
Definition serverStreamOf (certificate key : string) : streamConfig :=
  streamConfigOf (mkTlsConfig "" "1.3" false [] [mkTlsCertificate certificate key true]).

Definition typedVLESSOutbound (m : mapping) : option (xrayOutbound * streamConfig) :=
  '(h, p) ← splitAddress (mp_Upstream m);
  stream ← clientStream m;
  Some (VlessOut (ParseAddress h) p (mkVlessAccount (upstreamID m) "none"), stream).

(** The configuration startMapping builds, from the server's stream settings,
    if it could read its certificate.  For a kind that is neither [pull] nor
    [publish] the error of reading it is overwritten. *)
Definition mappingConfig (m : mapping) (server : option streamConfig) : option xrayConfig :=
  '(lh, lp) ← splitAddress (mp_Listen m);
  let config receiver inbound sender outbound :=
    mkXrayConfig [Dispatcher; InboundManager; OutboundManager] (inTag m) (ParseAddress lh) lp receiver inbound (outTag m)
      sender outbound in
  let vlessIn := VlessIn [mkVlessAccount (mp_UUID m) "none"] "none" in
  if (mp_Kind m =? "pull")%string then
    '(out, stream) ← typedVLESSOutbound m;
    Some (config None (Some (DokodemoIn LocalHostIP 1 [Network_TCP])) (Some stream) out)
  else if (mp_Kind m =? "publish")%string then
    '(h, p) ← splitAddress (mp_Target m);
    server ← server;
    Some (config (Some server) (Some vlessIn) None (FreedomOut (ParseAddress h) p))
  else
    '(out, stream) ← typedVLESSOutbound m;
    Some (config server (const vlessIn <$> server) (Some stream) out).

(** ** Reading a document *)

Fixpoint field (name : string) (fields : list (string * json)) : option json :=
  match fields with
  | [] => None
  | (n, j) :: rest => if (n =? name)%string then Some j else field name rest
  end.

(** The value at a path of field names; in an array, that of its first
    element. *)
Fixpoint get (path : list string) (j : json) : option json :=
  match path with
  | [] => Some j
  | name :: rest =>
      match j with
      | JObject fields => v ← field name fields; get rest v
      | JArray (JObject fields :: _) => v ← field name fields; get rest v
      | _ => None
      end
  end.

Definition elements (name : string) (j : json) : list json :=
  match get [name] j with Some (JArray l) => l | _ => [] end.

Definition hasTag (tag : string) (j : json) : bool :=
  match get ["tag"] j with Some (JString t) => (t =? tag)%string | _ => false end.

(** The rule that applies to an inbound. *)
Definition appliesTo (tag : string) (rule : json) : bool :=
  match get ["inboundTag"] rule with
  | Some (JArray tags) => existsb (λ t, match t with JString s => (s =? tag)%string | _ => false end) tags
  | _ => false
  end.

(** Where Xray sends what arrives at the inbound with this tag: the outbound
    that the first applicable rule names. *)
Definition routed (doc : json) (tag : string) : option json :=
  routing ← get ["routing"] doc;
  rule ← firstMatch (appliesTo tag) (elements "rules" routing);
  match get ["outboundTag"] rule with
  | Some (JString out) => firstMatch (hasTag out) (elements "outbounds" doc)
  | _ => None
  end.

(** ** A document and a configuration that say the same

    [files] is what a file of a given name holds. *)

Definition sameAddress (a : xrayAddress) (j : json) : Prop :=
  match a with ParseAddress text => j = JString text | LocalHostIP => j = JString "127.0.0.1" end.

Definition networkName (n : xrayNetwork) : string := match n with Network_TCP => "tcp" end.
Definition securityName (t : messageType) : string := match t with XtlsConfig => "tls" end.

Definition sameCertificate (files : gmap string string) (c : tlsCertificate) (j : json) : Prop :=
  (∃ name, get ["certificateFile"] j = Some (JString name) ∧ files !! name = Some (tc_Certificate c))
  ∧ (∃ name, get ["keyFile"] j = Some (JString name) ∧ files !! name = Some (tc_Key c))
  ∧ get ["oneTimeLoading"] j = Some (JBool (tc_OneTimeLoading c)).

(** [DisableSystemRoot], which goes with a pin, has no counterpart in the
    document. *)
Definition sameTLS (files : gmap string string) (c : tlsConfig) (j : json) : Prop :=
  get ["minVersion"] j = Some (JString (tls_MinVersion c))
  ∧ get ["serverName"] j = (if (tls_ServerName c =? "")%string then None else Some (JString (tls_ServerName c)))
  ∧ match tls_Certificate c with
    | [] => get ["certificates"] j = None
    | l => ∃ js, get ["certificates"] j = Some (JArray js) ∧ Forall2 (sameCertificate files) l js
    end
  ∧ match tls_PinnedPeerCertSha256 c with
    | [] => get ["pinnedPeerCertSha256"] j = None ∧ tls_DisableSystemRoot c = false
    | [pin] => (∃ text, get ["pinnedPeerCertSha256"] j = Some (JString text) ∧ Hex.DecodeString text = Some pin)
               ∧ tls_DisableSystemRoot c = true
    | _ => False
    end.

(** The stream settings of an inbound or an outbound. *)
Definition sameStream (files : gmap string string) (s : option streamConfig) (j : json) : Prop :=
  match s with
  | None => get ["streamSettings"] j = None
  | Some s =>
      get ["streamSettings"; "network"] j = Some (JString (sc_ProtocolName s))
      ∧ get ["streamSettings"; "security"] j = Some (JString (securityName (sc_SecurityType s)))
      ∧ ∃ c settings, sc_SecuritySettings s = [c] ∧ get ["streamSettings"; "tlsSettings"] j = Some settings
          ∧ sameTLS files c settings
  end.

Definition sameInbound (files : gmap string string) (cfg : xrayConfig) (j : json) : Prop :=
  get ["tag"] j = Some (JString (xr_InTag cfg))
  ∧ (∃ listen, get ["listen"] j = Some listen ∧ sameAddress (xr_Listen cfg) listen)
  ∧ get ["port"] j = Some (JNumber (xr_Port cfg))
  ∧ sameStream files (xr_Receiver cfg) j
  ∧ match xr_Inbound cfg with
    | Some (DokodemoIn address port networks) =>
        get ["protocol"] j = Some (JString "dokodemo-door")
        ∧ (∃ a, get ["settings"; "address"] j = Some a ∧ sameAddress address a)
        ∧ get ["settings"; "port"] j = Some (JNumber port)
        ∧ ∃ n, networks = [n] ∧ get ["settings"; "network"] j = Some (JString (networkName n))
    | Some (VlessIn clients decryption) =>
        get ["protocol"] j = Some (JString "vless")
        ∧ (∃ js, get ["settings"; "clients"] j = Some (JArray js)
             ∧ Forall2 (λ c x, get ["id"] x = Some (JString (va_Id c))) clients js)
        ∧ get ["settings"; "decryption"] j = Some (JString decryption)
    | None => False
    end.

Definition sameOutbound (files : gmap string string) (cfg : xrayConfig) (j : json) : Prop :=
  get ["tag"] j = Some (JString (xr_OutTag cfg))
  ∧ sameStream files (xr_Sender cfg) j
  ∧ match xr_Outbound cfg with
    | FreedomOut address port =>
        get ["protocol"] j = Some (JString "freedom")
        ∧ ∃ target host, get ["settings"; "redirect"] j = Some (JString target) ∧ splitAddress target = Some (host, port)
            ∧ sameAddress address (JString host)
    | VlessOut address port user =>
        get ["protocol"] j = Some (JString "vless")
        ∧ ∃ server account a, get ["settings"; "vnext"] j = Some (JArray [server])
            ∧ get ["address"] server = Some a ∧ sameAddress address a ∧ get ["port"] server = Some (JNumber port)
            ∧ get ["users"] server = Some (JArray [account]) ∧ get ["id"] account = Some (JString (va_Id user))
            ∧ get ["encryption"] account = Some (JString (va_Encryption user))
    end.

(** ** Lemmas *)

Lemma renderMapping_tags m i o : renderMapping m = Some (i, o) → hasTag (outTag m) o = true ∧ ∀ t, hasTag t o = (outTag m =? t)%string.
Proof.
  intros H. assert (∀ t, hasTag t o = (outTag m =? t)%string) as Ht; [|split; [by rewrite Ht, String.eqb_refl|done]].
  unfold renderMapping in H. destruct (splitAddress (mp_Listen m)) as [[lh lp]|]; [|done]. cbn in H.
  unfold vlessOutbound in H. repeat case_match; simplify_eq/=; try done;
  destruct (splitAddress (mp_Upstream m)) as [[uh up]|]; by simplify_eq/=.
Qed.

Lemma renderMapping_inTag m i o : renderMapping m = Some (i, o) → hasTag (inTag m) i = true.
Proof.
  intros H. unfold renderMapping in H. destruct (splitAddress (mp_Listen m)) as [[lh lp]|]; [|done]. cbn in H.
  destruct (vlessOutbound (outTag m) m); repeat case_match; simplify_eq/=; apply String.eqb_refl.
Qed.

Lemma renderMappings_lookup l ins outs rs :
  renderMappings l = Some (ins, outs, rs) →
  rs = ruleOf <$> l ∧ Forall2 (λ m io, renderMapping m = Some io) l (zip ins outs) ∧ length ins = length l ∧ length outs = length l.
Proof.
  revert ins outs rs. induction l as [|m l IH]; cbn; intros ins outs rs H; [by simplify_eq|].
  destruct (renderMapping m) as [[i o]|] eqn:Hm; [|done]. cbn in H. destruct (renderMappings l) as [[[is' os'] rs']|]; [|done].
  cbn in H. injection H as <- <- <-. destruct (IH _ _ _ eq_refl) as (-> & Hf & Hi & Ho). cbn. split_and!; [done|by constructor|lia..].
Qed.

Lemma append_inj_r (p a b : string) : p +:+ a = p +:+ b → a = b.
Proof. induction p as [|c p IH]; cbn; [done|]. intros [= H]. auto. Qed.

Lemma appliesTo_rule t m : appliesTo t (ruleOf m) = (inTag m =? t)%string.
Proof. cbn. by rewrite orb_false_r. Qed.

Lemma firstMatch_only {A} (f : A → bool) l k x :
  l !! k = Some x → f x = true → (∀ j y, l !! j = Some y → f y = true → j = k) → firstMatch f l = Some x.
Proof.
  revert k. induction l as [|y l IH]; intros k Hk Hx Honly; [done|]. cbn. destruct (f y) eqn:Hy.
  - specialize (Honly 0%nat y eq_refl Hy) as <-. done.
  - destruct k as [|k]; [cbn in Hk; congruence|]. apply (IH k); [done..|]. intros j z Hj Hz.
    specialize (Honly (S j) z Hj Hz). lia.
Qed.

Lemma same_position (l : list mapping) j k m m' :
  NoDup (mp_Name <$> l) → l !! j = Some m → l !! k = Some m' → mp_Name m = mp_Name m' → j = k.
Proof.
  intros Hnd Hj Hk Heq. eapply NoDup_lookup; [exact Hnd|..]; rewrite list_lookup_fmap; [by rewrite Hj|]. rewrite Hk. cbn. by rewrite Heq.
Qed.

(** ** Properties *)

(** The static document routes every mapping to its own outbound: it has
    one inbound for each mapping, in order, with the mapping's tag, and with
    distinct mapping names what arrives at it goes to the outbound that was
    rendered for the same mapping. *)
Theorem render_correct p doc (Hdoc : renderXray p = Some doc) (Hnames : NoDup (mp_Name <$> pf_Mappings p)) :
  length (elements "inbounds" doc) = length (pf_Mappings p)
  ∧ ∀ k m, pf_Mappings p !! k = Some m →
      ∃ i o, elements "inbounds" doc !! k = Some i ∧ renderMapping m = Some (i, o) ∧ hasTag (inTag m) i = true
        ∧ routed doc (inTag m) = Some o.
Proof.
  unfold renderXray in Hdoc. destruct (renderMappings (pf_Mappings p)) as [[[ins outs] rs]|] eqn:Hr; [|done].
  cbn in Hdoc. injection Hdoc as <-. destruct (renderMappings_lookup _ _ _ _ Hr) as (-> & Hall & Hi & Ho). split; [done|].
  intros k m Hk. destruct (Forall2_lookup_l _ _ _ _ _ Hall Hk) as ([i o] & Hz & Hm).
  apply lookup_zip_Some in Hz as [Hik Hok]. exists i, o. split_and!; [done..|by eapply renderMapping_inTag|].
  unfold routed. cbn [get field String.eqb Ascii.eqb Bool.eqb mbind option_bind elements].
  assert (firstMatch (appliesTo (inTag m)) (ruleOf <$> pf_Mappings p) = Some (ruleOf m)) as Hrule.
  { apply (firstMatch_only _ _ k); [by rewrite list_lookup_fmap, Hk|by rewrite appliesTo_rule, String.eqb_refl|].
    intros j r Hj Hr'. rewrite list_lookup_fmap in Hj. apply fmap_Some in Hj as (m' & Hj & ->). rewrite appliesTo_rule in Hr'.
    apply String.eqb_eq, append_inj_r in Hr'. by eapply same_position. }
  rewrite Hrule. cbn. apply (firstMatch_only _ _ k); [done|by apply (renderMapping_tags m i o)|].
  intros j o' Hj Ho'. destruct (lookup_lt_is_Some_2 ins j) as [i' Hi']; [rewrite Hi, <- Ho; by eapply lookup_lt_Some|].
  destruct (Forall2_lookup_r _ _ _ j (i', o') Hall) as (m' & Hj' & Hm'); [by apply lookup_zip_Some|].
  rewrite (proj2 (renderMapping_tags m' i' o' Hm')) in Ho'. apply String.eqb_eq, append_inj_r in Ho'. by eapply same_position.
Qed.

(** The two agree, when what the server's settings hold was read from the
    mapping's files. *)
Lemma mappingConfig_agrees files m server cfg :
  mp_Kind m = "publish" ∨ mp_Kind m = "pull" ∧ mp_TargetNode m = "" →
  (∀ s, server = Some s → ∃ c k, files !! mp_Certificate m = Some c ∧ files !! mp_Key m = Some k ∧ s = serverStreamOf c k) →
  mappingConfig m server = Some cfg →
  ∃ i o, renderMapping m = Some (i, o) ∧ sameInbound files cfg i ∧ sameOutbound files cfg o.
Proof.
  intros Hkind Hserver Hcfg. unfold mappingConfig in Hcfg. unfold renderMapping.
  destruct (splitAddress (mp_Listen m)) as [[lh lp]|]; [|done]. cbn in Hcfg |- *.
  destruct Hkind as [Hk|[Hk Hn]]; rewrite Hk in Hcfg |- *; cbn in Hcfg |- *.
  - destruct (splitAddress (mp_Target m)) as [[h p]|] eqn:Ht; [|done]. cbn in Hcfg. destruct server as [s|]; [|done].
    destruct (Hserver s eq_refl) as (c & k & Hc & Hkey & ->). injection Hcfg as <-.
    eexists _, _. split; [done|]. split; (split; [done|]); cbn.
    + split; [by eexists|]. split; [done|]. split.
      * split; [done|]. split; [done|]. eexists _, _. split; [done|]. split; [done|]. split; [done|]. split; [done|].
        split; [|done]. eexists. split; [done|]. constructor; [|constructor]. split_and!; [by eexists|by eexists|done].
      * split; [done|]. split; [|done]. eexists. split; [done|]. by repeat constructor.
    + split; [done|]. split; [done|]. by eexists _, h.
  - rewrite Hn. cbn. unfold typedVLESSOutbound in Hcfg. unfold vlessOutbound.
    destruct (splitAddress (mp_Upstream m)) as [[h p]|]; [|done]. cbn in Hcfg |- *. unfold clientStream in Hcfg.
    destruct (Hex.DecodeString (mp_PinnedSHA256 m)) as [pin|] eqn:Hpin; [|done].
    destruct (String.length pin =? Sha256.Size)%nat; [|done]. cbn in Hcfg. injection Hcfg as <-.
    eexists _, _. split; [done|]. split; (split; [done|]); cbn.
    + split; [by eexists|]. split; [done|]. split; [done|]. split; [done|]. split; [by eexists|]. split; [done|]. by eexists.
    + split.
      * split; [done|]. split; [done|]. eexists _, _. split; [done|]. split; [done|]. split; [done|]. split; [done|].
        split; [done|]. split; [|done]. by eexists.
      * split; [done|]. eexists _, _, _. by split_and!.
Qed.

(** ** Examples *)

Definition zeroPin : string := Strings.ofBytes (repeat "0"%char 64).
Definition publishMapping : mapping :=
  mkMapping "ssh" "publish" "0.0.0.0:28022" "10.0.0.9:22" "" "" "" "5f0c" "" "/cfg/ssh.crt" "/cfg/ssh.key" "" zeroPin.
Definition pullMapping : mapping :=
  mkMapping "nas" "pull" "127.0.0.1:1445" "" "" "" "198.51.100.4:28022" "5f0c" "" "" "" zeroPin "".
Definition staticProfile : profile := setMappings [publishMapping; pullMapping] defaultProfile.

Definition staticDocument : json := default (JArray []) (renderXray staticProfile).

Lemma render_correct_witness :
  ∃ o, routed staticDocument "in-nas" = Some o ∧ get ["settings"; "vnext"; "address"] o = Some (JString "198.51.100.4").
Proof.
  destruct (render_correct staticProfile staticDocument) as [_ H]; [reflexivity| |].
  - apply NoDup_ListNoDup. repeat constructor; cbn; intuition discriminate.
  - destruct (H 1%nat pullMapping eq_refl) as (i & o & _ & Hm & _ & Hr). exists o. split; [exact Hr|].
    vm_compute in Hm. injection Hm as _ <-. reflexivity.
Defined.
