(* ===== verification/Options.v ===== *)
(** * The command line's options

    The struct [options] of main.go.  Its string and integer fields are named
    by two enumerations, so that the menus can be given the address of a
    field; [o_set] is the set of flags that were given. *)
From stdpp Require Import functions.
From S2P Require Import Prelude.

Inductive textField :=
  | FLang | FRole | FAction | FSegment | FName | FKind | FListen | FAdminListen | FTarget | FTargetNode | FService
  | FTransitListen | FTransitEndpoint | FUpstreamRelayNode | FUpstreamRelayEndpoint | FUpstreamRelayPin | FUpstreamRelayToken
  | FRequestID | FIdempotencyKey | FReason | FConfig | FOutput | FCoordinator | FCoordinatorPin | FDeviceCode | FManagerDir
  | FNetwork | FNodeName | FNodeID | FInstance.

Inductive numberField :=
  | FHandshakeStatus | FRelayPriority | FConnectionWaitSeconds | FConnectionTTLSeconds | FConnectionLeaseSeconds
  | FConnectionMaxPending.

Inductive switchField := FYes | FReplaceExisting | FRotateRelayToken | FShowVersion.

#[export] Instance textField_eq_dec : EqDecision textField.
Proof. solve_decision. Defined.
#[export] Instance numberField_eq_dec : EqDecision numberField.
Proof. solve_decision. Defined.
#[export] Instance switchField_eq_dec : EqDecision switchField.
Proof. solve_decision. Defined.

Record options := mkOptions {
  o_text : textField → string;
  o_number : numberField → Z;
  o_switch : switchField → bool;
  o_set : gset string;
}.

Definition isSet (o : options) (flag : string) : bool := bool_decide (flag ∈ o_set o).

Definition setText (f : textField) (v : string) (o : options) : options :=
  mkOptions (<[f := v]> (o_text o)) (o_number o) (o_switch o) (o_set o).
Definition setNumber (f : numberField) (v : Z) (o : options) : options :=
  mkOptions (o_text o) (<[f := v]> (o_number o)) (o_switch o) (o_set o).
Definition setSwitch (f : switchField) (v : bool) (o : options) : options :=
  mkOptions (o_text o) (o_number o) (<[f := v]> (o_switch o)) (o_set o).
(** [o.set[flag] = true]. *)
Definition giveFlag (flag : string) (o : options) : options :=
  mkOptions (o_text o) (o_number o) (o_switch o) ({[flag]} ∪ o_set o).

(** ** The fields *)

Definition o_lang (o : options) : string := o_text o FLang.
Definition o_role (o : options) : string := o_text o FRole.
Definition o_action (o : options) : string := o_text o FAction.
Definition o_segment (o : options) : string := o_text o FSegment.
Definition o_name (o : options) : string := o_text o FName.
Definition o_kind (o : options) : string := o_text o FKind.
Definition o_listen (o : options) : string := o_text o FListen.
Definition o_adminListen (o : options) : string := o_text o FAdminListen.
Definition o_target (o : options) : string := o_text o FTarget.
Definition o_targetNode (o : options) : string := o_text o FTargetNode.
Definition o_service (o : options) : string := o_text o FService.
Definition o_transitListen (o : options) : string := o_text o FTransitListen.
Definition o_transitEndpoint (o : options) : string := o_text o FTransitEndpoint.
Definition o_upstreamRelayNode (o : options) : string := o_text o FUpstreamRelayNode.
Definition o_upstreamRelayEndpoint (o : options) : string := o_text o FUpstreamRelayEndpoint.
Definition o_upstreamRelayPin (o : options) : string := o_text o FUpstreamRelayPin.
Definition o_upstreamRelayToken (o : options) : string := o_text o FUpstreamRelayToken.
Definition o_requestID (o : options) : string := o_text o FRequestID.
Definition o_idempotencyKey (o : options) : string := o_text o FIdempotencyKey.
Definition o_reason (o : options) : string := o_text o FReason.
Definition o_config (o : options) : string := o_text o FConfig.
Definition o_output (o : options) : string := o_text o FOutput.
Definition o_coordinator (o : options) : string := o_text o FCoordinator.
Definition o_coordinatorPin (o : options) : string := o_text o FCoordinatorPin.
Definition o_deviceCode (o : options) : string := o_text o FDeviceCode.
Definition o_managerDir (o : options) : string := o_text o FManagerDir.
Definition o_network (o : options) : string := o_text o FNetwork.
Definition o_nodeName (o : options) : string := o_text o FNodeName.
Definition o_nodeID (o : options) : string := o_text o FNodeID.
Definition o_instance (o : options) : string := o_text o FInstance.
Definition o_handshakeStatus (o : options) : Z := o_number o FHandshakeStatus.
Definition o_relayPriority (o : options) : Z := o_number o FRelayPriority.
Definition o_connectionWaitSeconds (o : options) : Z := o_number o FConnectionWaitSeconds.
Definition o_connectionTTLSeconds (o : options) : Z := o_number o FConnectionTTLSeconds.
Definition o_connectionLeaseSeconds (o : options) : Z := o_number o FConnectionLeaseSeconds.
Definition o_connectionMaxPending (o : options) : Z := o_number o FConnectionMaxPending.
Definition o_yes (o : options) : bool := o_switch o FYes.
Definition o_replaceExisting (o : options) : bool := o_switch o FReplaceExisting.
Definition o_rotateRelayToken (o : options) : bool := o_switch o FRotateRelayToken.
Definition o_showVersion (o : options) : bool := o_switch o FShowVersion.

(** What the flags declare when none is given. *)
Definition noOptions : options :=
  mkOptions (λ f, match f with FSegment | FNetwork => "default" | _ => "" end)
    (λ f, match f with
          | FHandshakeStatus => 0 | FRelayPriority => 100 | FConnectionWaitSeconds => 25 | FConnectionTTLSeconds => 120
          | FConnectionLeaseSeconds => 15 | FConnectionMaxPending => 10000
          end)%Z (λ _, false) ∅.
