(* ===== verification/Host.v ===== *)
(** * The host a node runs on

    Files, randomness, keys and the network as the node side of the program
    uses them: profile files (profile.go), the profiles a manager finds
    (service_profiles.go) and the listeners configured on the host
    (node_manager.go).  [IO A] is explicit state passing with failure: [None]
    is a non-nil [error], whose text is not modelled.  What lies outside the
    program (the operating system, key generation, the JSON codec, the HTTP
    transport) is the class [HostEnv]; each use takes the next tick of a
    counter, so two uses need not agree. *)
From S2P Require Import Prelude GoStd GoNet GoPath GoCrypto Types Runtime Validate Profile Xray.

Local Open Scope Z_scope.

(** ** Environment *)

(** A request the node sends, with the certificate pin its TLS connection
    demands and, for a subnode, the relay its connection is tunnelled by. *)
Record outRequest := mkOutRequest {
  or_Method : string;
  or_URL : string;
  or_Header : list (string * string);
  or_Body : string;
  or_Pin : string;
  or_Via : option subnodeConfig;
}.

(** connection-inbox.json. *)
Record cachedInbox := mkCachedInbox { ib_Cursor : Z; ib_Events : list connectionRequest }.

Record relayHandshake := mkRelayHandshake {
  hs_Version : Z;
  hs_Mode : string;
  hs_Network : string;
  hs_SourceNode : string;
  hs_RelayNode : string;
  hs_TargetNode : string;
  hs_Service : string;
  hs_RequestID : string;
  hs_RelayToken : string;
  hs_Timestamp : Z;
  hs_Nonce : string;
  hs_Signature : string;
}.

(** control-status.json. *)
Record controlPlaneStatus := mkControlPlaneStatus {
  cp_HeartbeatLastOK : Z;
  cp_HeartbeatError : bool;
  cp_DiscoveryLastOK : Z;
  cp_DiscoveryError : bool;
  cp_DiscoveryRevision : Z;
  cp_InboxLastOK : Z;
  cp_InboxError : bool;
  cp_InboxCursor : Z;
  cp_InboxWaiting : bool;
}.

Inductive readOutcome := NotExist | ReadError | Content (text : string).

(** [os.WriteFile]: all written; failed before truncating; failed after some
    text was written. *)
Inductive writeOutcome := Written | Untouched | Partial (text : string).

Inductive listing := NoDirectory | DirectoryError | Entries (l : list (string * bool)).

(** [encoding/json] on the node's files and messages.  Marshalling never
    fails for these types.  [unmarshalInbox] and [unmarshalStatus] give the
    value that is left also when the error is not nil.  An error text of the
    status file is a flag: whether the text is empty. *)
Class HostJson := {
  marshalProfile : profile → string;
  unmarshalProfile : string → option profile;
  marshalNodes : list discoveredNode → string;
  unmarshalNodes : string → option (list discoveredNode);
  marshalDiscoveryRequest : discoveryRequest → string;
  marshalDiscoverySync : discoverySyncRequest → string;
  marshalPollRequest : pollRequest → string;
  decodeEnrollment : string → option enrollmentState;
  decodePollResponse : string → option pollResponse;
  decodeHeartbeat : string → option heartbeatResponse;
  decodeDiscovery : string → option discoveryResponse;
  decodeConnection : string → option connectionRequest;
  decodeInboxResponse : string → option inboxWaitResponse;
  marshalCreateConnection : createConnectionInput → string;
  marshalConnectionID : connectionIDInput → string;
  marshalInboxWait : inboxWaitInput → string;
  marshalInboxAck : inboxAckInput → string;
  marshalInbox : cachedInbox → string;
  unmarshalInbox : string → cachedInbox * bool;
  marshalStatus : controlPlaneStatus → string;
  unmarshalStatus : string → controlPlaneStatus * bool;
  marshalHandshake : relayHandshake → string;
  unmarshalHandshake : string → option relayHandshake;
  marshalStatusWait : connectionStatusWaitInput → string;
  marshalConnector : publishedService → string → string;
  stateDecodes : string → bool;
  marshalApprove : approveRequest → string;
  marshalRevoke : revokeRequest → string;
  decodeHistory : string → option (list handshakeHistory);
  decodeAudit : string → option (list auditEvent);
  marshalDocument : json → string;
}.

(** [newCertificate i]: the DER bytes of a fresh certificate, and the PEM
    texts of it and of its key; [newKey] is [ed25519.GenerateKey], whose
    private key ends with the public one; [transport] is
    [http.Client.Do]: status and body, or an error; [interfaceAddrs] lists
    the host's addresses in their 16-byte form, [None] for one that is neither
    a [*net.IPNet] nor a [*net.IPAddr]; [hostOrder] the order of a [range]
    over a map.  [tlsProbe] and [tlsDial] say whether a TLS handshake with an
    endpoint whose certificate has the given SHA-256 succeeds; [relayAnswer]
    is the line a relay answers to a handshake line, [None] when writing or
    reading fails; [tcpDial] says whether a plain address can be dialled, [startXray] whether the
    embedded Xray starts with a configuration, [loopbackListener] is the
    address of a listener on a free loopback port that was closed again, and
    [keyPair] whether the texts of a certificate and a key fit together;
    [reverseArrives] whether a reverse connection for a request comes before
    its time is up, [waiterTakes] whether the waiter of a request takes the
    connection it is offered, and [replyWritten] whether a reply reaches the
    peer; [hostVerify] is [ed25519.Verify]; [sliceRoom] is how far the
    capacity of a slice that [encoding/json] made exceeds its length;
    [executableBytes] the content of the running program's file; [removable]
    whether a file can be removed, and [removeTree] is [os.RemoveAll]: [None]
    when all is gone, else an error after the listed files; [runCommand] says
    whether a command exits with success, and [interrupted] whether a node is
    ended by a signal rather than by an error of its coordinator. *)
Class HostEnv := {
  #[global] he_urls :: Urls;
  #[global] he_json :: HostJson;
  hostClock : nat → Z;
  hostRand : nat → nat → option string;
  hostRand_length : ∀ i n b, hostRand i n = Some b → String.length b = n;
  readFails : nat → string → bool;
  statFails : nat → string → bool;
  mkdirAll : nat → string → bool;
  writeFile : nat → string → string → writeOutcome;
  renameFile : nat → bool;
  readDir : nat → string → listing;
  regularFile : nat → string → bool;
  listenable : nat → string → bool;
  newCertificate : nat → option (string * string * string);
  newKey : nat → option (string * string);
  newKey_sizes : ∀ i pub priv, newKey i = Some (pub, priv) →
    String.length pub = PublicKeySize ∧ String.length priv = PrivateKeySize
    ∧ Strings.bytes pub = drop PublicKeySize (Strings.bytes priv);
  ed25519Sign : string → string → string;
  hostVerify : string → string → string → bool;
  transport : nat → outRequest → option (Z * string);
  configHome : nat → option string;
  workingDirectory : nat → option string;
  hostName : nat → string;
  interfaceAddrs : nat → option (list (option Net.ip));
  tlsProbe : nat → string → string → bool;
  tlsDial : nat → string → string → bool;
  relayAnswer : nat → string → string → option string;
  tcpDial : nat → string → bool;
  startXray : nat → xrayConfig → bool;
  loopbackListener : nat → option string;
  keyPair : string → string → bool;
  reverseArrives : nat → string → bool;
  waiterTakes : nat → string → bool;
  replyWritten : nat → bool;
  sliceRoom : nat → nat;
  hostOrder : ∀ {V}, nat → gmap string V → list (string * V);
  hostOrder_perm : ∀ V i (m : gmap string V), hostOrder i m ≡ₚ map_to_list m;
  linux : bool;
  windows : bool;
  executableBytes : nat → option string;
  userHome : nat → option string;
  removable : nat → string → bool;
  removeTree : nat → string → option (list string);
  runCommand : nat → list string → bool;
  interrupted : nat → bool;
}.

(** ** Computations *)

(** What the process of a node remembers: the nonces a relay has seen, the
    endpoints that are cooling down, the offers being served, the reverse
    connections expected (target and service by request), the coordinator
    tunnels that are open, the embedded connectors by key, the parts of the
    node that are running, and (for the theorems) the handshakes sent to relays
    and the commands run.  A pull listener and a relay server each have a
    cache of connectors, and a pull listener its cooling endpoints: the fields
    are those of the part that is at work. *)
Inductive runningPart := EmbeddedPart (m : mapping) | PullPart (m : mapping) | RelayPart | CoordinatorPart.

Record memory := mkMemory {
  nm_nonces : gmap string Z;
  nm_cooling : gmap string Z;
  nm_offers : gset string;
  nm_waiting : gmap string (string * string);
  nm_tunnels : Z;
  nm_handshakes : list (string * relayHandshake);
  nm_connectors : gmap string string;
  nm_parts : list runningPart;
  nm_commands : list (list string);
}.

Record host := mkHost {
  h_files : gmap string string;
  h_tick : nat;
  h_out : list string;
  h_sent : list outRequest;
  h_memory : memory;
}.

Definition IO (A : Type) : Type := host → option A * host.
#[export] Instance IO_ret : MRet IO := λ A a h, (Some a, h).
#[export] Instance IO_bind : MBind IO := λ A B k m h,
  match m h with
  | (Some a, h') => k a h'
  | (None, h') => (None, h')
  end.

Definition exec {A} (m : IO A) (h : host) : option A * host := m h.
Definition failure {A} : IO A := λ h, (None, h).
(** A result without effects. *)
Definition lift {A} (o : option A) : IO A := λ h, (o, h).
(** [x, err := m] where the code goes on with either. *)
Definition attempt {A} (m : IO A) : IO (option A) := λ h, let '(r, h') := m h in (Some r, h').

Notation "'refuse' c ';;' k" := (if c then failure else k)
  (at level 10, c at level 90, k at level 200).

Definition setFiles f h := mkHost (f (h_files h)) (h_tick h) (h_out h) (h_sent h) (h_memory h).

(** The next answer of a source outside the program. *)
Definition ask {A} (source : nat → A) : IO A :=
  λ h, (Some (source (h_tick h)), mkHost (h_files h) (S (h_tick h)) (h_out h) (h_sent h) (h_memory h)).
Definition recordSent (r : outRequest) : IO unit :=
  λ h, (Some tt, mkHost (h_files h) (h_tick h) (h_out h) (h_sent h ++ [r]) (h_memory h)).
Definition setSeen f m := mkMemory (f (nm_nonces m)) (nm_cooling m) (nm_offers m) (nm_waiting m)
    (nm_tunnels m) (nm_handshakes m) (nm_connectors m) (nm_parts m) (nm_commands m).
Definition setCooling f m := mkMemory (nm_nonces m) (f (nm_cooling m)) (nm_offers m) (nm_waiting m)
    (nm_tunnels m) (nm_handshakes m) (nm_connectors m) (nm_parts m) (nm_commands m).
Definition setOffers f m := mkMemory (nm_nonces m) (nm_cooling m) (f (nm_offers m)) (nm_waiting m)
    (nm_tunnels m) (nm_handshakes m) (nm_connectors m) (nm_parts m) (nm_commands m).
Definition setWaiting f m := mkMemory (nm_nonces m) (nm_cooling m) (nm_offers m) (f (nm_waiting m))
    (nm_tunnels m) (nm_handshakes m) (nm_connectors m) (nm_parts m) (nm_commands m).
Definition setTunnels f m := mkMemory (nm_nonces m) (nm_cooling m) (nm_offers m) (nm_waiting m) (f
    (nm_tunnels m)) (nm_handshakes m) (nm_connectors m) (nm_parts m) (nm_commands m).
Definition setHandshakes f m := mkMemory (nm_nonces m) (nm_cooling m) (nm_offers m) (nm_waiting m)
    (nm_tunnels m) (f (nm_handshakes m)) (nm_connectors m) (nm_parts m) (nm_commands m).
Definition setConnectors f m := mkMemory (nm_nonces m) (nm_cooling m) (nm_offers m) (nm_waiting m)
    (nm_tunnels m) (nm_handshakes m) (f (nm_connectors m)) (nm_parts m) (nm_commands m).
Definition setParts f m := mkMemory (nm_nonces m) (nm_cooling m) (nm_offers m) (nm_waiting m)
    (nm_tunnels m) (nm_handshakes m) (nm_connectors m) (f (nm_parts m)) (nm_commands m).
Definition setCommands f m := mkMemory (nm_nonces m) (nm_cooling m) (nm_offers m) (nm_waiting m)
    (nm_tunnels m) (nm_handshakes m) (nm_connectors m) (nm_parts m) (f (nm_commands m)).
Definition printLine (s : string) : IO unit :=
  λ h, (Some tt, mkHost (h_files h) (h_tick h) (h_out h ++ [s]) (h_sent h) (h_memory h)).
Definition getFiles : IO (gmap string string) := λ h, (Some (h_files h), h).
Definition getMemory : IO memory := λ h, (Some (h_memory h), h).
Definition modMemory (f : memory → memory) : IO unit :=
  λ h, (Some tt, mkHost (h_files h) (h_tick h) (h_out h) (h_sent h) (f (h_memory h))).
Definition modFiles (f : gmap string string → gmap string string) : IO unit :=
  λ h, (Some tt, setFiles f h).

Section Host.
Context {unicode : Unicode} {hostEnv : HostEnv}.

(** *** Files *)

Definition readFile (path : string) : IO readOutcome :=
  fails ← ask (λ i, readFails i path);
  files ← getFiles;
  mret (if (fails : bool) then ReadError
        else match files !! path with
             | Some text => Content text
             | None => NotExist
             end).

(** [os.WriteFile(path, text, …)]. *)
Definition putFile (path text : string) : IO unit :=
  outcome ← ask (λ i, writeFile i path text);
  match outcome with
  | Written => modFiles (insert path text)
  | Untouched => failure
  | Partial part => modFiles (insert path part) ;; failure
  end.

(** [os.Rename(old, new)]: replaces [new] when it succeeds. *)
Definition rename (old new : string) : IO unit :=
  ok ← ask renameFile;
  files ← getFiles;
  match files !! old with
  | Some text => if negb ok then failure else modFiles (λ m, <[new := text]> (delete old m))
  | None => failure
  end.

(** The write-and-rename every file of a node is saved with. *)
Definition replaceFile (path text : string) : IO unit :=
  putFile (path +:+ ".new") text ;; rename (path +:+ ".new") path.

Definition lineEnd : string := Strings.ofBytes [ascii_of_nat 10].

(** *** Profiles *)

Definition configDir : IO string :=
  d ← ask configHome;
  d ← lift d;
  mret (Filepath.Join [d; "mayoiga"]).

Definition profileIn (dir instance : string) : string :=
  Filepath.Join [dir; "nodes"; instance; "profile.json"].

Definition checkProfile (p : profile) : option profile :=
  if negb (pf_Version p =? profileVersion) then None
  else if negb (validNodeRole (pf_Role p)) then None
  else Some p.

Definition loadProfile (path : string) : IO profile :=
  b ← readFile path;
  match b with
  | NotExist => mret defaultProfile
  | ReadError => failure
  | Content text =>
      match unmarshalProfile text with
      | None => failure
      | Some p => lift (checkProfile p)
      end
  end.

Definition saveProfile (path : string) (p : profile) : IO unit :=
  ok ← ask (λ i, mkdirAll i (Filepath.Dir path));
  refuse negb ok ;;
  replaceFile path (marshalProfile p +:+ lineEnd).

(** *** Random identifiers and certificates *)

Definition hostRandom (n : nat) : IO string :=
  b ← ask (λ i, hostRand i n);
  lift b.

(** [b[i] & m | v]. *)
Definition maskByte (i : nat) (m v : Z) (b : list ascii) : list ascii :=
  alter (λ a, ascii_of_nat (Z.to_nat (Z.lor (Z.land (Z.of_nat (nat_of_ascii a)) m) v))) i b.

(** [s[a:b]]. *)
Definition slice (a b : nat) (l : list ascii) : list ascii := take (b - a) (drop a l).

Definition uuidText (random : string) : string :=
  let b := maskByte 8 63 128 (maskByte 6 15 64 (Strings.bytes random)) in
  let s := Strings.bytes (Hex.EncodeToString (Strings.ofBytes b)) in
  let part (a b : nat) := Strings.ofBytes (slice a b s) in
  (part 0 8 +:+ "-" +:+ part 8 12 +:+ "-" +:+ part 12 16 +:+ "-" +:+ part 16 20 +:+ "-" +:+ part 20 32)%nat.

Definition randomUUID : IO string :=
  b ← hostRandom 16;
  mret (uuidText b).

(** [randomToken], drawn on a node. *)
Definition hostToken : IO string :=
  b ← hostRandom 32;
  mret (Hex.EncodeToString b).

Definition makeCertificate (certPath keyPath : string) : IO string :=
  ok ← ask (λ i, mkdirAll i (Filepath.Dir certPath));
  refuse negb ok ;;
  made ← ask newCertificate;
  made ← lift made;
  let '(der, certificate, key) := made in
  putFile certPath certificate ;;
  putFile keyPath key ;;
  mret (Hex.EncodeToString (Sha256.Sum256 der)).

(** *** The profiles a manager finds *)

Record managedProfile := mkManagedProfile {
  mg_instance : string;
  mg_path : string;
  mg_role : string;
  mg_signature : string;
  mg_disabled : bool;
  mg_ok : bool;
}.

(** One directory entry; [None] when the loop skips it.  [mg_ok] says that
    [err] is nil. *)
Definition managedEntry (dir : string) (entry : string * bool) : IO (option managedProfile) :=
  let '(name, isDir) := entry in
  if negb isDir || negb (validateInstance name) then mret None else
  let path := profileIn dir name in
  read ← readFile path;
  match read with
  | NotExist | ReadError => mret (Some (mkManagedProfile name path "" (Sha256.Sum256 "") false false))
  | Content text =>
      let signature := Sha256.Sum256 text in
      loaded ← attempt (loadProfile path);
      match loaded with
      | None => mret (Some (mkManagedProfile name path "" signature false false))
      | Some p =>
          tick ← ask id;
          let ok := (pf_Instance p =? name)%string && validateManagedProfile (regularFile tick) p in
          mret (Some (mkManagedProfile name path (pf_Role p) signature (pf_Disabled p) ok))
      end
  end.

Fixpoint managedEntries (dir : string) (entries : list (string * bool)) : IO (list managedProfile) :=
  match entries with
  | [] => mret []
  | e :: rest =>
      found ← managedEntry dir e;
      others ← managedEntries dir rest;
      mret (match found with Some m => m :: others | None => others end)
  end.

Definition startsBefore (a b : managedProfile) : bool :=
  let x := serviceRoleOrder (mg_role a) in
  let y := serviceRoleOrder (mg_role b) in
  if negb (x =? y) then x <? y else (mg_instance a <? mg_instance b)%string.

(** [dir] is the absolute form of the directory the manager was given; the
    empty string stands for the user's configuration directory. *)
Definition managedProfiles (dir : string) : IO (list managedProfile) :=
  dir ← (if (dir =? "")%string then configDir else mret dir);
  entries ← ask (λ i, readDir i (Filepath.Join [dir; "nodes"]));
  match entries with
  | NoDirectory => mret []
  | DirectoryError => failure
  | Entries l =>
      profiles ← managedEntries dir l;
      mret (sortSlice startsBefore profiles)
  end.

(** *** The listeners configured on the host *)

Definition configuredListeners (p : profile) : list (string * string) :=
  [("coordinator-public", sv_Listen (pf_Server p));
   ("coordinator-admin", sv_AdminListen (pf_Server p));
   ("relay-transit", rl_Listen (pf_Relay p))]
  ++ ((λ m, ("mapping:" +:+ mp_Name m, mp_Listen m)) <$> pf_Mappings p).

(** The innermost loop: the first conflicting listener of one profile. *)
Definition conflictingListener (address : string) (p : profile) : option string :=
  fst <$> firstMatch (λ l, negb (l.2 =? "")%string && sameListenAddress l.2 address) (configuredListeners p).

Fixpoint listenConflictIn (dir excludePath address : string) (entries : list (string * bool)) : IO (option string) :=
  match entries with
  | [] => mret None
  | (name, isDir) :: rest =>
      let next := listenConflictIn dir excludePath address rest in
      if negb isDir || negb (validateInstance name) then next
      else
        let path := profileIn dir name in
        if (path =? excludePath)%string then next
        else
          loaded ← attempt (loadProfile path);
          match loaded with
          | None => next
          | Some p =>
              match conflictingListener address p with
              | Some listener => mret (Some (name +:+ "/" +:+ listener))
              | None => next
              end
          end
  end.

(** The owner of a conflicting listener; [excludePath] is absolute, as
    [profilePathFor] returns it. *)
Definition configuredListenConflict (excludePath address : string) : IO (option string) :=
  dir ← configDir;
  entries ← ask (λ i, readDir i (Filepath.Join [dir; "nodes"]));
  match entries with
  | NoDirectory => mret None
  | DirectoryError => failure
  | Entries l => listenConflictIn dir excludePath address l
  end.

Definition checkListenAvailable (address : string) : IO unit :=
  ok ← ask (λ i, listenable i address);
  refuse negb ok ;; mret tt.
End Host.

(** ** Rules

    [runs m h a h']: the computation returns [a] without an error. *)
Definition runs {A} (m : IO A) (h : host) (a : A) (h' : host) : Prop := m h = (Some a, h').

Definition tickHost (h : host) : host := mkHost (h_files h) (S (h_tick h)) (h_out h) (h_sent h) (h_memory h).

Section Rules.
Context {A B : Type}.

Lemma runs_bind (m : IO A) (k : A → IO B) h b h'' :
  runs (m ≫= k) h b h'' ↔ ∃ a h', runs m h a h' ∧ runs (k a) h' b h''.
Proof.
  unfold runs, mbind, IO_bind. split.
  - destruct (m h) as [[a|] h'] eqn:E; [|done]. eauto.
  - intros (a & h' & -> & ?). done.
Qed.

Lemma runs_ret (a b : A) h h' : runs (mret a) h b h' ↔ b = a ∧ h' = h.
Proof. unfold runs, mret, IO_ret. split; [by intros [= -> ->]|by intros [-> ->]]. Qed.

Lemma runs_lift (o : option A) a h h' : runs (lift o) h a h' ↔ o = Some a ∧ h' = h.
Proof. unfold runs, lift. split; [by intros [= -> ->]|by intros [-> ->]]. Qed.

Lemma runs_ask (source : nat → A) a h h' : runs (ask source) h a h' ↔ a = source (h_tick h) ∧ h' = tickHost h.
Proof. unfold runs, ask, tickHost. split; [by intros [= <- <-]|by intros [-> ->]]. Qed.

Lemma runs_failure (a : A) h h' : runs failure h a h' ↔ False.
Proof. by unfold runs, failure. Qed.

Lemma runs_refuse (c : bool) (k : IO A) h a h' : runs (refuse c ;; k) h a h' ↔ c = false ∧ runs k h a h'.
Proof. unfold runs. destruct c; split; try done; by intros [? ?]. Qed.

Lemma runs_attempt (m : IO A) o h h' : runs (attempt m) h o h' → m h = (o, h').
Proof. unfold runs, attempt. destruct (m h). congruence. Qed.

Lemma runs_fun (m : IO A) h a h1 b h2 : runs m h a h1 → runs m h b h2 → a = b ∧ h1 = h2.
Proof. unfold runs. intros -> [= <- <-]. done. Qed.
End Rules.

Lemma runs_files h a h' : runs getFiles h a h' ↔ a = h_files h ∧ h' = h.
Proof. unfold runs, getFiles. split; [by intros [= <- <-]|by intros [-> ->]]. Qed.
Lemma runs_modFiles f u h h' : runs (modFiles f) h u h' ↔ h' = setFiles f h.
Proof. destruct u. unfold runs, modFiles. split; [by intros [= <-]|by intros ->]. Qed.
Lemma runs_print s u h h' : runs (printLine s) h u h' ↔ h' = mkHost (h_files h) (h_tick h) (h_out h ++ [s]) (h_sent h) (h_memory h).
Proof. destruct u. unfold runs, printLine. split; [by intros [= <-]|by intros ->]. Qed.

Lemma runs_record r u h h' : runs (recordSent r) h u h' ↔ h' = mkHost (h_files h) (h_tick h) (h_out h) (h_sent h ++ [r]) (h_memory h).
Proof. destruct u. unfold runs, recordSent. split; [by intros [= <-]|by intros ->]. Qed.

Lemma runs_memory h a h' : runs getMemory h a h' ↔ a = h_memory h ∧ h' = h.
Proof. unfold runs, getMemory. split; [by intros [= <- <-]|by intros [-> ->]]. Qed.
Lemma runs_modMemory f u h h' :
  runs (modMemory f) h u h' ↔ h' = mkHost (h_files h) (h_tick h) (h_out h) (h_sent h) (f (h_memory h)).
Proof. destruct u. unfold runs, modMemory. split; [by intros [= <-]|by intros ->]. Qed.

(** Inverts every hypothesis that says a computation ran. *)
Ltac io_inv1 :=
  match goal with
  | H : runs (mbind _ _) _ _ _ |- _ => apply runs_bind in H as (? & ? & ? & ?)
  | H : runs (mret _) _ _ _ |- _ => apply runs_ret in H as [??]; subst
  | H : runs (lift _) _ _ _ |- _ => apply runs_lift in H as [??]; subst
  | H : runs (ask _) _ _ _ |- _ => apply runs_ask in H as [??]; subst
  | H : runs failure _ _ _ |- _ => destruct (proj1 (runs_failure _ _ _) H)
  | H : runs getFiles _ _ _ |- _ => apply runs_files in H as [??]; subst
  | H : runs (modFiles _) _ _ _ |- _ => apply runs_modFiles in H; subst
  | H : runs getMemory _ _ _ |- _ => apply runs_memory in H as [??]; subst
  | H : runs (modMemory _) _ _ _ |- _ => apply runs_modMemory in H; subst
  | H : runs (recordSent _) _ _ _ |- _ => apply runs_record in H; subst
  | H : runs (printLine _) _ _ _ |- _ => apply runs_print in H; subst
  | H : runs (if _ then failure else _) _ _ _ |- _ => apply runs_refuse in H as [??]
  | H : runs (let '(_, _) := ?x in _) _ _ _ |- _ => is_var x; destruct x
  end.
Tactic Notation "io_bind" simple_intropattern(P) :=
  match goal with H : runs (mbind _ _) _ _ _ |- _ => apply runs_bind in H as P end.
Tactic Notation "io_guard" simple_intropattern(P) :=
  match goal with H : runs (if _ then failure else _) _ _ _ |- _ => apply runs_refuse in H as [P H] end.
Ltac io_inv := repeat (io_inv1; simpl in *).

(** *** What a computation may change *)

(** [m] changes no file outside [S], whether it fails or not. *)
Definition touches {A} (S : string → Prop) (m : IO A) : Prop :=
  ∀ h path, ¬ S path → h_files (m h).2 !! path = h_files h !! path.

Section Touches.
Context (S : string → Prop).

Lemma touches_pure {A} (m : IO A) : (∀ h, h_files (m h).2 = h_files h) → touches S m.
Proof. intros H h path _. by rewrite H. Qed.

Lemma touches_bind {A B} (m : IO A) (k : A → IO B) :
  touches S m → (∀ a, touches S (k a)) → touches S (m ≫= k).
Proof.
  intros Hm Hk h path Hp. unfold mbind, IO_bind. specialize (Hm h path Hp).
  destruct (m h) as [[a|] h']; simpl in *; [|done]. by rewrite (Hk a h' path Hp).
Qed.

Lemma touches_modFiles_insert path text : S path → touches S (modFiles (insert path text)).
Proof. intros HS h q Hq. simpl. rewrite lookup_insert_ne; [done|]. by intros ->. Qed.

Lemma touches_attempt {A} (m : IO A) : touches S m → touches S (attempt m).
Proof. intros H h path Hp. specialize (H h path Hp). unfold attempt. by destruct (m h). Qed.
End Touches.

Lemma append_ne (s t : string) : t ≠ "" → s +:+ t ≠ s.
Proof.
  intros Ht He. apply (f_equal Strings.bytes) in He. rewrite bytes_app in He.
  apply (f_equal length) in He. rewrite length_app in He.
  apply Ht, bytes_inj. destruct (Strings.bytes t); [done|simpl in *; lia].
Qed.

Lemma temp_ne path : path +:+ ".new" ≠ path.
Proof. by apply append_ne. Qed.

Section FileRules.
Context {unicode : Unicode} {hostEnv : HostEnv}.

(** What a successful operation does. *)
Lemma runs_putFile path text h u h' :
  runs (putFile path text) h u h' → h' = setFiles (insert path text) (tickHost h).
Proof.
  unfold putFile. intros H. io_inv1. io_inv1. destruct (writeFile _ _ _); io_inv; done.
Qed.

Lemma runs_readFile path r h h' :
  runs (readFile path) h r h' →
  h' = tickHost h
  ∧ r = (if readFails (h_tick h) path then ReadError
         else match h_files h !! path with Some text => Content text | None => NotExist end).
Proof. unfold readFile. intros H. io_inv. done. Qed.

Lemma runs_replaceFile path text h u h' :
  runs (replaceFile path text) h u h' →
  h_files h' = <[path := text]> (delete (path +:+ ".new") (h_files h))
  ∧ h_out h' = h_out h ∧ h_sent h' = h_sent h.
Proof.
  unfold replaceFile. intros H. io_inv1. apply runs_putFile in H as ->. unfold rename in *. io_inv.
  rewrite lookup_insert_eq in *. io_inv. unfold setFiles, tickHost. simpl.
  by rewrite delete_insert_eq.
Qed.

Lemma runs_saveProfile path p h u h' :
  runs (saveProfile path p) h u h' →
  h_files h' = <[path := marshalProfile p +:+ lineEnd]> (delete (path +:+ ".new") (h_files h))
  ∧ h_out h' = h_out h ∧ h_sent h' = h_sent h.
Proof. unfold saveProfile. intros H. io_inv. by apply runs_replaceFile in H0. Qed.

(** The profile that [loadProfile] finds in the files. *)
Definition profileAt (files : gmap string string) (path : string) (p : profile) : Prop :=
  match files !! path with
  | None => p = defaultProfile
  | Some text => unmarshalProfile text = Some p ∧ checkProfile p = Some p
  end.

Lemma checkProfile_Some p q :
  checkProfile p = Some q ↔ q = p ∧ pf_Version p = profileVersion ∧ validNodeRole (pf_Role p) = true.
Proof.
  unfold checkProfile. destruct (Z.eqb_spec (pf_Version p) profileVersion); simpl.
  - destruct (validNodeRole (pf_Role p)); simpl; split; [by intros [= ->]|by intros (-> & _)|done|by intros (_ & _ & ?)].
  - split; [done|by intros (_ & ? & _)].
Qed.

Lemma runs_loadProfile path p h h' :
  runs (loadProfile path) h p h' → h' = tickHost h ∧ profileAt (h_files h) path p.
Proof.
  unfold loadProfile, profileAt. intros H. io_inv1. apply runs_readFile in H as [-> ->].
  destruct (readFails _ _); [io_inv; done|].
  destruct (h_files h !! path) as [text|]; [|io_inv; done].
  destruct (unmarshalProfile text) as [q|] eqn:E; [|io_inv; done]. io_inv.
  split; [done|]. apply checkProfile_Some in H as (-> & ? & ?). split; [done|]. by apply checkProfile_Some.
Qed.

Lemma loadProfile_quiet path r h h' :
  loadProfile path h = (r, h') → h_files h' = h_files h ∧ h_out h' = h_out h ∧ h_sent h' = h_sent h.
Proof.
  unfold loadProfile, readFile, mbind, IO_bind, ask, getFiles, mret, IO_ret. simpl.
  destruct (readFails (h_tick h) path); [by intros [= <- <-]|].
  destruct (h_files h !! path) as [text|]; [|by intros [= <- <-]].
  destruct (unmarshalProfile text); by intros [= <- <-].
Qed.

Lemma loadProfile_runs path p h :
  readFails (h_tick h) path = false → profileAt (h_files h) path p → runs (loadProfile path) h p (tickHost h).
Proof.
  intros Hr Hp. unfold runs, loadProfile, readFile, mbind, IO_bind, ask, getFiles, mret, IO_ret. simpl.
  rewrite Hr. unfold profileAt in Hp. destruct (h_files h !! path) as [text|]; [|by subst].
  destruct Hp as [-> Hp]. unfold lift. by rewrite Hp.
Qed.

Lemma runs_makeCertificate certPath keyPath pin h h' :
  runs (makeCertificate certPath keyPath) h pin h' →
  ∃ der certificate key,
    h_files h' = <[keyPath := key]> (<[certPath := certificate]> (h_files h))
    ∧ pin = Hex.EncodeToString (Sha256.Sum256 der) ∧ h_out h' = h_out h ∧ h_sent h' = h_sent h.
Proof.
  unfold makeCertificate. intros H. io_inv.
  repeat match goal with H : runs (putFile _ _) _ _ _ |- _ => apply runs_putFile in H; subst end.
  by eexists _, _, _.
Qed.

Lemma runs_hostRandom n b h h' :
  runs (hostRandom n) h b h' → h' = tickHost h ∧ String.length b = n.
Proof. unfold hostRandom. intros H. io_inv. split; [done|]. by eapply hostRand_length. Qed.

(** What an operation may touch, whether it succeeds or not. *)
Lemma touches_putFile S path text : S path → touches S (putFile path text).
Proof.
  intros HS. unfold putFile. apply touches_bind; [by apply touches_pure|]. intros [| |part].
  - by apply touches_modFiles_insert.
  - by apply touches_pure.
  - apply touches_bind; [by apply touches_modFiles_insert|]. intros _. by apply touches_pure.
Qed.

Lemma touches_rename (S : string → Prop) old new : S old → S new → touches S (rename old new).
Proof.
  intros Ho Hn. unfold rename. apply touches_bind; [by apply touches_pure|]. intros ok.
  apply touches_bind; [by apply touches_pure|]. intros files.
  destruct (files !! old); [|by apply touches_pure]. destruct ok; simpl; [|by apply touches_pure].
  intros h q Hq. simpl. rewrite lookup_insert_ne, lookup_delete_ne; [done| |]; by intros ->.
Qed.

Lemma touches_replaceFile (S : string → Prop) path text :
  S path → S (path +:+ ".new") → touches S (replaceFile path text).
Proof.
  intros. unfold replaceFile. apply touches_bind; [by apply touches_putFile|]. intros _.
  by apply touches_rename.
Qed.

(** A rename that fails leaves both files as they are. *)
Lemma rename_fails old new h h' : rename old new h = (None, h') → h_files h' = h_files h.
Proof.
  unfold rename, mbind, IO_bind, ask, getFiles. simpl.
  destruct (h_files h !! old); [|by intros [= <-]]. destruct (renameFile _); simpl; [done|by intros [= <-]].
Qed.

Lemma replaceFile_fails path text h h' :
  replaceFile path text h = (None, h') → h_files h' !! path = h_files h !! path.
Proof.
  unfold replaceFile. intros H.
  pose proof (touches_putFile (λ q, q = path +:+ ".new") (path +:+ ".new") text eq_refl h path) as Ht.
  specialize (Ht ltac:(intros He; by apply (temp_ne path))).
  unfold mbind, IO_bind in H. destruct (putFile _ _ h) as [[u|] h1]; simpl in *.
  - by rewrite (rename_fails _ _ _ _ H).
  - by injection H as <-.
Qed.

Lemma saveProfile_fails path p h h' :
  saveProfile path p h = (None, h') → h_files h' !! path = h_files h !! path.
Proof.
  unfold saveProfile, mbind, IO_bind, ask. destruct (mkdirAll _ _); simpl; [|by intros [= <-]].
  intros H. by rewrite (replaceFile_fails _ _ _ _ H).
Qed.

Lemma touches_saveProfile (S : string → Prop) path p :
  S path → S (path +:+ ".new") → touches S (saveProfile path p).
Proof.
  intros. unfold saveProfile. apply touches_bind; [by apply touches_pure|]. intros ok.
  destruct ok; simpl; [by apply touches_replaceFile|by apply touches_pure].
Qed.
End FileRules.

(** *** What a computation keeps *)

(** The file at [path] survives a computation that fails. *)
Definition keeps {A} (path : string) (m : IO A) : Prop :=
  ∀ h h', m h = (None, h') → h_files h' !! path = h_files h !! path.
(** … or however it ends. *)
Definition steady {A} (path : string) (m : IO A) : Prop :=
  ∀ h, h_files (m h).2 !! path = h_files h !! path.

Lemma steady_quiet {A} path (m : IO A) : (∀ h, h_files (m h).2 = h_files h) → steady path m.
Proof. intros H h. by rewrite H. Qed.

Lemma keeps_steady {A} path (m : IO A) : steady path m → keeps path m.
Proof. intros H h h' E. specialize (H h). rewrite E in H. exact H. Qed.

Lemma keeps_bind {A B} path (m : IO A) (k : A → IO B) :
  steady path m → (∀ a, keeps path (k a)) → keeps path (m ≫= k).
Proof.
  intros Hm Hk h h' E. unfold mbind, IO_bind in E. specialize (Hm h).
  destruct (m h) as [[a|] h1]; simpl in Hm; [|by injection E as <-].
  by rewrite (Hk a h1 h' E).
Qed.

Lemma steady_bind {A B} path (m : IO A) (k : A → IO B) :
  steady path m → (∀ a, steady path (k a)) → steady path (m ≫= k).
Proof.
  intros Hm Hk h. unfold mbind, IO_bind. specialize (Hm h).
  destruct (m h) as [[a|] h1]; simpl in Hm |- *; [|done]. by rewrite (Hk a h1).
Qed.

Lemma keeps_refuse {A} path (c : bool) (k : IO A) : keeps path k → keeps path (refuse c ;; k).
Proof. intros Hk. destruct c; [|done]. intros h h' E. by injection E as <-. Qed.
Lemma steady_refuse {A} path (c : bool) (k : IO A) : steady path k → steady path (refuse c ;; k).
Proof. intros Hk. by destruct c. Qed.

Section Kept.
Context {unicode : Unicode} {hostEnv : HostEnv}.

Lemma steady_loadProfile path q : steady path (loadProfile q).
Proof.
  intros h. destruct (loadProfile q h) as [r h'] eqn:E. destruct (loadProfile_quiet _ _ _ _ E) as [Hf _].
  simpl. by rewrite Hf.
Qed.

Lemma steady_touches {A} path (m : IO A) : touches (λ q, q ≠ path) m → steady path m.
Proof. intros H h. apply H. intros Hn. by apply Hn. Qed.

Lemma steady_putFile path q text : q ≠ path → steady path (putFile q text).
Proof. intros H. by apply steady_touches, touches_putFile. Qed.

Lemma steady_makeCertificate path c k : c ≠ path → k ≠ path → steady path (makeCertificate c k).
Proof.
  intros Hc Hk. unfold makeCertificate. apply steady_bind; [by apply steady_quiet|]. intros ok.
  apply steady_refuse, steady_bind; [by apply steady_quiet|]. intros made.
  apply steady_bind; [by apply steady_quiet|]. intros [[der cert] key].
  apply steady_bind; [by apply steady_putFile|]. intros _.
  apply steady_bind; [by apply steady_putFile|]. intros _. by apply steady_quiet.
Qed.
End Kept.

(** *** The rules of the manager's scan *)

Section ManagedRules.
Context {unicode : Unicode} {hostEnv : HostEnv}.

(** What an entry of the scan says, and why it is accepted. *)
Definition managedOk (files : gmap string string) (dir : string) (m : managedProfile) : Prop :=
  validateInstance (mg_instance m) = true ∧ mg_path m = profileIn dir (mg_instance m)
  ∧ (mg_ok m = true → ∃ text p tick, files !! mg_path m = Some text ∧ unmarshalProfile text = Some p
       ∧ checkProfile p = Some p ∧ mg_signature m = Sha256.Sum256 text ∧ mg_role m = pf_Role p
       ∧ mg_disabled m = pf_Disabled p ∧ pf_Instance p = mg_instance m
       ∧ validateManagedProfile (regularFile tick) p = true).

Lemma runs_managedEntry dir name isDir m h h' :
  runs (managedEntry dir (name, isDir)) h m h' →
  h_files h' = h_files h
  ∧ match m with
    | None => negb isDir || negb (validateInstance name) = true
    | Some m => isDir = true ∧ mg_instance m = name ∧ managedOk (h_files h) dir m
    end.
Proof.
  unfold managedEntry. destruct (negb isDir || negb (validateInstance name)) eqn:Hskip; intros H; [io_inv; done|].
  bool_simpl. io_bind (r & h1 & Hr & H). apply runs_readFile in Hr as [-> Hr].
  destruct r as [| |text]; [io_inv; done..|].
  io_bind (loaded & h2 & Hl & H). apply runs_attempt in Hl. destruct (loadProfile_quiet _ _ _ _ Hl) as [Hf2 _].
  destruct loaded as [p|]; [|io_inv; split; [done|]; by split_and!].
  io_bind (tick & h3 & Ht & H). io_inv. apply runs_loadProfile in Hl as [-> Hat]. split; [done|].
  split_and!; [done..|]. unfold managedOk. simpl. split_and!; [done..|]. intros [Hi%String.eqb_eq Hv]%andb_true_iff.
  destruct (readFails _ _); [done|]. destruct (h_files h !! profileIn dir name) as [text'|] eqn:Hfile; [|done].
  injection Hr as <-. unfold profileAt in Hat. simpl in Hat. rewrite Hfile in Hat. destruct Hat as [Hu Hc].
  eexists text, p, _. by split_and!.
Qed.

Definition managedNames (entries : list (string * bool)) : list string :=
  (filter (λ e, e.2 && validateInstance e.1 = true) entries).*1.

Lemma runs_managedEntries dir entries l h h' :
  runs (managedEntries dir entries) h l h' →
  h_files h' = h_files h ∧ Forall (managedOk (h_files h) dir) l ∧ mg_instance <$> l = managedNames entries.
Proof.
  revert l h. induction entries as [|[name isDir] rest IH]; intros l h H.
  { simpl in H. io_inv. split_and!; [done|constructor|done]. }
  cbn [managedEntries] in H. io_bind (found & h1 & Hf & H). io_bind (others & h2 & Ho & H). io_inv.
  apply runs_managedEntry in Hf as [Hf1 Hf]. apply IH in Ho as (Hf2 & Hall & Hn). rewrite Hf1 in Hf2, Hall.
  split; [congruence|]. unfold managedNames in *. rewrite filter_cons. simpl. destruct found as [m|].
  - destruct Hf as (-> & Hi & Hm). destruct Hm as (Hv & Hp & Hok). rewrite Hi in Hv. rewrite Hv, decide_True by done.
    split; [constructor; [|done]; split_and!; [by rewrite Hi|done|done]|]. rewrite !fmap_cons, Hn. by rewrite Hi.
  - split; [done|]. rewrite decide_False; [done|]. by destruct isDir, (validateInstance name).
Qed.
End ManagedRules.
