(* ===== verification/Service.v ===== *)
(** * The manager as a service of the operating system

    The staged copy of the program (service_stage.go), the systemd user unit
    and its control (service_linux.go), and what other systems answer
    (service_other.go).  Commands are only recorded and succeed or fail by an
    oracle. *)
From S2P Require Import Prelude GoStd GoNet GoPath GoCrypto Types Runtime Validate Profile Host.

Local Open Scope Z_scope.

Inductive removeOutcome := Removed | Absent | RemoveError.

Section Service.
Context {unicode : Unicode} {hostEnv : HostEnv}.

(** [os.Remove]. *)
Definition removeFile (path : string) : IO removeOutcome :=
  ok ← ask (λ i, removable i path);
  files ← getFiles;
  if negb ok then mret RemoveError
  else if bool_decide (is_Some (files !! path)) then modFiles (delete path) ;; mret Removed
  else mret Absent.

(** [exec.Command(…).Run()]: whether its error is nil. *)
Definition command (args : list string) : IO bool :=
  modMemory (setCommands (λ l, l ++ [args])) ;;
  ask (λ i, runCommand i args).

(** ** The staged program *)

Definition executableName : string := if windows then "mayoiga.exe" else "mayoiga".

Definition stageManagedBinary : IO string :=
  source ← ask executableBytes;
  source ← lift source;
  dir ← configDir;
  let bin := Filepath.Join [dir; "bin"; executableName] in
  ok ← ask (λ i, mkdirAll i (Filepath.Dir bin));
  refuse negb ok ;;
  let staged := bin +:+ ".new" in
  outcome ← ask (λ i, writeFile i staged source);
  match outcome with
  | Untouched => failure
  | Partial copied => modFiles (insert staged copied) ;; _ ← removeFile staged; failure
  | Written =>
      modFiles (insert staged source) ;;
      renamed ← attempt (rename staged bin);
      match renamed with
      | Some _ => mret bin
      | None => _ ← removeFile staged; failure
      end
  end.

(** ** The unit *)

Definition unitDir (home : string) : string := Filepath.Join [home; ".config"; "systemd"; "user"].
Definition unitFile (home : string) : string := Filepath.Join [home; ".config"; "systemd"; "user"; "mayoiga.service"].

Definition unitLines (bin : string) : list string :=
  ["[Unit]"; "Description=mayoiga node manager"; "After=network-online.target"; ""; "[Service]";
   "ExecStart=" +:+ bin +:+ " --action service-run"; "Restart=always"; "RestartSec=3"; "NoNewPrivileges=true";
   "PrivateTmp=true"; ""; "[Install]"; "WantedBy=default.target"].
Definition unitText (bin : string) : string := foldr (λ line text, line +:+ lineEnd +:+ text) "" (unitLines bin).

Definition installManagerService : IO unit :=
  if negb linux then failure else
  bin ← stageManagedBinary;
  home ← ask userHome;
  home ← lift home;
  ok ← ask (λ i, mkdirAll i (unitDir home));
  refuse negb ok ;;
  putFile (unitFile home) (unitText bin) ;;
  reloaded ← command ["systemctl"; "--user"; "daemon-reload"];
  refuse negb reloaded ;; mret tt.

Definition ensureManagerService : IO unit :=
  if negb linux then installManagerService else
  home ← ask userHome;
  home ← lift home;
  fails ← ask (λ i, statFails i (unitFile home));
  files ← getFiles;
  refuse (fails : bool) ;;
  if bool_decide (is_Some (files !! unitFile home)) then mret tt else installManagerService.

(** The loop over the instances with a unit of their own, of an earlier
    release. *)
Fixpoint retireUnits (entries : list (string * bool)) : IO unit :=
  match entries with
  | [] => mret tt
  | (name, isDir) :: rest =>
      if negb isDir || negb (validateInstance name) then retireUnits rest else
      let unit := "mayoiga@" +:+ name +:+ ".service" in
      enabled ← command ["systemctl"; "--user"; "is-enabled"; "--quiet"; unit];
      active ← command ["systemctl"; "--user"; "is-active"; "--quiet"; unit];
      if enabled || active then
        disabled ← command ["systemctl"; "--user"; "disable"; "--now"; unit];
        refuse negb disabled ;;
        retireUnits rest
      else retireUnits rest
  end.

Definition retireLegacyNodeServices (dir : string) : IO unit :=
  config ← configDir;
  found ← ask (λ i, readDir i (Filepath.Join [config; "nodes"]));
  match found with
  | DirectoryError => failure
  | NoDirectory => mret tt
  | Entries entries => retireUnits entries
  end ;;
  removed ← removeFile (Filepath.Join [dir; "mayoiga@.service"]);
  match removed with RemoveError => failure | _ => mret tt end.

Definition controlManagerService (action : string) : IO unit :=
  if negb linux then failure else
  (if (action =? "start")%string then
     home ← ask userHome;
     home ← lift home;
     retireLegacyNodeServices (unitDir home) ;;
     reloaded ← command ["systemctl"; "--user"; "daemon-reload"];
     refuse negb reloaded ;; mret tt
   else mret tt) ;;
  ok ← command ("systemctl" :: "--user" ::
                if (action =? "start")%string then ["enable"; "--now"; "mayoiga.service"]
                else [action; "mayoiga.service"]);
  refuse negb ok ;; mret tt.

Definition uninstallManagerService : IO unit :=
  if negb linux then failure else
  _ ← command ["systemctl"; "--user"; "disable"; "--now"; "mayoiga.service"];
  home ← ask userHome;
  home ← lift home;
  removed ← removeFile (unitFile home);
  match removed with
  | RemoveError => failure
  | _ => reloaded ← command ["systemctl"; "--user"; "daemon-reload"]; refuse negb reloaded ;; mret tt
  end.
End Service.
