(* ===== verification/Embedded.v ===== *)
(** * Mappings that run inside the process

    startMapping (xraycore.go) and the connectors that reach a published
    service through an embedded Xray (connectorCache of relay_types.go). *)
From S2P Require Import Prelude GoStd GoNet GoPath GoCrypto Types Runtime Validate Profile Xray.
From S2P Require Import Host.

Local Open Scope Z_scope.

Section Embedded.
Context {unicode : Unicode} {hostEnv : HostEnv}.

(** [os.ReadFile]; every error is one. *)
Definition fileText (path : string) : IO string :=
  read ← readFile path;
  match read with Content text => mret text | _ => failure end.

Definition serverStream (m : mapping) : IO streamConfig :=
  certificate ← fileText (mp_Certificate m);
  key ← fileText (mp_Key m);
  mret (serverStreamOf certificate key).

(** startMapping up to the configuration it gives to the library … *)
Definition embeddedConfig (m : mapping) : IO xrayConfig :=
  _ ← lift (splitAddress (mp_Listen m));
  server ← (if (mp_Kind m =? "pull")%string then mret None else attempt (serverStream m));
  lift (mappingConfig m server).

(** … and the whole of it. *)
Definition startMapping (m : mapping) : IO unit :=
  cfg ← embeddedConfig m;
  ok ← ask (λ i, startXray i cfg);
  refuse negb ok ;; mret tt.

Definition freeLoopbackAddress : IO string :=
  address ← ask loopbackListener;
  lift address.

Definition shortHash (value : string) : string := Hex.EncodeToString (Strings.ofBytes (take 6 (Strings.bytes (Sha256.Sum256 value)))).

(** The mapping of a connector. *)
Definition routeMapping (key address upstream : string) (service : publishedService) : mapping :=
  mkMapping ("route-" +:+ shortHash key) "pull" address "" "" "" upstream (ps_UUID service) "" "" "" (ps_PinnedSHA256 service) "".

(** connectorCache.dial. *)
Definition dial (service : publishedService) (upstream : string) : IO unit :=
  let key := marshalConnector service upstream in
  memory ← getMemory;
  address ← (match nm_connectors memory !! key with
             | Some address => mret address
             | None =>
                 address ← freeLoopbackAddress;
                 startMapping (routeMapping key address upstream service) ;;
                 modMemory (setConnectors (insert key address)) ;;
                 mret address
             end);
  connected ← ask (λ i, tcpDial i address);
  refuse negb connected ;; mret tt.

(** The loop of connectorCache.Close over the entries. *)
Fixpoint closeEntries (order : list (string * string)) : IO unit :=
  match order with
  | [] => mret tt
  | (key, _) :: rest => modMemory (setConnectors (delete key)) ;; closeEntries rest
  end.

(** connectorCache.Close, in the order of the map. *)
Definition closeConnectors : IO unit :=
  memory ← getMemory;
  order ← ask (λ i, hostOrder i (nm_connectors memory));
  closeEntries order.

(** What the server's settings hold is what the mapping's files held. *)
Lemma runs_serverStream m h s h' :
  runs (serverStream m) h s h' →
  ∃ c k, h_files h !! mp_Certificate m = Some c ∧ h_files h !! mp_Key m = Some k ∧ s = serverStreamOf c k.
Proof.
  unfold serverStream, fileText, readFile, runs, mbind, IO_bind. cbn. destruct (readFails _ _); [done|].
  destruct (h_files h !! mp_Certificate m) as [c|]; [|done]. cbn. destruct (readFails _ _); [done|].
  destruct (h_files h !! mp_Key m) as [k|]; [|done]. cbn. intros [= <- _]. by exists c, k.
Qed.

(** The settings are there when both files can be read. *)
Lemma serverStream_reads m h c k :
  h_files h !! mp_Certificate m = Some c → h_files h !! mp_Key m = Some k →
  (∀ i, readFails i (mp_Certificate m) = false ∧ readFails i (mp_Key m) = false) →
  ∃ h', runs (serverStream m) h (serverStreamOf c k) h'.
Proof.
  intros Hc Hk Hr. unfold serverStream, fileText, readFile, runs, mbind, IO_bind. cbn.
  rewrite (proj1 (Hr _)). rewrite Hc. cbn. rewrite (proj2 (Hr _)), Hk. by eexists.
Qed.

Lemma runs_closeEntries order h :
  ∃ h', runs (closeEntries order) h tt h' ∧ h_files h' = h_files h ∧ nm_parts (h_memory h') = nm_parts (h_memory h)
    ∧ ∀ key, nm_connectors (h_memory h') !! key
        = if decide (key ∈ order.*1) then None else nm_connectors (h_memory h) !! key.
Proof.
  revert h. induction order as [|[k v] order IH]; intros h; [by exists h|].
  destruct (IH (modMemory (setConnectors (delete k)) h).2) as (h' & Hr & Hf & Hp & Hk). exists h'.
  split; [exact Hr|]. split; [exact Hf|]. split; [exact Hp|]. intros key. rewrite Hk. cbn.
  destruct (decide (key ∈ order.*1)) as [Hin|Hin]; [by rewrite decide_True by (by right)|].
  destruct (decide (k = key)) as [->|Hne]; [by rewrite lookup_delete_eq, decide_True by left|].
  rewrite lookup_delete_ne, decide_False; [done| |done]. intros [?|?]%elem_of_cons; congruence.
Qed.

(** Whatever the order, no entry is left. *)
Lemma runs_closeConnectors h :
  ∃ h', runs closeConnectors h tt h' ∧ h_files h' = h_files h ∧ nm_parts (h_memory h') = nm_parts (h_memory h)
    ∧ nm_connectors (h_memory h') = ∅.
Proof.
  set (order := hostOrder (h_tick h) (nm_connectors (h_memory h))).
  destruct (runs_closeEntries order (tickHost h)) as (h' & Hr & Hf & Hp & Hk). exists h'.
  split; [exact Hr|]. split; [exact Hf|]. split; [exact Hp|]. apply map_eq. intros key. rewrite Hk, lookup_empty.
  destruct (decide (key ∈ order.*1)) as [_|Hout]; [done|]. cbn.
  destruct (nm_connectors (h_memory h) !! key) as [address|] eqn:E; [|done]. exfalso. apply Hout.
  unfold order. rewrite hostOrder_perm. by apply (list_elem_of_fmap_2 fst _ (key, address)), elem_of_map_to_list.
Qed.
End Embedded.
