(* ===== verification/Registry.v ===== *)
(** * Operations every coordinator handler shares

    Persistence, the bounded audit log, fixed-window rate limits and the wake-up
    signals of the long polls (coordinator_nodes.go, coordinator_http.go,
    connection_server.go). *)
From S2P Require Import Prelude GoStd Types Runtime.

Local Open Scope Z_scope.

(** ** Connection states (used by the capacity count and the long polls) *)

Definition connectionTerminal (st : string) : bool :=
  bool_decide (st ∈ ["accepted"; "rejected"; "canceled"; "expired"; "closed"; "failed"]).

(** ** Audit log *)

Definition boundAudit (l : list auditEvent) : list auditEvent :=
  if maxAuditEvents <? Z.of_nat (length l)
  then drop (length l - Z.to_nat maxAuditEvents) l else l.

Definition stampAudit (now : Z) (e : auditEvent) : auditEvent :=
  if Time.IsZero (ae_Time e)
  then mkAuditEvent now (ae_Action e) (ae_NodeID e) (ae_NodeName e) (ae_RequestID e) (ae_Source e)
  else e.

(** An event without a time, as the handlers build it. *)
Definition event (action nodeID nodeName requestID source : string) : auditEvent :=
  mkAuditEvent Time.zero action nodeID nodeName requestID source.

(** ** Rate limits *)

(** One request of [key] at [now] against the windows [m]: the answer and the
    windows afterwards. *)
Definition allowIn (key : string) (limit now : Z) (m : gmap string rateWindow)
    : bool * gmap string rateWindow :=
  let window := default zeroRateWindow (m !! key) in
  let window := if Time.IsZero (rw_Started window)
                   || (Time.minute <=? Time.Sub now (rw_Started window))
                then mkRateWindow now 0 else window in
  if limit <=? rw_Count window then (false, m)
  else (true, <[key := mkRateWindow (rw_Started window) (rw_Count window + 1)]> m).

Section Operations.
Context {env : Env}.

Definition appendAuditLocked (e : auditEvent) : M unit :=
  now ← (if Time.IsZero (ae_Time e) then timeNow else mret Time.zero);
  modState (setAudit (λ l, boundAudit (l ++ [stampAudit now e]))).

(** [persistLocked]: [true] when the error is nil. *)
Definition persistLocked : M bool :=
  st ← getState;
  writeStateFile st.

Definition allowRequestLocked (key : string) (limit now : Z) : M bool :=
  r ← getReg;
  let '(ok, rates') := allowIn key limit now (rates r) in
  modReg (setRates (λ _, rates')) ;;
  mret ok.

Definition allowRequest (key : string) (limit : Z) : M bool :=
  now ← timeNow;
  r ← getReg;
  (if 4096 <? Z.of_nat (size (rates r)) then
     order ← rangeMap (rates r);
     forEach order (λ '(existingKey, existing),
       if 2 * Time.minute <=? Time.Sub now (rw_Started existing)
       then modReg (setRates (delete existingKey)) else mret tt)
   else mret tt) ;;
  allowRequestLocked key limit now.

(** ** Wake-up signals *)

Definition targetSignalLocked (nodeID : string) : M chan :=
  r ← getReg;
  match connectionSignals r !! nodeID with
  | Some signal => mret signal
  | None => signal ← makeChan;
            modReg (setConnectionSignals (insert nodeID signal)) ;;
            mret signal
  end.

Definition requestSignalLocked (requestID : string) : M chan :=
  r ← getReg;
  match requestSignals r !! requestID with
  | Some signal => mret signal
  | None => signal ← makeChan;
            modReg (setRequestSignals (insert requestID signal)) ;;
            mret signal
  end.

Definition notifyTargetLocked (nodeID : string) : M unit :=
  r ← getReg;
  match connectionSignals r !! nodeID with
  | Some signal => closeChan signal ;; modReg (setConnectionSignals (delete nodeID))
  | None => mret tt
  end.

Definition notifyRequestLocked (requestID : string) : M unit :=
  r ← getReg;
  match requestSignals r !! requestID with
  | Some signal => closeChan signal ;; modReg (setRequestSignals (delete requestID))
  | None => mret tt
  end.
End Operations.
