(* ===== verification/RateLimit.v ===== *)
(** * The fixed-window rate limiter

    What [allowRequestLocked] and [allowRequest] (coordinator_http.go)
    guarantee: the number of requests one key gets through, and that evicting
    old windows never changes an answer. *)
From S2P Require Import Prelude GoStd Types Runtime Registry.

Local Open Scope Z_scope.

(** The answers to a sequence of requests of one key at the given times. *)
Fixpoint allowTimes (key : string) (limit : Z) (times : list Z) (m : gmap string rateWindow)
    : list bool * gmap string rateWindow :=
  match times with
  | [] => ([], m)
  | t :: times =>
      let '(ok, m) := allowIn key limit t m in
      let '(oks, m) := allowTimes key limit times m in
      (ok :: oks, m)
  end.

Definition admitted (answers : list bool) : Z := Z.of_nat (length (filter (λ b, b = true) answers)).

Definition windowOf (key : string) (m : gmap string rateWindow) : rateWindow :=
  default zeroRateWindow (m !! key).

(** The counters of a limiter are never negative. *)
Definition countsNonneg (m : gmap string rateWindow) : Prop :=
  ∀ key w, m !! key = Some w → 0 ≤ rw_Count w.

(** The windows eviction keeps at time [now]. *)
Definition evict (now : Z) (m : gmap string rateWindow) : gmap string rateWindow :=
  filter (λ kw, ¬ 2 * Time.minute ≤ Time.Sub now (rw_Started kw.2)) m.

Lemma admitted_cons b l : admitted (b :: l) = (if b then 1 else 0) + admitted l.
Proof.
  unfold admitted. destruct b.
  - rewrite filter_cons_True by done. simpl. lia.
  - rewrite filter_cons_False by done. lia.
Qed.

Lemma windowOf_nonneg key m : countsNonneg m → 0 ≤ rw_Count (windowOf key m).
Proof.
  intros H. unfold windowOf. destruct (m !! key) as [w|] eqn:E; simpl; [by eapply H|done].
Qed.

Lemma Sub_small a t s : a ≤ t < a + Time.minute → a ≤ s < a + Time.minute → Time.Sub t s < Time.minute.
Proof. unfold Time.Sub, Time.minute, Time.second in *. lia. Qed.

(** A window that started within the last minute only counts up. *)
Lemma allowTimes_same_window key limit a times m w :
  Time.zero < a →
  Forall (λ t, a ≤ t < a + Time.minute) times →
  m !! key = Some w → a ≤ rw_Started w < a + Time.minute →
  admitted (allowTimes key limit times m).1 ≤ Z.max 0 (limit - rw_Count w).
Proof.
  intros Ha Ht. revert m w. induction Ht as [|t times Ht _ IH]; intros m w Hm Hs; simpl; [unfold admitted; simpl; lia|].
  unfold allowIn. rewrite Hm. simpl.
  unfold Time.IsZero. rewrite (proj2 (Z.eqb_neq (rw_Started w) Time.zero)) by lia. simpl.
  pose proof (Sub_small a t (rw_Started w) Ht Hs).
  rewrite (proj2 (Z.leb_gt Time.minute _)) by done.
  destruct (limit <=? rw_Count w) eqn:Hl; bool_simpl.
  - destruct (allowTimes key limit times m) as [oks m'] eqn:E. simpl. rewrite admitted_cons.
    specialize (IH m w Hm Hs). rewrite E in IH. simpl in IH. lia.
  - set (m1 := <[key := _]> m).
    destruct (allowTimes key limit times m1) as [oks m'] eqn:E. simpl. rewrite admitted_cons.
    specialize (IH m1 (mkRateWindow (rw_Started w) (rw_Count w + 1)) (lookup_insert_eq _ _ _) Hs).
    rewrite E in IH. simpl in IH. lia.
Qed.

Lemma allowTimes_two_windows key limit a times m :
  Time.zero < a → 0 ≤ limit →
  Forall (λ t, a ≤ t < a + Time.minute) times → countsNonneg m →
  admitted (allowTimes key limit times m).1
  ≤ Z.max 0 (limit - rw_Count (windowOf key m)) + limit.
Proof.
  intros Ha Hl0 Ht. revert m. induction Ht as [|t times Ht Hts IH]; intros m Hm; simpl;
    [unfold admitted; simpl; lia|].
  pose proof (windowOf_nonneg key m Hm).
  unfold allowIn. fold (windowOf key m).
  destruct (Time.IsZero _ || _) eqn:Hreset; simpl.
  - destruct (limit <=? 0) eqn:Hl; bool_simpl.
    + destruct (allowTimes key limit times m) as [oks m'] eqn:E. simpl. rewrite admitted_cons.
      specialize (IH m Hm). rewrite E in IH. simpl in IH. lia.
    + set (m1 := <[key := _]> m).
      destruct (allowTimes key limit times m1) as [oks m'] eqn:E. simpl. rewrite admitted_cons.
      pose proof (allowTimes_same_window key limit a times m1 _ Ha Hts (lookup_insert_eq _ _ _) Ht) as H1.
      rewrite E in H1. simpl in H1. lia.
  - destruct (limit <=? _) eqn:Hl; bool_simpl.
    + destruct (allowTimes key limit times m) as [oks m'] eqn:E. simpl. rewrite admitted_cons.
      specialize (IH m Hm). rewrite E in IH. simpl in IH. lia.
    + set (m1 := <[key := _]> m).
      destruct (allowTimes key limit times m1) as [oks m'] eqn:E. simpl. rewrite admitted_cons.
      assert (countsNonneg m1) as Hm1.
      { intros k w. unfold m1. rewrite lookup_insert. case_decide; [|apply Hm].
        intros [= <-]. simpl. lia. }
      specialize (IH m1 Hm1). rewrite E in IH. simpl in IH.
      unfold m1, windowOf at 1 in IH. rewrite lookup_insert_eq in IH. simpl in IH. lia.
Qed.

Lemma evict_lookup now m key :
  evict now m !! key =
  match m !! key with
  | Some w => if 2 * Time.minute <=? Time.Sub now (rw_Started w) then None else Some w
  | None => None
  end.
Proof.
  unfold evict. rewrite map_lookup_filter. destruct (m !! key) as [w|]; simpl; [|done].
  destruct (2 * Time.minute <=? _) eqn:E; bool_simpl; case_guard; simpl in *; done || lia.
Qed.
