(* ===== verification/Auth.v ===== *)
(** * Request authentication and rate limiting

    [verifySignatureLocked] and [signedMessage] (coordinator_nodes.go),
    [authenticatedConnectionBody] (connection_server.go), [adminAuthorized]
    (coordinator_enrollment.go) and the fixed-window limiter
    (coordinator_http.go), with what they promise: a request is accepted only
    with a fresh, correctly signed, unused nonce. *)
From S2P Require Import Prelude GoStd GoNet GoCrypto Types Runtime Validate Wire Registry.

Local Open Scope Z_scope.

Definition newline : string := Strings.ofBytes [ascii_of_nat 10].

Definition signedMessage (method path timestamp nonce body : string) : string :=
  method +:+ newline +:+ path +:+ newline +:+ timestamp +:+ newline +:+ nonce +:+ newline
  +:+ Hex.EncodeToString (Sha256.Sum256 body).

(** [if expiry, exists := r.nonces[nonce]; exists && expiry.After(now)] *)
Definition nonceLive (m : gmap string Z) (nonce : string) (now : Z) : bool :=
  match m !! nonce with
  | Some expiry => Time.After expiry now
  | None => false
  end.

Section Auth.
Context {env : Env}.

Definition verifySignatureLocked (req : request) (body publicText : string) : M bool :=
  let timestampText := headerGet req "X-Mayoiga-Time" in
  let nonce := headerGet req "X-Mayoiga-Nonce" in
  let signatureText := headerGet req "X-Mayoiga-Signature" in
  let '(timestamp, ok) := Strconv.ParseInt timestampText in
  if negb ok || (nonce =? "")%string || (signatureText =? "")%string then mret false else
  now ← timeNow;
  let sent := Time.Unix timestamp in
  if Time.Before sent (Time.Add now (- (2 * Time.minute)))
     || Time.After sent (Time.Add now (2 * Time.minute)) then mret false else
  r ← getReg;
  if nonceLive (nonces r) nonce now then mret false else
  match Base64.RawStdDecode publicText with
  | None => mret false
  | Some publicKey =>
      if negb (String.length publicKey =? PublicKeySize)%nat then mret false else
      match Base64.RawStdDecode signatureText with
      | None => mret false
      | Some signature =>
          let message := signedMessage (rq_Method req) (rq_Path req) timestampText nonce body in
          if negb (ed25519Verify publicKey message signature) then mret false else
          modReg (setNonces (insert nonce (Time.Add now (2 * Time.minute)))) ;;
          mret true
      end
  end.

Definition adminAuthorized (r : registry) (req : request) : bool :=
  let token := Strings.TrimPrefix (headerGet req "Authorization") "Bearer " in
  (String.length token =? String.length (adminToken r))%nat
  && (ConstantTimeCompare token (adminToken r) =? 1).

(** The result is the error response, or the body and the node it is
    authenticated for. *)
Definition authenticatedConnectionBody (req : request) : M (response + string * string) :=
  match readBody req with
  | None => mret (inl (httpError "invalid body" 400))
  | Some body =>
      let nodeID := headerGet req "X-Mayoiga-Node" in
      st ← getState;
      ok ← match Authorized st !! nodeID with
           | Some authorized => verifySignatureLocked req body (an_PublicKey authorized)
           | None => mret false
           end;
      if negb ok then mret (inl (httpError "invalid node signature" 401)) else
      now ← timeNow;
      allowed ← allowRequestLocked ("connection-node:" +:+ nodeID) (publicRequestsPerMinute * 5) now;
      if negb allowed then mret (inl (httpError "node rate limit exceeded" 429)) else
      mret (inr (body, nodeID))
  end.

(** ** What an accepted signature means *)

(** The facts about a request that do not depend on the coordinator's
    state: it carries a parsable timestamp, a nonce and a signature of its
    own method, path and body by the given key. *)
Definition wellSigned (req : request) (body publicText : string) (sent : Z) : Prop :=
  ∃ timestamp publicKey signature,
    Strconv.ParseInt (headerGet req "X-Mayoiga-Time") = (timestamp, true)
    ∧ sent = Time.Unix timestamp
    ∧ headerGet req "X-Mayoiga-Nonce" ≠ ""
    ∧ Base64.RawStdDecode publicText = Some publicKey
    ∧ String.length publicKey = PublicKeySize
    ∧ Base64.RawStdDecode (headerGet req "X-Mayoiga-Signature") = Some signature
    ∧ headerGet req "X-Mayoiga-Signature" ≠ ""
    ∧ ed25519Verify publicKey
        (signedMessage (rq_Method req) (rq_Path req) (headerGet req "X-Mayoiga-Time")
           (headerGet req "X-Mayoiga-Nonce") body) signature = true.

(** What the world is after an accepted request: one clock reading and the
    nonce remembered for two minutes. *)
Definition rememberNonce (nonce : string) (w : world) : world :=
  setReg (setNonces (insert nonce (Time.Add (clock (w_clock w)) (2 * Time.minute)))) (tickClock w).

(** The complete behaviour of a signature check. *)
Lemma verifySignature_cases req body publicText w ok w' :
  run (verifySignatureLocked req body publicText) w = (ok, w') →
  let now := clock (w_clock w) in
  if ok then
    (∃ sent, wellSigned req body publicText sent ∧ now - 2 * Time.minute ≤ sent ≤ now + 2 * Time.minute)
    ∧ nonceLive (nonces (w_reg w)) (headerGet req "X-Mayoiga-Nonce") now = false
    ∧ w' = rememberNonce (headerGet req "X-Mayoiga-Nonce") w
  else w' = w ∨ w' = tickClock w.
Proof.
  unfold verifySignatureLocked, run.
  destruct (Strconv.ParseInt _) as [ts ok0] eqn:Hts.
  destruct (negb ok0 || _ || _) eqn:Hg; [intros [= <- <-]; by left|]. bool_simpl.
  unfold mbind, M_bind, mret, M_ret, timeNow. simpl.
  destruct (Time.Before _ _ || _) eqn:Hw; [intros [= <- <-]; by right|].
  destruct (nonceLive _ _ _) eqn:Hn; [intros [= <- <-]; by right|].
  destruct (Base64.RawStdDecode publicText) as [key|] eqn:Hk; [|intros [= <- <-]; by right].
  destruct (String.length key =? PublicKeySize)%nat eqn:Hlen; simpl; [|intros [= <- <-]; by right].
  destruct (Base64.RawStdDecode (headerGet req "X-Mayoiga-Signature")) as [sig|] eqn:Hs; [|intros [= <- <-]; by right].
  destruct (ed25519Verify key _ sig) eqn:Hv; simpl; [|intros [= <- <-]; by right].
  intros [= <- <-]. apply Nat.eqb_eq in Hlen. unfold Time.Before, Time.After, Time.Add in Hw.
  bool_simpl. split_and!; [|done|done].
  exists (Time.Unix ts). split; [|lia]. exists ts, key, sig. subst. by split_and!.
Qed.

(** Acceptance is decided by the well-signed request, the window and the
    nonce alone. *)
Lemma verifySignature_complete req body publicText w sent :
  let now := clock (w_clock w) in
  wellSigned req body publicText sent →
  now - 2 * Time.minute ≤ sent ≤ now + 2 * Time.minute →
  nonceLive (nonces (w_reg w)) (headerGet req "X-Mayoiga-Nonce") now = false →
  run (verifySignatureLocked req body publicText) w
  = (true, rememberNonce (headerGet req "X-Mayoiga-Nonce") w).
Proof.
  intros now (ts & key & sig & Hts & -> & Hn & Hk & Hlen & Hs & Hsn & Hv) Hwin Hlive.
  unfold verifySignatureLocked, run. rewrite Hts.
  apply String.eqb_neq in Hn, Hsn. rewrite Hn, Hsn. simpl.
  unfold mbind, M_bind, mret, M_ret, timeNow. simpl. fold now.
  unfold Time.Before at 1, Time.After at 1, Time.Add at 1 2.
  rewrite (proj2 (Z.ltb_ge _ _)), (proj2 (Z.ltb_ge _ _)) by lia. simpl.
  rewrite Hlive, Hk, Hlen, Nat.eqb_refl, Hs. simpl. by rewrite Hv.
Qed.
End Auth.
