(* ===== verification/NodeClient.v ===== *)
(** * The coordinator's client on a node

    What a node sends and does with the answers (coordinator_client.go and
    signedCoordinatorRequest of connection_inbox.go): enrollment, its polling,
    the heartbeat with the node it publishes, and discovery. *)
From S2P Require Import Prelude GoStd GoNet GoPath GoCrypto Types Runtime Validate Wire Registry.
From S2P Require Import Auth Profile Host.

Local Open Scope Z_scope.

(** ** Updates of a profile *)

Definition setCoordinator (c : coordinatorClient) (p : profile) : profile :=
  mkProfile (pf_Version p) (pf_Instance p) (pf_Disabled p) (pf_Role p) (pf_Segment p) (pf_VirtualNetwork p)
    (pf_Node p) c (pf_Server p) (pf_Relay p) (pf_Subnode p) (pf_Mappings p).

Definition withEnrollment (credential : option nodeCredential) (enrollment : option enrollmentState)
    (p : profile) : profile :=
  let c := pf_Coordinator p in
  setCoordinator (mkCoordinatorClient (cl_URL c) (cl_PinnedSHA256 c) credential enrollment) p.

Definition setEnrollmentStatus (status : string) (credential : option nodeCredential) (e : enrollmentState)
    : enrollmentState :=
  mkEnrollmentState (es_RequestID e) (es_Secret e) (es_DeviceCode e) (es_ExpiresAt e) status credential.

Definition validateCredential (c : nodeCredential) : bool :=
  match Base64.RawStdDecode (nc_PublicKey c), Base64.RawStdDecode (nc_PrivateKey c) with
  | Some pub, Some priv =>
      (String.length pub =? PublicKeySize)%nat && (String.length priv =? PrivateKeySize)%nat
      && bool_decide (Strings.bytes pub = drop PublicKeySize (Strings.bytes priv))
  | _, _ => false
  end.

Definition handshakeStatusText (code : Z) : string :=
  if code =? 100 then "pending" else if code =? 200 then "approved" else if code =? 201 then "completed"
  else if code =? 403 then "rejected" else if code =? 410 then "expired" else "unknown".

Section Client.
Context {unicode : Unicode} {hostEnv : HostEnv}.

(** ** Requests *)

(** What an [http.Client] of the program adds to a request: the certificate
    pin, and the relay of a subnode. *)
Definition coordinatorHTTPClient (pinText : string) : option (string * option subnodeConfig) :=
  match Hex.DecodeString (normalizePin pinText) with
  | Some pin => if (String.length pin =? Sha256.Size)%nat then Some (pin, None) else None
  | None => None
  end.

Definition coordinatorNodeHTTPClient (p : profile) : option (string * option subnodeConfig) :=
  '(pin, via) ← coordinatorHTTPClient (cl_PinnedSHA256 (pf_Coordinator p));
  Some (pin, if (pf_Role p =? "subnode")%string then Some (pf_Subnode p) else via).

Definition send (client : string * option subnodeConfig) (method url : string)
    (header : list (string * string)) (body : string) : IO (Z * string) :=
  let r := mkOutRequest method url header body client.1 client.2 in
  recordSent r ;;
  answer ← ask (λ i, transport i r);
  lift answer.

Definition jsonHeader : string * string := ("Content-Type", "application/json").

(** The headers [signRequest] sets for a request to [path]. *)
Definition signRequest (method path body nodeID privateText : string) : IO (list (string * string)) :=
  match Base64.RawStdDecode privateText with
  | None => failure
  | Some privateKey =>
      refuse negb (String.length privateKey =? PrivateKeySize)%nat ;;
      now ← ask hostClock;
      let timestamp := Strconv.FormatInt (Time.ToUnix now) in
      nonce ← hostToken;
      let signature := ed25519Sign privateKey (signedMessage method path timestamp nonce body) in
      mret [("X-Mayoiga-Node", nodeID); ("X-Mayoiga-Time", timestamp); ("X-Mayoiga-Nonce", nonce);
            ("X-Mayoiga-Signature", Base64.RawStdEncode signature)]
  end.

Definition signedCoordinatorRequest (p : profile) (method endpoint body : string) : IO (Z * string) :=
  let url := cl_URL (pf_Coordinator p) +:+ endpoint in
  parsed ← lift (parseURL url);
  credential ← lift (cl_Credential (pf_Coordinator p));
  header ← signRequest method (ur_Path parsed) body (nd_ID (pf_Node p)) (nc_PrivateKey credential);
  client ← lift (coordinatorNodeHTTPClient p);
  send client method url (header ++ [jsonHeader]) body.

(** ** The node it publishes *)

Definition localCandidate (port : string) (ip : option Net.ip) : option string :=
  ip ← ip;
  let address := Net.JoinHostPort (Net.String16 ip) port in
  if validateDirectCandidate address then Some address else None.

(** The loop that drops repeated addresses and those beyond the limit. *)
Fixpoint distinctCandidates (output : list directCandidate) (addresses : list string) : list directCandidate :=
  match addresses with
  | [] => output
  | address :: rest =>
      if (Z.of_nat (length output) =? maxDirectCandidates)
         || match last output with Some c => (dc_Address c =? address)%string | None => false end
      then distinctCandidates output rest
      else distinctCandidates (output ++ [mkDirectCandidate address Time.zero]) rest
  end.

Definition candidatesOf (addresses : list string) : list directCandidate :=
  distinctCandidates [] (sortSlice String.ltb addresses).

Definition localDirectCandidates (listen : string) : IO (list directCandidate) :=
  match Net.SplitHostPort listen with
  | None => mret []
  | Some (host, port) =>
      if wildcardHost host || (host =? "[::]")%string then
        found ← ask interfaceAddrs;
        match found with
        | None => mret []
        | Some ips => mret (candidatesOf (omap (localCandidate port) ips))
        end
      else mret (candidatesOf (omap (localCandidate port) [Net.ParseIP host]))
  end.

Fixpoint localServices (p : profile) (mappings : list mapping) : IO (list publishedService) :=
  match mappings with
  | [] => mret []
  | m :: rest =>
      if (mp_Kind m =? "publish")%string then
        candidates ← localDirectCandidates (mp_Listen m);
        services ← localServices p rest;
        mret (mkPublishedService (nd_ID (pf_Node p)) (mp_Name m) (pf_Segment p) candidates
                (mp_UUID m) (mp_CertificateSHA256 m) :: services)
      else localServices p rest
  end.

Definition localDiscoveredNode (p : profile) : IO discoveredNode :=
  services ← localServices p (pf_Mappings p);
  mret (mkDiscoveredNode (nd_ID (pf_Node p)) (nd_Name (pf_Node p)) (pf_Role p) (pf_Segment p) (pf_VirtualNetwork p)
          "" services
          (if (pf_Role p =? "relay")%string
           then Some (mkRelayAdvertisement (rl_Endpoint (pf_Relay p)) (rl_PinnedSHA256 (pf_Relay p)) (rl_Priority (pf_Relay p)))
           else None)
          (if (pf_Role p =? "subnode")%string then sn_RelayNodeID (pf_Subnode p) else "")
          Time.zero).

(** ** Enrollment *)

Definition requestEnrollment (path : string) (p : profile) : IO profile :=
  refuse negb (validateCoordinatorURL (cl_URL (pf_Coordinator p))) ;;
  client ← lift (coordinatorNodeHTTPClient p);
  key ← ask newKey;
  key ← lift key;
  let '(publicKey, privateKey) := key in
  let credential := mkNodeCredential (Base64.RawStdEncode publicKey) (Base64.RawStdEncode privateKey) in
  node ← localDiscoveredNode p;
  let body := marshalDiscoveryRequest (mkDiscoveryRequest node (nc_PublicKey credential)) in
  let url := cl_URL (pf_Coordinator p) +:+ "/v1/enroll/request" in
  _ ← lift (parseURL url);
  answer ← send client "POST" url [jsonHeader] body;
  refuse negb (answer.1 =? 201) ;;
  enrollment ← lift (decodeEnrollment answer.2);
  let p := withEnrollment None (Some (setEnrollmentStatus "pending" (Some credential) enrollment)) p in
  saveProfile path p ;;
  printLine ("DEVICE_CODE=" +:+ es_DeviceCode enrollment) ;;
  mret p.

(** The exchange of [pollEnrollment], up to the decoded answer. *)
Definition pollExchange (p : profile) (e : enrollmentState) : IO pollResponse :=
  client ← lift (coordinatorNodeHTTPClient p);
  let body := marshalPollRequest (mkPollRequest (es_RequestID e) (es_Secret e)) in
  let url := cl_URL (pf_Coordinator p) +:+ "/v1/enroll/poll" in
  _ ← lift (parseURL url);
  answer ← send client "POST" url [jsonHeader] body;
  refuse negb (answer.1 =? 200) ;;
  lift (decodePollResponse answer.2).

(** [pollEnrollment] changes the profile it is given a pointer to, also when
    it returns an error: its result, the profile, and whether the error is
    nil. *)
Definition pollEnrollment (path : string) (p : profile) : IO (bool * profile * bool) :=
  match cl_Credential (pf_Coordinator p), cl_Enrollment (pf_Coordinator p) with
  | Some _, _ => mret (true, p, true)
  | None, None => mret (false, p, false)
  | None, Some e =>
      output ← attempt (pollExchange p e);
      match output with
      | None => mret (false, p, false)
      | Some output =>
          if (pr_Status output =? "rejected")%string then
            let p := withEnrollment None (Some (setEnrollmentStatus "rejected" (es_Credential e) e)) p in
            _ ← attempt (saveProfile path p);
            mret (false, p, false)
          else if negb (pr_Status output =? "approved")%string then mret (false, p, true)
          else match es_Credential e with
               | None => mret (false, p, false)
               | Some credential =>
                   if negb (validateCredential credential) then mret (false, p, false) else
                   let p := withEnrollment (Some credential) None p in
                   saved ← attempt (saveProfile path p);
                   mret (true, p, bool_decide (is_Some saved))
               end
      end
  end.

(** ** Heartbeat and discovery *)

Definition peersFile (profilePath : string) : string := Filepath.Join [Filepath.Dir profilePath; "peers.json"].

Definition saveDiscovered (profilePath : string) (nodes : list discoveredNode) : IO unit :=
  replaceFile (peersFile profilePath) (marshalNodes nodes +:+ lineEnd).

Definition loadDiscovered (profilePath : string) : IO (list discoveredNode) :=
  b ← readFile (peersFile profilePath);
  match b with
  | NotExist => mret []
  | ReadError => failure
  | Content text => lift (unmarshalNodes text)
  end.

Definition sendHeartbeat (p : profile) : IO Z :=
  node ← localDiscoveredNode p;
  answer ← signedCoordinatorRequest p "POST" "/v1/nodes/heartbeat"
             (marshalDiscoveryRequest (mkDiscoveryRequest node ""));
  refuse negb (answer.1 =? 200) ;;
  output ← lift (decodeHeartbeat answer.2);
  mret (hr_Revision output).

Definition fetchDiscovery (path : string) (p : profile) (afterRevision expectedRevision : Z)
    : IO (list discoveredNode) :=
  answer ← signedCoordinatorRequest p "POST" "/v1/nodes/discovery"
             (marshalDiscoverySync (mkDiscoverySyncRequest afterRevision));
  refuse negb (answer.1 =? 200) ;;
  output ← lift (decodeDiscovery answer.2);
  refuse negb (expectedRevision =? 0) && (dr_Revision output <? expectedRevision) ;;
  if negb (dr_Changed output) then loadDiscovered path
  else saveDiscovered path (dr_Nodes output) ;; mret (dr_Nodes output).

(** The nodes, and the profile the caller's pointer leads to afterwards; no
    nodes while the enrollment is not approved. *)
Definition syncDiscovery (path : string) (p : profile) : IO (list discoveredNode * profile) :=
  refuse (cl_URL (pf_Coordinator p) =? "")%string ;;
  polled ← (match cl_Credential (pf_Coordinator p) with
            | Some _ => mret (true, p, true)
            | None => pollEnrollment path p
            end);
  let '(approved, p, ok) := polled in
  refuse negb ok ;;
  if negb approved then mret ([], p) else
  revision ← sendHeartbeat p;
  nodes ← fetchDiscovery path p 0 revision;
  mret (nodes, p).
End Client.
