(* ===== verification/AdminClient.v ===== *)
(** * The administrator's client

    The actions that call the admin API of the coordinator of this host
    (coordinator_client.go): handshakes, audit, approve, reject and revoke.
    The lists are returned, not printed. *)
From S2P Require Import Prelude GoStd GoNet GoPath GoCrypto Types Runtime Validate Profile.
From S2P Require Import Host NodeClient.

Local Open Scope Z_scope.

Section Admin.
Context {unicode : Unicode} {hostEnv : HostEnv}.

(** The client, the origin of the admin API, and the profile. *)
Definition coordinatorAdminClient (path : string) : IO ((string * option subnodeConfig) * string * profile) :=
  p ← loadProfile path;
  refuse negb (pf_Role p =? "coordinator")%string || (sv_AdminToken (pf_Server p) =? "")%string ;;
  client ← lift (coordinatorHTTPClient (sv_PinnedSHA256 (pf_Server p)));
  address ← lift (Net.SplitHostPort (sv_AdminListen (pf_Server p)));
  let '(host, port) := address in
  let host := if wildcardHost host then "127.0.0.1" else host in
  mret (client, "https://" +:+ Net.JoinHostPort host port, p).

Definition bearer (p : profile) : string * string := ("Authorization", "Bearer " +:+ sv_AdminToken (pf_Server p)).

(** The exchange every action makes; a request that cannot be built is a nil
    pointer, which ends the program.  Its answer must have status 200. *)
Definition adminExchange (path method endpoint : string) (header : list (string * string)) (body : string) : IO string :=
  found ← coordinatorAdminClient path;
  let '(client, origin, p) := found in
  let url := origin +:+ endpoint in
  _ ← lift (parseURL url);
  answer ← send client method url (bearer p :: header) body;
  refuse negb (answer.1 =? 200) ;;
  mret answer.2.

Definition listPendingHandshakes (path : string) (statusCode : Z) : IO (list handshakeHistory) :=
  let endpoint := "/v1/admin/handshakes" +:+ if statusCode =? 0 then "" else "?status=" +:+ Strconv.FormatInt statusCode in
  body ← adminExchange path "GET" endpoint [] "";
  lift (decodeHistory body).

Definition listAuditEvents (path : string) : IO (list auditEvent) :=
  body ← adminExchange path "GET" "/v1/admin/audit" [] "";
  lift (decodeAudit body).

Definition decideDeviceCode (path code decision : string) (replace : bool) (reason : string) : IO unit :=
  refuse (normalizeDeviceCode code =? "")%string ;;
  _ ← adminExchange path "POST" ("/v1/admin/" +:+ decision) [jsonHeader]
        (marshalApprove (mkApproveRequest code replace reason));
  printLine ("handshake " +:+ if (decision =? "approve")%string then "approved"
                              else if (decision =? "reject")%string then "rejected" else "").

Definition approveDeviceCode (path code : string) (replace : bool) : IO unit := decideDeviceCode path code "approve" replace "".
Definition rejectDeviceCode (path code reason : string) : IO unit := decideDeviceCode path code "reject" false reason.

Definition revokeNodeID (path nodeID : string) : IO unit :=
  refuse (Strings.TrimSpace nodeID =? "")%string ;;
  _ ← adminExchange path "POST" "/v1/admin/revoke" [jsonHeader] (marshalRevoke (mkRevokeRequest nodeID));
  printLine "node revoked".
End Admin.
