(* ===== verification/NodeConfig.v ===== *)
(** * The configuration actions

    add-node and configure-node ([install]), the mapping actions and the
    switch of a node (node_config.go, runtime.go): what they check, what they
    save and what they print.  Lines that carry a formatted time are not printed. *)
From S2P Require Import Prelude GoStd GoNet GoPath GoCrypto Types Runtime Validate Profile.
From S2P Require Import Options Host Service NodeClient.

Local Open Scope Z_scope.

(** ** Updates of a profile *)

Definition setServer (s : coordinatorServer) (p : profile) : profile :=
  mkProfile (pf_Version p) (pf_Instance p) (pf_Disabled p) (pf_Role p) (pf_Segment p) (pf_VirtualNetwork p)
    (pf_Node p) (pf_Coordinator p) s (pf_Relay p) (pf_Subnode p) (pf_Mappings p).
Definition setRelayConfig (r : relayConfig) (p : profile) : profile :=
  mkProfile (pf_Version p) (pf_Instance p) (pf_Disabled p) (pf_Role p) (pf_Segment p) (pf_VirtualNetwork p)
    (pf_Node p) (pf_Coordinator p) (pf_Server p) r (pf_Subnode p) (pf_Mappings p).
Definition setSubnode (s : subnodeConfig) (p : profile) : profile :=
  mkProfile (pf_Version p) (pf_Instance p) (pf_Disabled p) (pf_Role p) (pf_Segment p) (pf_VirtualNetwork p)
    (pf_Node p) (pf_Coordinator p) (pf_Server p) (pf_Relay p) s (pf_Mappings p).
Definition setDisabled (d : bool) (p : profile) : profile :=
  mkProfile (pf_Version p) (pf_Instance p) d (pf_Role p) (pf_Segment p) (pf_VirtualNetwork p)
    (pf_Node p) (pf_Coordinator p) (pf_Server p) (pf_Relay p) (pf_Subnode p) (pf_Mappings p).

(** ** Connection limits *)

(** The four limits of the options, after the saved ones have replaced those
    that were not given and the defaults those that are zero; [None] when
    they are refused. *)
Definition connectionLimits (o : options) (configure : bool) (s : coordinatorServer) : option (Z * Z * Z * Z) :=
  let pick (flag : string) (saved given def : Z) :=
    let v := if configure && negb (isSet o flag) then saved else given in
    if v =? 0 then def else v in
  let wait := pick "connection-wait-seconds" (sv_ConnectionWaitSeconds s) (o_connectionWaitSeconds o)
                (connectionWaitMaximum / Time.second) in
  let ttl := pick "connection-request-ttl-seconds" (sv_ConnectionRequestTTLSeconds s) (o_connectionTTLSeconds o)
               (connectionRequestLifetime / Time.second) in
  let lease := pick "connection-offer-lease-seconds" (sv_ConnectionOfferLeaseSeconds s) (o_connectionLeaseSeconds o)
                 (connectionOfferLease / Time.second) in
  let maxPending := pick "connection-max-pending" (sv_ConnectionMaxPending s) (o_connectionMaxPending o)
                      maxConnectionRequests in
  if (wait <? 1) || (120 <? wait) || (ttl <? 10) || (3600 <? ttl)
     || (lease <? 1) || (ttl <=? lease) || (maxPending <? 1) || (100000 <? maxPending)
  then None else Some (wait, ttl, lease, maxPending).

Section Config.
Context {unicode : Unicode} {hostEnv : HostEnv}.

(** ** install *)

(** Lines 22-56: the fields every role has. *)
Definition installCommon (o : options) (path : string) (configure : bool) : IO profile :=
  p ← loadProfile path;
  let given flag := negb configure || isSet o flag in
  let role := if given "role" then o_role o else pf_Role p in
  refuse (role =? "")%string ;;
  refuse negb (validNodeRole role) ;;
  let segment := if given "segment" then o_segment o else pf_Segment p in
  let network := if given "network" then o_network o else pf_VirtualNetwork p in
  refuse (Strings.TrimSpace network =? "")%string || (Strings.TrimSpace segment =? "")%string ;;
  id ← (if (nd_ID (pf_Node p) =? "")%string then randomUUID else mret (nd_ID (pf_Node p)));
  name ← (if given "node-name" then
            if (o_nodeName o =? "")%string then ask hostName else mret (o_nodeName o)
          else mret (nd_Name (pf_Node p)));
  mret (mkProfile (pf_Version p) (o_instance o) (pf_Disabled p) role segment network (mkNodeConfig id name)
          (pf_Coordinator p) (pf_Server p) (pf_Relay p) (pf_Subnode p) (pf_Mappings p)).

(** [if owner, conflict, err := configuredListenConflict(…)] and
    [checkListenAvailable] of a new node. *)
Definition requireFree (path address : string) : IO unit :=
  owner ← configuredListenConflict path address;
  match owner with Some _ => failure | None => mret tt end.

(** Lines 59-153. *)
Definition installCoordinator (o : options) (path : string) (configure : bool) (p : profile) : IO profile :=
  let s := pf_Server p in
  if negb ((pf_Role p =? "coordinator")%string
           && (negb configure || isSet o "listen" || isSet o "admin-listen" || isSet o "connection-wait-seconds"
               || isSet o "connection-request-ttl-seconds" || isSet o "connection-offer-lease-seconds"
               || isSet o "connection-max-pending" || (sv_AdminToken s =? "")%string))
  then mret p else
  let listen := if configure && negb (isSet o "listen") then sv_Listen s else o_listen o in
  refuse (listen =? "")%string ;;
  refuse negb (validateHostPort listen) ;;
  let changesAdmin := negb configure || isSet o "admin-listen" || (sv_AdminListen s =? "")%string in
  let admin := if changesAdmin then o_adminListen o else sv_AdminListen s in
  refuse changesAdmin && ((admin =? "")%string || negb (validateAdminListen admin)) ;;
  refuse sameListenAddress listen admin ;;
  limits ← lift (connectionLimits o configure s);
  let '(wait, ttl, lease, maxPending) := limits in
  (if configure then mret tt
   else requireFree path listen ;; requireFree path admin ;;
        checkListenAvailable listen ;; checkListenAvailable admin) ;;
  token ← (if (sv_AdminToken s =? "")%string then hostToken else mret (sv_AdminToken s));
  made ← (if (sv_Certificate s =? "")%string then
            let dir := Filepath.Dir path in
            let certificate := Filepath.Join [dir; "coordinator.crt"] in
            let key := Filepath.Join [dir; "coordinator.key"] in
            pin ← makeCertificate certificate key;
            mret (certificate, key, pin)
          else mret (sv_Certificate s, sv_Key s, sv_PinnedSHA256 s));
  let '(certificate, key, pin) := made in
  printLine ("COORDINATOR_PIN=" +:+ pin) ;;
  mret (setServer (mkCoordinatorServer listen admin token certificate key pin wait ttl lease maxPending) p).

Definition relayAdmissionTokenHash (token : string) : string :=
  Hex.EncodeToString (Sha256.Sum256 (Strings.TrimSpace token)).

(** Lines 154-211, with the token that was generated, or the empty string. *)
Definition installRelay (o : options) (path : string) (configure : bool) (p : profile) : IO (profile * string) :=
  let r := pf_Relay p in
  refuse o_rotateRelayToken o && negb (pf_Role p =? "relay")%string ;;
  if negb (pf_Role p =? "relay")%string then
    mret (if configure && isSet o "role" then setRelayConfig noRelay p else p, "")
  else
  let listen := if configure && negb (isSet o "transit-listen") then rl_Listen r else o_transitListen o in
  let endpoint := if configure && negb (isSet o "transit-endpoint") then rl_Endpoint r else o_transitEndpoint o in
  refuse (listen =? "")%string || (endpoint =? "")%string ;;
  refuse negb (validateHostPort listen) ;;
  refuse negb (validateHostPort endpoint) ;;
  let priority := if negb configure || isSet o "relay-priority" then o_relayPriority o else rl_Priority r in
  refuse priority <? 0 ;;
  (if configure then mret tt else requireFree path listen ;; checkListenAvailable listen) ;;
  made ← (if (rl_Certificate r =? "")%string then
            let dir := Filepath.Dir path in
            let certificate := Filepath.Join [dir; "relay.crt"] in
            let key := Filepath.Join [dir; "relay.key"] in
            pin ← makeCertificate certificate key;
            mret (certificate, key, pin)
          else mret (rl_Certificate r, rl_Key r, rl_PinnedSHA256 r));
  let '(certificate, key, pin) := made in
  token ← (if o_rotateRelayToken o || (rl_AdmissionTokenHash r =? "")%string then
             token ← hostToken; mret (token, relayAdmissionTokenHash token)
           else
             refuse negb (validRelayAdmissionTokenHash (rl_AdmissionTokenHash r)) ;;
             mret ("", rl_AdmissionTokenHash r));
  let '(generated, hash) := token in
  printLine ("RELAY_PIN=" +:+ pin) ;;
  mret (setRelayConfig (mkRelayConfig listen endpoint priority certificate key pin hash) p, generated).

(** Lines 212-240. *)
Definition installSubnode (o : options) (configure : bool) (p : profile) : option profile :=
  if negb (pf_Role p =? "subnode")%string then
    Some (if configure && isSet o "role" then setSubnode noSubnode p else p)
  else
  let s := pf_Subnode p in
  let pick (flag saved given : string) := if configure && negb (isSet o flag) then saved else given in
  let node := pick "upstream-relay-node" (sn_RelayNodeID s) (o_upstreamRelayNode o) in
  let endpoint := pick "upstream-relay-endpoint" (sn_RelayEndpoint s) (o_upstreamRelayEndpoint o) in
  let pin := pick "upstream-relay-pin" (sn_RelayPinnedSHA256 s) (o_upstreamRelayPin o) in
  let token := pick "upstream-relay-token" (sn_RelayToken s) (o_upstreamRelayToken o) in
  if (node =? "")%string || (endpoint =? "")%string || (pin =? "")%string || (token =? "")%string then None
  else if negb (validateHostPort endpoint) then None
  else if negb (validSHA256Pin pin) then None
  else Some (setSubnode (mkSubnodeConfig node endpoint (normalizePin pin) (Strings.TrimSpace token)) p).

(** [strings.TrimRight(s, "/")]. *)
Definition trimSlashes (s : string) : string :=
  Strings.ofBytes (reverse ((fix go l := match l with
                                         | c :: l' => if bool_decide (c = Filepath.slash) then go l' else l
                                         | [] => []
                                         end) (reverse (Strings.bytes s)))).

(** Lines 241-263: the upstream coordinator, and whether the node has to
    enroll with it. *)
Definition installUpstream (o : options) (configure : bool) (p : profile) : option (profile * bool) :=
  let c := pf_Coordinator p in
  result ← (if isSet o "coordinator" || (negb configure && negb (o_coordinator o =? "")%string) then
              if (o_coordinator o =? "")%string then Some (setCoordinator noCoordinator p, false)
              else if (o_coordinatorPin o =? "")%string then None
              else if negb (validateCoordinatorURL (o_coordinator o)) then None
              else
                let origin := trimSlashes (o_coordinator o) in
                let pin := normalizePin (o_coordinatorPin o) in
                let moved := negb (cl_URL c =? origin)%string || negb (cl_PinnedSHA256 c =? pin)%string in
                Some (if moved then setCoordinator (mkCoordinatorClient origin pin None None) p else p,
                      moved || bool_decide (cl_Credential c = None))
            else Some (p, false));
  let '(p, needsEnrollment) := result in
  if ((pf_Role p =? "relay")%string || (pf_Role p =? "subnode")%string) && (cl_URL (pf_Coordinator p) =? "")%string
  then None
  else Some (p, needsEnrollment).

(** [os.Stat(path)] finds a file. *)
Definition profileExists (path : string) : IO bool :=
  fails ← ask (λ i, statFails i path);
  files ← getFiles;
  mret (negb fails && bool_decide (is_Some (files !! path))).

(** The profile that [install] saves, and what it does afterwards. *)
Definition installProfile (o : options) (path : string) (configure : bool) : IO (profile * string * bool) :=
  p ← installCommon o path configure;
  p ← installCoordinator o path configure p;
  relay ← installRelay o path configure p;
  let '(p, token) := relay in
  p ← lift (installSubnode o configure p);
  upstream ← lift (installUpstream o configure p);
  let '(p, needsEnrollment) := upstream in
  saveProfile path p ;;
  (if negb (token =? "")%string then printLine ("SUBNODE_RELAY_TOKEN=" +:+ token) else mret tt) ;;
  mret (p, token, needsEnrollment).

Definition install (o : options) (path : string) (configure : bool) : IO unit :=
  there ← profileExists path;
  refuse negb (Bool.eqb there configure) ;;
  installed ← installProfile o path configure;
  let '(p, _, needsEnrollment) := installed in
  (if (needsEnrollment : bool) then requestEnrollment path p ≫= λ _, mret tt else mret tt) ;;
  if linux && (o_config o =? "")%string then
    ensureManagerService ;;
    printLine ("node " +:+ o_instance o +:+ " saved and enabled; run: mayoiga --action service-start")
  else printLine ("node " +:+ o_instance o +:+ " saved").

(** ** Mappings *)

(** The checks of [addMapping] before it reads the profile. *)
Definition mappingArguments (o : options) : bool :=
  negb ((o_name o =? "")%string || (o_listen o =? "")%string)
  && ((o_kind o =? "pull")%string || (o_kind o =? "publish")%string)
  && (if (o_kind o =? "publish")%string then
        negb (o_target o =? "")%string && validateHostPort (o_target o)
      else negb ((o_targetNode o =? "")%string || (o_service o =? "")%string)).

Definition addMapping (o : options) (path : string) : IO unit :=
  refuse negb (mappingArguments o) ;;
  p ← loadProfile path;
  refuse (o_kind o =? "pull")%string && (cl_URL (pf_Coordinator p) =? "")%string ;;
  refuse existsb (λ x, (mp_Name x =? o_name o)%string || sameListenAddress (mp_Listen x) (o_listen o)) (pf_Mappings p) ;;
  refuse negb (validateHostPort (o_listen o)) ;;
  requireFree path (o_listen o) ;;
  checkListenAvailable (o_listen o) ;;
  m ← (if (o_kind o =? "publish")%string then
         uuid ← randomUUID;
         let dir := Filepath.Dir path in
         let certificate := Filepath.Join [dir; o_name o +:+ ".crt"] in
         let key := Filepath.Join [dir; o_name o +:+ ".key"] in
         pin ← makeCertificate certificate key;
         printLine ("UUID=" +:+ uuid) ;; printLine ("PIN_SHA256=" +:+ pin) ;;
         mret (mkMapping (o_name o) (o_kind o) (o_listen o) (o_target o) (o_targetNode o) (o_service o) ""
                 uuid "" certificate key "" pin)
       else mret (mkMapping (o_name o) (o_kind o) (o_listen o) (o_target o) (o_targetNode o) (o_service o) ""
                    "" "" "" "" "" ""));
  saveProfile path (setMappings (pf_Mappings p ++ [m]) p).

Definition removeMapping (name path : string) : IO unit :=
  refuse (name =? "")%string ;;
  p ← loadProfile path;
  refuse negb (existsb (λ m, (mp_Name m =? name)%string) (pf_Mappings p)) ;;
  saveProfile path (setMappings (filter (λ m, mp_Name m ≠ name) (pf_Mappings p)) p).

(** ** Switching a node on and off *)

Definition setNodeDisabled (path : string) (disabled : bool) : IO unit :=
  p ← loadProfile path;
  if Bool.eqb (pf_Disabled p) disabled then mret tt else saveProfile path (setDisabled disabled p).
End Config.

(** ** Rules *)

Section ConfigRules.
Context {unicode : Unicode} {hostEnv : HostEnv}.

Definition allReadable : Prop := ∀ i path, readFails i path = false.

(** Another node of the host whose profile loads. *)
Definition otherNode (files : gmap string string) (dir exclude : string) (entries : list (string * bool))
    (name : string) (p : profile) : Prop :=
  (name, true) ∈ entries ∧ validateInstance name = true ∧ profileIn dir name ≠ exclude
  ∧ ∃ text, files !! profileIn dir name = Some text ∧ unmarshalProfile text = Some p ∧ checkProfile p = Some p.

Lemma runs_listenConflictIn dir exclude address entries owner h h' :
  runs (listenConflictIn dir exclude address entries) h owner h' →
  h_files h' = h_files h ∧ h_out h' = h_out h ∧ h_sent h' = h_sent h
  ∧ (owner = None → allReadable → ∀ name p, otherNode (h_files h) dir exclude entries name p →
     conflictingListener address p = None).
Proof.
  revert h. induction entries as [|[name isDir] rest IH]; intros h H.
  - simpl in H. io_inv. split_and!; [done..|]. intros _ _ n p [Hin _]. by apply not_elem_of_nil in Hin.
  - cbn [listenConflictIn] in H.
    assert (∀ h0, h_files h0 = h_files h → h_out h0 = h_out h → h_sent h0 = h_sent h →
              runs (listenConflictIn dir exclude address rest) h0 owner h' →
              (allReadable → ∀ p, otherNode (h_files h) dir exclude [(name, isDir)] name p →
                 conflictingListener address p = None) →
              h_files h' = h_files h ∧ h_out h' = h_out h ∧ h_sent h' = h_sent h
              ∧ (owner = None → allReadable → ∀ n p, otherNode (h_files h) dir exclude ((name, isDir) :: rest) n p →
                 conflictingListener address p = None)) as Hnext.
    { intros h0 Hf Ho Hs Hrun Hhere. apply IH in Hrun as (Hf' & Ho' & Hs' & Hrest). rewrite Hf in Hf', Hrest.
      split_and!; [congruence..|]. intros Hn Hr n p (Hin & Hv & Hne & Ht).
      apply elem_of_cons in Hin as [[= -> <-]|Hin].
      - apply Hhere; [done|]. split_and!; [by left|done..].
      - by apply (Hrest Hn Hr n p). }
    destruct (negb isDir || negb (validateInstance name)) eqn:Hskip.
    { apply (Hnext h); try done. intros _ p (Hin & Hv & _). apply list_elem_of_singleton in Hin as [= <-].
      by rewrite Hv in Hskip. }
    destruct (String.eqb_spec (profileIn dir name) exclude) as [He|He].
    { apply (Hnext h); try done. by intros _ p (_ & _ & ? & _). }
    apply runs_bind in H as (loaded & h1 & Hl & H). apply runs_attempt in Hl.
    destruct (loadProfile_quiet _ _ _ _ Hl) as (Hf1 & Ho1 & Hs1).
    destruct loaded as [p|].
    + apply runs_loadProfile in Hl as [-> Hat]. destruct (conflictingListener address p) eqn:Hc.
      * io_inv. done.
      * apply (Hnext (tickHost h)); try done. intros _ q (_ & _ & _ & text & Ht & Hu & _).
        unfold profileAt in Hat. rewrite Ht in Hat. destruct Hat as [Hp _]. congruence.
    + apply (Hnext h1); try done. intros Hr q (_ & _ & _ & text & Ht & Hu & Hq).
      assert (profileAt (h_files h) (profileIn dir name) q) as Hat by (unfold profileAt; by rewrite Ht).
      pose proof (loadProfile_runs _ _ h (Hr _ _) Hat) as Hrun. unfold runs in Hrun. congruence.
Qed.

(** No readable node of the host listens on [address]. *)
Definition freeOnHost (files : gmap string string) (exclude address : string) : Prop :=
  ∃ i j dir, configHome i = Some dir
    ∧ match readDir j (Filepath.Join [Filepath.Join [dir; "mayoiga"]; "nodes"]) with
      | NoDirectory => True
      | DirectoryError => False
      | Entries l => allReadable → ∀ name p,
          otherNode files (Filepath.Join [dir; "mayoiga"]) exclude l name p → conflictingListener address p = None
      end.

Lemma runs_requireFree path address u h h' :
  runs (requireFree path address) h u h' →
  h_files h' = h_files h ∧ h_out h' = h_out h ∧ h_sent h' = h_sent h ∧ freeOnHost (h_files h) path address.
Proof.
  unfold requireFree, configuredListenConflict, configDir. intros H. io_inv.
  destruct (readDir _ _) as [| |l] eqn:Hd.
  - io_inv. split_and!; [done..|]. eexists _, _, _. split; [done|]. by rewrite Hd.
  - io_inv.
  - match goal with H : runs (listenConflictIn _ _ _ _) _ ?o _ |- _ =>
      apply runs_listenConflictIn in H as (? & ? & ? & Hfree); destruct o end; io_inv.
    split_and!; [done..|]. eexists _, _, _. split; [done|]. rewrite Hd. by apply Hfree.
Qed.

Lemma runs_checkListenAvailable address u h h' :
  runs (checkListenAvailable address) h u h' → h' = tickHost h.
Proof. unfold checkListenAvailable. intros H. io_inv. done. Qed.

(** The profile [addMapping] reads, and the mapping it adds to it. *)
Definition addedMapping (o : options) (path : string) (m : mapping) : Prop :=
  mp_Name m = o_name o ∧ mp_Kind m = o_kind o ∧ mp_Listen m = o_listen o ∧ mp_Target m = o_target o
  ∧ mp_TargetNode m = o_targetNode o ∧ mp_Service m = o_service o
  ∧ (o_kind o = "publish" →
     mp_UUID m ≠ "" ∧ (∃ der, mp_CertificateSHA256 m = Hex.EncodeToString (Sha256.Sum256 der))
     ∧ mp_Certificate m = Filepath.Join [Filepath.Dir path; o_name o +:+ ".crt"]
     ∧ mp_Key m = Filepath.Join [Filepath.Dir path; o_name o +:+ ".key"]).

Lemma uuidText_length random : String.length random = 16%nat → String.length (uuidText random) = 36%nat.
Proof.
  intros H. rewrite <- (ofBytes_bytes random) in *. rewrite ofBytes_length in H.
  revert H. generalize (Strings.bytes random). intros l Hl.
  do 16 (destruct l as [|? l]; [done|]). destruct l; [|done]. reflexivity.
Qed.

Lemma runs_addMapping o path u h h' :
  runs (addMapping o path) h u h' →
  ∃ p m, profileAt (h_files h) path p
    ∧ mappingArguments o = true ∧ (o_kind o = "pull" → cl_URL (pf_Coordinator p) ≠ "")
    ∧ (∀ x, x ∈ pf_Mappings p → mp_Name x ≠ o_name o ∧ sameListenAddress (mp_Listen x) (o_listen o) = false)
    ∧ validateHostPort (o_listen o) = true
    ∧ freeOnHost (h_files h) path (o_listen o)
    ∧ addedMapping o path m
    ∧ h_files h' !! path = Some (marshalProfile (setMappings (pf_Mappings p ++ [m]) p) +:+ lineEnd).
Proof.
  unfold addMapping. intros H. io_guard Hargs. io_bind (p & h1 & Hp & H).
  apply runs_loadProfile in Hp as [-> Hp]. io_guard Hpull. io_guard He. io_guard Hport.
  io_bind ([] & h2 & Hfree & H). apply runs_requireFree in Hfree as (Hf2 & _ & _ & Hfree).
  io_bind ([] & h3 & Hav & H). apply runs_checkListenAvailable in Hav as ->.
  io_bind (m & h4 & Hm & Hsave). apply runs_saveProfile in Hsave as [Hsave _].
  exists p, m. split_and!; [done| | | |by apply negb_false_iff|done| |].
  - by apply negb_false_iff.
  - intros Hk. rewrite Hk in Hpull. by apply String.eqb_neq in Hpull.
  - intros x Hx. assert ((mp_Name x =? o_name o)%string || sameListenAddress (mp_Listen x) (o_listen o) = false) as Hb.
    { destruct (_ || _) eqn:Hb; [|done]. rewrite <- He. symmetry. apply existsb_exists. exists x.
      by rewrite <- list_elem_of_In. }
    bool_simpl. done.
  - destruct (String.eqb_spec (o_kind o) "publish") as [Hk|Hk].
    + unfold randomUUID in Hm. io_inv.
      repeat match goal with
      | H : runs (hostRandom _) _ _ _ |- _ => apply runs_hostRandom in H as [-> Hlen]
      | H : runs (makeCertificate _ _) _ _ _ |- _ => apply runs_makeCertificate in H as (der & ? & ? & ? & ? & _)
      end.
      subst. unfold addedMapping. simpl. split_and!; [done..|]. intros _. split_and!; [|by exists der|done|done].
      intros Hu. apply uuidText_length in Hlen. by rewrite Hu in Hlen.
    + io_inv. unfold addedMapping. simpl. by split_and!.
  - rewrite Hsave. by rewrite lookup_insert_eq.
Qed.

Lemma runs_removeMapping name path u h h' :
  runs (removeMapping name path) h u h' →
  ∃ p, profileAt (h_files h) path p ∧ name ≠ "" ∧ (∃ m, m ∈ pf_Mappings p ∧ mp_Name m = name)
    ∧ h_files h' !! path =
      Some (marshalProfile (setMappings (filter (λ m, mp_Name m ≠ name) (pf_Mappings p)) p) +:+ lineEnd).
Proof.
  unfold removeMapping. intros H. io_guard Hn. io_bind (p & h1 & Hp & H).
  apply runs_loadProfile in Hp as [-> Hp]. io_guard He. apply runs_saveProfile in H as [Hsave _].
  bool_simpl. apply existsb_exists in He as (m & Hm%list_elem_of_In & He%String.eqb_eq).
  exists p. split_and!; [done|done|by exists m|]. by rewrite Hsave, lookup_insert_eq.
Qed.

(** *** install for a new node *)

Lemma hostToken_form token h h' :
  runs hostToken h token h' → h_files h' = h_files h ∧ token ≠ "".
Proof.
  unfold hostToken. intros H. io_bind (b & h1 & Hb & H). apply runs_hostRandom in Hb as [-> Hlen].
  io_inv. split; [done|]. intros He. destruct (hex_encode_hex b) as [_ Hl]. by rewrite He, Hlen in Hl.
Qed.

Lemma runs_installCommon o path p h h' :
  runs (installCommon o path false) h p h' → h_files h !! path = None →
  ∃ id name,
    p = mkProfile profileVersion (o_instance o) false (o_role o) (o_segment o) (o_network o) (mkNodeConfig id name)
          noCoordinator noServer noRelay noSubnode []
    ∧ validNodeRole (o_role o) = true
    ∧ (Strings.TrimSpace (o_network o) =? "")%string || (Strings.TrimSpace (o_segment o) =? "")%string = false.
Proof.
  unfold installCommon. intros H Hnone. io_bind (q & h1 & Hq & H). apply runs_loadProfile in Hq as [-> Hq].
  unfold profileAt in Hq. rewrite Hnone in Hq. subst q. io_guard Hrole. io_guard Hvalid. io_guard Hnet.
  io_bind (id & h2 & _ & H). io_bind (name & h3 & _ & H). apply runs_ret in H as [-> ->].
  exists id, name. split_and!; [done|by apply negb_false_iff|done].
Qed.

Lemma connectionLimits_bounds o configure s wait ttl lease most :
  connectionLimits o configure s = Some (wait, ttl, lease, most) →
  1 ≤ wait ≤ 120 ∧ 10 ≤ ttl ≤ 3600 ∧ 1 ≤ lease < ttl ∧ 1 ≤ most ≤ 100000.
Proof.
  unfold connectionLimits. match goal with |- context [if ?c then None else _] => destruct c eqn:E end; [done|].
  intros [= <- <- <- <-]. bool_simpl. lia.
Qed.

(** What a configured server section satisfies. *)
Definition serverReady (s : coordinatorServer) : Prop :=
  validateHostPort (sv_Listen s) = true ∧ validateAdminListen (sv_AdminListen s) = true
  ∧ sameListenAddress (sv_Listen s) (sv_AdminListen s) = false ∧ sv_AdminToken s ≠ ""
  ∧ validSHA256Pin (sv_PinnedSHA256 s) = true ∧ sv_Certificate s ≠ "" ∧ sv_Key s ≠ ""
  ∧ 1 ≤ sv_ConnectionWaitSeconds s ≤ 120 ∧ 10 ≤ sv_ConnectionRequestTTLSeconds s ≤ 3600
  ∧ 1 ≤ sv_ConnectionOfferLeaseSeconds s < sv_ConnectionRequestTTLSeconds s
  ∧ 1 ≤ sv_ConnectionMaxPending s ≤ 100000.

Lemma runs_installCoordinator o path p q h h' :
  runs (installCoordinator o path false p) h q h' → pf_Server p = noServer →
  if (pf_Role p =? "coordinator")%string then ∃ s, q = setServer s p ∧ serverReady s else q = p.
Proof.
  unfold installCoordinator. intros H Hs.
  destruct (pf_Role p =? "coordinator")%string eqn:Hrole; simpl in H; [|io_inv; done].
  rewrite Hs in H. simpl in H. io_guard Hl. io_guard Hport. io_guard Hadmin. io_guard Hsame.
  io_bind (limits & h1 & Hlim & H). apply runs_lift in Hlim as [Hlim ->].
  destruct limits as [[[wait ttl] lease] most]. apply connectionLimits_bounds in Hlim as (? & ? & ? & ?).
  io_bind ([] & h2 & _ & H). io_bind (token & h3 & Htoken & H). apply hostToken_form in Htoken as [_ Htoken].
  io_bind (made & h4 & Hmade & H). io_bind (pin & h5 & Hpin & Hmade). io_inv.
  apply runs_makeCertificate in Hpin as (der & ? & ? & _ & -> & _).
  eexists. split; [reflexivity|]. apply orb_false_iff in Hadmin as [_ Hadmin].
  split_and!; simpl; try done; try lia; try apply digest_validPin; try apply join_dir_ne; by apply negb_false_iff.
Qed.

Definition relayReady (r : relayConfig) : Prop :=
  validateHostPort (rl_Listen r) = true ∧ validateHostPort (rl_Endpoint r) = true ∧ 0 ≤ rl_Priority r
  ∧ validSHA256Pin (rl_PinnedSHA256 r) = true ∧ rl_Certificate r ≠ "" ∧ rl_Key r ≠ ""
  ∧ validRelayAdmissionTokenHash (rl_AdmissionTokenHash r) = true.

Lemma admissionHash_valid token : validRelayAdmissionTokenHash (relayAdmissionTokenHash token) = true.
Proof.
  unfold validRelayAdmissionTokenHash, relayAdmissionTokenHash. rewrite hex_decode_encode.
  by rewrite sha256_length.
Qed.

Lemma runs_installRelay o path p q token h h' :
  runs (installRelay o path false p) h (q, token) h' → pf_Relay p = noRelay →
  if (pf_Role p =? "relay")%string then
    ∃ r, q = setRelayConfig r p ∧ relayReady r
      ∧ token ≠ "" ∧ rl_AdmissionTokenHash r = relayAdmissionTokenHash token
  else q = p ∧ token = "".
Proof.
  unfold installRelay. intros H Hr. io_guard Hrotate.
  destruct (pf_Role p =? "relay")%string eqn:Hrole; simpl in H; [|apply runs_ret in H as [[= <- <-] ->]; done].
  rewrite Hr in H. simpl in H. io_guard Hempty. io_guard Hlisten. io_guard Hendpoint. io_guard Hprio.
  io_bind ([] & h2 & _ & H). io_bind (made & h4 & Hmade & H). io_bind (pin & h5 & Hpin & Hmade).
  apply runs_ret in Hmade as [-> ->]. apply runs_makeCertificate in Hpin as (der & ? & ? & _ & -> & _).
  rewrite orb_true_r in H. io_bind (t & h6 & Ht & H). io_bind (tk & h7 & Htk & Ht).
  apply runs_ret in Ht as [-> ->]. apply hostToken_form in Htk as [_ Htk].
  io_bind (u & h8 & _ & H). apply runs_ret in H as [[= -> ->] ->].
  eexists. split; [reflexivity|]. apply negb_false_iff in Hlisten, Hendpoint. apply Z.ltb_ge in Hprio.
  unfold relayReady.
  split_and!; simpl; try done; try apply digest_validPin; try apply join_dir_ne. apply admissionHash_valid.
Qed.

Lemma installSubnode_new o p q :
  installSubnode o false p = Some q →
  if (pf_Role p =? "subnode")%string then
    q = setSubnode (mkSubnodeConfig (o_upstreamRelayNode o) (o_upstreamRelayEndpoint o)
          (normalizePin (o_upstreamRelayPin o)) (Strings.TrimSpace (o_upstreamRelayToken o))) p
    ∧ o_upstreamRelayNode o ≠ "" ∧ validateHostPort (o_upstreamRelayEndpoint o) = true
    ∧ validSHA256Pin (o_upstreamRelayPin o) = true
  else q = p.
Proof.
  unfold installSubnode. destruct (pf_Role p =? "subnode")%string; cbn [negb andb]; [|by intros [= <-]].
  destruct (_ || _ || _ || _) eqn:He; [done|]. bool_simpl.
  destruct (validateHostPort _); [|done]. cbn [negb]. destruct (validSHA256Pin _) eqn:Hp; [|done]. cbn [negb].
  intros [= <-]. done.
Qed.

Lemma installUpstream_new o p q needs :
  installUpstream o false p = Some (q, needs) → pf_Coordinator p = noCoordinator →
  (∃ c, q = setCoordinator c p
    ∧ (c = noCoordinator
       ∨ c = mkCoordinatorClient (trimSlashes (o_coordinator o)) (normalizePin (o_coordinatorPin o)) None None
         ∧ o_coordinator o ≠ "" ∧ validateCoordinatorURL (o_coordinator o) = true)
    ∧ ((pf_Role p =? "relay")%string || (pf_Role p =? "subnode")%string = true → cl_URL c ≠ "")).
Proof.
  intros H Hc. unfold installUpstream in H. rewrite Hc in H. simpl in H.
  assert (p = setCoordinator noCoordinator p) as Hsame by (rewrite <- Hc; by destruct p).
  match type of H with (?r ≫= ?k) = _ => destruct r as [[q' n']|] eqn:E; [|done] end.
  assert (∃ c, q' = setCoordinator c p
    ∧ (c = noCoordinator
       ∨ c = mkCoordinatorClient (trimSlashes (o_coordinator o)) (normalizePin (o_coordinatorPin o)) None None
         ∧ o_coordinator o ≠ "" ∧ validateCoordinatorURL (o_coordinator o) = true)) as (c & -> & Hcase).
  { destruct (isSet o "coordinator" || _).
    - destruct (String.eqb_spec (o_coordinator o) ""); [injection E as <- <-; exists noCoordinator; by split; [|left]|].
      destruct (_ =? _)%string; [done|]. destruct (validateCoordinatorURL _) eqn:Hv; [|done]. simpl in E.
      injection E as <- <-. destruct (_ || _) eqn:Hm.
      + eexists. split; [done|]. by right.
      + exists noCoordinator. split; [done|by left].
    - injection E as <- <-. exists noCoordinator. split; [done|by left]. }
  exists c. simpl in H. destruct (_ && _) eqn:Hb; [done|]. injection H as <- <-. split_and!; [done|done|].
  intros Hrole. rewrite Hrole in Hb. by apply String.eqb_neq in Hb.
Qed.
End ConfigRules.
