(* ===== verification/NodeRuntime.v ===== *)
(** * Running a node

    runProfile and the parts it starts and closes (runtime.go,
    startSmartPull of relay_pull.go, startRelayServer of relay_server.go,
    startCoordinator of coordinator_runtime.go up to its servers), the node
    switch, deletion, rendering and the list of the host's nodes
    (node_config.go, node_manager.go).  A part that runs is a listener or an
    embedded Xray; what it serves is modelled elsewhere ([Relay.pullHandle],
    [Relay.handle], [System]). *)
From S2P Require Import Prelude GoStd GoNet GoPath GoCrypto Types Runtime Validate Profile Xray.
From S2P Require Import Options Host Service Embedded NodeClient NodeConfig.

Local Open Scope Z_scope.

#[export] Instance mapping_eq_dec : EqDecision mapping.
Proof. solve_decision. Defined.
#[export] Instance runningPart_eq_dec : EqDecision runningPart.
Proof. solve_decision. Defined.

(** The part is closed: one of its occurrences goes. *)
Fixpoint closeOne (x : runningPart) (l : list runningPart) : list runningPart :=
  match l with
  | [] => []
  | y :: rest => if decide (x = y) then rest else y :: closeOne x rest
  end.

Section NodeRuntime.
Context {unicode : Unicode} {hostEnv : HostEnv}.

(** ** Parts *)

Definition opened (x : runningPart) : IO runningPart := modMemory (setParts (λ l, l ++ [x])) ;; mret x.

(** A pull listener and a relay server close their connectors with their
    listener. *)
Definition hasCache (x : runningPart) : bool := match x with PullPart _ | RelayPart => true | _ => false end.
Definition close (x : runningPart) : IO unit :=
  modMemory (setParts (closeOne x)) ;;
  if hasCache x then closeConnectors else mret tt.

Fixpoint closeAll (l : list runningPart) : IO unit :=
  match l with [] => mret tt | x :: rest => close x ;; closeAll rest end.

Definition listenTCP (address : string) : IO unit :=
  ok ← ask (λ i, listenable i address);
  refuse negb ok ;; mret tt.

Definition startSmartPull (m : mapping) : IO runningPart := listenTCP (mp_Listen m) ;; opened (PullPart m).

Definition startRelayServer (p : profile) : IO runningPart :=
  certificate ← fileText (rl_Certificate (pf_Relay p));
  key ← fileText (rl_Key (pf_Relay p));
  refuse negb (keyPair certificate key) ;;
  listenTCP (rl_Listen (pf_Relay p)) ;;
  opened RelayPart.

(** [newRegistry] loads the state file. *)
Definition stateLoads (path : string) : IO bool :=
  read ← readFile path;
  mret (match read with NotExist => true | ReadError => false | Content text => stateDecodes text end).

Definition startCoordinator (path : string) (p : profile) : IO runningPart :=
  let s := pf_Server p in
  refuse (sv_Listen s =? "")%string || (sv_AdminListen s =? "")%string || (sv_AdminToken s =? "")%string ;;
  refuse negb (validateAdminListen (sv_AdminListen s)) ;;
  loads ← stateLoads (Filepath.Join [Filepath.Dir path; "coordinator-state.json"]);
  refuse negb loads ;;
  opened CoordinatorPart.

(** ** The run of a node *)

Definition startPart (m : mapping) : IO runningPart :=
  if (mp_Kind m =? "pull")%string && negb (mp_TargetNode m =? "")%string then startSmartPull m
  else startMapping m ;; opened (EmbeddedPart m).

(** The loop over the mappings; a failure closes what was started. *)
Fixpoint startMappings (l : list mapping) (instances : list runningPart) : IO (list runningPart) :=
  match l with
  | [] => mret instances
  | m :: rest =>
      started ← attempt (startPart m);
      match started with
      | None => closeAll instances ;; failure
      | Some x => startMappings rest (instances ++ [x])
      end
  end.

(** [if role { part, err := start; if err != nil { return err }; … }] under
    the deferred close of [instances]; [add] puts the part where the deferred
    calls close it. *)
Definition startIf (wanted : bool) (start : IO runningPart) (add : runningPart → list runningPart → list runningPart)
    (instances : list runningPart) : IO (list runningPart) :=
  if negb wanted then mret instances else
  started ← attempt start;
  match started with
  | None => closeAll instances ;; failure
  | Some x => mret (add x instances)
  end.

(** Up to the final select: the profile, and what is running, in the order in
    which it is closed: the coordinator's Shutdown is deferred last. *)
Definition startProfile (path : string) : IO (profile * list runningPart) :=
  p ← loadProfile path;
  instances ← startMappings (pf_Mappings p) [];
  instances ← startIf (pf_Role p =? "relay")%string (startRelayServer p) (λ x l, l ++ [x]) instances;
  instances ← startIf (pf_Role p =? "coordinator")%string (startCoordinator path p) cons instances;
  mret (p, instances).

(** Whether [runControlPlane] runs beside it. *)
Definition hasControlPlane (p : profile) : bool := negb (cl_URL (pf_Coordinator p) =? "")%string.

(** [runProfile]: a signal ends it without an error, a server of the
    coordinator that stops with one; either way everything is closed. *)
Definition runProfile (path : string) : IO unit :=
  started ← startProfile path;
  let '(p, instances) := started in
  signal ← ask interrupted;
  closeAll instances ;;
  if negb signal && (pf_Role p =? "coordinator")%string then failure else mret tt.

(** ** Switching, deleting, rendering *)

Definition start (path : string) (managed : bool) : IO unit :=
  refuse negb managed ;;
  setNodeDisabled path false ;;
  refuse negb linux ;;
  controlManagerService "start".

Definition stop (path : string) (managed : bool) : IO unit :=
  refuse negb managed ;;
  setNodeDisabled path true.

(** The files below a directory. *)
Definition inside (dir path : string) : bool := String.prefix (dir +:+ "/") path.

Definition uninstall (path : string) (managed : bool) : IO unit :=
  if (managed : bool) then
    let dir := Filepath.Dir path in
    gone ← ask (λ i, removeTree i dir);
    match gone with
    | None => modFiles (filter (λ kv, inside dir kv.1 = false))
    | Some removed => modFiles (filter (λ kv, inside dir kv.1 = false ∨ kv.1 ∉ removed)) ;; failure
    end
  else
    removed ← removeFile path;
    match removed with Removed => mret tt | _ => failure end.

Definition renderFile (path output : string) : IO unit :=
  p ← loadProfile path;
  doc ← lift (renderXray p);
  if (output =? "")%string then printLine (marshalDocument doc) else putFile output (marshalDocument doc).

(** ** The nodes of the host *)

Definition authOf (p : profile) : string :=
  match cl_Credential (pf_Coordinator p), cl_Enrollment (pf_Coordinator p) with
  | Some _, _ => "credential"
  | None, Some e => if (es_Status e =? "")%string then "pending" else es_Status e
  | None, None => "none"
  end.

Definition tab : string := Strings.ofBytes [ascii_of_nat 9].

Definition nodeLine (instance : string) (p : profile) : string :=
  foldr (λ s rest, s +:+ tab +:+ rest) (Strconv.FormatInt (Z.of_nat (length (pf_Mappings p))))
    [instance; nd_Name (pf_Node p); pf_Role p; pf_VirtualNetwork p; pf_Segment p; authOf p;
     if pf_Disabled p then "disabled" else "enabled"].

Fixpoint listedNodes (dir : string) (entries : list (string * bool)) : IO (list (string * profile)) :=
  match entries with
  | [] => mret []
  | (name, isDir) :: rest =>
      if negb isDir || negb (validateInstance name) then listedNodes dir rest else
      loaded ← attempt (loadProfile (profileIn dir name));
      others ← listedNodes dir rest;
      mret (match loaded with Some p => (name, p) :: others | None => others end)
  end.

Fixpoint printLines (l : list string) : IO unit :=
  match l with [] => mret tt | s :: rest => printLine s ;; printLines rest end.

Definition listNodes : IO unit :=
  dir ← configDir;
  found ← ask (λ i, readDir i (Filepath.Join [dir; "nodes"]));
  match found with
  | NoDirectory => printLine "no local nodes"
  | DirectoryError => failure
  | Entries entries =>
      items ← listedNodes dir entries;
      let items := sortSlice (λ a b, (a.1 <? b.1)%string) items in
      if bool_decide (length items = 0%nat) then printLine "no local nodes"
      else printLines (foldr (λ s rest, s +:+ tab +:+ rest) "MAPPINGS"
                         ["INSTANCE"; "NAME"; "ROLE"; "NETWORK"; "SEGMENT"; "AUTH"; "STATE"]
                       :: ((λ item, nodeLine item.1 item.2) <$> items))
  end.
End NodeRuntime.
