(* ===== verification/Menu.v ===== *)
(** * The menus

    interactive.go: the program's questions when it is started without an
    action, as a computation on the lines that are typed; a line that does
    not come reads as empty.  Prompts are not printed. *)
From S2P Require Import Prelude GoStd GoNet GoPath GoCrypto Types Runtime Validate Profile.
From S2P Require Import Options Host NodeConfig.

Local Open Scope Z_scope.

(** A computation that also reads lines. *)
Definition Ask (A : Type) : Type := list string → IO (A * list string).
#[export] Instance Ask_ret : MRet Ask := λ A a lines, mret (a, lines).
#[export] Instance Ask_bind : MBind Ask := λ A B k m lines, r ← m lines; k r.1 r.2.
Definition perform {A} (m : IO A) : Ask A := λ lines, a ← m; mret (a, lines).
Definition reject {A} : Ask A := λ lines, failure.
(** [in.Scan(); in.Text()]. *)
Definition readLine : Ask string := λ lines, mret (hd "" lines, tl lines).

(** ** Choices *)

Definition menuActions : list (string * string) :=
  [("1", "add-node"); ("2", "list-nodes"); ("3", "configure-node"); ("4", "delete-node"); ("5", "status");
   ("6", "start"); ("7", "stop"); ("8", "sync"); ("9", "nodes"); ("10", "add"); ("11", "remove");
   ("12", "handshakes"); ("13", "audit"); ("14", "approve"); ("15", "reject"); ("16", "revoke");
   ("17", "request-connection"); ("18", "wait-connection"); ("19", "connection-status"); ("20", "connection-inbox");
   ("21", "accept-connection"); ("22", "reject-connection"); ("23", "cancel-connection");
   ("24", "service-install"); ("25", "service-run"); ("26", "service-start"); ("27", "service-stop");
   ("28", "service-status"); ("29", "service-uninstall"); ("30", "quit")].
Definition menuRoles : list (string * string) := [("1", "client"); ("2", "relay"); ("3", "subnode"); ("4", "coordinator")].

(** A lookup in a Go map of strings. *)
Definition choice (table : list (string * string)) (key : string) : string :=
  match firstMatch (λ kv, (kv.1 =? key)%string) table with Some kv => kv.2 | None => "" end.

(** The actions of managers, for which no instance is asked. *)
Definition withoutInstance (action : string) : bool :=
  (action =? "list-nodes")%string || (action =? "quit")%string || Strings.HasPrefix action "service-".

(** [strings.EqualFold(s, "yes")]: the letter s also has the form U+017F. *)
Definition equalFoldYes (s : string) : bool :=
  bool_decide (s ∈ y ← ["y"; "Y"]; e ← ["e"; "E"]; s ← ["s"; "S"; Strings.ofBytes [ascii_of_nat 197; ascii_of_nat 191]];
               mret (y +:+ e +:+ s)).

Section Menu.
Context {unicode : Unicode} {hostEnv : HostEnv}.

Definition askTrimmed : Ask string := line ← readLine; mret (Strings.TrimSpace line).

(** ** Edits *)

(** [askEdit] and [askSecretEdit], which differ in the prompt: an empty answer
    keeps the value, a hyphen empties it. *)
Definition askEdit (f : textField) (flag : string) (o : options) : Ask options :=
  value ← askTrimmed;
  mret (if (value =? "")%string then o
        else giveFlag flag (setText f (if (value =? "-")%string then "" else value) o)).

Definition askIntEdit (f : numberField) (flag : string) (o : options) : Ask options :=
  value ← askTrimmed;
  if (value =? "")%string then mret o else
  let '(parsed, ok) := Strconv.Atoi value in
  if negb ok then reject else mret (giveFlag flag (setNumber f parsed o)).

(** A field of another action. *)
Definition askText (f : textField) (o : options) : Ask options := line ← readLine; mret (setText f line o).
Definition askTrimmedText (f : textField) (o : options) : Ask options := value ← askTrimmed; mret (setText f value o).

(** What configure-node starts from. *)
Definition prefill (p : profile) (o : options) : options :=
  let text (o : options) (fv : textField * string) := setText fv.1 fv.2 o in
  let number (o : options) (fv : numberField * Z) := setNumber fv.1 fv.2 o in
  let s := pf_Server p in
  let o := foldl text o
    [(FRole, pf_Role p); (FNodeName, nd_Name (pf_Node p)); (FNetwork, pf_VirtualNetwork p); (FSegment, pf_Segment p);
     (FCoordinator, cl_URL (pf_Coordinator p)); (FCoordinatorPin, cl_PinnedSHA256 (pf_Coordinator p));
     (FListen, sv_Listen s); (FAdminListen, sv_AdminListen s);
     (FTransitListen, rl_Listen (pf_Relay p)); (FTransitEndpoint, rl_Endpoint (pf_Relay p));
     (FUpstreamRelayNode, sn_RelayNodeID (pf_Subnode p)); (FUpstreamRelayEndpoint, sn_RelayEndpoint (pf_Subnode p));
     (FUpstreamRelayPin, sn_RelayPinnedSHA256 (pf_Subnode p)); (FUpstreamRelayToken, sn_RelayToken (pf_Subnode p))] in
  foldl number o
    [(FRelayPriority, rl_Priority (pf_Relay p)); (FConnectionWaitSeconds, sv_ConnectionWaitSeconds s);
     (FConnectionTTLSeconds, sv_ConnectionRequestTTLSeconds s); (FConnectionLeaseSeconds, sv_ConnectionOfferLeaseSeconds s);
     (FConnectionMaxPending, sv_ConnectionMaxPending s)].

Definition askCoordinator (o : options) : Ask options :=
  o ← askEdit FListen "listen" o;
  o ← askEdit FAdminListen "admin-listen" o;
  o ← askIntEdit FConnectionWaitSeconds "connection-wait-seconds" o;
  o ← askIntEdit FConnectionTTLSeconds "connection-request-ttl-seconds" o;
  o ← askIntEdit FConnectionLeaseSeconds "connection-offer-lease-seconds" o;
  askIntEdit FConnectionMaxPending "connection-max-pending" o.

Definition askRelay (o : options) : Ask options :=
  o ← askEdit FTransitListen "transit-listen" o;
  o ← askEdit FTransitEndpoint "transit-endpoint" o;
  askIntEdit FRelayPriority "relay-priority" o.

Definition askSubnode (o : options) : Ask options :=
  o ← askEdit FUpstreamRelayNode "upstream-relay-node" o;
  o ← askEdit FUpstreamRelayEndpoint "upstream-relay-endpoint" o;
  o ← askEdit FUpstreamRelayPin "upstream-relay-pin" o;
  askEdit FUpstreamRelayToken "upstream-relay-token" o.

Definition askRole (o : options) : Ask options :=
  chosen ← askTrimmed;
  let value := choice menuRoles chosen in
  let o := if negb (value =? "")%string then giveFlag "role" (setText FRole value o) else o in
  if (o_role o =? "")%string then reject else
  o ← askEdit FNodeName "node-name" o;
  o ← askEdit FNetwork "network" o;
  o ← askEdit FSegment "segment" o;
  if (o_role o =? "coordinator")%string then askCoordinator o else
  o ← (if (o_role o =? "relay")%string then askRelay o else mret o);
  o ← (if (o_role o =? "subnode")%string then askSubnode o else mret o);
  o ← askEdit FCoordinator "coordinator" o;
  if (o_coordinator o =? "")%string then mret o else askEdit FCoordinatorPin "coordinator-pin" o.

Definition askNode (configure : bool) (o : options) : Ask options :=
  if configure then
    dir ← perform (attempt configDir);
    p ← perform (loadProfile (profileIn (default "" dir) (o_instance o)));
    askRole (prefill p o)
  else askRole o.

(** ** The questions of the other actions *)

Definition acting (action : string) (o : options) : bool := (o_action o =? action)%string.

Definition askWhen (b : bool) (m : options → Ask options) (o : options) : Ask options := if b then m o else mret o.

Definition askDecision (o : options) : Ask options :=
  o ← askTrimmedText FDeviceCode o;
  o ← (if acting "approve" o then value ← askTrimmed; mret (setSwitch FReplaceExisting (equalFoldYes value) o) else mret o);
  if acting "reject" o then askTrimmedText FReason o else mret o.

Definition askMapping (o : options) : Ask options :=
  o ← askText FKind o;
  o ← askText FName o;
  o ← askText FListen o;
  if (o_kind o =? "publish")%string then askText FTarget o
  else o ← askText FTargetNode o; askText FService o.

Definition askOther (o : options) : Ask options :=
  o ← askWhen (acting "approve" o || acting "reject" o) askDecision o;
  o ← askWhen (acting "revoke" o) (askTrimmedText FNodeID) o;
  o ← askWhen (acting "add" o) askMapping o;
  o ← askWhen (acting "remove" o) (askText FName) o;
  o ← askWhen (acting "request-connection" o) (λ o, o ← askTrimmedText FTargetNode o; askTrimmedText FService o) o;
  o ← askWhen (acting "wait-connection" o || acting "connection-status" o || acting "accept-connection" o
               || acting "reject-connection" o || acting "cancel-connection" o) (askTrimmedText FRequestID) o;
  o ← askWhen (acting "reject-connection" o || acting "cancel-connection" o) (askTrimmedText FReason) o;
  askWhen (acting "delete-node" o) (λ o, line ← readLine; mret (setSwitch FYes (line =? "yes")%string o)) o.

(** [interactive]: the options it leaves. *)
Definition interactive (o : options) : Ask options :=
  line ← readLine;
  let o := setText FAction (choice menuActions line) o in
  if (o_action o =? "")%string then reject else
  if withoutInstance (o_action o) then mret o else
  o ← askTrimmedText FInstance o;
  if negb (validateInstance (o_instance o)) then reject else
  if acting "add-node" o || acting "configure-node" o then askNode (acting "configure-node" o) o
  else askOther o.
End Menu.
