(* ===== verification/RelayProtocol.v ===== *)
(** * The relay protocol, and dialing a relay

    The handshake a node sends a relay, the text that is signed, the error
    lines, and the two ways to dial (relay_protocol.go, relay_dial.go).  A
    connection is represented by the success of the dial. *)
From S2P Require Import Prelude GoStd GoNet GoPath GoCrypto Types Runtime Validate Wire Registry.
From S2P Require Import Auth Profile Host NodeClient.

Local Open Scope Z_scope.

Definition relayHandshakeVersion : Z := 1.
Definition relayHandshakeLimit : Z := 16384.
Definition relayDialTimeout : Z := 5 * Time.second.
Definition relayFailureCooldown : Z := 30 * Time.second.
Definition maxCoordinatorTunnels : Z := 32.

(** ** The signed text *)

Fixpoint joinLines (l : list string) : string :=
  match l with
  | [] => ""
  | [s] => s
  | s :: l => s +:+ newline +:+ joinLines l
  end.

Definition relayHandshakeMessage (hs : relayHandshake) : string :=
  let fields := [Strconv.FormatInt (hs_Version hs); hs_Mode hs; hs_Network hs; hs_SourceNode hs; hs_RelayNode hs;
                 hs_TargetNode hs; hs_Service hs; Strconv.FormatInt (hs_Timestamp hs); hs_Nonce hs] in
  joinLines (fields ++ if (hs_Mode hs =? "reverse")%string then [hs_RequestID hs] else []).

Definition setSignature (signature : string) (hs : relayHandshake) : relayHandshake :=
  mkRelayHandshake (hs_Version hs) (hs_Mode hs) (hs_Network hs) (hs_SourceNode hs) (hs_RelayNode hs) (hs_TargetNode hs)
    (hs_Service hs) (hs_RequestID hs) (hs_RelayToken hs) (hs_Timestamp hs) (hs_Nonce hs) signature.

(** ** Error lines *)

(** What [writeRelayError] writes. *)
Definition relayErrorLine (code message : string) : string :=
  "ERR " +:+ code +:+ " " +:+ message +:+ newline.

Definition space : ascii := " ".

(** [strings.SplitN(s, " ", 3)] into three parts. *)
Definition splitThree (l : list ascii) : option (list ascii * list ascii * list ascii) :=
  match Strings.indexByte space l with
  | None => None
  | Some i =>
      let rest := drop (S i) l in
      match Strings.indexByte space rest with
      | None => None
      | Some j => Some (take i l, take j rest, drop (S j) rest)
      end
  end.

(** [relayResponseError]: the code and the message of a structured reply;
    [None] is the generic error. *)
Definition relayResponseError (response : string) : option (string * string) :=
  match splitThree (Strings.bytes (Strings.TrimSpace response)) with
  | Some (err, code, message) =>
      if bool_decide (err = Strings.bytes "ERR") && Net.has "_" code
      then Some (Strings.ofBytes code, Strings.ofBytes message) else None
  | None => None
  end.

(** ** Dialing *)

Section Dial.
Context {unicode : Unicode} {hostEnv : HostEnv}.

(** The certificate digest a connection must present. *)
Definition pinnedTLSConfig (pinText : string) : option string :=
  match Hex.DecodeString (normalizePin pinText) with
  | Some pin => if (String.length pin =? Sha256.Size)%nat then Some pin else None
  | None => None
  end.

Definition probePinnedTLS (endpoint pin : string) : IO unit :=
  config ← lift (pinnedTLSConfig pin);
  ok ← ask (λ i, tlsProbe i endpoint config);
  refuse negb ok ;; mret tt.

Definition recordHandshake (endpoint : string) (hs : relayHandshake) : IO unit :=
  modMemory (setHandshakes (λ l, l ++ [(endpoint, hs)])).

(** Writes the handshake line and reads the reply. *)
Definition exchangeHandshake (endpoint : string) (hs : relayHandshake) : IO unit :=
  recordHandshake endpoint hs ;;
  response ← ask (λ i, relayAnswer i endpoint (marshalHandshake hs +:+ newline));
  response ← lift response;
  refuse negb (response =? "OK" +:+ newline)%string ;; mret tt.

Definition dialSignedRelay (local : profile) (relay : discoveredNode) (mode targetNode service requestID : string) : IO unit :=
  advertised ← lift (dn_Relay relay);
  credential ← lift (cl_Credential (pf_Coordinator local));
  config ← lift (pinnedTLSConfig (ra_PinnedSHA256 advertised));
  connected ← ask (λ i, tlsDial i (ra_Endpoint advertised) config);
  refuse negb connected ;;
  nonce ← hostToken;
  now ← ask hostClock;
  let handshake := mkRelayHandshake relayHandshakeVersion mode (pf_VirtualNetwork local) (nd_ID (pf_Node local))
    (dn_ID relay) targetNode service requestID "" (Time.ToUnix now) nonce "" in
  privateKey ← lift (Base64.RawStdDecode (nc_PrivateKey credential));
  refuse negb (String.length privateKey =? PrivateKeySize)%nat ;;
  let signature := Base64.RawStdEncode (ed25519Sign privateKey (relayHandshakeMessage handshake)) in
  exchangeHandshake (ra_Endpoint advertised) (setSignature signature handshake).

Definition dialRelay (local : profile) (relay : discoveredNode) (targetNode service : string) : IO unit :=
  dialSignedRelay local relay "service" targetNode service "".

Definition dialReverseRelay (local : profile) (relay : discoveredNode) (requestID service : string) : IO unit :=
  dialSignedRelay local relay "reverse" (nd_ID (pf_Node local)) service requestID.

Definition dialCoordinatorViaRelay (network nodeID : string) (subnode : subnodeConfig) : IO unit :=
  config ← lift (pinnedTLSConfig (sn_RelayPinnedSHA256 subnode));
  connected ← ask (λ i, tlsDial i (sn_RelayEndpoint subnode) config);
  refuse negb connected ;;
  exchangeHandshake (sn_RelayEndpoint subnode)
    (mkRelayHandshake relayHandshakeVersion "coordinator" network nodeID (sn_RelayNodeID subnode) "" "" ""
       (sn_RelayToken subnode) 0 "" "").
End Dial.

(** ** The signed text determines the handshake *)

Definition oneLine (s : string) : Prop := ascii_of_nat 10 ∉ Strings.bytes s.

Lemma joinLines_cons s l : l ≠ [] → joinLines (s :: l) = s +:+ newline +:+ joinLines l.
Proof. by destruct l. Qed.

Lemma split_unique {A} (c : A) (a b u v : list A) :
  c ∉ a → c ∉ b → a ++ c :: u = b ++ c :: v → a = b ∧ u = v.
Proof.
  revert b. induction a as [|x a IH]; intros [|y b] Ha Hb H; simpl in H.
  - by injection H as ->.
  - injection H as E H. exfalso. apply Hb. rewrite <- E. by left.
  - injection H as E H. exfalso. apply Ha. rewrite E. by left.
  - injection H as -> H. destruct (IH b) as [-> ->]; [| |done|done].
    + intros Hin. apply Ha. by right.
    + intros Hin. apply Hb. by right.
Qed.

Lemma append_newline_inj s t u v :
  oneLine s → oneLine t → s +:+ newline +:+ u = t +:+ newline +:+ v → s = t ∧ u = v.
Proof.
  intros Hs Ht H. apply (f_equal Strings.bytes) in H. rewrite !bytes_app in H.
  apply split_unique in H as [H1 H2]; [|done..]. split; by apply bytes_inj.
Qed.

Lemma joinLines_inj k l :
  Forall oneLine k → Forall oneLine l → length k = length l → joinLines k = joinLines l → k = l.
Proof.
  intros Hk. revert l. induction Hk as [|s k Hs Hk IH]; intros [|t l] Hl Hlen H; try done.
  apply Forall_cons in Hl as [Ht Hl]. simpl in Hlen.
  destruct k as [|s' k], l as [|t' l]; try done; [by simpl in H; subst|].
  rewrite !joinLines_cons in H by done. apply append_newline_inj in H as [-> H]; [|done..].
  f_equal. apply IH; [done|simpl in *; lia|done].
Qed.

(** Reading a decimal back. *)
Lemma FormatInt_oneLine n : 0 ≤ n < 2 ^ 63 → oneLine (Strconv.FormatInt n).
Proof.
  intros H. unfold Strconv.FormatInt, oneLine. destruct (decide (n = 0)) as [->|Hne].
  { intros Hin. vm_compute in Hin. apply list_elem_of_In in Hin. by destruct Hin as [?|[]]. }
  assert (∃ p, n = Z.pos p) as [p ->] by (destruct n; [done|by eexists|lia]).
  change (pretty (Z.pos p)) with (pretty_N_go (N.pos p) "").
  destruct (pretty_go_digits (N.pos p) "") as (l & -> & Hall & _). rewrite app_nil_r.
  intros Hin. rewrite Forall_forall in Hall. by destruct (Hall _ Hin) as [? [=]].
Qed.

Lemma FormatInt_inj m n :
  0 ≤ m < 2 ^ 63 → 0 ≤ n < 2 ^ 63 → Strconv.FormatInt m = Strconv.FormatInt n → m = n.
Proof. intros Hm Hn H. pose proof (ParseInt_FormatInt m Hm) as E. rewrite H, ParseInt_FormatInt in E by done. congruence. Qed.
