(* ===== verification/Inbox.v ===== *)
(** * Connection requests on a node

    The client of the connection API (connection_client.go), the cached inbox
    (connection_inbox.go), and the rounds of the three control-plane workers
    with the offers they serve (connection_workers.go). *)
From S2P Require Import Prelude GoStd GoNet GoPath GoCrypto Types Runtime Validate Wire Registry.
From S2P Require Import Auth Profile Host NodeClient NodeConfig RelayProtocol.

Local Open Scope Z_scope.

Section Inbox.
Context {unicode : Unicode} {hostEnv : HostEnv}.

(** ** The connection API *)

Definition statusOK (status : Z) : bool := status =? 200.

Definition createConnectionRequest (p : profile) (targetNode service returnRelay idempotency : string)
    : IO connectionRequest :=
  answer ← signedCoordinatorRequest p "POST" "/v1/connections/request"
             (marshalCreateConnection (mkCreateConnectionInput idempotency targetNode service returnRelay));
  refuse negb (answer.1 =? 201) && negb (statusOK answer.1) ;;
  lift (decodeConnection answer.2).

Definition decideConnectionRequest (p : profile) (requestID decision reason : string) : IO connectionRequest :=
  answer ← signedCoordinatorRequest p "POST" ("/v1/connections/" +:+ decision)
             (marshalConnectionID (mkConnectionIDInput requestID reason));
  refuse negb (statusOK answer.1) ;;
  lift (decodeConnection answer.2).

Definition getConnectionStatus (p : profile) (requestID knownState : string) (wait : bool) : IO connectionRequest :=
  let endpoint := if wait then "/v1/connections/status/wait" else "/v1/connections/status" in
  answer ← signedCoordinatorRequest p "POST" endpoint
             (marshalStatusWait (mkConnectionStatusWaitInput requestID knownState (connectionWaitMaximum / Time.second)));
  refuse negb (statusOK answer.1) ;;
  lift (decodeConnection answer.2).

(** The loop of [connectionStatusCLI] for at most [fuel] turns: [inr] is the
    state it ends with, [inl] the state it would go on from. *)
Fixpoint awaitTerminal (fuel : nat) (p : profile) (requestID : string) (connection : connectionRequest)
    : IO (connectionRequest + connectionRequest) :=
  if connectionTerminal (cr_State connection) then mret (inr connection) else
  match fuel with
  | O => mret (inl connection)
  | S fuel =>
      connection ← getConnectionStatus p requestID (cr_State connection) true;
      awaitTerminal fuel p requestID connection
  end.

Definition requestConnectionCLI (profilePath : string) (targetNode service key : string) : IO connectionRequest :=
  refuse (targetNode =? "")%string || (service =? "")%string ;;
  p ← loadProfile profilePath;
  let key := Strings.TrimSpace key in
  idempotency ← (if (key =? "")%string then hostToken else mret key);
  connection ← createConnectionRequest p targetNode service "" idempotency;
  printLine ("REQUEST_ID=" +:+ cr_ID connection) ;;
  printLine ("IDEMPOTENCY_KEY=" +:+ idempotency) ;;
  printLine ("STATE=" +:+ cr_State connection) ;;
  mret connection.

(** ** The cached inbox *)

Definition inboxFile (profilePath : string) : string :=
  Filepath.Join [Filepath.Dir profilePath; "connection-inbox.json"].

(** [loadInbox]: the value, and whether the error is nil. *)
Definition loadInbox (profilePath : string) : IO (cachedInbox * bool) :=
  body ← readFile (inboxFile profilePath);
  mret (match body with
        | NotExist => (mkCachedInbox 0 [], true)
        | ReadError => (mkCachedInbox 0 [], false)
        | Content text => unmarshalInbox text
        end).

Definition byCursor (x y : connectionRequest) : bool := cr_Cursor x <? cr_Cursor y.

(** The map [byID] of [saveInbox]. *)
Definition mergedByID (existing fresh : list connectionRequest) : gmap string connectionRequest :=
  let kept := filter (λ e, connectionTerminal (cr_State e) = false) existing in
  foldl (λ m e, <[cr_ID e := e]> m) ∅ (kept ++ fresh).

(** [saveInbox] rebuilds its list in the array of the list it is given, which
    its caller still holds: [events[:0]] keeps the array, every append up to
    its capacity writes there in the order of the map, and the sort works in
    place as long as the list has not outgrown the array.  What the caller's
    list holds afterwards: *)
Definition callerEvents (capacity : nat) (fresh merged : list connectionRequest) : list connectionRequest :=
  let array := if (length merged <=? capacity)%nat then sortSlice byCursor merged else merged in
  take (length fresh) (array ++ drop (length merged) fresh).

Definition saveInbox (profilePath : string) (inbox : cachedInbox) : IO (list connectionRequest) :=
  loaded ← loadInbox profilePath;
  let existing := loaded.1 in
  order ← ask (λ i, hostOrder i (mergedByID (ib_Events existing) (ib_Events inbox)));
  room ← ask sliceRoom;
  let events := sortSlice byCursor order.*2 in
  let cursor := if ib_Cursor inbox <? ib_Cursor existing then ib_Cursor existing else ib_Cursor inbox in
  replaceFile (inboxFile profilePath) (marshalInbox (mkCachedInbox cursor events) +:+ lineEnd) ;;
  mret (callerEvents (length (ib_Events inbox) + room) (ib_Events inbox) order.*2).

Definition removeInboxRequest (profilePath requestID : string) : IO unit :=
  loaded ← loadInbox profilePath;
  refuse negb loaded.2 ;;
  let inbox := loaded.1 in
  let filtered := filter (λ c, cr_ID c ≠ requestID) (ib_Events inbox) in
  replaceFile (inboxFile profilePath) (marshalInbox (mkCachedInbox (ib_Cursor inbox) filtered) +:+ lineEnd).

(** [waitInbox]: the answer, when the whole exchange succeeded, with the
    events as [saveInbox] leaves them. *)
Definition waitInbox (path : string) (p : profile) : IO inboxWaitResponse :=
  loaded ← loadInbox path;
  refuse negb loaded.2 ;;
  answer ← signedCoordinatorRequest p "POST" "/v1/connections/inbox/wait"
             (marshalInboxWait (mkInboxWaitInput (ib_Cursor loaded.1) (connectionWaitMaximum / Time.second) maxInboxEvents));
  refuse negb (statusOK answer.1) ;;
  output ← lift (decodeInboxResponse answer.2);
  if (0 <? Z.of_nat (length (ir_Events output))) then
    events ← saveInbox path (mkCachedInbox (ir_Cursor output) (ir_Events output));
    ack ← signedCoordinatorRequest p "POST" "/v1/connections/inbox/ack"
            (marshalInboxAck (mkInboxAckInput (ir_Cursor output)));
    refuse negb (statusOK ack.1) ;;
    mret (mkInboxWaitResponse (ir_Cursor output) events)
  else
    _ ← saveInbox path (mkCachedInbox (ir_Cursor output) []);
    mret output.

Definition decideConnectionCLI (profilePath requestID decision reason : string) : IO connectionRequest :=
  refuse (requestID =? "")%string ;;
  p ← loadProfile profilePath;
  connection ← decideConnectionRequest p requestID decision reason;
  (if (cr_TargetNode connection =? nd_ID (pf_Node p))%string
   then attempt (removeInboxRequest profilePath requestID) ≫= λ _, mret tt else mret tt) ;;
  mret connection.

Definition connectionStatusCLI (fuel : nat) (profilePath requestID : string) (wait : bool)
    : IO (connectionRequest + connectionRequest) :=
  refuse (requestID =? "")%string ;;
  p ← loadProfile profilePath;
  connection ← getConnectionStatus p requestID "" false;
  if wait then awaitTerminal fuel p requestID connection else mret (inr connection).

(** ** Published services of the node itself *)

Definition localPublishedTarget (p : profile) (name : string) : option string :=
  mp_Target <$> firstMatch (λ m, (mp_Kind m =? "publish")%string && (mp_Name m =? name)%string
                                 && validateHostPort (mp_Target m)) (pf_Mappings p).

(** The service of the first mapping with that name, reached over loopback. *)
Definition localPublishedService (p : profile) (name : string) : IO (option publishedService) :=
  node ← localDiscoveredNode p;
  match firstMatch (λ s, (ps_Name s =? name)%string) (dn_Services node) with
  | None => mret None
  | Some service =>
      match firstMatch (λ m, (mp_Kind m =? "publish")%string && (mp_Name m =? name)%string) (pf_Mappings p) with
      | None => mret None
      | Some m => mret (Some (setDirectCandidates [mkDirectCandidate (loopbackEndpoint (mp_Listen m)) Time.zero] service))
      end
  end.

(** ** Offers served automatically *)

Definition modOffers (f : gset string → gset string) : IO unit := modMemory (setOffers f).

(** The loop of [dispatchAutomaticConnectionOffers]: the events for which a
    goroutine is started. *)
Fixpoint dispatchOffers (p : profile) (events : list connectionRequest) : IO (list connectionRequest) :=
  match events with
  | [] => mret []
  | event :: rest =>
      if negb (cr_TargetNode event =? nd_ID (pf_Node p))%string || (cr_ReturnRelay event =? "")%string
      then dispatchOffers p rest
      else
        memory ← getMemory;
        if bool_decide (cr_ID event ∈ nm_offers memory) then dispatchOffers p rest
        else
          modOffers (union {[cr_ID event]}) ;;
          started ← dispatchOffers p rest;
          mret (event :: started)
  end.

Definition isReturnRelay (id : string) (n : discoveredNode) : bool :=
  (dn_ID n =? id)%string && (dn_Role n =? "relay")%string && bool_decide (dn_Relay n ≠ None).

(** Tells the coordinator, whatever it answers. *)
Definition declineOffer (p : profile) (requestID reason : string) : IO unit :=
  _ ← attempt (decideConnectionRequest p requestID "reject" reason); mret tt.

Definition serveAutomaticConnectionOffer (profilePath : string) (p : profile) (event : connectionRequest) : IO unit :=
  match localPublishedTarget p (cr_Service event) with
  | None => declineOffer p (cr_ID event) "published service is not local" ;; failure
  | Some target =>
      nodes ← loadDiscovered profilePath;
      match firstMatch (isReturnRelay (cr_ReturnRelay event)) nodes with
      | None => failure
      | Some relay =>
          refuse (dn_ID relay =? "")%string ;;
          local ← ask (λ i, tcpDial i target);
          if negb local then declineOffer p (cr_ID event) "local published target is unavailable" ;; failure else
          reverse ← attempt (dialReverseRelay p relay (cr_IdempotencyKey event) (cr_Service event));
          match reverse with
          | None => declineOffer p (cr_ID event) "return relay is unavailable" ;; failure
          | Some _ =>
              _ ← decideConnectionRequest p (cr_ID event) "accept" "";
              _ ← attempt (removeInboxRequest profilePath (cr_ID event));
              mret tt
          end
      end
  end.

(** The goroutine around it, as the steps it takes one after the other: other
    goroutines run in between.  The deferred deletion comes last. *)
Definition offerGoroutine (profilePath : string) (p : profile) (event : connectionRequest) : list (IO unit) :=
  [ (_ ← attempt (serveAutomaticConnectionOffer profilePath p event); mret tt);
    modOffers (λ s, s ∖ {[cr_ID event]}) ].

Definition runOffer (profilePath : string) (p : profile) (event : connectionRequest) : IO unit :=
  foldr (λ step rest, step ;; rest) (mret tt) (offerGoroutine profilePath p event).

(** ** The control-plane workers *)

Definition statusFile (profilePath : string) : string :=
  Filepath.Join [Filepath.Dir profilePath; "control-status.json"].

Definition emptyStatus : controlPlaneStatus :=
  mkControlPlaneStatus Time.zero true Time.zero true 0 Time.zero true 0 false.

Definition loadControlStatus (profilePath : string) : IO (controlPlaneStatus * bool) :=
  body ← readFile (statusFile profilePath);
  mret (match body with
        | NotExist => (emptyStatus, true)
        | ReadError => (emptyStatus, false)
        | Content text => unmarshalStatus text
        end).

(** [_ = updateControlStatus(…)]. *)
Definition updateControlStatus (profilePath : string) (update : controlPlaneStatus → controlPlaneStatus) : IO unit :=
  loaded ← loadControlStatus profilePath;
  _ ← attempt (replaceFile (statusFile profilePath) (marshalStatus (update loaded.1) +:+ lineEnd));
  mret tt.

Definition noteHeartbeat (ok : bool) (now : Z) (s : controlPlaneStatus) : controlPlaneStatus :=
  mkControlPlaneStatus (if ok then now else cp_HeartbeatLastOK s) ok (cp_DiscoveryLastOK s) (cp_DiscoveryError s)
    (cp_DiscoveryRevision s) (cp_InboxLastOK s) (cp_InboxError s) (cp_InboxCursor s) (cp_InboxWaiting s).
Definition noteDiscovery (ok : bool) (now revision : Z) (s : controlPlaneStatus) : controlPlaneStatus :=
  mkControlPlaneStatus (cp_HeartbeatLastOK s) (cp_HeartbeatError s) (if ok then now else cp_DiscoveryLastOK s) ok
    (if ok then revision else cp_DiscoveryRevision s) (cp_InboxLastOK s) (cp_InboxError s) (cp_InboxCursor s) (cp_InboxWaiting s).
Definition noteInbox (output : option inboxWaitResponse) (now : Z) (s : controlPlaneStatus) : controlPlaneStatus :=
  match output with
  | None => mkControlPlaneStatus (cp_HeartbeatLastOK s) (cp_HeartbeatError s) (cp_DiscoveryLastOK s) (cp_DiscoveryError s)
              (cp_DiscoveryRevision s) (cp_InboxLastOK s) false (cp_InboxCursor s) false
  | Some output =>
      mkControlPlaneStatus (cp_HeartbeatLastOK s) (cp_HeartbeatError s) (cp_DiscoveryLastOK s) (cp_DiscoveryError s)
        (cp_DiscoveryRevision s) now true
        (if cp_InboxCursor s <? ir_Cursor output then ir_Cursor output else cp_InboxCursor s) false
  end.
Definition noteWaiting (s : controlPlaneStatus) : controlPlaneStatus :=
  mkControlPlaneStatus (cp_HeartbeatLastOK s) (cp_HeartbeatError s) (cp_DiscoveryLastOK s) (cp_DiscoveryError s)
    (cp_DiscoveryRevision s) (cp_InboxLastOK s) (cp_InboxError s) (cp_InboxCursor s) true.

(** One turn of [runHeartbeatWorker]: the revision to pass on. *)
Definition heartbeatTurn (profilePath : string) (p : profile) : IO (option Z) :=
  revision ← attempt (sendHeartbeat p);
  now ← ask hostClock;
  updateControlStatus profilePath (noteHeartbeat (bool_decide (is_Some revision)) now) ;;
  mret revision.

(** One turn of [runDiscoveryWorker] for a revision it received: the value of
    [current] afterwards.  The update sees the error before the status file
    is written, so [current] moves whether or not the write succeeds. *)
Definition discoveryTurn (profilePath : string) (p : profile) (current revision : Z) : IO Z :=
  if revision =? current then mret current else
  fetched ← attempt (fetchDiscovery profilePath p current revision);
  now ← ask hostClock;
  let ok := bool_decide (is_Some fetched) in
  updateControlStatus profilePath (noteDiscovery ok now revision) ;;
  mret (if ok then revision else current).

(** [backoff < 30 s ? backoff *= 2]. *)
Definition nextBackoff (backoff : Z) : Z := if backoff <? 30 * Time.second then 2 * backoff else backoff.

(** One turn of [runInboxWorker]: the offers started, and the next backoff. *)
Definition inboxTurn (profilePath : string) (p : profile) (backoff : Z) : IO (list connectionRequest * Z) :=
  updateControlStatus profilePath noteWaiting ;;
  output ← attempt (waitInbox profilePath p);
  now ← ask hostClock;
  updateControlStatus profilePath (noteInbox output now) ;;
  match output with
  | Some output =>
      started ← dispatchOffers p (ir_Events output);
      mret (started, Time.second)
  | None => mret ([], nextBackoff backoff)
  end.

(** One turn of [runControlPlane]: whether it polls again after five
    seconds, or the profile to run the workers with ([None]: it ends). *)
Definition controlPlaneTurn (profilePath : string) : IO (option (bool * profile)) :=
  loaded ← attempt (loadProfile profilePath);
  match loaded with
  | None => mret None
  | Some p =>
      if (cl_URL (pf_Coordinator p) =? "")%string then mret None else
      match cl_Credential (pf_Coordinator p) with
      | Some _ => mret (Some (false, p))
      | None =>
          polled ← pollEnrollment profilePath p;
          let '(approved, p, _) := polled in
          mret (Some (negb approved, p))
      end
  end.
End Inbox.

(** ** The channel of revisions

    A channel of capacity one between the heartbeat worker, which replaces an
    unread revision by a newer one in three non-blocking selects, and the
    discovery worker, which may receive in between. *)
Inductive senderStage := Sending (revision : Z) | Draining (revision : Z) | Refilling (revision : Z) | Sent (revision : Z) | Dropped (revision : Z).

Record revisions := mkRevisions { rv_buffer : option Z; rv_stage : senderStage; rv_received : list Z }.

Inductive revisionStep : revisions → revisions → Prop :=
  | rv_send r l : revisionStep (mkRevisions None (Sending r) l) (mkRevisions (Some r) (Sent r) l)
  | rv_full x r l : revisionStep (mkRevisions (Some x) (Sending r) l) (mkRevisions (Some x) (Draining r) l)
  | rv_drain x r l : revisionStep (mkRevisions (Some x) (Draining r) l) (mkRevisions None (Refilling r) l)
  | rv_empty r l : revisionStep (mkRevisions None (Draining r) l) (mkRevisions None (Refilling r) l)
  | rv_refill r l : revisionStep (mkRevisions None (Refilling r) l) (mkRevisions (Some r) (Sent r) l)
  | rv_drop x r l : revisionStep (mkRevisions (Some x) (Refilling r) l) (mkRevisions (Some x) (Dropped r) l)
  | rv_next r r' b l : revisionStep (mkRevisions b (Sent r) l) (mkRevisions b (Sending r') l)
  | rv_receive x s l : revisionStep (mkRevisions (Some x) s l) (mkRevisions None s (l ++ [x])).
