(* ===== verification/Command.v ===== *)
(** * The actions of the command line

    profilePathFor (profile.go) and the dispatch of [execute] (main.go).  What
    an action prints with a formatted time is left out: the handshakes, the
    audit, the nodes, the inbox and the status are read and returned. *)
From S2P Require Import Prelude GoStd GoNet GoPath GoCrypto Types Runtime Validate Profile Options.
From S2P Require Import Host Service NodeClient AdminClient NodeConfig NodeRuntime Menu Inbox.

Local Open Scope Z_scope.

(** How an action ends: done, or with the manager running ([Supervisor]) on a
    directory. *)
Inductive commandResult :=
  | Finished
  | ManagerRuns (dir : string)
  | Handshakes (l : list handshakeHistory)
  | AuditEvents (l : list auditEvent)
  | Nodes (l : list discoveredNode)
  | HandshakePending
  | Connection (c : connectionRequest)
  | StillOpen (c : connectionRequest)
  | InboxEvents (l : list connectionRequest)
  | NodeStatus (p : profile) (peers : nat) (auth : string) (control : option controlPlaneStatus).

Definition managerActions : list string :=
  ["list-nodes"; "service-install"; "service-run"; "service-start"; "service-stop"; "service-status"; "service-uninstall"].

Definition nodeActions : list string :=
  ["add-node"; "configure-node"; "status"; "start"; "stop"; "delete-node"; "add"; "remove"; "render"; "nodes";
   "handshakes"; "audit"; "approve"; "reject"; "revoke"; "sync"; "request-connection"; "wait-connection";
   "connection-status"; "connection-inbox"; "accept-connection"; "reject-connection"; "cancel-connection"; "run"].

Section Command.
Context {unicode : Unicode} {hostEnv : HostEnv}.

Definition absolute (path : string) : IO string :=
  if Strings.HasPrefix path "/" then mret (Filepath.Clean path) else
  directory ← ask workingDirectory;
  directory ← lift directory;
  mret (Filepath.Abs directory path).

Definition profilePathFor (given instance : string) : IO string :=
  refuse negb (validateInstance instance) ;;
  if negb (given =? "")%string then absolute given else
  dir ← configDir;
  mret (profileIn dir instance).

Definition finish {A} (m : IO A) : IO commandResult := _ ← m; mret Finished.

Definition status (path : string) : IO commandResult :=
  p ← loadProfile path;
  peers ← attempt (loadDiscovered path);
  control ← loadControlStatus path;
  let '(value, ok) := (control : controlPlaneStatus * bool) in
  mret (NodeStatus p (match (peers : option (list discoveredNode)) with Some l => length l | None => 0%nat end) (authOf p) (if ok then Some value else None)).

Definition syncAndPrint (path : string) : IO commandResult :=
  p ← loadProfile path;
  synced ← syncDiscovery path p;
  mret (match cl_Credential (pf_Coordinator synced.2) with None => HandshakePending | Some _ => Nodes synced.1 end).

Definition printConnectionInbox (path : string) : IO commandResult :=
  loaded ← loadInbox path;
  refuse negb loaded.2 ;;
  mret (InboxEvents (ib_Events loaded.1)).

Definition connectionResult (m : IO (connectionRequest + connectionRequest)) : IO commandResult :=
  r ← m; mret (match r with inl c => StillOpen c | inr c => Connection c end).

(** The first switch. *)
Definition executeManager (o : options) : option (IO commandResult) :=
  if acting "list-nodes" o then Some (finish listNodes)
  else if acting "service-install" o then Some (finish installManagerService)
  else if acting "service-run" o then Some (mret (ManagerRuns (o_managerDir o)))
  else if acting "service-start" o then Some (finish (controlManagerService "start"))
  else if acting "service-stop" o then Some (finish (controlManagerService "stop"))
  else if acting "service-status" o then Some (finish (controlManagerService "status"))
  else if acting "service-uninstall" o then Some (finish uninstallManagerService)
  else None.

(** The second, on the profile's path.  [fuel] bounds the turns of
    wait-connection. *)
Definition executeNode (fuel : nat) (o : options) (path : string) : IO commandResult :=
  let managed := (o_config o =? "")%string in
  let decide decision := c ← decideConnectionCLI path (o_requestID o) decision (o_reason o); mret (Connection c) in
  if acting "add-node" o then finish (install o path false)
  else if acting "configure-node" o then finish (install o path true)
  else if acting "status" o then status path
  else if acting "start" o then finish (start path managed)
  else if acting "stop" o then finish (stop path managed)
  else if acting "delete-node" o then if negb (o_yes o) then failure else finish (uninstall path managed)
  else if acting "add" o then finish (addMapping o path)
  else if acting "remove" o then finish (removeMapping (o_name o) path)
  else if acting "render" o then finish (renderFile path (o_output o))
  else if acting "nodes" o then l ← loadDiscovered path; mret (Nodes l)
  else if acting "handshakes" o then l ← listPendingHandshakes path (o_handshakeStatus o); mret (Handshakes l)
  else if acting "audit" o then l ← listAuditEvents path; mret (AuditEvents l)
  else if acting "approve" o then finish (approveDeviceCode path (o_deviceCode o) (o_replaceExisting o))
  else if acting "reject" o then finish (rejectDeviceCode path (o_deviceCode o) (o_reason o))
  else if acting "revoke" o then finish (revokeNodeID path (o_nodeID o))
  else if acting "sync" o then syncAndPrint path
  else if acting "request-connection" o then
    c ← requestConnectionCLI path (o_targetNode o) (o_service o) (o_idempotencyKey o); mret (Connection c)
  else if acting "wait-connection" o then connectionResult (connectionStatusCLI fuel path (o_requestID o) true)
  else if acting "connection-status" o then connectionResult (connectionStatusCLI fuel path (o_requestID o) false)
  else if acting "connection-inbox" o then printConnectionInbox path
  else if acting "accept-connection" o then decide "accept"
  else if acting "reject-connection" o then decide "reject"
  else if acting "cancel-connection" o then decide "cancel"
  else if acting "run" o then finish (runProfile path)
  else failure.

Definition execute (fuel : nat) (o : options) : IO commandResult :=
  match executeManager o with
  | Some m => m
  | None => path ← profilePathFor (o_config o) (o_instance o); executeNode fuel o path
  end.
End Command.
