(* ===== verification/CommandLine.v ===== *)
(** * The program from its arguments

    [Run] (main.go): the flags it declares, package flag's reading of the
    arguments, the choice of a language, the menus when no action is given,
    and the action. *)
From S2P Require Import Prelude GoStd GoNet GoPath GoCrypto GoFlag Types Runtime Locale.
From S2P Require Import Validate Profile Options Host Service NodeConfig NodeRuntime Menu Command.

Local Open Scope Z_scope.

(** ** The flags *)

Inductive flagTarget := TextFlag (f : textField) | NumberFlag (f : numberField) | SwitchFlag (f : switchField).

#[export] Instance flagTarget_eq_dec : EqDecision flagTarget.
Proof. solve_decision. Defined.

Definition flagTable : list (string * flagTarget) := [
   ("lang", TextFlag FLang); ("role", TextFlag FRole); ("action", TextFlag FAction);
   ("instance", TextFlag FInstance); ("segment", TextFlag FSegment); ("network", TextFlag FNetwork);
   ("coordinator", TextFlag FCoordinator); ("coordinator-pin", TextFlag FCoordinatorPin);
   ("device-code", TextFlag FDeviceCode); ("handshake-status", NumberFlag FHandshakeStatus);
   ("node-name", TextFlag FNodeName); ("node-id", TextFlag FNodeID); ("request-id", TextFlag FRequestID);
   ("idempotency-key", TextFlag FIdempotencyKey); ("reason", TextFlag FReason); ("name", TextFlag FName);
   ("kind", TextFlag FKind); ("listen", TextFlag FListen); ("admin-listen", TextFlag FAdminListen);
   ("target", TextFlag FTarget); ("target-node", TextFlag FTargetNode); ("service", TextFlag FService);
   ("transit-listen", TextFlag FTransitListen); ("transit-endpoint", TextFlag FTransitEndpoint);
   ("upstream-relay-node", TextFlag FUpstreamRelayNode);
   ("upstream-relay-endpoint", TextFlag FUpstreamRelayEndpoint);
   ("upstream-relay-pin", TextFlag FUpstreamRelayPin); ("upstream-relay-token", TextFlag FUpstreamRelayToken);
   ("relay-priority", NumberFlag FRelayPriority); ("connection-wait-seconds", NumberFlag FConnectionWaitSeconds);
   ("connection-request-ttl-seconds", NumberFlag FConnectionTTLSeconds);
   ("connection-offer-lease-seconds", NumberFlag FConnectionLeaseSeconds);
   ("connection-max-pending", NumberFlag FConnectionMaxPending); ("config", TextFlag FConfig);
   ("manager-dir", TextFlag FManagerDir); ("output", TextFlag FOutput); ("yes", SwitchFlag FYes);
   ("replace-existing", SwitchFlag FReplaceExisting); ("rotate-relay-token", SwitchFlag FRotateRelayToken);
   ("version", SwitchFlag FShowVersion)
].

Definition formalFlag (name : string) : option flagTarget :=
  snd <$> firstMatch (λ kv, (kv.1 =? name)%string) flagTable.

Definition isSwitch (t : flagTarget) : bool := match t with SwitchFlag _ => true | _ => false end.

(** [flag.Value.Set] of the three kinds. *)
Definition setFlag (t : flagTarget) (value : string) (o : options) : option options :=
  match t with
  | TextFlag f => Some (setText f value o)
  | NumberFlag f => (λ n, setNumber f n o) <$> Literal.ParseInt value
  | SwitchFlag f => (λ b, setSwitch f b o) <$> Literal.ParseBool value
  end.

(** [flag.Parse()]. *)
Definition parseFlags (args : list string) : Flag.parsed options := Flag.Parse formalFlag isSwitch setFlag args noOptions ∅.

(** [o.set], filled by [flag.Visit]. *)
Definition withSet (o : options) (actual : gset string) : options := mkOptions (o_text o) (o_number o) (o_switch o) actual.

(** ** The program *)

(** How it ends when nothing fails: the version was printed; the usage was
    asked for (exit 0); the flags are wrong (exit 2); the menus were left; or
    an action is done, with the texts of its language.  A failure is [fatal]
    (exit 1). *)
Inductive outcome :=
  | VersionPrinted
  | UsageShown
  | FlagsRefused
  | QuitChosen
  | Executed (active : messages) (r : commandResult).

Definition version : string := "dev".

Section CommandLine.
Context {unicode : Unicode} {hostEnv : HostEnv}.

(** The language, asked for when there is neither a language nor an action. *)
Definition languageOf (o : options) (lines : list string) : options * list string :=
  let '(o, lines) :=
    if ((o_lang o =? "") && (o_action o =? ""))%string
    then let '(chosen, lines) := chooseLanguage lines in (setText FLang chosen o, lines)
    else (o, lines) in
  (if (o_lang o =? "")%string then setText FLang "en" o else o, lines).

(** [Run] after the flags. *)
Definition runOptions (fuel : nat) (o : options) (lines : list string) : IO outcome :=
  if o_showVersion o then printLine version ;; mret VersionPrinted else
  let '(o, lines) := languageOf o lines in
  let active := (loadLocale (o_lang o)).1 in
  asked ← (if (o_action o =? "")%string then interactive o lines else mret (o, lines));
  let o := asked.1 in
  if (o_action o =? "quit")%string then mret QuitChosen else
  result ← execute fuel o;
  mret (Executed active result).

(** [Run] on the arguments after the program's name and the lines typed. *)
Definition Run (fuel : nat) (args lines : list string) : IO outcome :=
  match parseFlags args with
  | Flag.Parsed o actual _ => runOptions fuel (withSet o actual) lines
  | Flag.Help => mret UsageShown
  | Flag.Misused => mret FlagsRefused
  end.

(** The arguments superviseProfile gives to the program. *)
Definition superviseArgs (profile : managedProfile) : list string :=
  ["--action"; "run"; "--instance"; mg_instance profile; "--config"; mg_path profile].
End CommandLine.
