(* ===== verification/Relay.v ===== *)
(** * Routes and the relay server

    Route resolution and the pull listener (relay_pull.go), the direct
    candidates and the expectations of reverse connections (relay_types.go),
    and what a relay does with an incoming handshake (relay_server.go), up to
    the bridging of two connections, which copies bytes.  A handler is a
    computation that returns its outcome; it never fails. *)
From S2P Require Import Prelude GoStd GoNet GoPath GoCrypto Types Runtime Validate Wire Registry.
From S2P Require Import Auth Profile Host Embedded NodeClient NodeConfig RelayProtocol Inbox.

Local Open Scope Z_scope.

(** ** Routes *)

Definition zeroService : publishedService := mkPublishedService "" "" "" [] "" "".

Definition byPriority (x y : discoveredNode) : bool :=
  let p n := match dn_Relay n with Some r => ra_Priority r | None => 0 end in
  if negb (p x =? p y) then p x <? p y else (dn_ID x <? dn_ID y)%string.

Definition routeRelay (local : profile) (target : discoveredNode) (n : discoveredNode) : bool :=
  negb (dn_ID n =? nd_ID (pf_Node local))%string && (dn_Role n =? "relay")%string
  && (dn_Segment n =? dn_Segment target)%string && bool_decide (dn_Relay n ≠ None)
  && negb ((dn_Role target =? "subnode")%string && negb (dn_ID n =? dn_UpstreamRelay target)%string).

(** [resolveRoute] among the discovered nodes, with the local node last. *)
Definition routeIn (local : profile) (nodes : list discoveredNode) (targetNode serviceName : string)
    : option (discoveredNode * publishedService * list discoveredNode) :=
  match firstMatch (λ n, (dn_ID n =? targetNode)%string) nodes with
  | None => None
  | Some target =>
      if (dn_ID target =? "")%string then None else
      match firstMatch (λ s, (ps_Name s =? serviceName)%string) (dn_Services target) with
      | None => None
      | Some service =>
          if (ps_Name service =? "")%string then None else
          let relays := filter (λ n, routeRelay local target n = true) nodes in
          if (dn_Role target =? "subnode")%string && bool_decide (relays = []) then None
          else Some (target, service, sortSlice byPriority relays)
      end
  end.

Definition routeRelayCandidates (target : discoveredNode) (relays : list discoveredNode) : list discoveredNode :=
  if (dn_Role target =? "relay")%string then
    match dn_Relay target with None => [] | Some _ => [target] end
  else relays.

(** ** Admission of subnodes *)

Definition relayAdmissionTokenMatches (expectedHash token : string) : bool :=
  match Hex.DecodeString expectedHash with
  | None => false
  | Some expected =>
      if negb (String.length expected =? Sha256.Size)%nat || (Strings.TrimSpace token =? "")%string then false
      else match Hex.DecodeString (relayAdmissionTokenHash token) with
           | Some actual => ConstantTimeCompare expected actual =? 1
           | None => false
           end
  end.

(** A subnode of the relay that runs [p]. *)
Definition ownSubnode (p : profile) (n : discoveredNode) : bool :=
  (dn_Role n =? "subnode")%string && (dn_Segment n =? pf_Segment p)%string
  && (dn_UpstreamRelay n =? nd_ID (pf_Node p))%string.

(** The critical section of [verify]: expired nonces go, a live one refuses,
    a new one is kept for two minutes. *)
Definition takeNonce (now : Z) (nonce : string) (nonces : gmap string Z) : bool * gmap string Z :=
  let nonces := filter (λ kv, Time.Before kv.2 now = false) nonces in
  if Time.After (default Time.zero (nonces !! nonce)) now then (false, nonces)
  else (true, <[nonce := Time.Add now (2 * Time.minute)]> nonces).

(** Where a service connection is bridged to. *)
Inductive relayTarget :=
  | ToCandidate (address : string)
  | ToRelay (relay : string)
  | ToReverse (node : string).

Inductive relayOutcome :=
  | Refused (code : string)
  | Vanished
  | Tunnelled
  | HandedOver (request : string)
  | Bridged (target : relayTarget).

Inductive pullOutcome :=
  | PullFailed
  | PullUpstream
  | PullDirect (address : string)
  | PullRelay (relay : string)
  | PullReverse.

(** The codes of the error lines, and the messages beside them; the JSON error
    of [handshake_invalid] has another text. *)
Definition relayErrors : list (string * string) :=
  [("handshake_invalid", "the relay handshake is invalid or incomplete");
   ("source_unauthorized", "the source node signature is invalid, expired, or unknown");
   ("source_route_denied", "the subnode is assigned to another upstream relay");
   ("reverse_unexpected", "the reverse connection request is no longer pending");
   ("mode_unsupported", "the relay handshake mode is unsupported");
   ("target_service_missing", "the target node or published service is unavailable");
   ("cross_segment_denied", "this source is not authorized for cross-segment relay routing");
   ("target_unavailable", "no authenticated path to the target service is currently available");
   ("coordinator_tunnel_unauthorized", "the relay admission token is missing, invalid, or not assigned to this subnode");
   ("coordinator_tunnel_busy", "the relay has reached its coordinator tunnel capacity; retry shortly");
   ("coordinator_tunnel_unavailable", "the relay has no valid upstream coordinator configuration");
   ("coordinator_unavailable", "the relay cannot reach its configured coordinator")].

Section Relay.
Context {unicode : Unicode} {hostEnv : HostEnv}.

Definition resolveRoute (local : profile) (profilePath targetNode serviceName : string)
    : IO (discoveredNode * publishedService * list discoveredNode) :=
  nodes ← loadDiscovered profilePath;
  self ← localDiscoveredNode local;
  lift (routeIn local (nodes ++ [self]) targetNode serviceName).

(** ** Direct candidates *)

(** The loop of [dialDirectCandidates]: the address of the first candidate
    that is still leased, presents the pinned certificate, and can be
    dialled through its connector. *)
Fixpoint dialCandidates (service : publishedService) (candidates : list directCandidate) : IO string :=
  match candidates with
  | [] => failure
  | candidate :: rest =>
      leased ← (if Time.IsZero (dc_ExpiresAt candidate) then mret true
                else now ← ask hostClock; mret (Time.After (dc_ExpiresAt candidate) now));
      if negb leased then dialCandidates service rest else
      probed ← attempt (probePinnedTLS (dc_Address candidate) (ps_PinnedSHA256 service));
      match probed with
      | None => dialCandidates service rest
      | Some _ =>
          connected ← attempt (dial service (dc_Address candidate));
          match connected with
          | Some _ => mret (dc_Address candidate)
          | None => dialCandidates service rest
          end
      end
  end.

Definition dialDirectCandidates (service : publishedService) : IO string :=
  dialCandidates service (ps_DirectCandidates service).

(** The loop over relays until one answers. *)
Fixpoint dialFirstRelay (p : profile) (relays : list discoveredNode) (targetNode service : string) : IO (option string) :=
  match relays with
  | [] => mret None
  | relay :: rest =>
      dialed ← attempt (dialRelay p relay targetNode service);
      match dialed with
      | Some _ => mret (Some (dn_ID relay))
      | None => dialFirstRelay p rest targetNode service
      end
  end.

(** ** Reverse connections *)

(** Expects a connection for a fresh request, asks the coordinator to offer
    it to the target, and waits for it; cancels the request when its time is
    up.  The expectation is gone afterwards, however it ends. *)
Definition awaitReverse (p : profile) (target service reason : string) : IO unit :=
  idempotency ← hostToken;
  modMemory (setWaiting (insert idempotency (target, service))) ;;
  request ← attempt (createConnectionRequest p target service (nd_ID (pf_Node p)) idempotency);
  arrived ← (match request with
             | None => mret false
             | Some request =>
                 came ← ask (λ i, reverseArrives i idempotency);
                 if (came : bool) then mret true
                 else _ ← attempt (decideConnectionRequest p (cr_ID request) "cancel" reason); mret false
             end);
  modMemory (setWaiting (delete idempotency)) ;;
  if (arrived : bool) then mret tt else failure.

Definition dialReverseService (p : profile) (target : discoveredNode) (service : publishedService) : IO unit :=
  refuse (cl_URL (pf_Coordinator p) =? "")%string ;;
  _ ← lift (cl_Credential (pf_Coordinator p));
  awaitReverse p (dn_ID target) (ps_Name service) "reverse service connection timed out".

(** ** The relay server *)

Definition sourceNode (path source : string) : IO (option (option discoveredNode)) :=
  nodes ← attempt (loadDiscovered path);
  mret (firstMatch (λ n, (dn_ID n =? source)%string) <$> nodes).

Definition isAuthorizedSubnodeRelay (p : profile) (path source : string) : IO bool :=
  found ← sourceNode path source;
  mret (match found with Some (Some n) => ownSubnode p n | _ => false end).

Definition acceptsSourceRoute (p : profile) (path source : string) : IO bool :=
  found ← sourceNode path source;
  mret (match found with Some (Some n) => negb (dn_Role n =? "subnode")%string || ownSubnode p n | _ => false end).

Definition acceptsCoordinatorTunnel (p : profile) (path : string) (hs : relayHandshake) : IO bool :=
  if negb (relayAdmissionTokenMatches (rl_AdmissionTokenHash (pf_Relay p)) (hs_RelayToken hs)) then mret false else
  found ← sourceNode path (hs_SourceNode hs);
  mret (match found with
        | None => false
        | Some None => true
        | Some (Some n) => ownSubnode p n
        end).

(** The fields a signed handshake must have. *)
Definition handshakeFields (p : profile) (hs : relayHandshake) : bool :=
  negb (negb (hs_Version hs =? relayHandshakeVersion) || negb (hs_Network hs =? pf_VirtualNetwork p)%string
        || (hs_SourceNode hs =? "")%string || negb (hs_RelayNode hs =? nd_ID (pf_Node p))%string
        || (hs_TargetNode hs =? "")%string || (hs_Service hs =? "")%string
        || (hs_Nonce hs =? "")%string || (hs_Signature hs =? "")%string).

Definition verify (p : profile) (path : string) (hs : relayHandshake) : IO bool :=
  if negb (handshakeFields p hs) then mret false else
  now ← ask hostClock;
  let sent := Time.Unix (hs_Timestamp hs) in
  if Time.Before sent (Time.Add now (- (2 * Time.minute))) || Time.After sent (Time.Add now (2 * Time.minute))
  then mret false else
  found ← sourceNode path (hs_SourceNode hs);
  match found with
  | None => mret false
  | Some node =>
      let publicText := match node with Some n => dn_IdentityKey n | None => "" end in
      match Base64.RawStdDecode publicText, Base64.RawStdDecode (hs_Signature hs) with
      | Some publicKey, Some signature =>
          if negb (String.length publicKey =? PublicKeySize)%nat then mret false
          else if negb (hostVerify publicKey (relayHandshakeMessage hs) signature) then mret false
          else
            memory ← getMemory;
            let '(fresh, nonces) := takeNonce now (hs_Nonce hs) (nm_nonces memory) in
            modMemory (setSeen (λ _, nonces)) ;;
            mret fresh
      | _, _ => mret false
      end
  end.

(** [handleCoordinatorTunnel] up to the bridging: [Tunnelled] keeps a slot,
    which [closeTunnel] gives back when the bridging is over; every other
    outcome has given it back. *)
Definition closeTunnel : IO unit := modMemory (setTunnels (λ n, n - 1)).

Definition openTunnel (p : profile) (path : string) (hs : relayHandshake) : IO relayOutcome :=
  accepted ← (if negb (hs_Version hs =? relayHandshakeVersion) || negb (hs_Network hs =? pf_VirtualNetwork p)%string
                 || negb (hs_RelayNode hs =? nd_ID (pf_Node p))%string || (hs_SourceNode hs =? "")%string
              then mret false
              else acceptsCoordinatorTunnel p path hs);
  if negb accepted || (cl_URL (pf_Coordinator p) =? "")%string then mret (Refused "coordinator_tunnel_unauthorized") else
  memory ← getMemory;
  if maxCoordinatorTunnels <=? nm_tunnels memory then mret (Refused "coordinator_tunnel_busy") else
  modMemory (setTunnels (λ n, n + 1)) ;;
  match parseURL (cl_URL (pf_Coordinator p)) with
  | None => closeTunnel ;; mret (Refused "coordinator_tunnel_unavailable")
  | Some url =>
      if (ur_Host url =? "")%string then closeTunnel ;; mret (Refused "coordinator_tunnel_unavailable") else
      connected ← ask (λ i, tcpDial i (ur_Host url));
      if negb connected then closeTunnel ;; mret (Refused "coordinator_unavailable") else
      written ← ask replyWritten;
      if negb written then closeTunnel ;; mret Vanished else mret Tunnelled
  end.

(** The branch for [reverse]: an expectation of this request, target and
    service is taken, and the connection offered to its waiter. *)
Definition handReverse (hs : relayHandshake) : IO relayOutcome :=
  memory ← getMemory;
  let expected := match nm_waiting memory !! hs_RequestID hs with
                  | Some (target, service) => (target =? hs_SourceNode hs)%string && (service =? hs_Service hs)%string
                  | None => false
                  end in
  (if (expected : bool) then modMemory (setWaiting (delete (hs_RequestID hs))) else mret tt) ;;
  if (hs_RequestID hs =? "")%string || negb expected then mret (Refused "reverse_unexpected") else
  taken ← ask (λ i, waiterTakes i (hs_RequestID hs));
  if negb taken then mret Vanished else
  written ← ask replyWritten;
  mret (if (written : bool) then HandedOver (hs_RequestID hs) else Vanished).

(** The path to a target in the relay's own segment, and across segments. *)
Definition reachLocal (p : profile) (target : discoveredNode) (service : publishedService) : IO relayTarget :=
  direct ← attempt (if (dn_ID target =? nd_ID (pf_Node p))%string then
                      local ← localPublishedService p (ps_Name service);
                      local ← lift local;
                      dialDirectCandidates local
                    else dialDirectCandidates service);
  match direct with
  | Some address => mret (ToCandidate address)
  | None => dialReverseService p target service ;; mret (ToReverse (dn_ID target))
  end.

Definition reachAcross (p : profile) (target : discoveredNode) (service : publishedService) (relays : list discoveredNode)
    (targetNode serviceName : string) : IO relayTarget :=
  via ← dialFirstRelay p (if (dn_Role target =? "relay")%string then [target] else relays) targetNode serviceName;
  match via with
  | Some relay => mret (ToRelay relay)
  | None =>
      direct ← attempt (dialDirectCandidates service);
      match direct with
      | Some address => mret (ToCandidate address)
      | None => dialReverseService p target service ;; mret (ToReverse (dn_ID target))
      end
  end.

Definition serveService (p : profile) (path : string) (hs : relayHandshake) : IO relayOutcome :=
  route ← attempt (resolveRoute p path (hs_TargetNode hs) (hs_Service hs));
  match route with
  | None => mret (Refused "target_service_missing")
  | Some (target, service, relays) =>
      allowed ← (if (ps_Segment service =? pf_Segment p)%string then mret true
                 else isAuthorizedSubnodeRelay p path (hs_SourceNode hs));
      if negb allowed then mret (Refused "cross_segment_denied") else
      reached ← attempt (if (ps_Segment service =? pf_Segment p)%string then reachLocal p target service
                         else reachAcross p target service relays (hs_TargetNode hs) (hs_Service hs));
      match reached with
      | None => mret (Refused "target_unavailable")
      | Some target =>
          written ← ask replyWritten;
          mret (if (written : bool) then Bridged target else Vanished)
      end
  end.

(** [handle]: [line] is the first line of the connection with its newline, if
    one arrived. *)
Definition handle (p : profile) (path : string) (line : option string) : IO relayOutcome :=
  match line with
  | None => mret (Refused "handshake_invalid")
  | Some line =>
      if relayHandshakeLimit <? Z.of_nat (String.length line) then mret (Refused "handshake_invalid") else
      match unmarshalHandshake line with
      | None => mret (Refused "handshake_invalid")
      | Some hs =>
          if (hs_Mode hs =? "coordinator")%string then openTunnel p path hs else
          verified ← verify p path hs;
          if negb verified then mret (Refused "source_unauthorized") else
          routed ← acceptsSourceRoute p path (hs_SourceNode hs);
          if negb routed then mret (Refused "source_route_denied") else
          if (hs_Mode hs =? "reverse")%string then handReverse hs
          else if negb (hs_Mode hs =? "service")%string then mret (Refused "mode_unsupported")
          else serveService p path hs
      end
  end.

(** ** The pull listener *)

Definition isCooling (endpoint : string) : IO bool :=
  memory ← getMemory;
  now ← ask hostClock;
  mret (Time.After (default Time.zero (nm_cooling memory !! endpoint)) now).

Definition markFailure (endpoint : string) : IO unit :=
  now ← ask hostClock;
  modMemory (setCooling (insert endpoint (Time.Add now relayFailureCooldown))).

Definition relayEndpoint (n : discoveredNode) : string :=
  match dn_Relay n with Some r => ra_Endpoint r | None => "" end.

(** The loop over the relays that are not cooling down. *)
Fixpoint pullRelays (current : profile) (relays : list discoveredNode) (targetNode service : string) : IO (option string) :=
  match relays with
  | [] => mret None
  | relay :: rest =>
      cooling ← isCooling (relayEndpoint relay);
      if (cooling : bool) then pullRelays current rest targetNode service else
      dialed ← attempt (dialRelay current relay targetNode service);
      match dialed with
      | Some _ => mret (Some (dn_ID relay))
      | None => markFailure (relayEndpoint relay) ;; pullRelays current rest targetNode service
      end
  end.

Definition tryReverse (current : profile) (target : discoveredNode) (service : publishedService) : IO bool :=
  if negb (pf_Role current =? "relay")%string || (rl_Endpoint (pf_Relay current) =? "")%string
     || (cl_URL (pf_Coordinator current) =? "")%string || bool_decide (cl_Credential (pf_Coordinator current) = None)
  then mret false
  else
    reached ← attempt (awaitReverse current (dn_ID target) (ps_Name service) "reverse connection timed out");
    mret (bool_decide (is_Some reached)).

Definition pullHandle (path : string) (m : mapping) : IO pullOutcome :=
  loaded ← attempt (loadProfile path);
  match loaded with
  | None => mret PullFailed
  | Some current =>
      route ← attempt (resolveRoute current path (mp_TargetNode m) (mp_Service m));
      match route with
      | None => mret PullFailed
      | Some (target, service, relays) =>
          if (pf_Role current =? "subnode")%string then
            let sub := pf_Subnode current in
            let upstream := mkDiscoveredNode (sn_RelayNodeID sub) "" "" "" "" "" []
              (Some (mkRelayAdvertisement (sn_RelayEndpoint sub) (sn_RelayPinnedSHA256 sub) 0)) "" Time.zero in
            dialed ← attempt (dialRelay current upstream (mp_TargetNode m) (mp_Service m));
            mret (match dialed with Some _ => PullUpstream | None => PullFailed end)
          else
            direct ← (if (pf_Segment current =? dn_Segment target)%string && negb (dn_Role target =? "subnode")%string
                      then attempt (dialDirectCandidates service) else mret None);
            match direct with
            | Some address => mret (PullDirect address)
            | None =>
                let candidates := routeRelayCandidates target relays in
                via ← pullRelays current candidates (mp_TargetNode m) (mp_Service m);
                match via with
                | Some relay => mret (PullRelay relay)
                | None =>
                    if negb (bool_decide (candidates = [])) && (dn_Role target =? "subnode")%string
                    then mret PullFailed
                    else
                      reversed ← tryReverse current target service;
                      mret (if (reversed : bool) then PullReverse else PullFailed)
                end
            end
      end
  end.
End Relay.
