(* ===== verification/Effects.v ===== *)
(** * What a computation leaves alone, and that it returns

    [along R m]: the host after [m] is related by [R] to the host before,
    whether [m] fails or not; [constant f m]: its part [f] is the same.
    [returns m]: [m] gives a result from every host.  The rules
    follow the syntax of the computations, so that the tactics [constancy] and
    [returning] prove most instances; the lemmas on the components' operations
    are collected in the hint databases of the same names. *)
From S2P Require Import Prelude GoStd GoNet GoPath GoCrypto Types Runtime Validate Profile Host.
From S2P Require Import Embedded NodeClient RelayProtocol Inbox.

Local Open Scope Z_scope.

Definition along {A} (R : relation host) (m : IO A) : Prop := ∀ h, R h (m h).2.
Definition same {X} (f : host → X) : relation host := λ h h', f h' = f h.
Notation constant f := (along (same f)).
Definition returns {A} (m : IO A) : Prop := ∀ h, ∃ a h', runs m h a h'.

Create HintDb constancy.
Create HintDb returning.

#[export] Instance same_preorder {X} (f : host → X) : PreOrder (same f).
Proof. split; [intros h; done|intros x y z Hxy Hyz; unfold same in *; congruence]. Qed.

Section Rules.
Context {A B : Type} (R : relation host) {pre : PreOrder R}.

Lemma along_bind (m : IO A) (k : A → IO B) : along R m → (∀ a, along R (k a)) → along R (m ≫= k).
Proof.
  intros Hm Hk h. unfold mbind, IO_bind. specialize (Hm h).
  destruct (m h) as [[a|] h1]; simpl in Hm |- *; [|done]. etransitivity; [exact Hm|apply Hk].
Qed.

Lemma along_attempt (m : IO A) : along R m → along R (attempt m).
Proof. intros Hm h. specialize (Hm h). unfold attempt. by destruct (m h). Qed.

Lemma along_ret (a : A) : along R (mret a).
Proof. intros h. simpl. reflexivity. Qed.
Lemma along_lift (o : option A) : along R (lift o).
Proof. intros h. simpl. reflexivity. Qed.
Lemma along_failure : along R (@failure A).
Proof. intros h. simpl. reflexivity. Qed.

Lemma along_runs (m : IO A) h a h' : along R m → runs m h a h' → R h h'.
Proof. intros Hm Hr. specialize (Hm h). unfold runs in Hr. by rewrite Hr in Hm. Qed.

(** A bind ends where its first part fails, or where the rest ends. *)
Lemma exec_bind (m : IO A) (k : A → IO B) h r h' :
  exec (m ≫= k) h = (r, h') →
  (r = None ∧ exec m h = (None, h')) ∨ ∃ a h1, runs m h a h1 ∧ exec (k a) h1 = (r, h').
Proof.
  unfold exec, runs, mbind, IO_bind. destruct (m h) as [[a|] h1]; [right; by eauto|].
  intros [= <- <-]. by left.
Qed.

Lemma along_exec (m : IO A) h r h' : along R m → exec m h = (r, h') → R h h'.
Proof. intros Hm Hr. specialize (Hm h). unfold exec in Hr. by rewrite Hr in Hm. Qed.

Lemma returns_bind (m : IO A) (k : A → IO B) : returns m → (∀ a, returns (k a)) → returns (m ≫= k).
Proof.
  intros Hm Hk h. destruct (Hm h) as (a & h1 & H1). destruct (Hk a h1) as (b & h2 & H2).
  exists b, h2. apply runs_bind. eauto.
Qed.

Lemma returns_attempt (m : IO A) : returns (attempt m).
Proof. intros h. unfold runs, attempt. destruct (m h) as [r h1]. by exists r, h1. Qed.

Lemma returns_ret (a : A) : returns (mret a).
Proof. intros h. by exists a, h. Qed.

Lemma returns_ask (source : nat → A) : returns (ask source).
Proof. intros h. by eexists _, _. Qed.
End Rules.

Lemma returns_getMemory : returns getMemory.
Proof. intros h. by eexists _, _. Qed.
Lemma returns_modMemory g : returns (modMemory g).
Proof. intros h. by eexists _, _. Qed.

(** One step along the syntax of a computation; [base] proves the leaves. *)
Ltac along_step base :=
  lazymatch goal with
  | |- ∀ _, _ => intros ?
  | |- along _ (mbind _ _) => apply along_bind; [typeclasses eauto| |]
  | |- along _ (attempt _) => apply along_attempt
  | |- along _ (mret _) => apply along_ret; typeclasses eauto
  | |- along _ (lift _) => apply along_lift; typeclasses eauto
  | |- along _ failure => apply along_failure; typeclasses eauto
  | |- along _ (if ?b then _ else _) => destruct b
  | |- along _ (match ?x with _ => _ end) => destruct x
  | |- along _ _ => base
  end.
Ltac constant_step :=
  along_step ltac:(first [solve [auto with constancy] | solve [intros ?; exact eq_refl]]).
Ltac constancy := repeat constant_step.

(** Every result satisfies [P]. *)
Definition yields {A} (P : A → Prop) (m : IO A) : Prop := ∀ h a h', runs m h a h' → P a.

Lemma yields_bind {A B} (P : B → Prop) (m : IO A) (k : A → IO B) : (∀ a, yields P (k a)) → yields P (m ≫= k).
Proof. intros Hk h b h' (a & h1 & _ & H)%runs_bind. by apply (Hk a h1 b h'). Qed.

Lemma yields_ret {A} (P : A → Prop) a : P a → yields P (mret a).
Proof. by intros HP h b h' [-> _]%runs_ret. Qed.

Ltac yields_step base :=
  lazymatch goal with
  | |- ∀ _, _ => intros ?
  | |- yields _ (mbind _ _) => apply yields_bind
  | |- yields _ (if ?b then _ else _) => destruct b
  | |- yields _ (match ?x with _ => _ end) => destruct x
  | |- yields _ (mret (if ?b then _ else _)) => destruct b
  | |- yields _ (mret _) => apply yields_ret; base
  end.

Ltac returns_step :=
  lazymatch goal with
  | |- ∀ _, _ => intros ?
  | |- returns (attempt _) => apply returns_attempt
  | |- returns (mbind _ _) => apply returns_bind
  | |- returns (mret _) => apply returns_ret
  | |- returns (ask _) => apply returns_ask
  | |- returns getMemory => apply returns_getMemory
  | |- returns (modMemory _) => apply returns_modMemory
  | |- returns (if ?b then _ else _) => destruct b
  | |- returns (match ?x with _ => _ end) => destruct x
  | |- returns _ => solve [auto with returning]
  end.
Ltac returning := repeat returns_step.

(** ** Reading, asking and sending leave the memory alone *)

Section Memory.
Context {unicode : Unicode} {hostEnv : HostEnv}.

Lemma constant_readFile path : constant h_memory (readFile path).
Proof. unfold readFile. constancy. Qed.
#[local] Hint Resolve constant_readFile : constancy.

Lemma constant_loadProfile path : constant h_memory (loadProfile path).
Proof. unfold loadProfile. constancy. Qed.

Lemma constant_loadDiscovered path : constant h_memory (loadDiscovered path).
Proof. unfold loadDiscovered. constancy. Qed.

Lemma constant_putFile path text : constant h_memory (putFile path text).
Proof. unfold putFile. constancy. Qed.
#[local] Hint Resolve constant_putFile : constancy.

Lemma constant_replaceFile path text : constant h_memory (replaceFile path text).
Proof. unfold replaceFile, rename. constancy. Qed.

Lemma constant_localDirectCandidates listen : constant h_memory (localDirectCandidates listen).
Proof. unfold localDirectCandidates. constancy. Qed.
#[local] Hint Resolve constant_localDirectCandidates : constancy.

Lemma constant_localServices p l : constant h_memory (localServices p l).
Proof. induction l as [|m l IH]; simpl; constancy; apply IH. Qed.
#[local] Hint Resolve constant_localServices : constancy.

Lemma constant_localDiscoveredNode p : constant h_memory (localDiscoveredNode p).
Proof. unfold localDiscoveredNode. constancy. Qed.

Lemma constant_hostToken : constant h_memory hostToken.
Proof. unfold hostToken, hostRandom. constancy. Qed.
#[local] Hint Resolve constant_hostToken : constancy.

Lemma constant_signedRequest p method endpoint body : constant h_memory (signedCoordinatorRequest p method endpoint body).
Proof. unfold signedCoordinatorRequest, signRequest, send. constancy. Qed.
#[local] Hint Resolve constant_signedRequest : constancy.

Lemma constant_createRequest p target service relay key : constant h_memory (createConnectionRequest p target service relay key).
Proof. unfold createConnectionRequest. constancy. Qed.

Lemma constant_decideRequest p id decision reason : constant h_memory (decideConnectionRequest p id decision reason).
Proof. unfold decideConnectionRequest. constancy. Qed.

Lemma constant_startMapping m : constant h_memory (startMapping m).
Proof. unfold startMapping, embeddedConfig, serverStream, fileText. constancy. Qed.

Lemma constant_probe endpoint pin : constant h_memory (probePinnedTLS endpoint pin).
Proof. unfold probePinnedTLS. constancy. Qed.

Lemma constant_localPublishedService p name : constant h_memory (localPublishedService p name).
Proof. unfold localPublishedService. pose proof constant_localDiscoveredNode. constancy. Qed.
End Memory.
#[export] Hint Resolve constant_readFile constant_loadProfile constant_loadDiscovered constant_putFile constant_replaceFile
  constant_localDiscoveredNode constant_hostToken constant_signedRequest constant_createRequest constant_decideRequest
  constant_probe constant_localPublishedService constant_startMapping : constancy.

(** A part of the memory is left alone when the whole memory is. *)
Lemma constant_part {A X} (g : memory → X) (m : IO A) : constant h_memory m → constant (λ h, g (h_memory h)) m.
Proof. intros H h. unfold same. by rewrite (H h : h_memory _ = h_memory _). Qed.

(** ** The clock of the host never goes back *)

Definition later : relation host := λ h h', (h_tick h ≤ h_tick h')%nat.
#[export] Instance later_preorder : PreOrder later.
Proof. unfold later. split; [intros h; lia|intros x y z; lia]. Qed.

Create HintDb later.
Ltac later_leaf := first [ solve [auto with later] | solve [intros ?; unfold later; cbn; lia] ].
Ltac lateness := repeat along_step ltac:(later_leaf).

Section Later.
Context {hostEnv : HostEnv}.

Lemma later_putFile path text : along later (putFile path text).
Proof. unfold putFile. lateness. Qed.
Lemma later_rename src dst : along later (rename src dst).
Proof. unfold rename. lateness. Qed.
#[local] Hint Resolve later_putFile later_rename : later.
Lemma later_replaceFile path text : along later (replaceFile path text).
Proof. unfold replaceFile. lateness. Qed.
#[local] Hint Resolve later_replaceFile : later.
Lemma later_saveProfile path p : along later (saveProfile path p).
Proof. unfold saveProfile. lateness. Qed.
Lemma sent_saveProfile path p : constant h_sent (saveProfile path p).
Proof. unfold saveProfile, replaceFile, rename, putFile. constancy. Qed.
Lemma later_localDirectCandidates listen : along later (localDirectCandidates listen).
Proof. unfold localDirectCandidates. lateness. Qed.
#[local] Hint Resolve later_localDirectCandidates : later.
Lemma later_localServices p l : along later (localServices p l).
Proof. induction l as [|m l IH]; simpl; lateness; apply IH. Qed.
#[local] Hint Resolve later_localServices : later.
Lemma later_localDiscoveredNode p : along later (localDiscoveredNode p).
Proof. unfold localDiscoveredNode. lateness. Qed.
End Later.
#[export] Hint Resolve later_saveProfile later_localDiscoveredNode : later.
