(* ===== verification/RelayRules.v ===== *)
(** * Rules of the relay's operations

    Which part of a relay's memory each operation leaves alone, that its
    handlers return, and the rules of the checks that [handle] makes. *)
From S2P Require Import Prelude GoStd GoNet GoPath GoCrypto Types Runtime Validate Wire Registry.
From S2P Require Import Auth Profile Host Embedded NodeClient NodeConfig RelayProtocol Inbox Relay Effects.

Local Open Scope Z_scope.

(** ** What dialing leaves alone *)

Section Parts.
Context {unicode : Unicode} {hostEnv : HostEnv}.
Context {X : Type} (g : memory → X).
Context (Hhand : ∀ f m, g (setHandshakes f m) = g m).
Context (Hwait : ∀ f m, g (setWaiting f m) = g m).
Context (Hconn : ∀ f m, g (setConnectors f m) = g m).

Let part (h : host) : X := g (h_memory h).

Local Ltac parts :=
  repeat first
    [ progress (unfold dialSignedRelay, dialRelay, dialReverseRelay, exchangeHandshake, recordHandshake, dial,
                      freeLoopbackAddress)
    | lazymatch goal with
      | |- along _ (modMemory (setHandshakes _)) => solve [intros ?; apply Hhand]
      | |- along _ (modMemory (setWaiting _)) => solve [intros ?; apply Hwait]
      | |- along _ (modMemory (setConnectors _)) => solve [intros ?; apply Hconn]
      | |- along _ (loadDiscovered _) => apply constant_part, constant_loadDiscovered
      | |- along _ (localDiscoveredNode _) => apply constant_part, constant_localDiscoveredNode
      | |- along _ (localPublishedService _ _) => apply constant_part, constant_localPublishedService
      | |- along _ hostToken => apply constant_part, constant_hostToken
      | |- along _ (createConnectionRequest _ _ _ _ _) => apply constant_part, constant_createRequest
      | |- along _ (decideConnectionRequest _ _ _ _) => apply constant_part, constant_decideRequest
      | |- along _ (probePinnedTLS _ _) => apply constant_part, constant_probe
      | |- along _ (startMapping _) => apply constant_part, constant_startMapping
      end
    | assumption
    | constant_step ].

Lemma part_dialSigned p relay mode target service request :
  constant part (dialSignedRelay p relay mode target service request).
Proof. parts. Qed.

Lemma part_dialCandidates service l : constant part (dialCandidates service l).
Proof. induction l; simpl; parts. Qed.

Lemma part_dialFirst p relays target service : constant part (dialFirstRelay p relays target service).
Proof. induction relays; simpl; parts. Qed.

Lemma part_awaitReverse p target service reason : constant part (awaitReverse p target service reason).
Proof. unfold awaitReverse. parts. Qed.

Lemma part_dialReverse p target service : constant part (dialReverseService p target service).
Proof. unfold dialReverseService. pose proof part_awaitReverse. parts. Qed.

Lemma part_resolve p path target service : constant part (resolveRoute p path target service).
Proof. unfold resolveRoute. parts. Qed.

Lemma part_sourceNode path source : constant part (sourceNode path source).
Proof. unfold sourceNode. parts. Qed.

Lemma part_handReverse hs : constant part (handReverse hs).
Proof. unfold handReverse. parts. Qed.

Lemma part_serve p path hs : constant part (serveService p path hs).
Proof.
  pose proof part_dialCandidates. pose proof part_dialFirst. pose proof part_dialReverse. pose proof part_resolve.
  pose proof part_sourceNode.
  unfold serveService, reachLocal, reachAcross, dialDirectCandidates, isAuthorizedSubnodeRelay.
  repeat first [constant_step | match goal with H : _ |- _ => apply H end | parts].
Qed.

(** The check of a handshake changes the seen nonces only. *)
Lemma part_verify (Hseen : ∀ f m, g (setSeen f m) = g m) p path hs : constant part (verify p path hs).
Proof.
  pose proof part_sourceNode. unfold verify.
  repeat first [match goal with H : _ |- along _ _ => solve [apply H] end | constant_step
    | solve [intros ?; apply Hseen]].
Qed.
End Parts.

(** ** The handlers return *)

Section Returns.
Context {unicode : Unicode} {hostEnv : HostEnv}.

Lemma returns_sourceNode path source : returns (sourceNode path source).
Proof. unfold sourceNode. returning. Qed.
#[local] Hint Resolve returns_sourceNode : returning.

Lemma returns_verify p path hs : returns (verify p path hs).
Proof. unfold verify. returning. Qed.
#[local] Hint Resolve returns_verify : returning.

Lemma returns_handle p path line : returns (handle p path line).
Proof.
  unfold handle, openTunnel, acceptsCoordinatorTunnel, closeTunnel, acceptsSourceRoute, handReverse, serveService,
    isAuthorizedSubnodeRelay.
  returning.
Qed.
End Returns.

(** ** The clock moves on, and the files stay *)

Definition later : relation host := λ h h', (h_tick h ≤ h_tick h')%nat.
#[export] Instance later_preorder : PreOrder later.
Proof. unfold later. split; intros ?; intros; lia. Qed.
Definition onward : relation host := λ h h', later h h' ∧ h_files h' = h_files h.
#[export] Instance onward_preorder : PreOrder onward.
Proof. split; [by split|]. intros x y z [? ?] [? ?]. split; [by etransitivity|congruence]. Qed.

Section Onward.
Context {unicode : Unicode} {hostEnv : HostEnv}.

Local Ltac moves :=
  repeat first
    [ assumption
    | progress (unfold dialSignedRelay, dialRelay, dialReverseRelay, exchangeHandshake, recordHandshake, probePinnedTLS,
                loadDiscovered, readFile, localDiscoveredNode, localPublishedService, hostToken, hostRandom,
                createConnectionRequest, decideConnectionRequest, signedCoordinatorRequest, signRequest, send,
                resolveRoute, dialDirectCandidates, awaitReverse, dialReverseService, sourceNode, localDirectCandidates,
                dial, freeLoopbackAddress, startMapping, embeddedConfig, serverStream, fileText)
    | match goal with H : _ |- along onward _ => solve [apply H] end
    | along_step ltac:(solve [intros ?; split; [unfold later; simpl; lia|exact eq_refl]]) ].

Lemma onward_services p l : along onward (localServices p l).
Proof. induction l; simpl; moves. Qed.

Lemma onward_dialCandidates service l : along onward (dialCandidates service l).
Proof. induction l; simpl; moves. Qed.

Lemma onward_dialFirst p relays target service : along onward (dialFirstRelay p relays target service).
Proof. induction relays; simpl; moves. Qed.

Lemma onward_handle p path line : along onward (handle p path line).
Proof.
  pose proof onward_services. pose proof onward_dialCandidates. pose proof onward_dialFirst.
  unfold handle, openTunnel, acceptsCoordinatorTunnel, closeTunnel, verify, acceptsSourceRoute, handReverse,
    serveService, reachLocal, reachAcross, isAuthorizedSubnodeRelay.
  moves.
Qed.

Lemma later_handle p path line : along later (handle p path line).
Proof. intros h. apply (onward_handle p path line h). Qed.

Lemma later_verify p path hs : along later (verify p path hs).
Proof.
  unfold verify, sourceNode, loadDiscovered, readFile.
  repeat along_step ltac:(solve [intros ?; unfold later; simpl; lia]).
Qed.

Lemma onward_resolve p path target service : along onward (resolveRoute p path target service).
Proof. pose proof onward_services. moves. Qed.

Lemma onward_candidates service : along onward (dialDirectCandidates service).
Proof. apply onward_dialCandidates. Qed.

(** The direct way of [reachLocal]. *)
Lemma onward_direct p target service :
  along onward (if (dn_ID target =? nd_ID (pf_Node p))%string then
                  local ← localPublishedService p (ps_Name service); local ← lift local; dialDirectCandidates local
                else dialDirectCandidates service).
Proof. pose proof onward_services. pose proof onward_dialCandidates. moves. Qed.

Lemma onward_loadProfile path : along onward (loadProfile path).
Proof. unfold loadProfile. moves. Qed.
End Onward.

(** ** Nonces *)

Lemma takeNonce_live now nonce m e :
  m !! nonce = Some e → now < e → (takeNonce now nonce m).1 = false ∧ (takeNonce now nonce m).2 !! nonce = Some e.
Proof.
  intros He Hlt. unfold takeNonce, Time.Before, Time.After. set (kept := filter _ m).
  assert (kept !! nonce = Some e) as Hk.
  { apply map_lookup_filter_Some. split; [done|]. simpl. apply Z.ltb_ge. lia. }
  rewrite Hk. simpl. by rewrite (proj2 (Z.ltb_lt _ _) Hlt).
Qed.

Lemma takeNonce_taken now nonce m :
  (takeNonce now nonce m).1 = true → (takeNonce now nonce m).2 !! nonce = Some (now + 2 * Time.minute).
Proof.
  unfold takeNonce. destruct (Time.After _ now); simpl; [done|]. intros _. by rewrite lookup_insert_eq.
Qed.

Lemma takeNonce_other now nonce m n e :
  n ≠ nonce → m !! n = Some e → now ≤ e → (takeNonce now nonce m).2 !! n = Some e.
Proof.
  intros Hne He Hle. unfold takeNonce, Time.Before. set (kept := filter _ m).
  assert (kept !! n = Some e) as Hk.
  { apply map_lookup_filter_Some. split; [done|]. simpl. apply Z.ltb_ge. lia. }
  destruct (Time.After _ now); simpl; [done|]. by rewrite lookup_insert_ne.
Qed.

Lemma takeNonce_fresh now nonce m :
  Time.zero ≤ now → (∀ e, m !! nonce = Some e → e ≤ now) → (takeNonce now nonce m).1 = true.
Proof.
  intros Hz Hm. unfold takeNonce, Time.Before, Time.After. set (kept := filter _ m).
  replace (now <? default Time.zero (kept !! nonce)) with false; [done|].
  symmetry. apply Z.ltb_ge. destruct (kept !! nonce) as [e|] eqn:Hk; [|done].
  apply map_lookup_filter_Some in Hk as [Hk _]. by apply Hm.
Qed.

(** ** Rules *)

(** What the file of peers holds. *)
Definition knownPeers {hostEnv : HostEnv} (files : gmap string string) (path : string) : option (list discoveredNode) :=
  match files !! peersFile path with
  | None => Some []
  | Some text => unmarshalNodes text
  end.

(** The peers that a computation of the host reads now, if it can. *)
Definition peersNow {hostEnv : HostEnv} (path : string) (h : host) : option (list discoveredNode) :=
  if readFails (h_tick h) (peersFile path) then None else knownPeers (h_files h) path.

Definition findPeer (nodes : list discoveredNode) (source : string) : option discoveredNode :=
  firstMatch (λ n, (dn_ID n =? source)%string) nodes.

Section Rules.
Context {unicode : Unicode} {hostEnv : HostEnv}.

Lemma exec_loadDiscovered path h : loadDiscovered path h = (peersNow path h, tickHost h).
Proof.
  unfold loadDiscovered, readFile, peersNow, knownPeers, mbind, IO_bind, ask, getFiles, mret, IO_ret, tickHost. simpl.
  destruct (readFails _ _); [done|]. by destruct (h_files h !! peersFile path).
Qed.

Lemma peersNow_known path h nodes : peersNow path h = Some nodes → knownPeers (h_files h) path = Some nodes.
Proof. unfold peersNow. by destruct (readFails _ _). Qed.

Lemma runs_sourceNode path source found h h' :
  runs (sourceNode path source) h found h' ↔
  h' = tickHost h ∧ found = (λ nodes, findPeer nodes source) <$> peersNow path h.
Proof.
  unfold sourceNode. rewrite runs_bind. split.
  - intros (nodes & h1 & H1 & H2). apply runs_attempt in H1. rewrite exec_loadDiscovered in H1.
    injection H1 as <- <-. apply runs_ret in H2 as [-> ->]. done.
  - intros [-> ->]. eexists (peersNow path h), _. split.
    + unfold runs, attempt. by rewrite exec_loadDiscovered.
    + by apply runs_ret.
Qed.

(** The peer a handshake names, with the key it is verified with, when the
    signature is right. *)
Definition signedByPeer (nodes : list discoveredNode) (hs : relayHandshake) : Prop :=
  ∃ n key signature, findPeer nodes (hs_SourceNode hs) = Some n
    ∧ Base64.RawStdDecode (dn_IdentityKey n) = Some key ∧ String.length key = PublicKeySize
    ∧ Base64.RawStdDecode (hs_Signature hs) = Some signature
    ∧ hostVerify key (relayHandshakeMessage hs) signature = true.

(** Everything [verify] asks for except a fresh nonce. *)
Definition authentic (p : profile) (path : string) (hs : relayHandshake) (h : host) : Prop :=
  let now := hostClock (h_tick h) in
  handshakeFields p hs = true
  ∧ now - 2 * Time.minute ≤ Time.Unix (hs_Timestamp hs) ≤ now + 2 * Time.minute
  ∧ ∃ nodes, peersNow path (tickHost h) = Some nodes ∧ signedByPeer nodes hs.

Lemma window_spec sent now :
  Time.Before sent (Time.Add now (- (2 * Time.minute))) || Time.After sent (Time.Add now (2 * Time.minute)) = false
  ↔ now - 2 * Time.minute ≤ sent ≤ now + 2 * Time.minute.
Proof. unfold Time.Before, Time.After, Time.Add. rewrite orb_false_iff, !Z.ltb_ge. lia. Qed.

(** The rule of [verify]: an authentic handshake takes its nonce, any other is
    refused without a trace in the memory. *)
Lemma runs_verify p path hs b h h' :
  runs (verify p path hs) h b h' →
  h_files h' = h_files h
  ∧ ((authentic p path hs h ∧ (b, nm_nonces (h_memory h')) = takeNonce (hostClock (h_tick h)) (hs_Nonce hs) (nm_nonces (h_memory h)))
     ∨ (¬ authentic p path hs h ∧ b = false ∧ h_memory h' = h_memory h)).
Proof.
  unfold verify. destruct (handshakeFields p hs) eqn:Hfields; cbn [negb]; intros H.
  2:{ io_inv. split; [done|]. right. split; [|done]. intros (? & _). congruence. }
  io_bind (now & h1 & Hn & H). apply runs_ask in Hn as [-> ->].
  match type of H with runs (if ?c then _ else _) _ _ _ => destruct c eqn:Hwin end.
  { io_inv. split; [done|]. right. split; [|done]. intros (_ & Hw & _). apply window_spec in Hw. congruence. }
  apply window_spec in Hwin.
  io_bind (found & h2 & Hf & H). apply runs_sourceNode in Hf as [-> ->].
  assert (∀ P, peersNow path (tickHost h) = None ∨ (∃ nodes, peersNow path (tickHost h) = Some nodes ∧ ¬ signedByPeer nodes hs) →
    b = false ∧ h_memory h' = h_memory h ∧ h_files h' = h_files h →
    h_files h' = h_files h ∧ (P ∨ (¬ authentic p path hs h ∧ b = false ∧ h_memory h' = h_memory h))) as Hno.
  { intros P Hbad (-> & Hm & Hfl). split; [done|]. right. split; [|done]. intros (_ & _ & nodes & Hp & Hs).
    destruct Hbad as [He|(nodes' & He & Hns)]; [congruence|]. rewrite He in Hp. injection Hp as ->. by apply Hns. }
  destruct (peersNow path (tickHost h)) as [nodes|] eqn:Hpeers; cbn [fmap option_fmap option_map] in H.
  2:{ io_inv. apply Hno; [by left|done]. }
  destruct (findPeer nodes (hs_SourceNode hs)) as [n|] eqn:Hfind; cbv beta iota zeta in H.
  2:{ change (Base64.RawStdDecode "") with (Some "") in H; destruct (Base64.RawStdDecode (hs_Signature hs)); cbn [String.length PublicKeySize Nat.eqb negb] in H; io_inv; (apply Hno; [|done]); right; exists nodes;
      (split; [done|]); intros (? & ? & ? & ? & _); congruence. }
  destruct (Base64.RawStdDecode (dn_IdentityKey n)) as [key|] eqn:Hkey.
  2:{ io_inv. apply Hno; [|done]. right. exists nodes. split; [done|]. intros (? & ? & ? & ? & ? & _). congruence. }
  destruct (Base64.RawStdDecode (hs_Signature hs)) as [signature|] eqn:Hsig.
  2:{ io_inv. apply Hno; [|done]. right. exists nodes. split; [done|]. intros (? & ? & ? & ? & ? & ? & ? & _). congruence. }
  destruct (String.length key =? PublicKeySize)%nat eqn:Hlen; cbn [negb] in H.
  2:{ io_inv. apply Hno; [|done]. right. exists nodes. split; [done|]. intros (? & ? & ? & E1 & E2 & E3 & _).
      apply Nat.eqb_neq in Hlen. rewrite Hfind in E1. injection E1 as <-. rewrite Hkey in E2. injection E2 as <-. done. }
  destruct (hostVerify key (relayHandshakeMessage hs) signature) eqn:Hver; cbn [negb] in H.
  2:{ io_inv. apply Hno; [|done]. right. exists nodes. split; [done|]. intros (? & ? & ? & E1 & E2 & _ & E3 & E4).
      rewrite Hfind in E1. injection E1 as <-. rewrite Hkey in E2. injection E2 as <-.
      rewrite Hsig in E3. injection E3 as <-. congruence. }
  io_bind (memory & h3 & Hm & H). apply runs_memory in Hm as [-> ->].
  destruct (takeNonce _ _ _) as [fresh nonces] eqn:Htake. io_inv. split; [done|]. left. split; [|done].
  split; [done|]. split; [done|]. exists nodes. split; [done|]. apply Nat.eqb_eq in Hlen. by exists n, key, signature.
Qed.

Lemma verify_spec p path hs h (Hclock : Time.zero ≤ hostClock (h_tick h)) :
  ∃ b h', runs (verify p path hs) h b h'
    ∧ (b = true ↔ authentic p path hs h
         ∧ ∀ e, nm_nonces (h_memory h) !! hs_Nonce hs = Some e → e ≤ hostClock (h_tick h))
    ∧ h_files h' = h_files h
    ∧ (b = true → nm_nonces (h_memory h') !! hs_Nonce hs = Some (hostClock (h_tick h) + 2 * Time.minute))
    ∧ (¬ authentic p path hs h → h_memory h' = h_memory h).
Proof.
  destruct (returns_verify p path hs h) as (b & h' & Hrun). exists b, h'. split; [done|].
  apply runs_verify in Hrun as [Hf [[Ha Htake]|(Hn & -> & Hm)]].
  2:{ split_and!; [|done|done|done]. split; [done|]. by intros [? _]. }
  set (now := hostClock (h_tick h)) in *. pose proof (takeNonce_live now (hs_Nonce hs) (nm_nonces (h_memory h))) as Hlive.
  pose proof (takeNonce_taken now (hs_Nonce hs) (nm_nonces (h_memory h))) as Htaken.
  pose proof (takeNonce_fresh now (hs_Nonce hs) (nm_nonces (h_memory h)) Hclock) as Hfresh.
  rewrite <- Htake in Hlive, Htaken, Hfresh. simpl in *. split_and!; [|done|done|done].
  split; [|by intros [_ ?]; apply Hfresh]. intros ->. split; [done|]. intros e He.
  destruct (Z.le_gt_cases e now) as [|Hgt]; [done|]. by destruct (Hlive e He Hgt).
Qed.

(** The source of an authenticated handshake may be routed. *)
Lemma runs_acceptsSourceRoute p path source b h h' :
  runs (acceptsSourceRoute p path source) h b h' →
  h' = tickHost h
  ∧ (b = true → ∃ nodes n, knownPeers (h_files h) path = Some nodes ∧ findPeer nodes source = Some n
       ∧ (dn_Role n = "subnode" → ownSubnode p n = true)).
Proof.
  unfold acceptsSourceRoute. intros H. io_bind (found & h1 & Hf & H). apply runs_sourceNode in Hf as [-> ->].
  apply runs_ret in H as [-> ->]. split; [done|]. destruct (peersNow path h) as [nodes|] eqn:Hp; cbn [fmap option_fmap option_map]; [|done].
  destruct (findPeer nodes source) as [n|] eqn:Hn; [|done]. intros Hb. exists nodes, n. split_and!; [by apply peersNow_known|done|].
  intros Hsub. rewrite Hsub, String.eqb_refl in Hb. exact Hb.
Qed.

Lemma runs_isAuthorized p path source b h h' :
  runs (isAuthorizedSubnodeRelay p path source) h b h' →
  h' = tickHost h
  ∧ (b = true → ∃ nodes n, knownPeers (h_files h) path = Some nodes ∧ findPeer nodes source = Some n ∧ ownSubnode p n = true).
Proof.
  unfold isAuthorizedSubnodeRelay. intros H. io_bind (found & h1 & Hf & H). apply runs_sourceNode in Hf as [-> ->].
  apply runs_ret in H as [-> ->]. split; [done|]. destruct (peersNow path h) as [nodes|] eqn:Hp; cbn [fmap option_fmap option_map]; [|done].
  apply peersNow_known in Hp. destruct (findPeer nodes source) as [n|] eqn:Hn; [|done]. intros Hb. by exists nodes, n.
Qed.

(** The ways through [handle]. *)
Inductive handled (p : profile) (path : string) (hs : relayHandshake) (h : host) (o : relayOutcome) (h' : host) : Prop :=
  | handled_tunnel : hs_Mode hs = "coordinator" → runs (openTunnel p path hs) h o h' → handled p path hs h o h'
  | handled_stranger : hs_Mode hs ≠ "coordinator" → runs (verify p path hs) h false h' →
      o = Refused "source_unauthorized" → handled p path hs h o h'
  | handled_denied h1 : hs_Mode hs ≠ "coordinator" → runs (verify p path hs) h true h1 →
      runs (acceptsSourceRoute p path (hs_SourceNode hs)) h1 false h' →
      o = Refused "source_route_denied" → handled p path hs h o h'
  | handled_known h1 h2 : hs_Mode hs ≠ "coordinator" → runs (verify p path hs) h true h1 →
      runs (acceptsSourceRoute p path (hs_SourceNode hs)) h1 true h2 →
      (hs_Mode hs = "reverse" ∧ runs (handReverse hs) h2 o h'
       ∨ hs_Mode hs = "service" ∧ runs (serveService p path hs) h2 o h'
       ∨ o = Refused "mode_unsupported" ∧ h' = h2) → handled p path hs h o h'.

Lemma runs_handle p path line o h h' :
  runs (handle p path line) h o h' →
  (o = Refused "handshake_invalid" ∧ h' = h)
  ∨ ∃ text hs, line = Some text ∧ Z.of_nat (String.length text) ≤ relayHandshakeLimit
      ∧ unmarshalHandshake text = Some hs ∧ handled p path hs h o h'.
Proof.
  unfold handle. intros H. destruct line as [text|]; [|apply runs_ret in H as [-> ->]; by left].
  destruct (relayHandshakeLimit <? Z.of_nat (String.length text)) eqn:Hlen; [apply runs_ret in H as [-> ->]; by left|].
  destruct (unmarshalHandshake text) as [hs|] eqn:Hhs; [|apply runs_ret in H as [-> ->]; by left].
  right. exists text, hs. apply Z.ltb_ge in Hlen. split_and!; [done..|].
  destruct (String.eqb_spec (hs_Mode hs) "coordinator") as [Hm|Hm]; [by apply handled_tunnel|].
  io_bind (verified & h1 & Hv & H). destruct verified; cbn [negb] in H.
  2:{ apply runs_ret in H as [-> ->]. by apply handled_stranger. }
  io_bind (routed & h2 & Hr & H). destruct routed; cbn [negb] in H.
  2:{ apply runs_ret in H as [-> ->]. by eapply handled_denied. }
  eapply handled_known; [done..|]. destruct (String.eqb_spec (hs_Mode hs) "reverse"); [by left|].
  destruct (String.eqb_spec (hs_Mode hs) "service"); cbn [negb] in H; [by right; left|].
  apply runs_ret in H as [-> ->]. by right; right.
Qed.

(** What [handle] does to the nonces: at most one is taken, with the clock
    read at the start. *)
Lemma openTunnel_nonces p path hs : constant (λ h, nm_nonces (h_memory h)) (openTunnel p path hs).
Proof.
  pose proof (part_sourceNode nm_nonces).
  unfold openTunnel, acceptsCoordinatorTunnel, closeTunnel.
  repeat first [match goal with H : _ |- along _ _ => solve [apply H] end | constant_step].
Qed.

Lemma handle_nonces p path line o h h' :
  runs (handle p path line) h o h' →
  nm_nonces (h_memory h') = nm_nonces (h_memory h)
  ∨ ∃ hs, authentic p path hs h
      ∧ nm_nonces (h_memory h') = (takeNonce (hostClock (h_tick h)) (hs_Nonce hs) (nm_nonces (h_memory h))).2.
Proof.
  assert (∀ (o : relayOutcome) m g g', along (same (λ h, nm_nonces (h_memory h))) m → runs m g o g' →
    nm_nonces (h_memory g') = nm_nonces (h_memory g)) as Hsame.
  { intros x m g g' Hm Hr. exact (along_runs _ _ _ _ _ Hm Hr). }
  assert (∀ hs v h1, runs (verify p path hs) h v h1 → nm_nonces (h_memory h1) = nm_nonces (h_memory h)
    ∨ authentic p path hs h
      ∧ nm_nonces (h_memory h1) = (takeNonce (hostClock (h_tick h)) (hs_Nonce hs) (nm_nonces (h_memory h))).2) as Hverify.
  { intros hs v h1 Hv. apply runs_verify in Hv as [_ [[Ha He]|(_ & _ & ->)]]; [|by left].
    right. split; [done|]. by rewrite <- He. }
  intros H. apply runs_handle in H as [[_ ->]|(text & hs & _ & _ & _ & H)]; [by left|].
  destruct H as [_ H|_ H _|h1 _ H Ha _|h1 h2 _ H Ha Hrest].
  - left. by apply (Hsame o _ _ _ (openTunnel_nonces p path hs)).
  - destruct (Hverify _ _ _ H); [by left|by right; exists hs].
  - apply runs_acceptsSourceRoute in Ha as [-> _]. simpl.
    destruct (Hverify _ _ _ H); [by left|by right; exists hs].
  - apply runs_acceptsSourceRoute in Ha as [-> _].
    assert (nm_nonces (h_memory h') = nm_nonces (h_memory h1)) as ->.
    { destruct Hrest as [[_ Hr]|[[_ Hr]|[_ ->]]]; [| |done].
      - exact (Hsame o _ _ _ (part_handReverse nm_nonces (λ _ _, eq_refl) hs) Hr).
      - exact (Hsame o _ _ _ (part_serve nm_nonces (λ _ _, eq_refl) (λ _ _, eq_refl) (λ _ _, eq_refl) p path hs) Hr). }
    destruct (Hverify _ _ _ H); [by left|by right; exists hs].
Qed.
(** *** Tunnels *)

Lemma runs_acceptsCoordinatorTunnel p path hs b h h' :
  runs (acceptsCoordinatorTunnel p path hs) h b h' →
  h_memory h' = h_memory h
  ∧ (b = true → relayAdmissionTokenMatches (rl_AdmissionTokenHash (pf_Relay p)) (hs_RelayToken hs) = true
       ∧ ∃ nodes, peersNow path h = Some nodes
           ∧ ∀ n, findPeer nodes (hs_SourceNode hs) = Some n → ownSubnode p n = true).
Proof.
  unfold acceptsCoordinatorTunnel. intros H. destruct (relayAdmissionTokenMatches _ _); cbn [negb] in H.
  2:{ apply runs_ret in H as [-> ->]. done. }
  io_bind (found & h1 & Hf & H). apply runs_sourceNode in Hf as [-> ->]. apply runs_ret in H as [-> ->].
  split; [done|]. destruct (peersNow path h) as [nodes|]; cbn [fmap option_fmap option_map]; [|done].
  intros Hb. split; [done|]. exists nodes. split; [done|]. intros n Hn. by rewrite Hn in Hb.
Qed.

(** The conditions on which a coordinator tunnel is opened. *)
Definition tunnelAdmitted (p : profile) (path : string) (hs : relayHandshake) (h : host) : Prop :=
  hs_Version hs = relayHandshakeVersion ∧ hs_Network hs = pf_VirtualNetwork p
  ∧ hs_RelayNode hs = nd_ID (pf_Node p) ∧ hs_SourceNode hs ≠ ""
  ∧ relayAdmissionTokenMatches (rl_AdmissionTokenHash (pf_Relay p)) (hs_RelayToken hs) = true
  ∧ cl_URL (pf_Coordinator p) ≠ ""
  ∧ ∃ nodes, peersNow path h = Some nodes
      ∧ ∀ n, findPeer nodes (hs_SourceNode hs) = Some n → ownSubnode p n = true.

Lemma runs_openTunnel p path hs o h h' :
  runs (openTunnel p path hs) h o h' →
  match o with
  | Tunnelled => tunnelAdmitted p path hs h ∧ nm_tunnels (h_memory h) < maxCoordinatorTunnels
      ∧ nm_tunnels (h_memory h') = nm_tunnels (h_memory h) + 1
  | Refused _ | Vanished => nm_tunnels (h_memory h') = nm_tunnels (h_memory h)
  | _ => False
  end.
Proof.
  unfold openTunnel. intros H. io_bind (accepted & h1 & Ha & H).
  assert (h_memory h1 = h_memory h
    ∧ (accepted = true → cl_URL (pf_Coordinator p) ≠ "" → tunnelAdmitted p path hs h)) as [Hm Hadm].
  { destruct (_ || _) eqn:Hbad; [by apply runs_ret in Ha as [-> ->]|].
    bool_simpl. apply runs_acceptsCoordinatorTunnel in Ha as [Hm Ha]. split; [done|]. intros Hb Hu.
    destruct (Ha Hb) as [Ht Hn]. by split_and!. }
  destruct (negb accepted || _) eqn:Hno; [apply runs_ret in H as [-> ->]; by rewrite Hm|].
  bool_simpl. io_bind (memory & h2 & Hmem & H). apply runs_memory in Hmem as [-> ->].
  destruct (maxCoordinatorTunnels <=? _) eqn:Hbusy; [apply runs_ret in H as [-> ->]; by rewrite Hm|].
  apply Z.leb_gt in Hbusy. io_bind (u & h3 & Hmod & H). apply runs_modMemory in Hmod. subst h3.
  assert (∀ h4, h_memory h4 = setTunnels (λ n, n + 1) (h_memory h1) →
    ∀ out, runs (closeTunnel ;; mret out) h4 o h' → o = out ∧ nm_tunnels (h_memory h') = nm_tunnels (h_memory h)) as Hclose.
  { intros h4 H4 out Hr. unfold closeTunnel in Hr. io_bind (v & h5 & Hmod & Hr). apply runs_modMemory in Hmod as ->.
    apply runs_ret in Hr as [-> ->]. split; [done|]. simpl. rewrite H4. simpl. rewrite Hm. lia. }
  destruct (parseURL _) as [url|]; [|by apply Hclose in H as [-> ?]].
  destruct (ur_Host url =? "")%string; [by apply Hclose in H as [-> ?]|].
  io_bind (connected & h4 & Hc & H). apply runs_ask in Hc as [_ ->].
  destruct connected; cbn [negb] in H; [|by apply Hclose in H as [-> ?]].
  io_bind (written & h5 & Hw & H). apply runs_ask in Hw as [_ ->].
  destruct written; cbn [negb] in H; [|by apply Hclose in H as [-> ?]].
  apply runs_ret in H as [-> ->]. simpl. rewrite <- Hm. split_and!; [by apply Hadm|done|done].
Qed.

(** *** Reverse connections *)

Lemma runs_handReverse hs o h h' :
  runs (handReverse hs) h o h' →
  let expected := nm_waiting (h_memory h) !! hs_RequestID hs = Some (hs_SourceNode hs, hs_Service hs) in
  match o with
  | HandedOver request => request = hs_RequestID hs ∧ request ≠ "" ∧ expected
      ∧ nm_waiting (h_memory h') = delete request (nm_waiting (h_memory h))
  | Refused _ => (hs_RequestID hs = "" ∨ ¬ expected)
      ∧ (¬ expected → nm_waiting (h_memory h') = nm_waiting (h_memory h))
  | Vanished => expected ∧ nm_waiting (h_memory h') = delete (hs_RequestID hs) (nm_waiting (h_memory h))
  | _ => False
  end.
Proof.
  unfold handReverse. intros H. cbv zeta. io_bind (memory & h1 & Hm & H). apply runs_memory in Hm as [-> ->].
  set (expected := match _ !! _ with Some _ => _ | None => _ end) in H.
  assert (expected = true ↔ nm_waiting (h_memory h) !! hs_RequestID hs = Some (hs_SourceNode hs, hs_Service hs)) as Hexp.
  { unfold expected. destruct (_ !! _) as [[t s]|]; [|done]. rewrite andb_true_iff, !String.eqb_eq.
    split; [by intros [-> ->]|by intros [= -> ->]]. }
  clearbody expected. io_bind (u & h2 & Hmod & H).
  assert (nm_waiting (h_memory h2) = if expected then delete (hs_RequestID hs) (nm_waiting (h_memory h))
                                     else nm_waiting (h_memory h)) as Hw.
  { destruct expected; [by apply runs_modMemory in Hmod as ->|by apply runs_ret in Hmod as [_ ->]]. }
  destruct (_ || _) eqn:Hno.
  - apply runs_ret in H as [-> ->]. split.
    + apply orb_true_iff in Hno as [He%String.eqb_eq|Hn]; [by left|right]. rewrite <- Hexp. by destruct expected.
    + rewrite <- Hexp. by destruct expected.
  - bool_simpl. io_bind (taken & h3 & Ht & H). apply runs_ask in Ht as [_ ->].
    destruct taken; cbn [negb] in H; [|apply runs_ret in H as [-> ->]; split; [by apply Hexp|by subst expected]].
    io_bind (written & h4 & Hwr & H). apply runs_ask in Hwr as [_ ->]. apply runs_ret in H as [-> ->].
    subst expected. pose proof (proj1 Hexp eq_refl). by destruct written.
Qed.
(** *** Services *)

(** In the course of what starts at [h], [m] is run and gives [a]; or fails. *)
Definition occurs {A} (m : IO A) (a : A) (h : host) : Prop := ∃ g g', onward h g ∧ runs m g a g'.
Definition fails {A} (m : IO A) (h : host) : Prop := ∃ g g', onward h g ∧ exec m g = (None, g').

Lemma occurs_now {A} (m : IO A) a h h' : runs m h a h' → occurs m a h.
Proof. by exists h, h'. Qed.
Lemma occurs_since {A} (m : IO A) a h g : onward h g → occurs m a g → occurs m a h.
Proof. intros Hg (g1 & g2 & H & ?). exists g1, g2. split; [by etransitivity|done]. Qed.
Lemma fails_since {A} (m : IO A) h g : onward h g → fails m g → fails m h.
Proof. intros Hg (g1 & g2 & H & ?). exists g1, g2. split; [by etransitivity|done]. Qed.
Lemma runs_attempt_None {A} (m : IO A) h h' : runs (attempt m) h None h' → fails m h.
Proof.
  intros H. exists h, h'. split; [done|]. unfold runs, attempt in H. unfold exec.
  destruct (m h) as [r h1]. by injection H as -> ->.
Qed.

(** A relay a connection to [target] may go by. *)
Definition relayFor (local : profile) (target n : discoveredNode) : Prop :=
  dn_ID n ≠ nd_ID (pf_Node local) ∧ dn_Role n = "relay" ∧ dn_Segment n = dn_Segment target ∧ dn_Relay n ≠ None
  ∧ (dn_Role target = "subnode" → dn_ID n = dn_UpstreamRelay target).

Lemma routeRelay_iff local target n : routeRelay local target n = true ↔ relayFor local target n.
Proof.
  unfold routeRelay, relayFor. rewrite !andb_true_iff, !negb_true_iff, bool_decide_eq_true.
  rewrite String.eqb_neq, !String.eqb_eq, andb_false_iff, negb_false_iff, String.eqb_neq, String.eqb_eq.
  split.
  - intros [[[[? ?] ?] ?] [?|?]]; split_and!; by try intros.
  - intros (? & ? & ? & ? & Hup). split_and!; try done.
    destruct (decide (dn_Role target = "subnode")); [right; by apply Hup|by left].
Qed.

(** The route among [nodes] to a service: the first node with the identity,
    its first service with the name, and exactly the relays a connection to it
    may go by; a subnode has one of them at least. *)
Record routeTo (local : profile) (nodes : list discoveredNode) (targetNode serviceName : string)
    (target : discoveredNode) (service : publishedService) (relays : list discoveredNode) : Prop := {
  rt_target : findPeer nodes targetNode = Some target;
  rt_service : firstMatch (λ s, (ps_Name s =? serviceName)%string) (dn_Services target) = Some service;
  rt_relays : ∀ n, n ∈ relays ↔ n ∈ nodes ∧ relayFor local target n;
  rt_subnode : dn_Role target = "subnode" → relays ≠ [];
}.

Lemma routeIn_routeTo local nodes targetNode serviceName target service relays :
  routeIn local nodes targetNode serviceName = Some (target, service, relays) →
  routeTo local nodes targetNode serviceName target service relays.
Proof.
  unfold routeIn. destruct (firstMatch _ nodes) as [t|] eqn:Ht; [|done]. destruct (dn_ID t =? "")%string; [done|].
  destruct (firstMatch _ (dn_Services t)) as [s|] eqn:Hs; [|done]. destruct (ps_Name s =? "")%string; [done|].
  destruct (_ && _) eqn:Esub; [done|]. intros [= -> -> <-]. split; [exact Ht|exact Hs| |].
  - intros n. rewrite sortSlice_elem, list_elem_of_filter, routeRelay_iff. tauto.
  - intros Hsub Hnil. rewrite Hsub, String.eqb_refl in Esub. apply bool_decide_eq_false_1 in Esub. apply Esub.
    apply nil_length_inv. rewrite <- (sortSlice_length byPriority). by rewrite Hnil.
Qed.

(** The route resolved by the node that runs [p] from the peers in its file
    and from what it publishes itself. *)
Definition routeNow (p : profile) (path : string) (h : host) (targetNode serviceName : string)
    (target : discoveredNode) (service : publishedService) (relays : list discoveredNode) : Prop :=
  ∃ peers self, knownPeers (h_files h) path = Some peers ∧ occurs (localDiscoveredNode p) self h
    ∧ routeTo p (peers ++ [self]) targetNode serviceName target service relays.

Lemma onward_loadDiscovered path : along onward (loadDiscovered path).
Proof. intros h. rewrite exec_loadDiscovered. split; [unfold later; simpl; lia|done]. Qed.

Lemma runs_resolveRoute p path targetNode serviceName target service relays h h' :
  runs (resolveRoute p path targetNode serviceName) h (target, service, relays) h' →
  routeNow p path h targetNode serviceName target service relays
  ∧ ∃ nodes self, peersNow path h = Some nodes ∧ dn_ID self = nd_ID (pf_Node p)
      ∧ routeIn p (nodes ++ [self]) targetNode serviceName = Some (target, service, relays).
Proof.
  unfold resolveRoute. intros H. io_bind (nodes & h1 & Hn & H). io_bind (self & h2 & Hs & H).
  apply runs_lift in H as [Hr _].
  pose proof (along_runs _ _ _ _ _ (onward_loadDiscovered path) Hn) as H1.
  unfold runs in Hn. rewrite exec_loadDiscovered in Hn. injection Hn as Hn _. split.
  - exists nodes, self. split; [by apply peersNow_known|]. split; [by exists h1, h2|by apply routeIn_routeTo].
  - exists nodes, self. split_and!; [done| |done].
    unfold localDiscoveredNode in Hs. io_bind (services & h3 & Hs1 & Hs). by apply runs_ret in Hs as [-> _].
Qed.

(** The address of a candidate that was leased, presented the pinned
    certificate and was dialled through its connector. *)
Definition candidateReached (service : publishedService) (a : string) : Prop :=
  ∃ c i j pin, c ∈ ps_DirectCandidates service ∧ dc_Address c = a
    ∧ (Time.IsZero (dc_ExpiresAt c) = true ∨ hostClock i < dc_ExpiresAt c)
    ∧ pinnedTLSConfig (ps_PinnedSHA256 service) = Some pin ∧ tlsProbe j a pin = true
    ∧ ∃ h h', runs (dial service a) h tt h'.

Lemma runs_probe endpoint pinText u h h' :
  runs (probePinnedTLS endpoint pinText) h u h' →
  ∃ pin, pinnedTLSConfig pinText = Some pin ∧ tlsProbe (h_tick h) endpoint pin = true ∧ h' = tickHost h.
Proof.
  unfold probePinnedTLS. intros H. io_bind (pin & h1 & Hp & H). apply runs_lift in Hp as [Hp ->].
  io_bind (ok & h2 & Ho & H). apply runs_ask in Ho as [-> ->]. io_guard Hok. apply runs_ret in H as [_ ->].
  exists pin. apply negb_false_iff in Hok. by split_and!.
Qed.

Lemma runs_dialCandidates service a h h' :
  runs (dialDirectCandidates service) h a h' → candidateReached service a.
Proof.
  unfold dialDirectCandidates, candidateReached. generalize (ps_DirectCandidates service) as l.
  intros l. revert h. induction l as [|c l IH]; intros h H; simpl in H; [by apply runs_failure in H|].
  assert (∀ h, runs (dialCandidates service l) h a h' → ∃ c' i j pin, c' ∈ c :: l ∧ dc_Address c' = a
    ∧ (Time.IsZero (dc_ExpiresAt c') = true ∨ hostClock i < dc_ExpiresAt c')
    ∧ pinnedTLSConfig (ps_PinnedSHA256 service) = Some pin ∧ tlsProbe j a pin = true
    ∧ ∃ h h', runs (dial service a) h tt h') as Hrest.
  { intros g Hg. destruct (IH g Hg) as (c' & i & j & pin & Hin & Hrest). exists c', i, j, pin.
    split; [by right|done]. }
  io_bind (leased & h1 & Hl & H). destruct leased; cbn [negb] in H; [|by apply Hrest in H].
  assert (∃ i, Time.IsZero (dc_ExpiresAt c) = true ∨ hostClock i < dc_ExpiresAt c) as [i Hi].
  { destruct (Time.IsZero (dc_ExpiresAt c)); [exists 0%nat; by left|].
    io_bind (now & h2 & Hn & Hl). apply runs_ask in Hn as [-> ->]. apply runs_ret in Hl as [Hl _].
    eexists. right. by apply Z.ltb_lt. }
  io_bind (probed & h2 & Hp & H). destruct probed as [u|]; [|by apply Hrest in H].
  apply runs_attempt in Hp. apply runs_probe in Hp as (pin & Hpin & Htls & ->).
  io_bind (connected & h3 & Hc & H). apply runs_attempt in Hc.
  destruct connected as [[]|]; [|by apply Hrest in H]. apply runs_ret in H as [-> ->].
  eexists c, i, _, pin. split; [by left|]. split_and!; try done. eexists _, _. exact Hc.
Qed.

Lemma onward_dialRelay p relay target service : along onward (dialRelay p relay target service).
Proof.
  unfold dialRelay, dialSignedRelay, exchangeHandshake, recordHandshake, hostToken, hostRandom.
  repeat along_step ltac:(solve [intros ?; split; [unfold later; simpl; lia|exact eq_refl]]).
Qed.

(** A dialled relay is one of the list, and answered. *)
Definition relayReached (p : profile) (relays : list discoveredNode) (target service r : string) (h : host) : Prop :=
  ∃ n, n ∈ relays ∧ r = dn_ID n ∧ occurs (dialRelay p n target service) tt h.

Lemma relayReached_rest p n relays target service r h g :
  onward h g → relayReached p relays target service r g → relayReached p (n :: relays) target service r h.
Proof. intros Hg (m & Hm & -> & Ho). exists m. split; [by right|]. split; [done|by eapply occurs_since]. Qed.

Lemma runs_dialFirst p relays target service r h h' :
  runs (dialFirstRelay p relays target service) h (Some r) h' → relayReached p relays target service r h.
Proof.
  revert h. induction relays as [|n relays IH]; intros h H; simpl in H; [by apply runs_ret in H as [? _]|].
  io_bind (dialed & h1 & Hd & H).
  pose proof (along_runs _ _ _ _ _ (along_attempt _ _ (onward_dialRelay p n target service)) Hd) as H1.
  apply runs_attempt in Hd. destruct dialed as [[]|].
  - apply runs_ret in H as [[= ->] _]. exists n. split; [by left|]. split; [done|by eapply occurs_now].
  - eapply relayReached_rest; [exact H1|by apply IH].
Qed.

(** The target was asked to connect back, and did. *)
Definition reverseReached (p : profile) (target : discoveredNode) (service : publishedService) (h : host) : Prop :=
  cl_URL (pf_Coordinator p) ≠ "" ∧ is_Some (cl_Credential (pf_Coordinator p))
  ∧ ∃ reason, occurs (awaitReverse p (dn_ID target) (ps_Name service) reason) tt h.

Lemma reverseReached_since p target service h g :
  onward h g → reverseReached p target service g → reverseReached p target service h.
Proof. intros Hg (? & ? & reason & Ho). split_and!; [done..|]. exists reason. by eapply occurs_since. Qed.

Lemma runs_dialReverse p target service u h h' :
  runs (dialReverseService p target service) h u h' → reverseReached p target service h.
Proof.
  unfold dialReverseService. intros H. io_guard Hurl. io_bind (c & h1 & Hc & H). apply runs_lift in Hc as [Hc ->].
  apply String.eqb_neq in Hurl. split_and!; [done|by eexists|]. eexists. destruct u. by eapply occurs_now.
Qed.

(** What a service connection may be bridged to: in the relay's own segment a
    candidate of the service — of the node's own mapping when the target is
    the relay itself — or the target; across segments also a relay of the
    route, or the target when it is a relay. *)
Definition bridgeOk (p : profile) (targetNode serviceName : string) (target : discoveredNode) (service : publishedService)
    (relays : list discoveredNode) (h : host) (t : relayTarget) : Prop :=
  match t with
  | ToCandidate a =>
      if bool_decide (ps_Segment service = pf_Segment p ∧ dn_ID target = nd_ID (pf_Node p))
      then ∃ s, occurs (localPublishedService p (ps_Name service)) (Some s) h ∧ candidateReached s a
      else candidateReached service a
  | ToRelay r => ps_Segment service ≠ pf_Segment p
      ∧ relayReached p (if bool_decide (dn_Role target = "relay") then [target] else relays) targetNode serviceName r h
  | ToReverse n => n = dn_ID target ∧ reverseReached p target service h
  end.

Lemma onward_dialFirstRelay p relays target service : along onward (dialFirstRelay p relays target service).
Proof.
  induction relays as [|n relays IH]; simpl; [intros h; by split|]. pose proof (onward_dialRelay p n target service).
  repeat first [assumption | along_step ltac:(fail)].
Qed.

Lemma runs_reachLocal p targetNode serviceName target service relays t h h' :
  ps_Segment service = pf_Segment p →
  runs (reachLocal p target service) h t h' → bridgeOk p targetNode serviceName target service relays h t.
Proof.
  unfold reachLocal. intros Hseg H. io_bind (direct & h1 & Hd & H).
  pose proof (along_runs _ _ _ _ _ (along_attempt _ _ (onward_direct p target service)) Hd) as H1.
  apply runs_attempt in Hd. destruct direct as [a|].
  - apply runs_ret in H as [-> _]. simpl. destruct (String.eqb_spec (dn_ID target) (nd_ID (pf_Node p))) as [He|He].
    + rewrite bool_decide_eq_true_2 by done.
      match type of Hd with ?m _ = _ => change (runs m h a h1) in Hd end.
      io_bind (found & h2 & Hf & Hd). io_bind (s & h3 & Hs & Hd). apply runs_lift in Hs as [-> ->].
      exists s. split; [by eapply occurs_now|by eapply runs_dialCandidates].
    + rewrite bool_decide_eq_false_2 by (by intros [_ ?]). by eapply runs_dialCandidates.
  - io_bind (u & h2 & Hr & H). apply runs_ret in H as [-> _]. split; [done|].
    apply runs_dialReverse in Hr. by eapply reverseReached_since.
Qed.

Lemma runs_reachAcross p target service relays targetNode serviceName t h h' :
  ps_Segment service ≠ pf_Segment p →
  runs (reachAcross p target service relays targetNode serviceName) h t h' →
  bridgeOk p targetNode serviceName target service relays h t.
Proof.
  unfold reachAcross. intros Hseg H. io_bind (via & h1 & Hv & H).
  assert ((if (dn_Role target =? "relay")%string then [target] else relays)
    = (if bool_decide (dn_Role target = "relay") then [target] else relays)) as Hrel.
  { by destruct (String.eqb_spec (dn_Role target) "relay"); case_bool_decide. }
  rewrite Hrel in Hv. pose proof (along_runs _ _ _ _ _ (onward_dialFirstRelay p _ targetNode serviceName) Hv) as H1.
  destruct via as [r|].
  - apply runs_ret in H as [-> _]. split; [done|]. by eapply runs_dialFirst.
  - io_bind (direct & h2 & Hd & H).
    pose proof (along_runs _ _ _ _ _ (along_attempt _ _ (onward_candidates service)) Hd) as H2.
    apply runs_attempt in Hd. destruct direct as [a|].
    + apply runs_ret in H as [-> _]. simpl. rewrite bool_decide_eq_false_2 by (by intros [? _]). by eapply runs_dialCandidates.
    + io_bind (u & h3 & Hr & H). apply runs_ret in H as [-> _]. split; [done|]. apply runs_dialReverse in Hr.
      eapply reverseReached_since; [|exact Hr]. by etransitivity.
Qed.

(** A service is bridged along the route of the peers in the file, into the
    relay's segment or for one of its own subnodes. *)
Definition serviceOk (p : profile) (path : string) (hs : relayHandshake) (h : host) (t : relayTarget) : Prop :=
  ∃ target service relays, routeNow p path h (hs_TargetNode hs) (hs_Service hs) target service relays
    ∧ (ps_Segment service = pf_Segment p
       ∨ ∃ peers n, knownPeers (h_files h) path = Some peers ∧ findPeer peers (hs_SourceNode hs) = Some n ∧ ownSubnode p n = true)
    ∧ bridgeOk p (hs_TargetNode hs) (hs_Service hs) target service relays h t.

Lemma bridgeOk_since p targetNode serviceName target service relays h g t :
  onward h g → bridgeOk p targetNode serviceName target service relays g t → bridgeOk p targetNode serviceName target service relays h t.
Proof.
  intros Hg. destruct t as [a|r|n]; simpl.
  - case_bool_decide; [|done]. intros (s & ? & ?). exists s. split; [by eapply occurs_since|done].
  - intros (? & n & ? & ? & ?). split; [done|]. exists n. split_and!; [done..|by eapply occurs_since].
  - intros [? ?]. split; [done|by eapply reverseReached_since].
Qed.

Lemma serviceOk_since p path hs h g t : onward h g → serviceOk p path hs g t → serviceOk p path hs h t.
Proof.
  intros Hg (target & service & relays & (peers & self & Hp & Hs & Hr) & Hseg & Hok). pose proof (proj2 Hg) as Hf.
  rewrite Hf in Hp. exists target, service, relays. split_and!; [|by rewrite <- Hf|by eapply bridgeOk_since].
  exists peers, self. split_and!; [done|by eapply occurs_since|done].
Qed.

Lemma runs_serveService p path hs t h h' :
  runs (serveService p path hs) h (Bridged t) h' → serviceOk p path hs h t.
Proof.
  unfold serveService. intros H. io_bind (route & h1 & Hr & H). apply runs_attempt in Hr.
  destruct route as [[[target service] relays]|]; [|by apply runs_ret in H as [? _]].
  pose proof (along_runs onward _ _ _ _ (onward_resolve p path (hs_TargetNode hs) (hs_Service hs)) Hr) as H1.
  apply runs_resolveRoute in Hr as [Hroute _].
  io_bind (allowed & h2 & Ha & H). destruct allowed; cbn [negb] in H; [|by apply runs_ret in H as [? _]].
  io_bind (reached & h3 & Hre & H). apply runs_attempt in Hre.
  destruct reached as [t'|]; [|by apply runs_ret in H as [? _]].
  io_bind (written & h4 & Hw & H). apply runs_ask in Hw as [_ ->]. apply runs_ret in H as [Ho _].
  assert (t' = t) as -> by (destruct written; congruence).
  exists target, service, relays. split; [done|].
  destruct (String.eqb_spec (ps_Segment service) (pf_Segment p)) as [He|He].
  - apply runs_ret in Ha as [_ ->]. split; [by left|]. eapply bridgeOk_since; [exact H1|by eapply runs_reachLocal].
  - apply runs_isAuthorized in Ha as [-> Ha]. split.
    + right. rewrite <- (proj2 H1). by apply Ha.
    + eapply bridgeOk_since; [|by eapply runs_reachAcross]. etransitivity; [exact H1|].
      split; [unfold later; simpl; lia|done].
Qed.
Lemma serve_outcome p path hs o h h' :
  runs (serveService p path hs) h o h' → match o with Tunnelled | HandedOver _ => False | _ => True end.
Proof.
  unfold serveService. intros H. io_bind (route & h1 & _ & H).
  destruct route as [[[target service] relays]|]; [|by apply runs_ret in H as [-> _]].
  io_bind (allowed & h2 & _ & H). destruct allowed; cbn [negb] in H; [|by apply runs_ret in H as [-> _]].
  io_bind (reached & h3 & _ & H). destruct reached; [|by apply runs_ret in H as [-> _]].
  io_bind (written & h4 & _ & H). apply runs_ret in H as [-> _]. by destruct written.
Qed.
(** *** Dialing *)

(** The handshake a node signs. *)
Definition signedHandshake (p : profile) (relay : discoveredNode) (mode target service request nonce priv : string) (now : Z)
    : relayHandshake :=
  let hs := mkRelayHandshake relayHandshakeVersion mode (pf_VirtualNetwork p) (nd_ID (pf_Node p)) (dn_ID relay)
              target service request "" (Time.ToUnix now) nonce "" in
  setSignature (Base64.RawStdEncode (ed25519Sign priv (relayHandshakeMessage hs))) hs.

Lemma runs_dialSigned p relay mode target service request u h h' :
  runs (dialSignedRelay p relay mode target service request) h u h' →
  ∃ advertised c priv b, dn_Relay relay = Some advertised ∧ cl_Credential (pf_Coordinator p) = Some c
    ∧ Base64.RawStdDecode (nc_PrivateKey c) = Some priv ∧ String.length priv = PrivateKeySize ∧ String.length b = 32%nat
    ∧ let hs := signedHandshake p relay mode target service request (Hex.EncodeToString b) priv (hostClock (2 + h_tick h)) in
      nm_handshakes (h_memory h') = nm_handshakes (h_memory h) ++ [(ra_Endpoint advertised, hs)]
      ∧ relayAnswer (3 + h_tick h) (ra_Endpoint advertised) (marshalHandshake hs +:+ newline) = Some ("OK" +:+ newline).
Proof.
  unfold dialSignedRelay. intros H. io_bind (adv & h1 & Ha & H). apply runs_lift in Ha as [Ha ->].
  io_bind (c & h1 & Hc & H). apply runs_lift in Hc as [Hc ->].
  io_bind (config & h1 & Hp & H). apply runs_lift in Hp as [Hp ->].
  io_bind (connected & h1 & Hd & H). apply runs_ask in Hd as [-> ->]. io_guard _.
  io_bind (nonce & h2 & Hn & H). unfold hostToken in Hn. io_bind (b & h3 & Hb & Hn).
  apply runs_hostRandom in Hb as [-> Hlen]. apply runs_ret in Hn as [-> ->].
  io_bind (now & h2 & Hnow & H). apply runs_ask in Hnow as [-> ->].
  io_bind (priv & h2 & Hpriv & H). apply runs_lift in Hpriv as [Hpriv ->]. io_guard Hsize.
  apply negb_false_iff, Nat.eqb_eq in Hsize.
  unfold exchangeHandshake, recordHandshake in H. io_bind (v & h2 & Hr & H). apply runs_modMemory in Hr. subst h2.
  io_bind (answer & h2 & Hans & H). apply runs_ask in Hans as [-> ->].
  io_bind (answer & h2 & Hans & H). apply runs_lift in Hans as [Hans ->]. io_guard Hok. apply runs_ret in H as [_ ->].
  apply negb_false_iff, String.eqb_eq in Hok. exists adv, c, priv, b. subst answer. by split_and!.
Qed.

End Rules.
