(* ===== verification/Broker.v ===== *)
(** * The broker of reverse connections

    The rendezvous between a goroutine that waits for a reverse connection
    (the callers of [expect] in relay_pull.go and relay_server.go) and the
    goroutine of the relay that receives one (the branch for [reverse] of
    [handle], which calls [take]), through reverseConnectionBroker of
    relay_types.go.  Every event is one critical section, one operation on a
    channel, or one decision of a goroutine; any number of goroutines of both
    kinds run interleaved.  [Relay.awaitReverse] and [Relay.handReverse] are
    the same code seen from one goroutine. *)
From S2P Require Import Prelude.

(** ** State *)

(** How far the goroutine that waits has come: it asks the coordinator for
    the connection, selects between the channel and the timer, has left the
    select, has closed [done], or has removed its map entry. *)
Inductive waiterStage := Requesting | Receiving | Leaving | Closed | Gone.
#[export] Instance waiterStage_eq_dec : EqDecision waiterStage.
Proof. solve_decision. Defined.

(** reverseExpectation, with the connection its goroutine received. *)
Record reverseExpectation := mkExpectation {
  ex_request : string;
  ex_targetNode : string;
  ex_service : string;
  ex_stage : waiterStage;
  ex_got : option nat;
}.

(** The goroutine of an incoming reverse connection: before [take], blocked
    in its select on an expectation, or ended in one of three ways. *)
Inductive incomingStage := Arrived | Offering (e : nat) | Delivered (e : nat) | Dropped | Unexpected.

Record incoming := mkIncoming {
  in_request : string;
  in_node : string;
  in_service : string;
  in_stage : incomingStage;
}.

Record broker := mkBroker {
  br_waiting : gmap string nat;
  br_expectations : gmap nat reverseExpectation;
  br_incoming : gmap nat incoming;
}.

(** [reverseConnectionBroker{waiting: make(…)}]. *)
Definition reverseBroker : broker := mkBroker ∅ ∅ ∅.

Definition setStage (s : waiterStage) (x : reverseExpectation) : reverseExpectation :=
  mkExpectation (ex_request x) (ex_targetNode x) (ex_service x) s (ex_got x).
Definition receive (c : nat) (x : reverseExpectation) : reverseExpectation :=
  mkExpectation (ex_request x) (ex_targetNode x) (ex_service x) Leaving (Some c).
Definition setIncoming (s : incomingStage) (x : incoming) : incoming :=
  mkIncoming (in_request x) (in_node x) (in_service x) s.

Definition putExpectation (e : nat) (x : reverseExpectation) (b : broker) : broker :=
  mkBroker (br_waiting b) (<[e := x]> (br_expectations b)) (br_incoming b).
Definition putIncoming (c : nat) (x : incoming) (b : broker) : broker :=
  mkBroker (br_waiting b) (br_expectations b) (<[c := x]> (br_incoming b)).
Definition setEntries (f : gmap string nat → gmap string nat) (b : broker) : broker :=
  mkBroker (f (br_waiting b)) (br_expectations b) (br_incoming b).

(** [done] is closed. *)
Definition isDone (x : reverseExpectation) : bool :=
  match ex_stage x with Closed | Gone => true | _ => false end.

(** ** Operations *)

Definition expect (e : nat) (request target service : string) (b : broker) : broker :=
  setEntries (insert request e) (putExpectation e (mkExpectation request target service Requesting None) b).

(** The end of [stopWaiting]: the entry goes, unless another expectation has
    taken its place. *)
Definition forget (e : nat) (x : reverseExpectation) (b : broker) : broker :=
  let b := putExpectation e (setStage Gone x) b in
  if bool_decide (br_waiting b !! ex_request x = Some e) then setEntries (delete (ex_request x)) b else b.

(** [take]. *)
Definition take (request node service : string) (b : broker) : option nat * broker :=
  match br_waiting b !! request with
  | None => (None, b)
  | Some e =>
      match br_expectations b !! e with
      | Some x =>
          if negb (ex_targetNode x =? node)%string || negb (ex_service x =? service)%string then (None, b)
          else (Some e, setEntries (delete request) b)
      | None => (None, b)
      end
  end.

(** What the goroutine of a connection does with [take]. *)
Definition tryTake (c : nat) (x : incoming) (b : broker) : broker :=
  let '(found, b) := take (in_request x) (in_node x) (in_service x) b in
  match found with
  | Some e => putIncoming c (setIncoming (if (in_request x =? "")%string then Unexpected else Offering e) x) b
  | None => putIncoming c (setIncoming Unexpected x) b
  end.

(** ** Steps *)

Inductive brokerEvent :=
  | EvExpect (e : nat) (request target service : string)
  | EvRequested (e : nat) (ok : bool)
  | EvTimeout (e : nat)
  | EvClose (e : nat)
  | EvForget (e : nat)
  | EvArrive (c : nat) (request node service : string)
  | EvTake (c : nat)
  | EvHand (c : nat)
  | EvDrop (c : nat).

(** [None]: the event cannot happen.  [EvHand] is the rendezvous on the
    unbuffered channel: it needs a sender and a receiver. *)
Definition brokerStep (ev : brokerEvent) (b : broker) : option broker :=
  match ev with
  | EvExpect e request target service =>
      match br_expectations b !! e with
      | None => Some (expect e request target service b)
      | Some _ => None
      end
  | EvRequested e ok =>
      x ← br_expectations b !! e;
      match ex_stage x with
      | Requesting => Some (putExpectation e (setStage (if ok then Receiving else Leaving) x) b)
      | _ => None
      end
  | EvTimeout e =>
      x ← br_expectations b !! e;
      match ex_stage x with Receiving => Some (putExpectation e (setStage Leaving x) b) | _ => None end
  | EvClose e =>
      x ← br_expectations b !! e;
      match ex_stage x with Leaving => Some (putExpectation e (setStage Closed x) b) | _ => None end
  | EvForget e =>
      x ← br_expectations b !! e;
      match ex_stage x with Closed => Some (forget e x b) | _ => None end
  | EvArrive c request node service =>
      match br_incoming b !! c with
      | None => Some (putIncoming c (mkIncoming request node service Arrived) b)
      | Some _ => None
      end
  | EvTake c =>
      x ← br_incoming b !! c;
      match in_stage x with Arrived => Some (tryTake c x b) | _ => None end
  | EvHand c =>
      x ← br_incoming b !! c;
      match in_stage x with
      | Offering e =>
          y ← br_expectations b !! e;
          match ex_stage y with
          | Receiving => Some (putExpectation e (receive c y) (putIncoming c (setIncoming (Delivered e) x) b))
          | _ => None
          end
      | _ => None
      end
  | EvDrop c =>
      x ← br_incoming b !! c;
      match in_stage x with
      | Offering e =>
          y ← br_expectations b !! e;
          if isDone y then Some (putIncoming c (setIncoming Dropped x) b) else None
      | _ => None
      end
  end.

Fixpoint brokerRun (events : list brokerEvent) (b : broker) : option broker :=
  match events with
  | [] => Some b
  | ev :: rest => b ← brokerStep ev b; brokerRun rest b
  end.

(** A new goroutine, on either side. *)
Definition isNew (ev : brokerEvent) : bool :=
  match ev with EvExpect _ _ _ _ | EvArrive _ _ _ _ => true | _ => false end.

(** ** Invariant *)

(** The expectation [c] has been, or is being, offered to. *)
Definition claims (x : incoming) (e : nat) : Prop := in_stage x = Offering e ∨ in_stage x = Delivered e.

Definition agrees (x : incoming) (y : reverseExpectation) : Prop :=
  ex_request y = in_request x ∧ ex_targetNode y = in_node x ∧ ex_service y = in_service x.

Record brokerInv (b : broker) : Prop := {
  bi_waiting : ∀ r e, br_waiting b !! r = Some e →
    ∃ y, br_expectations b !! e = Some y ∧ ex_request y = r ∧ ex_stage y ≠ Gone ∧ ex_got y = None
         ∧ ∀ c x, br_incoming b !! c = Some x → ¬ claims x e;
  bi_claims : ∀ c x e, br_incoming b !! c = Some x → claims x e →
    ∃ y, br_expectations b !! e = Some y ∧ agrees x y;
  bi_unique : ∀ c d x y e, br_incoming b !! c = Some x → br_incoming b !! d = Some y → claims x e → claims y e → c = d;
  bi_delivered : ∀ c x e, br_incoming b !! c = Some x → in_stage x = Delivered e →
    ∃ y, br_expectations b !! e = Some y ∧ ex_got y = Some c;
  bi_got : ∀ e y c, br_expectations b !! e = Some y → ex_got y = Some c →
    (ex_stage y = Leaving ∨ isDone y = true) ∧ ∃ x, br_incoming b !! c = Some x ∧ in_stage x = Delivered e;
}.

Lemma brokerInv_start : brokerInv reverseBroker.
Proof. split; set_solver. Qed.

Lemma inv_setStage e y s b :
  brokerInv b → br_expectations b !! e = Some y → (s = Gone → ∀ r, br_waiting b !! r ≠ Some e) →
  (ex_got y ≠ None → s = Leaving ∨ s = Closed ∨ s = Gone) → brokerInv (putExpectation e (setStage s y) b).
Proof.
  intros [I1 I2 I3 I4 I5] He Hgone Hgot. split; cbn.
  - intros r e' Hr. destruct (I1 r e' Hr) as (z & Hz & Hreq & Hst & Hn & Hc). destruct (decide (e' = e)) as [->|].
    + simplify_eq. rewrite lookup_insert_eq. eexists. split; [done|]. split_and!; try done. intros Hs. by eapply Hgone.
    + rewrite lookup_insert_ne by done. eauto 10.
  - intros c x e' Hx Hc. destruct (I2 c x e' Hx Hc) as (z & Hz & Ha). destruct (decide (e' = e)) as [->|].
    + simplify_eq. rewrite lookup_insert_eq. eexists. by split.
    + rewrite lookup_insert_ne by done. eauto.
  - done.
  - intros c x e' Hx Hc. destruct (I4 c x e' Hx Hc) as (z & Hz & Ha). destruct (decide (e' = e)) as [->|].
    + simplify_eq. rewrite lookup_insert_eq. eexists. by split.
    + rewrite lookup_insert_ne by done. eauto.
  - intros e' z c. rewrite lookup_insert_Some. intros [[<- <-]|[? Hz]] Hc; [|eauto].
    cbn in Hc. split; [|by eapply I5]. rewrite Hc in Hgot. destruct (Hgot ltac:(done)) as [->|[->| ->]]; [by left|by right..].
Qed.

Lemma inv_delete r b : brokerInv b → brokerInv (setEntries (delete r) b).
Proof. intros [I1 I2 I3 I4 I5]. split; cbn; eauto. intros r' e [_ ?]%lookup_delete_Some. eauto. Qed.

(** A connection that ends, or starts, without an expectation. *)
Lemma inv_incoming c x b :
  brokerInv b → (∀ e, ¬ claims x e) → (∀ y e, br_incoming b !! c = Some y → in_stage y ≠ Delivered e) →
  brokerInv (putIncoming c x b).
Proof.
  intros [I1 I2 I3 I4 I5] Hx Hold. split; cbn.
  - intros r e Hr. destruct (I1 r e Hr) as (y & ? & ? & ? & ? & Hc). exists y. split_and!; try done.
    intros d z [[<- <-]|[? Hz]]%lookup_insert_Some; [by apply Hx|eauto].
  - intros d z e [[<- <-]|[? Hz]]%lookup_insert_Some Hc; [by destruct (Hx e)|eauto].
  - intros d d' z z' e [[<- <-]|[? Hz]]%lookup_insert_Some Hz' Hc Hc'; [by destruct (Hx e)|].
    apply lookup_insert_Some in Hz' as [[<- <-]|[? Hz']]; [by destruct (Hx e)|eauto].
  - intros d z e [[<- <-]|[? Hz]]%lookup_insert_Some Hc; [destruct (Hx e); by right|eauto].
  - intros e y d Hy Hd. destruct (I5 e y d Hy Hd) as (Hs & z & Hz & Hzs). split; [done|]. exists z.
    rewrite lookup_insert_ne; [done|]. intros ->. by eapply Hold.
Qed.

(** An expectation that is no longer waiting, and that no one claims, is
    offered a connection. *)
Lemma inv_offer c x e y b :
  brokerInv b → br_incoming b !! c = Some x → in_stage x = Arrived → br_expectations b !! e = Some y → agrees x y →
  (∀ r, br_waiting b !! r ≠ Some e) → (∀ d z, br_incoming b !! d = Some z → ¬ claims z e) →
  brokerInv (putIncoming c (setIncoming (Offering e) x) b).
Proof.
  intros [I1 I2 I3 I4 I5] Hc Hst He Ha Hw Hfree.
  assert (∀ e', claims (setIncoming (Offering e) x) e' → e' = e) as Hclaims by (intros e' [Hx|Hx]; cbn in Hx; congruence).
  split; cbn.
  - intros r e' Hr. destruct (I1 r e' Hr) as (z & ? & ? & ? & ? & Hn). exists z. split_and!; try done.
    intros d w [[<- <-]|[? Hz]]%lookup_insert_Some; [|eauto]. intros ->%Hclaims. by destruct (Hw r).
  - intros d z e' [[<- <-]|[? Hz]]%lookup_insert_Some Hx; [|eauto]. apply Hclaims in Hx as ->. eauto.
  - intros d d' z z' e' Hz Hz' Hx Hx'. apply lookup_insert_Some in Hz as [[<- <-]|[? Hz]].
    + apply Hclaims in Hx as ->. apply lookup_insert_Some in Hz' as [[<- <-]|[? Hz']]; [done|]. by destruct (Hfree d' z').
    + apply lookup_insert_Some in Hz' as [[<- <-]|[? Hz']]; [|eauto]. apply Hclaims in Hx' as ->. by destruct (Hfree d z).
  - intros d z e' [[<- <-]|[? Hz]]%lookup_insert_Some Hx; [done|eauto].
  - intros e' z d Hz Hd. destruct (I5 e' z d Hz Hd) as (Hs & w & Hw' & Hws). split; [done|]. exists w.
    rewrite lookup_insert_ne; [done|]. intros ->. congruence.
Qed.

(** The rendezvous. *)
Lemma inv_hand c x e y b :
  brokerInv b → br_incoming b !! c = Some x → in_stage x = Offering e → br_expectations b !! e = Some y →
  ex_got y = None → brokerInv (putExpectation e (receive c y) (putIncoming c (setIncoming (Delivered e) x) b)).
Proof.
  intros [I1 I2 I3 I4 I5] Hc Hst He Hgot.
  assert (∀ e', claims (setIncoming (Delivered e) x) e' → claims x e') as Hclaims
    by (intros e' [Hx|Hx]; cbn in Hx; [done|]; injection Hx as ->; by left).
  assert (Hwait : ∀ r, br_waiting b !! r ≠ Some e)
    by (intros r Hr; destruct (I1 r e Hr) as (z & ? & ? & ? & ? & Hn); eapply (Hn c x); [done|by left]).
  split; cbn.
  - intros r e' Hr. destruct (I1 r e' Hr) as (z & ? & ? & ? & ? & Hn). exists z.
    rewrite lookup_insert_ne by (intros ->; by eapply Hwait). split_and!; try done.
    intros d w [[<- <-]|[? Hz]]%lookup_insert_Some; [|eauto]. intros ?%Hclaims. by eapply Hn.
  - intros d z e' Hz Hx.
    assert (∃ w, br_expectations b !! e' = Some w ∧ agrees z w) as (w & Hw & Hag).
    { apply lookup_insert_Some in Hz as [[<- <-]|[? Hz]]; [|eauto]. destruct (I2 c x e' Hc (Hclaims _ Hx)) as (w & ? & ?). eauto. }
    destruct (decide (e' = e)) as [->|]; [|rewrite lookup_insert_ne by done; eauto].
    rewrite lookup_insert_eq. simplify_eq. eexists. by split.
  - intros d d' z z' e' Hz Hz' Hx Hx'. apply lookup_insert_Some in Hz as [[<- <-]|[? Hz]].
    + apply Hclaims in Hx. apply lookup_insert_Some in Hz' as [[<- <-]|[? Hz']]; [done|eauto].
    + apply lookup_insert_Some in Hz' as [[<- <-]|[? Hz']]; [|eauto]. apply Hclaims in Hx'. eauto.
  - intros d z e' [[<- <-]|[? Hz]]%lookup_insert_Some Hx.
    + cbn in Hx. injection Hx as ->. rewrite lookup_insert_eq. eauto.
    + rewrite lookup_insert_ne; [eauto|]. intros ->. assert (c = d) as ->; [|done]. eapply I3; [exact Hc|exact Hz|by left|by right].
  - intros e' z d [[<- <-]|[? Hz]]%lookup_insert_Some Hd.
    + cbn in Hd. injection Hd as <-. split; [by left|]. rewrite lookup_insert_eq. eauto.
    + destruct (I5 e' z d Hz Hd) as (Hs & w & Hw & Hws). split; [done|]. exists w.
      rewrite lookup_insert_ne; [done|]. intros ->. congruence.
Qed.

Lemma got_late e y b :
  brokerInv b → br_expectations b !! e = Some y → ex_stage y = Requesting ∨ ex_stage y = Receiving → ¬ ex_got y ≠ None.
Proof.
  intros Hinv He Hs Hg. destruct (ex_got y) as [c|] eqn:Hc; [|done]. destruct (bi_got _ Hinv e y c He Hc) as [Hst _].
  unfold isDone in Hst. destruct Hs as [Hs|Hs]; rewrite Hs in Hst; by destruct Hst.
Qed.

Lemma inv_expect e r t s b : brokerInv b → br_expectations b !! e = None → brokerInv (expect e r t s b).
Proof.
  intros [I1 I2 I3 I4 I5] He. split; cbn.
  - intros r' e' [[<- <-]|[? Hr]]%lookup_insert_Some.
    + rewrite lookup_insert_eq. eexists. split_and!; try done. intros c x Hc Hx. destruct (I2 c x e Hc Hx) as (y & Hy & _). congruence.
    + destruct (I1 r' e' Hr) as (y & Hy & ?). exists y. rewrite lookup_insert_ne by (intros ->; congruence). done.
  - intros c x e' Hc Hx. destruct (I2 c x e' Hc Hx) as (y & Hy & ?). exists y. rewrite lookup_insert_ne by (intros ->; congruence). done.
  - done.
  - intros c x e' Hc Hx. destruct (I4 c x e' Hc Hx) as (y & Hy & ?). exists y. rewrite lookup_insert_ne by (intros ->; congruence). done.
  - intros e' y c [[<- <-]|[? Hy]]%lookup_insert_Some Hg; [done|eauto].
Qed.

Lemma inv_forget e y b :
  brokerInv b → br_expectations b !! e = Some y → ex_stage y = Closed → brokerInv (forget e y b).
Proof.
  intros Hinv He Hst. unfold forget. case_bool_decide as Hw; cbn in Hw.
  - change (brokerInv (putExpectation e (setStage Gone y) (setEntries (delete (ex_request y)) b))).
    apply inv_setStage; [by apply inv_delete|done| |by right; right].
    intros _ r. cbn. rewrite lookup_delete_Some. intros [Hne Hr]. destruct (bi_waiting _ Hinv r e Hr) as (z & Hz & Hreq & _). simplify_eq.
  - apply inv_setStage; [done..| |by right; right]. intros _ r Hr.
    destruct (bi_waiting _ Hinv r e Hr) as (z & Hz & Hreq & _). simplify_eq.
Qed.

Lemma inv_take c x b :
  brokerInv b → br_incoming b !! c = Some x → in_stage x = Arrived → brokerInv (tryTake c x b).
Proof.
  intros Hinv Hc Hst.
  assert (Hend : ∀ b', brokerInv b' → br_incoming b' = br_incoming b → brokerInv (putIncoming c (setIncoming Unexpected x) b')).
  { intros b' Hb Heq. apply inv_incoming; [done|by intros e [|]|]. intros y e. rewrite Heq, Hc. intros [= <-]. by rewrite Hst. }
  unfold tryTake, take. destruct (br_waiting b !! in_request x) as [e|] eqn:Hw; [|by apply Hend].
  destruct (bi_waiting _ Hinv _ _ Hw) as (y & He & Hreq & _ & _ & Hfree). rewrite He.
  destruct (ex_targetNode y =? in_node x)%string eqn:Hn; [|by apply Hend].
  destruct (ex_service y =? in_service x)%string eqn:Hs; [|by apply Hend].
  apply String.eqb_eq in Hn, Hs. cbn. destruct (in_request x =? "")%string; [apply Hend; [by apply inv_delete|done]|].
  eapply inv_offer; [by apply inv_delete|done|done|exact He|by split_and!| |exact Hfree].
  intros r. cbn. rewrite lookup_delete_Some. intros [Hne Hr]. destruct (bi_waiting _ Hinv r e Hr) as (z & Hz & Hreq' & _). simplify_eq.
Qed.

Lemma brokerInv_step ev b b' : brokerInv b → brokerStep ev b = Some b' → brokerInv b'.
Proof.
  intros Hinv Hstep. destruct ev as [e r t s|e ok|e|e|e|c r n s|c|c|c]; cbn in Hstep.
  - destruct (br_expectations b !! e) as [|] eqn:He; [done|]. injection Hstep as <-. by apply inv_expect.
  - apply bind_Some in Hstep as (y & He & Hs). destruct (ex_stage y) eqn:Hst; try done. injection Hs as <-.
    apply inv_setStage; [done..|by destruct ok|]. intros Hg. destruct (got_late e y b Hinv He ltac:(by left) Hg).
  - apply bind_Some in Hstep as (y & He & Hs). destruct (ex_stage y) eqn:Hst; try done. injection Hs as <-.
    apply inv_setStage; [done..|by left].
  - apply bind_Some in Hstep as (y & He & Hs). destruct (ex_stage y) eqn:Hst; try done. injection Hs as <-.
    apply inv_setStage; [done..|by right; left].
  - apply bind_Some in Hstep as (y & He & Hs). destruct (ex_stage y) eqn:Hst; try done. injection Hs as <-. by apply inv_forget.
  - destruct (br_incoming b !! c) as [|] eqn:Hc; [done|]. injection Hstep as <-.
    apply inv_incoming; [done|by intros e [|]|by rewrite Hc].
  - apply bind_Some in Hstep as (x & Hc & Hs). destruct (in_stage x) eqn:Hst; try done. injection Hs as <-. by apply inv_take.
  - apply bind_Some in Hstep as (x & Hc & Hs). destruct (in_stage x) as [|e| | |] eqn:Hst; try done.
    apply bind_Some in Hs as (y & He & Hs). destruct (ex_stage y) eqn:Hy; try done. injection Hs as <-.
    apply inv_hand; try done. destruct (ex_got y) eqn:Hg; [|done]. destruct (got_late e y b Hinv He ltac:(by right)). by rewrite Hg.
  - apply bind_Some in Hstep as (x & Hc & Hs). destruct (in_stage x) as [|e| | |] eqn:Hst; try done.
    apply bind_Some in Hs as (y & He & Hs). destruct (isDone y); [|done]. injection Hs as <-.
    apply inv_incoming; [done|by intros ? [|]|]. intros z e' Hz. rewrite Hc in Hz. injection Hz as <-. by rewrite Hst.
Qed.

Lemma brokerInv_run events b b' : brokerInv b → brokerRun events b = Some b' → brokerInv b'.
Proof.
  revert b. induction events as [|ev rest IH]; cbn; intros b Hinv Hrun; [by simplify_eq|].
  apply bind_Some in Hrun as (b1 & Hs & Hr). eauto using brokerInv_step.
Qed.

(** ** Work left *)

Definition waiterWork (x : reverseExpectation) : nat :=
  match ex_stage x with Requesting => 4 | Receiving => 3 | Leaving => 2 | Closed => 1 | Gone => 0 end.
Definition incomingWork (x : incoming) : nat :=
  match in_stage x with Arrived => 2 | Offering _ => 1 | _ => 0 end.
Definition total {A} (weight : A → nat) (m : gmap nat A) : nat := map_fold (λ _ x n, weight x + n) 0 m.
Definition brokerWork (b : broker) : nat := total waiterWork (br_expectations b) + total incomingWork (br_incoming b).

Lemma total_lookup {A} (weight : A → nat) m k x : m !! k = Some x → total weight m = weight x + total weight (delete k m).
Proof. intros Hk. unfold total. apply (map_fold_delete_L (λ _ x n, weight x + n)); [intros; lia|done]. Qed.

Lemma total_put {A} (weight : A → nat) m k x y :
  m !! k = Some x → total weight (<[k := y]> m) + weight x = total weight m + weight y.
Proof.
  intros Hk. rewrite (total_lookup weight m k x Hk), (total_lookup weight (<[k := y]> m) k y (lookup_insert_eq _ _ _)).
  rewrite delete_insert_eq. lia.
Qed.

Lemma work_expectation e y s b :
  br_expectations b !! e = Some y → waiterWork (setStage s y) < waiterWork y →
  brokerWork (putExpectation e (setStage s y) b) < brokerWork b.
Proof. intros He Hlt. unfold brokerWork. cbn. pose proof (total_put waiterWork _ _ _ (setStage s y) He). lia. Qed.

Lemma work_incoming c x s b b' :
  br_incoming b !! c = Some x → incomingWork (setIncoming s x) < incomingWork x → br_incoming b' = br_incoming b →
  br_expectations b' = br_expectations b → brokerWork (putIncoming c (setIncoming s x) b') < brokerWork b.
Proof.
  intros Hc Hlt Hi He. unfold brokerWork. cbn. rewrite Hi, He.
  pose proof (total_put incomingWork _ _ _ (setIncoming s x) Hc). lia.
Qed.

Lemma work_take c x b : br_incoming b !! c = Some x → in_stage x = Arrived → brokerWork (tryTake c x b) < brokerWork b.
Proof.
  intros Hc Hst. unfold tryTake, take.
  assert (∀ s, (s = Unexpected ∨ ∃ e, s = Offering e) → incomingWork (setIncoming s x) < incomingWork x) as Hlt.
  { unfold incomingWork. cbn. rewrite Hst. intros s [->|[e ->]]; lia. }
  destruct (br_waiting b !! in_request x) as [e|]; [|apply work_incoming; eauto].
  destruct (br_expectations b !! e) as [y|]; [|apply work_incoming; eauto].
  destruct (negb _ || negb _); [apply work_incoming; eauto|].
  apply work_incoming; [done| |done|done]. apply Hlt. destruct (_ =? _)%string; eauto.
Qed.

(** Every event but a new goroutine uses up work. *)
Lemma step_works ev b b' : brokerStep ev b = Some b' → isNew ev = false → brokerWork b' < brokerWork b.
Proof.
  intros Hstep Hnew. destruct ev as [e r t s|e ok|e|e|e|c r n s|c|c|c]; cbn in Hstep; try done.
  - apply bind_Some in Hstep as (y & He & Hs). destruct (ex_stage y) eqn:Hst; try done. injection Hs as <-.
    apply work_expectation; [done|]. unfold waiterWork. cbn. rewrite Hst. destruct ok; lia.
  - apply bind_Some in Hstep as (y & He & Hs). destruct (ex_stage y) eqn:Hst; try done. injection Hs as <-.
    apply work_expectation; [done|]. unfold waiterWork. cbn. rewrite Hst. lia.
  - apply bind_Some in Hstep as (y & He & Hs). destruct (ex_stage y) eqn:Hst; try done. injection Hs as <-.
    apply work_expectation; [done|]. unfold waiterWork. cbn. rewrite Hst. lia.
  - apply bind_Some in Hstep as (y & He & Hs). destruct (ex_stage y) eqn:Hst; try done. injection Hs as <-.
    assert (brokerWork (forget e y b) = brokerWork (putExpectation e (setStage Gone y) b)) as ->
      by (unfold forget; by case_bool_decide).
    apply work_expectation; [done|]. unfold waiterWork. cbn. rewrite Hst. lia.
  - apply bind_Some in Hstep as (x & Hc & Hs). destruct (in_stage x) eqn:Hst; try done. injection Hs as <-. by apply work_take.
  - apply bind_Some in Hstep as (x & Hc & Hs). destruct (in_stage x) as [|e| | |] eqn:Hst; try done.
    apply bind_Some in Hs as (y & He & Hs). destruct (ex_stage y) eqn:Hy; try done. injection Hs as <-.
    unfold brokerWork. cbn. pose proof (total_put waiterWork _ _ _ (receive c y) He) as H1.
    pose proof (total_put incomingWork _ _ _ (setIncoming (Delivered e) x) Hc) as H2.
    unfold waiterWork, incomingWork in H1, H2. cbn in H1, H2. rewrite Hy in H1. rewrite Hst in H2. unfold waiterWork, incomingWork. lia.
  - apply bind_Some in Hstep as (x & Hc & Hs). destruct (in_stage x) as [|e| | |] eqn:Hst; try done.
    apply bind_Some in Hs as (y & He & Hs). destruct (isDone y); [|done]. injection Hs as <-.
    apply work_incoming; [done| |done|done]. unfold incomingWork. cbn. rewrite Hst. lia.
Qed.

(** Every goroutine has ended, and the map holds nothing. *)
Definition settled (b : broker) : Prop :=
  br_waiting b = ∅
  ∧ map_Forall (λ _ y, ex_stage y = Gone) (br_expectations b)
  ∧ map_Forall (λ _ x, in_stage x ≠ Arrived ∧ ∀ e, in_stage x ≠ Offering e) (br_incoming b).

Lemma waiter_steps e y b :
  br_expectations b !! e = Some y → ex_stage y ≠ Gone → ∃ ev b', isNew ev = false ∧ brokerStep ev b = Some b'.
Proof.
  intros He Hst. destruct (ex_stage y) eqn:Hs; [exists (EvRequested e true)|exists (EvTimeout e)|exists (EvClose e)|exists (EvForget e)|done];
    eexists; (split; [done|]); cbn; rewrite He; cbn; rewrite Hs; done.
Qed.

Lemma incoming_steps c x b :
  brokerInv b → br_incoming b !! c = Some x → map_Forall (λ _ y, ex_stage y = Gone) (br_expectations b) →
  (in_stage x = Arrived ∨ ∃ e, in_stage x = Offering e) → ∃ ev b', isNew ev = false ∧ brokerStep ev b = Some b'.
Proof.
  intros Hinv Hc Hgone [Hs|[e Hs]].
  - exists (EvTake c). eexists. split; [done|]. cbn. rewrite Hc. cbn. by rewrite Hs.
  - destruct (bi_claims _ Hinv c x e Hc) as (y & He & _); [by left|].
    exists (EvDrop c). eexists. split; [done|]. cbn. rewrite Hc. cbn. rewrite Hs, He. cbn.
    unfold isDone. by rewrite (Hgone e y He).
Qed.

Lemma settled_or_steps b : brokerInv b → settled b ∨ ∃ ev b', isNew ev = false ∧ brokerStep ev b = Some b'.
Proof.
  intros Hinv.
  destruct (decide (map_Forall (λ _ y, ex_stage y = Gone) (br_expectations b))) as [Hgone|Hn].
  2:{ right. apply map_not_Forall in Hn as (e & y & He & Hst); [|solve_decision]. eauto using waiter_steps. }
  destruct (decide (map_Forall (λ _ x, incomingWork x = 0) (br_incoming b))) as [Hend|Hn].
  2:{ right. apply map_not_Forall in Hn as (c & x & Hc & Hx); [|solve_decision]. eapply incoming_steps; [done..|].
      unfold incomingWork in Hx. destruct (in_stage x) eqn:Hs; eauto; done. }
  left. split_and!; [|done|].
  - apply map_empty. intros r. destruct (br_waiting b !! r) as [e|] eqn:Hr; [|done].
    destruct (bi_waiting _ Hinv r e Hr) as (y & He & _ & Hst & _). by destruct (Hst (Hgone e y He)).
  - intros c x Hc. pose proof (Hend c x Hc) as Hw. unfold incomingWork in Hw. by destruct (in_stage x).
Qed.

(** ** Properties *)

(** C27. A reverse connection reaches the one goroutine that waits for it.
    However expectations, incoming connections, time-outs and cancellations
    are interleaved: a connection that was delivered is the one its waiter
    received, and the request, the node and the service are those the waiter
    expected; what a waiter received was delivered to it alone; and an entry
    of the map belongs to a goroutine that is still there and has received
    nothing. *)
Theorem broker_exclusive events b (Hrun : brokerRun events reverseBroker = Some b) :
  (∀ c x e, br_incoming b !! c = Some x → in_stage x = Delivered e →
     ∃ y, br_expectations b !! e = Some y ∧ ex_got y = Some c ∧ agrees x y)
  ∧ (∀ e y c, br_expectations b !! e = Some y → ex_got y = Some c →
       ∃ x, br_incoming b !! c = Some x ∧ in_stage x = Delivered e ∧ agrees x y)
  ∧ (∀ r e, br_waiting b !! r = Some e →
       ∃ y, br_expectations b !! e = Some y ∧ ex_request y = r ∧ ex_stage y ≠ Gone ∧ ex_got y = None).
Proof.
  pose proof (brokerInv_run _ _ _ brokerInv_start Hrun) as Hinv. split_and!.
  - intros c x e Hc Hs. destruct (bi_delivered _ Hinv c x e Hc Hs) as (y & He & Hg).
    destruct (bi_claims _ Hinv c x e Hc) as (z & He' & Ha); [by right|]. simplify_eq. eauto.
  - intros e y c He Hg. destruct (bi_got _ Hinv e y c He Hg) as (_ & x & Hc & Hs).
    destruct (bi_claims _ Hinv c x e Hc) as (z & He' & Ha); [by right|]. simplify_eq. eauto.
  - intros r e Hr. destruct (bi_waiting _ Hinv r e Hr) as (y & ? & ? & ? & ? & _). eauto.
Qed.

(** C38. No goroutine of the broker hangs and no entry is left behind: from
    every state that expectations, connections and the rest can lead to, once
    no new goroutine starts, any sequence of further events is bounded by the
    work that is left, a next event is possible as long as one goroutine has
    not ended, and some sequence ends with the map empty, every expectation
    removed, and every connection delivered, dropped or refused. *)
Theorem broker_drains events b (Hrun : brokerRun events reverseBroker = Some b) :
  (∀ later b', Forall (λ ev, isNew ev = false) later → brokerRun later b = Some b' → (length later ≤ brokerWork b)%nat)
  ∧ (settled b ∨ ∃ ev b', isNew ev = false ∧ brokerStep ev b = Some b')
  ∧ ∃ later b', Forall (λ ev, isNew ev = false) later ∧ brokerRun later b = Some b' ∧ settled b'.
Proof.
  pose proof (brokerInv_run _ _ _ brokerInv_start Hrun) as Hinv. clear Hrun. split_and!.
  - clear Hinv. intros later. revert b. induction later as [|ev later IH]; cbn; intros b b' Hl Hr; [lia|].
    apply Forall_cons in Hl as [He Hl]. apply bind_Some in Hr as (b1 & Hs & Hr).
    pose proof (step_works _ _ _ Hs He). specialize (IH b1 b' Hl Hr). lia.
  - by apply settled_or_steps.
  - remember (brokerWork b) as n eqn:Hn. revert b Hinv Hn. induction (lt_wf n) as [n _ IH]. intros b Hinv ->.
    destruct (settled_or_steps b Hinv) as [Hs|(ev & b1 & He & Hs)]; [exists [], b; by split_and!|].
    destruct (IH (brokerWork b1) (step_works _ _ _ Hs He) b1 (brokerInv_step _ _ _ Hinv Hs) eq_refl) as (later & b' & Hl & Hr & Hset).
    exists (ev :: later), b'. split; [by constructor|]. split; [|done]. cbn. by rewrite Hs.
Qed.

(** ** Examples *)

(** Two nodes answer one expectation; the second expectation of the request
    takes the first one's place, and times out. *)
Definition brokerEvents : list brokerEvent :=
  [EvExpect 0 "r" "node-b" "nas"; EvRequested 0 true; EvArrive 0 "r" "node-c" "nas"; EvTake 0;
   EvArrive 1 "r" "node-b" "nas"; EvTake 1; EvArrive 2 "r" "node-b" "nas"; EvTake 2;
   EvExpect 1 "r" "node-b" "nas"; EvRequested 1 true; EvHand 1; EvTimeout 1].

Definition brokerAfter : broker := default reverseBroker (brokerRun brokerEvents reverseBroker).

Lemma broker_exclusive_witness :
  (in_stage <$> br_incoming brokerAfter !! 1) = Some (Delivered 0)
  ∧ (in_stage <$> br_incoming brokerAfter !! 0) = Some Unexpected
  ∧ (in_stage <$> br_incoming brokerAfter !! 2) = Some Unexpected
  ∧ ∃ y, br_expectations brokerAfter !! 0 = Some y ∧ ex_got y = Some 1.
Proof.
  split; [by vm_compute|]. split; [by vm_compute|]. split; [by vm_compute|].
  destruct (broker_exclusive brokerEvents brokerAfter) as (H & _); [by vm_compute|].
  destruct (br_incoming brokerAfter !! 1) as [x|] eqn:Hx; [|by vm_compute in Hx].
  destruct (H 1 x 0 Hx) as (y & Hy & Hg & _); [vm_compute in Hx; by injection Hx as <-|]. eauto.
Defined.

Lemma broker_drains_witness :
  brokerWork brokerAfter = 4
  ∧ ∃ later b', Forall (λ ev, isNew ev = false) later ∧ brokerRun later brokerAfter = Some b' ∧ settled b'.
Proof.
  split; [by vm_compute|].
  destruct (broker_drains brokerEvents brokerAfter) as (_ & _ & H); [by vm_compute|]. exact H.
Defined.
