(* ===== verification/Bridge.v ===== *)
(** * The bridge between two connections

    bridgeReaders (relay_protocol.go) carries the bytes of two connections to
    each other: a goroutine for each direction runs [io.Copy] — it reads what has
    arrived and writes it to the other connection, until the end of the stream or
    an error — and then half-closes the other connection.  Every event is one
    [Read], a part of a [Write], or the [CloseWrite] of a goroutine, or something
    a peer does; the two goroutines and the peers run interleaved.  A [Write]
    blocks, for there is no deadline, while the connection takes no more: until
    the peer reads, or the write fails. *)
From S2P Require Import Prelude.

(** ** State *)

(** A connection: what has arrived and not been read — for the left one first
    what its [bufio.Reader] has read ahead —, whether its peer has ended its
    stream, what has been written to it, whether its writing half is closed, and
    how many more bytes it takes before its peer has to read.  [closeWrite] does
    nothing on a connection that is no half closer. *)
Record endpoint := mkEndpoint {
  ep_unread : list ascii;
  ep_ended : bool;
  ep_written : list ascii;
  ep_shut : bool;
  ep_halfCloser : bool;
  ep_room : nat;
}.

(** A goroutine of the bridge: in [io.Copy], without or with bytes it has read;
    before [closeWrite]; or done.  [failed]: [io.Copy] returned an error. *)
Inductive copier := Copying | Holding (chunk : list ascii) | Closing (failed : bool) | Done (failed : bool).

Record bridging := mkBridging { bd_left : endpoint; bd_right : endpoint; bd_forward : copier; bd_back : copier }.

(** [Forward]: from left to right. *)
Inductive direction := Forward | Back.
#[export] Instance direction_eq_dec : EqDecision direction.
Proof. solve_decision. Defined.

(** [bridgeReaders(leftReader, left, right)]: the reader of the left connection
    holds [buffered]. *)
Definition bridgeReaders (buffered : list ascii) (left right : endpoint) : bridging :=
  mkBridging (mkEndpoint (buffered ++ ep_unread left) (ep_ended left) (ep_written left) (ep_shut left)
      (ep_halfCloser left) (ep_room left)) right Copying Copying.
Definition bridge (left right : endpoint) : bridging := bridgeReaders [] left right.

(** ** The two directions *)

Definition sourceOf (d : direction) (b : bridging) : endpoint :=
  match d with Forward => bd_left b | Back => bd_right b end.
Definition sinkOf (d : direction) (b : bridging) : endpoint :=
  match d with Forward => bd_right b | Back => bd_left b end.
Definition copierOf (d : direction) (b : bridging) : copier :=
  match d with Forward => bd_forward b | Back => bd_back b end.
Definition setSource (d : direction) (f : endpoint → endpoint) (b : bridging) : bridging :=
  match d with
  | Forward => mkBridging (f (bd_left b)) (bd_right b) (bd_forward b) (bd_back b)
  | Back => mkBridging (bd_left b) (f (bd_right b)) (bd_forward b) (bd_back b)
  end.
Definition setSink (d : direction) : (endpoint → endpoint) → bridging → bridging :=
  setSource (match d with Forward => Back | Back => Forward end).
Definition setCopier (d : direction) (c : copier) (b : bridging) : bridging :=
  match d with
  | Forward => mkBridging (bd_left b) (bd_right b) c (bd_back b)
  | Back => mkBridging (bd_left b) (bd_right b) (bd_forward b) c
  end.

Definition setUnread (f : list ascii → list ascii) (e : endpoint) : endpoint :=
  mkEndpoint (f (ep_unread e)) (ep_ended e) (ep_written e) (ep_shut e) (ep_halfCloser e) (ep_room e).
Definition setEnded (e : endpoint) : endpoint :=
  mkEndpoint (ep_unread e) true (ep_written e) (ep_shut e) (ep_halfCloser e) (ep_room e).
(** The peer reads [n] bytes. *)
Definition takeUp (n : nat) (e : endpoint) : endpoint :=
  mkEndpoint (ep_unread e) (ep_ended e) (ep_written e) (ep_shut e) (ep_halfCloser e) (ep_room e + n).
(** [connection.Write] has passed on these bytes. *)
Definition write (bytes : list ascii) (e : endpoint) : endpoint :=
  mkEndpoint (ep_unread e) (ep_ended e) (ep_written e ++ bytes) (ep_shut e) (ep_halfCloser e) (ep_room e - length bytes).
Definition closeWrite (e : endpoint) : endpoint :=
  mkEndpoint (ep_unread e) (ep_ended e) (ep_written e) (ep_shut e || ep_halfCloser e) (ep_halfCloser e) (ep_room e).

(** ** Events *)

(** What the peer of the source does: it sends, or ends its stream; what the
    peer of the sink does: it reads [n] of the bytes written to it; and what the
    goroutine does: it reads [n] bytes, the end, or an error; its write passes
    on the next [n] bytes it has, or [n] and then an error; it half-closes. *)
Inductive bridgeEvent :=
  | Arrives (d : direction) (bytes : list ascii)
  | Ends (d : direction)
  | Takes (d : direction) (n : nat)
  | Reads (d : direction) (n : nat)
  | ReadsEnd (d : direction)
  | ReadFails (d : direction)
  | Writes (d : direction) (n : nat)
  | WriteFails (d : direction) (n : nat)
  | Closes (d : direction).

(** The goroutine after a part of its write: it still has bytes, or reads on. *)
Definition afterWrite (rest : list ascii) : copier := match rest with [] => Copying | _ => Holding rest end.

Definition bridgeStep (e : bridgeEvent) (b : bridging) : option bridging :=
  match e with
  | Arrives d bytes =>
      if ep_ended (sourceOf d b) then None else Some (setSource d (setUnread (λ l, l ++ bytes)) b)
  | Ends d => if ep_ended (sourceOf d b) then None else Some (setSource d setEnded b)
  | Takes d n => Some (setSink d (takeUp n) b)
  | Reads d n =>
      match copierOf d b with
      | Copying =>
          let unread := ep_unread (sourceOf d b) in
          if bool_decide (0 < n ≤ length unread)%nat
          then Some (setCopier d (Holding (take n unread)) (setSource d (setUnread (drop n)) b))
          else None
      | _ => None
      end
  | ReadsEnd d =>
      match copierOf d b with
      | Copying =>
          if ep_ended (sourceOf d b) && bool_decide (ep_unread (sourceOf d b) = []) then Some (setCopier d (Closing false) b) else None
      | _ => None
      end
  | ReadFails d => match copierOf d b with Copying => Some (setCopier d (Closing true) b) | _ => None end
  | Writes d n =>
      match copierOf d b with
      | Holding chunk =>
          if bool_decide (0 < n ≤ length chunk)%nat && bool_decide (n ≤ ep_room (sinkOf d b))%nat
          then Some (setCopier d (afterWrite (drop n chunk)) (setSink d (write (take n chunk)) b))
          else None
      | _ => None
      end
  | WriteFails d n =>
      match copierOf d b with
      | Holding chunk =>
          if bool_decide (n < length chunk)%nat && bool_decide (n ≤ ep_room (sinkOf d b))%nat
          then Some (setCopier d (Closing true) (setSink d (write (take n chunk)) b))
          else None
      | _ => None
      end
  | Closes d =>
      match copierOf d b with
      | Closing failed => Some (setCopier d (Done failed) (setSink d closeWrite b))
      | _ => None
      end
  end.

Fixpoint bridgeRun (events : list bridgeEvent) (b : bridging) : option bridging :=
  match events with
  | [] => Some b
  | e :: rest => bridgeStep e b ≫= bridgeRun rest
  end.

(** Both have said so on [done]: [bridgeReaders] returns. *)
Definition isCopied (c : copier) : bool := match c with Done _ => true | _ => false end.
Definition bridgeReturns (b : bridging) : bool := isCopied (bd_forward b) && isCopied (bd_back b).

(** ** One direction *)

(** What a direction is about. *)
Record lane := mkLane {
  ln_unread : list ascii;
  ln_ended : bool;
  ln_copier : copier;
  ln_written : list ascii;
  ln_shut : bool;
  ln_halfCloser : bool;
  ln_room : nat;
}.

Definition laneOf (d : direction) (b : bridging) : lane :=
  mkLane (ep_unread (sourceOf d b)) (ep_ended (sourceOf d b)) (copierOf d b)
    (ep_written (sinkOf d b)) (ep_shut (sinkOf d b)) (ep_halfCloser (sinkOf d b))
    (ep_room (sinkOf d b)).

Definition directionOf (e : bridgeEvent) : direction :=
  match e with
  | Arrives d _ | Ends d | Takes d _ | Reads d _ | ReadsEnd d | ReadFails d | Writes d _ | WriteFails d _ | Closes d => d
  end.

(** The bytes an event brings. *)
Definition arriving (e : bridgeEvent) : list ascii := match e with Arrives _ bytes => bytes | _ => [] end.

(** What an event of its direction does to a lane. *)
Inductive laneStep : bridgeEvent → lane → lane → Prop :=
  | ls_arrives d bytes u c w s h r :
      laneStep (Arrives d bytes) (mkLane u false c w s h r) (mkLane (u ++ bytes) false c w s h r)
  | ls_ends d u c w s h r : laneStep (Ends d) (mkLane u false c w s h r) (mkLane u true c w s h r)
  | ls_takes d n u x c w s h r : laneStep (Takes d n) (mkLane u x c w s h r) (mkLane u x c w s h (r + n))
  | ls_reads d n u x w s h r : (0 < n ≤ length u)%nat →
      laneStep (Reads d n) (mkLane u x Copying w s h r) (mkLane (drop n u) x (Holding (take n u)) w s h r)
  | ls_readsEnd d w s h r :
      laneStep (ReadsEnd d) (mkLane [] true Copying w s h r) (mkLane [] true (Closing false) w s h r)
  | ls_readFails d u x w s h r :
      laneStep (ReadFails d) (mkLane u x Copying w s h r) (mkLane u x (Closing true) w s h r)
  | ls_writes d n u x k w s h r : (0 < n ≤ length k)%nat → (n ≤ r)%nat →
      laneStep (Writes d n) (mkLane u x (Holding k) w s h r)
        (mkLane u x (afterWrite (drop n k)) (w ++ take n k) s h (r - length (take n k)))
  | ls_writeFails d n u x k w s h r : (n < length k)%nat → (n ≤ r)%nat →
      laneStep (WriteFails d n) (mkLane u x (Holding k) w s h r)
        (mkLane u x (Closing true) (w ++ take n k) s h (r - length (take n k)))
  | ls_closes d f u x w s h r :
      laneStep (Closes d) (mkLane u x (Closing f) w s h r) (mkLane u x (Done f) w (s || h) h r).

(** An event acts on its own direction only. *)
Lemma bridgeStep_lane e b b' d :
  bridgeStep e b = Some b' →
  if bool_decide (directionOf e = d) then laneStep e (laneOf d b) (laneOf d b') else laneOf d b' = laneOf d b.
Proof.
  destruct b as [[u1 x1 w1 s1 h1 r1] [u2 x2 w2 s2 h2 r2] c1 c2]. intros H. unfold laneOf.
  destruct e as [d'|d'|d'|d'|d'|d'|d'|d'|d'], d', d; cbn in H |- *;
    repeat (case_match; try discriminate); bool_simpl; simplify_eq; cbn; first [done | by constructor].
Qed.

(** ** What a lane carries *)

Definition held (c : copier) : list ascii := match c with Holding chunk => chunk | _ => [] end.
Definition hasFailed (c : copier) : bool := match c with Closing failed | Done failed => failed | _ => false end.

(** Of [all] the bytes, in their order, the first have been written, then come
    those the goroutine has, those a failed write has lost, and those not read;
    a goroutine that stops without an error has reached the end, and the sink is
    half-closed when it is done and not before; and a goroutine in a write has
    something to write. *)
Record carries (all : list ascii) (shut : bool) (x : lane) : Prop := {
  ca_bytes : ∃ lost, ln_written x ++ held (ln_copier x) ++ lost ++ ln_unread x = all ∧ (hasFailed (ln_copier x) = false → lost = []);
  ca_end : ln_copier x = Closing false ∨ ln_copier x = Done false → ln_ended x = true ∧ ln_unread x = [];
  ca_held : ln_copier x ≠ Holding [];
  ca_shut : ln_shut x = if isCopied (ln_copier x) then shut || ln_halfCloser x else shut;
}.

Lemma held_afterWrite rest : held (afterWrite rest) = rest.
Proof. by destruct rest. Qed.
Lemma afterWrite_goesOn rest :
  hasFailed (afterWrite rest) = false ∧ isCopied (afterWrite rest) = false ∧ afterWrite rest ≠ Holding []
  ∧ ∀ f, afterWrite rest ≠ Closing f ∧ afterWrite rest ≠ Done f.
Proof. by destruct rest. Qed.

Lemma laneStep_carries e x y all shut :
  laneStep e x y → carries all shut x → carries (all ++ arriving e) shut y.
Proof.
  destruct 1 as [d bytes u c w s h r|d u c w s h r|d n u x c w s h r|d n u x w s h r Hn|d w s h r|d u x w s h r
    |d n u x k w s h r Hn Hr|d n u x k w s h r Hn Hr|d f u x w s h r];
    intros [(lost & <- & Hlost) He Hk Hs]; cbn in *;
    (split; cbn; [|first [intros [E|E]; by apply (afterWrite_goesOn (drop n k)) in E|clear Hlost; naive_solver]|try done|try done]).
  - exists lost. split; [by rewrite !app_assoc|done].
  - exists lost. by rewrite !app_nil_r.
  - exists lost. by rewrite !app_nil_r.
  - exists []. rewrite (Hlost eq_refl), app_nil_r. cbn. by rewrite take_drop.
  - destruct u; [cbn in Hn; lia|]. destruct n; [lia|done].
  - exists lost. by rewrite !app_nil_r.
  - exists []. by rewrite (Hlost eq_refl), app_nil_r.
  - exists []. rewrite (Hlost eq_refl), app_nil_r, held_afterWrite. cbn. by rewrite <- app_assoc, (assoc_L _ (take n k)), take_drop.
  - apply afterWrite_goesOn.
  - destruct (afterWrite_goesOn (drop n k)) as (_ & -> & _). done.
  - exists (drop n k). rewrite (Hlost eq_refl). split; [|done]. cbn. rewrite app_nil_r, <- !app_assoc. f_equal.
    by rewrite app_assoc, take_drop.
  - exists lost. by rewrite !app_nil_r.
  - subst. by destruct shut.
Qed.

(** The bytes that came in a direction. *)
Definition arrived (d : direction) (events : list bridgeEvent) : list ascii :=
  flat_map (λ e, if bool_decide (directionOf e = d) then arriving e else []) events.

Lemma bridgeRun_carries events d all shut b b' :
  bridgeRun events b = Some b' → carries all shut (laneOf d b) → carries (all ++ arrived d events) shut (laneOf d b').
Proof.
  revert all b. induction events as [|e events IH]; intros all b; cbn; [intros [= <-]; by rewrite app_nil_r|].
  intros (b1 & H1 & H2)%bind_Some Hc. rewrite app_assoc. apply (IH _ b1 H2).
  pose proof (bridgeStep_lane e b b1 d H1) as Hl. destruct (bool_decide _); [by eapply laneStep_carries|].
  rewrite Hl. by rewrite app_nil_r.
Qed.

(** Before any event. *)
Lemma bridgeReaders_carries buffered left right d :
  let b := bridgeReaders buffered left right in
  carries (ep_written (sinkOf d b) ++ ep_unread (sourceOf d b)) (ep_shut (sinkOf d b)) (laneOf d b).
Proof. destruct d; cbn; (split; cbn; [by exists []|naive_solver|done|done]). Qed.

(** ** The work of a goroutine *)

(** The turns it has left at most, if nothing more arrives: two for each
    byte, and those to its end. *)
Definition copierWork (c : copier) : nat :=
  match c with Copying => 2 | Holding chunk => length chunk + 2 | Closing _ => 1 | Done _ => 0 end.
Definition laneWork (x : lane) : nat := 2 * length (ln_unread x) + copierWork (ln_copier x).

(** An event of a goroutine, not of a peer. *)
Definition isOwn (e : bridgeEvent) : bool := match e with Arrives _ _ | Ends _ | Takes _ _ => false | _ => true end.
Definition ownEvents (events : list bridgeEvent) : nat := sum_list_with (λ e, if isOwn e then 1 else 0)%nat events.

Lemma laneStep_work e x y :
  laneStep e x y → (laneWork y + (if isOwn e then 1 else 0) ≤ laneWork x + 2 * length (arriving e))%nat.
Proof.
  assert (∀ rest, copierWork (afterWrite rest) = (length rest + 2)%nat) as Ha by (by intros []).
  unfold laneWork. destruct 1; cbn; rewrite ?Ha, ?length_app, ?length_drop, ?length_take; lia.
Qed.

Definition bridgeWork (b : bridging) : nat := laneWork (laneOf Forward b) + laneWork (laneOf Back b).

Lemma bridgeStep_work e b b' :
  bridgeStep e b = Some b' → (bridgeWork b' + (if isOwn e then 1 else 0) ≤ bridgeWork b + 2 * length (arriving e))%nat.
Proof.
  intros H. unfold bridgeWork. pose proof (bridgeStep_lane e b b' Forward H) as Hf. pose proof (bridgeStep_lane e b b' Back H) as Hb.
  destruct (directionOf e); cbn in Hf, Hb.
  - apply laneStep_work in Hf. rewrite Hb. lia.
  - apply laneStep_work in Hb. rewrite Hf. lia.
Qed.

Lemma bridgeRun_work events b b' :
  bridgeRun events b = Some b' →
  (bridgeWork b' + ownEvents events ≤ bridgeWork b + 2 * length (arrived Forward events ++ arrived Back events))%nat.
Proof.
  assert (∀ e events, length (arrived Forward (e :: events) ++ arrived Back (e :: events))
      = (length (arriving e) + length (arrived Forward events ++ arrived Back events))%nat) as Hlen.
  { intros e l. unfold arrived. cbn [flat_map]. rewrite !length_app.
    destruct (directionOf e); repeat case_bool_decide; try done; cbn; lia. }
  revert b. induction events as [|e events IH]; intros b; [intros [= <-]; cbn; lia|].
  intros (b1 & H1 & H2)%bind_Some. apply bridgeStep_work in H1. specialize (IH b1 H2). rewrite Hlen.
  change (ownEvents (e :: events)) with ((if isOwn e then 1 else 0) + ownEvents events)%nat. lia.
Qed.

(** What a goroutine does next without an error, when it need not wait. *)
Definition nextOwn (d : direction) (b : bridging) : option bridgeEvent :=
  match copierOf d b with
  | Copying =>
      if bool_decide (ep_unread (sourceOf d b) = []) then (if ep_ended (sourceOf d b) then Some (ReadsEnd d) else None)
      else Some (Reads d (length (ep_unread (sourceOf d b))))
  | Holding chunk =>
      if bool_decide (ep_room (sinkOf d b) = 0)%nat then None
      else Some (Writes d (length chunk `min` ep_room (sinkOf d b)))
  | Closing _ => Some (Closes d)
  | Done _ => None
  end.

Lemma nextOwn_enabled d b e :
  copierOf d b ≠ Holding [] → nextOwn d b = Some e → isOwn e = true ∧ directionOf e = d ∧ is_Some (bridgeStep e b).
Proof.
  intros Hheld. unfold nextOwn. destruct (copierOf d b) as [|k|f|f] eqn:Hc; [| |intros [= <-]; cbn; rewrite Hc; by eauto|done].
  - case_bool_decide as Hu.
    + destruct (ep_ended _) eqn:He; [|done]. intros [= <-]. cbn. rewrite Hc, He, bool_decide_eq_true_2 by done. by eauto.
    + intros [= <-]. cbn. rewrite Hc, bool_decide_eq_true_2; [by eauto|]. destruct (ep_unread _); [done|cbn; lia].
  - case_bool_decide as Hr; [done|]. intros [= <-]. cbn. rewrite Hc.
    assert (0 < length k)%nat by (destruct k; [done|cbn; lia]). rewrite !bool_decide_eq_true_2 by lia. by eauto.
Qed.

(** What keeps a goroutine that is not done from its next turn: its source's
    peer has neither sent nor ended, or its sink's peer has to read. *)
Definition waitsForPeer (d : direction) (b : bridging) : Prop :=
  (copierOf d b = Copying ∧ ep_unread (sourceOf d b) = [] ∧ ep_ended (sourceOf d b) = false)
  ∨ (held (copierOf d b) ≠ [] ∧ ep_room (sinkOf d b) = 0%nat).

Lemma nextOwn_waits d b :
  copierOf d b ≠ Holding [] → nextOwn d b = None → isCopied (copierOf d b) = true ∨ waitsForPeer d b.
Proof.
  intros Hheld. unfold nextOwn, waitsForPeer. destruct (copierOf d b) as [|k|f|f]; [| |done|by left].
  - case_bool_decide; [|done]. destruct (ep_ended _); [done|]. auto.
  - case_bool_decide; [|done]. intros _. right. right. split; [|done]. intros Hk. apply Hheld. by rewrite <- Hk.
Qed.

(** A goroutine in a write its sink has no room for stays there, whatever the
    other goroutine and the source's peer do. *)
Lemma bridgeStep_blocked e b b' d :
  bridgeStep e b = Some b' → held (copierOf d b) ≠ [] → ep_room (sinkOf d b) = 0%nat →
  (∀ n, e ≠ Takes d n) → (∀ n, e ≠ WriteFails d n) →
  copierOf d b' = copierOf d b ∧ ep_room (sinkOf d b') = 0%nat.
Proof.
  intros H Hk Hr Ht Hf. pose proof (bridgeStep_lane e b b' d H) as Hl.
  change (copierOf d b) with (ln_copier (laneOf d b)) in *. change (copierOf d b') with (ln_copier (laneOf d b')).
  change (ep_room (sinkOf d b)) with (ln_room (laneOf d b)) in Hr. change (ep_room (sinkOf d b')) with (ln_room (laneOf d b')).
  case_bool_decide as Hd; [|by rewrite Hl].
  destruct Hl as [| |d' n| | | |d' n u x k w s h r Hn Hroom|d' n| ]; cbn in *; subst; try done.
  - by destruct (Ht n).
  - lia.
  - by destruct (Hf n).
Qed.

Lemma bridgeRun_blocked events b b' d :
  bridgeRun events b = Some b' → held (copierOf d b) ≠ [] → ep_room (sinkOf d b) = 0%nat →
  Forall (λ e, (∀ n, e ≠ Takes d n) ∧ ∀ n, e ≠ WriteFails d n) events → copierOf d b' = copierOf d b.
Proof.
  intros Hrun Hk Hr Hall. revert b Hrun Hk Hr. induction Hall as [|e events [Ht Hf] _ IH]; intros b; [by intros [= <-]|].
  intros (b1 & H1 & H2)%bind_Some Hk Hr. destruct (bridgeStep_blocked e b b1 d H1 Hk Hr Ht Hf) as [Hc Hr1].
  rewrite <- Hc. apply IH; [done|by rewrite Hc|done].
Qed.

(** Own events of the goroutines end no stream and bring nothing. *)
Lemma ownStep_ended e b b' d : bridgeStep e b = Some b' → isOwn e = true → ep_ended (sourceOf d b') = ep_ended (sourceOf d b).
Proof.
  intros H Ho. pose proof (bridgeStep_lane e b b' d H) as Hl. change (ln_ended (laneOf d b') = ln_ended (laneOf d b)).
  destruct (bool_decide _); [|by rewrite Hl]. by destruct Hl.
Qed.

(** The sink of a direction takes all there is to write. *)
Definition roomFor (d : direction) (b : bridging) : Prop :=
  (length (held (copierOf d b)) + length (ep_unread (sourceOf d b)) ≤ ep_room (sinkOf d b))%nat.

Lemma ownStep_room e b b' d : bridgeStep e b = Some b' → isOwn e = true → roomFor d b → roomFor d b'.
Proof.
  intros H Ho. pose proof (bridgeStep_lane e b b' d H) as Hl.
  change (roomFor d b) with (length (held (ln_copier (laneOf d b))) + length (ln_unread (laneOf d b)) ≤ ln_room (laneOf d b))%nat.
  change (roomFor d b') with (length (held (ln_copier (laneOf d b'))) + length (ln_unread (laneOf d b')) ≤ ln_room (laneOf d b'))%nat.
  destruct (bool_decide _); [|by rewrite Hl].
  destruct Hl; cbn in *; rewrite ?held_afterWrite, ?length_drop, ?length_take; try done; lia.
Qed.

Lemma ownStep_held e b b' d : bridgeStep e b = Some b' → copierOf d b ≠ Holding [] → copierOf d b' ≠ Holding [].
Proof.
  intros H. pose proof (bridgeStep_lane e b b' d H) as Hl.
  change (copierOf d b) with (ln_copier (laneOf d b)). change (copierOf d b') with (ln_copier (laneOf d b')).
  destruct (bool_decide _); [|by rewrite Hl]. destruct Hl as [| | |d' n u x w s h r Hn| | |d' n u x k w s h r| | ]; cbn; try done.
  - intros _. destruct u; [cbn in Hn; lia|]. destruct n; [lia|done].
  - intros _. apply afterWrite_goesOn.
Qed.

Lemma bridge_goesOn b :
  bridgeReturns b = false → (∀ d, ep_ended (sourceOf d b) = true ∧ roomFor d b ∧ copierOf d b ≠ Holding []) →
  ∃ d e, nextOwn d b = Some e.
Proof.
  intros Hr Hend.
  assert (∀ d, isCopied (copierOf d b) = false → ∃ e, nextOwn d b = Some e) as Hnext.
  { intros d Hd. destruct (Hend d) as (He & Hroom & Hheld). destruct (nextOwn d b) as [e|] eqn:Hn; [by exists e|].
    destruct (nextOwn_waits _ _ Hheld Hn) as [H|[(_ & _ & H)|[H1 H2]]]; [congruence|congruence|].
    unfold roomFor in Hroom. destruct (held (copierOf d b)); [done|cbn in Hroom; lia]. }
  apply andb_false_iff in Hr as [Hr|Hr]; [exists Forward|exists Back]; by apply Hnext.
Qed.

(** When both streams have ended and there is room the goroutines finish by
    themselves. *)
Lemma bridge_finishes n b :
  (bridgeWork b ≤ n)%nat → (∀ d, ep_ended (sourceOf d b) = true ∧ roomFor d b ∧ copierOf d b ≠ Holding []) →
  ∃ events b', bridgeRun events b = Some b' ∧ Forall (λ e, isOwn e = true) events ∧ bridgeReturns b' = true.
Proof.
  revert b. induction n as [|n IH]; intros b Hn Hend.
  all: destruct (bridgeReturns b) eqn:Hr; [by exists [], b|].
  all: destruct (bridge_goesOn b Hr Hend) as (d & e & He).
  all: destruct (nextOwn_enabled _ _ _ (proj2 (proj2 (Hend d))) He) as (Ho & _ & b1 & H1).
  all: pose proof (bridgeStep_work _ _ _ H1) as Hw; rewrite Ho in Hw.
  all: assert (arriving e = []) as Ha by (by destruct e); rewrite Ha in Hw; cbn [length] in Hw.
  - lia.
  - destruct (IH b1) as (events & b' & Hrun & Hall & Hret); [lia| |].
    { intros d'. destruct (Hend d') as (H2 & H3 & H4). split_and!; [by rewrite (ownStep_ended e b b1 d')|by eapply ownStep_room|by eapply ownStep_held]. }
    exists (e :: events), b'. split_and!; [cbn; by rewrite H1|by constructor|done].
Qed.

(** ** Properties *)

(** C36. The bridge is transparent, however the reads and writes of its two
    goroutines and the peers are interleaved: in each direction the bytes
    written, in their order, are the first of those that were read ahead, had
    arrived or have arrived since, and no byte is lost unless a read or a write
    has failed; the other connection is half-closed when the goroutine is
    done and not before; and a goroutine that is done without an error has
    passed on everything its peer sent before the end of its stream. *)
Theorem bridge_transparent buffered left right events b d :
  let b0 := bridgeReaders buffered left right in
  let all := ep_written (sinkOf d b0) ++ ep_unread (sourceOf d b0) ++ arrived d events in
  bridgeRun events b0 = Some b →
  ep_written (sinkOf d b) `prefix_of` all
  ∧ (hasFailed (copierOf d b) = false →
     ep_written (sinkOf d b) ++ held (copierOf d b) ++ ep_unread (sourceOf d b) = all)
  ∧ (copierOf d b = Done false → ep_written (sinkOf d b) = all ∧ ep_ended (sourceOf d b) = true)
  ∧ ep_shut (sinkOf d b) = (if isCopied (copierOf d b) then ep_shut (sinkOf d b0) || ep_halfCloser (sinkOf d b)
                            else ep_shut (sinkOf d b0)).
Proof.
  intros b0 all Hrun. pose proof (bridgeRun_carries events d _ _ b0 b Hrun (bridgeReaders_carries buffered left right d)) as [Hb He _ Hs].
  rewrite <- app_assoc in Hb. fold b0 all in Hb, Hs. cbn in Hb, He, Hs. destruct Hb as (lost & <- & Hlost). split_and!.
  - by eexists.
  - intros Hf. by rewrite (Hlost Hf).
  - intros Hd. destruct (He (or_intror Hd)) as [Hend Hu]. rewrite Hd in Hlost |- *. by rewrite (Hlost eq_refl), Hu, app_nil_r.
  - exact Hs.
Qed.

(** C37. What the bridge waits for, with connections that take only so much
    before their peer reads.  Its goroutines take no more turns than two for
    each connection and two for each byte that was there or has arrived, so none
    of them spins; a goroutine that is not done waits only for its source's
    peer to send or to end, or for its sink's peer to read, never for the other
    goroutine; one that waits for its sink's peer waits, without any deadline,
    until that peer reads or the write fails; and once both peers have ended
    their streams, the two finish by themselves as soon as the peers have made
    room for what is left. *)
Theorem bridge_returns buffered left right events b :
  let b0 := bridgeReaders buffered left right in
  bridgeRun events b0 = Some b →
  (ownEvents events ≤ 4 + 2 * (length (ep_unread (bd_left b0)) + length (ep_unread (bd_right b0))
                               + length (arrived Forward events ++ arrived Back events)))%nat
  ∧ (∀ d, nextOwn d b = None → isCopied (copierOf d b) = true ∨ waitsForPeer d b)
  ∧ (∀ d more b', held (copierOf d b) ≠ [] → ep_room (sinkOf d b) = 0%nat → bridgeRun more b = Some b' →
       Forall (λ e, (∀ n, e ≠ Takes d n) ∧ ∀ n, e ≠ WriteFails d n) more → bridgeReturns b' = false)
  ∧ ((∀ d, ep_ended (sourceOf d b) = true) →
     let taken := default b (bridgeRun [Takes Forward (length (held (bd_forward b)) + length (ep_unread (bd_left b)));
                                        Takes Back (length (held (bd_back b)) + length (ep_unread (bd_right b)))] b) in
     ∃ more b', bridgeRun more taken = Some b' ∧ Forall (λ e, isOwn e = true) more ∧ bridgeReturns b' = true).
Proof.
  intros b0 Hrun.
  assert (∀ d, copierOf d b ≠ Holding []) as Hheld.
  { intros d. exact (ca_held _ _ _ (bridgeRun_carries events d _ _ b0 b Hrun (bridgeReaders_carries buffered left right d))). }
  split_and!.
  - pose proof (bridgeRun_work _ _ _ Hrun) as Hw. unfold bridgeWork, laneWork in Hw. cbn in Hw |- *. lia.
  - intros d. by apply nextOwn_waits.
  - intros d more b' Hk Hr Hmore Hall. pose proof (bridgeRun_blocked more b b' d Hmore Hk Hr Hall) as Hc.
    unfold bridgeReturns. destruct d; cbn in *; rewrite Hc.
    + by destruct (bd_forward b).
    + apply andb_false_iff. right. by destruct (bd_back b).
  - intros Hend taken. apply (bridge_finishes (bridgeWork taken)); [done|]. intros d. unfold taken, roomFor.
    pose proof (Hend d) as He. pose proof (Hheld d) as Hk. destruct b as [l r f k], d; cbn in *; (split_and!; [done|lia|done]).
Qed.

(** A request that came with the handshake, an answer, and two ends. *)
Definition quiet (bytes : list ascii) : endpoint := mkEndpoint bytes false [] false true 1.
Definition exchangeEvents : list bridgeEvent :=
  [Arrives Back ["o"%char; "k"%char]; Reads Back 1; Reads Forward 2; Ends Forward; Writes Forward 1; Writes Back 1;
   Takes Forward 4; Writes Forward 1; ReadsEnd Forward; Closes Forward; Reads Back 1; Ends Back].
Definition finishingEvents : list bridgeEvent := [Takes Back 1; Writes Back 1; ReadsEnd Back; Closes Back].
Definition exchangedBridge : bridging :=
  default (bridge (quiet []) (quiet []))
    (bridgeRun (exchangeEvents ++ finishingEvents) (bridgeReaders ["h"%char; "i"%char] (quiet []) (quiet []))).
(** Before the left peer has read the first byte of the answer. *)
Definition waitingBridge : bridging :=
  default (bridge (quiet []) (quiet [])) (bridgeRun exchangeEvents (bridgeReaders ["h"%char; "i"%char] (quiet []) (quiet []))).

Lemma bridge_transparent_witness :
  ep_written (sinkOf Forward exchangedBridge) = ["h"; "i"]%char ∧ ep_written (sinkOf Back exchangedBridge) = ["o"; "k"]%char.
Proof.
  split; [destruct (bridge_transparent ["h"%char; "i"%char] (quiet []) (quiet []) (exchangeEvents ++ finishingEvents) exchangedBridge Forward eq_refl)
            as (_ & _ & H & _)
         |destruct (bridge_transparent ["h"%char; "i"%char] (quiet []) (quiet []) (exchangeEvents ++ finishingEvents) exchangedBridge Back eq_refl)
            as (_ & _ & H & _)]; exact (proj1 (H eq_refl)).
Defined.

Lemma bridge_returns_witness :
  nextOwn Back waitingBridge = None ∧ waitsForPeer Back waitingBridge
  ∧ ∃ more b', bridgeRun more (default waitingBridge (bridgeRun [Takes Forward 0; Takes Back 1] waitingBridge)) = Some b'
      ∧ bridgeReturns b' = true.
Proof.
  split; [reflexivity|].
  destruct (bridge_returns ["h"%char; "i"%char] (quiet []) (quiet []) exchangeEvents waitingBridge eq_refl) as (_ & H1 & _ & H2).
  split.
  - destruct (H1 Back eq_refl) as [E|E]; [discriminate E|exact E].
  - destruct H2 as (more & b' & Hrun & _ & Hr); [by intros []|]. exists more, b'. split; [exact Hrun|exact Hr].
Defined.
