(* ===== verification/Supervisor.v ===== *)
(** * The supervisor of a host's nodes

    superviseProfiles and what it calls (service_supervisor.go): workers are
    started, kept, stopped and replaced as the profiles found by a scan
    ([Host.managedProfiles]) change, and a node process that exits is
    restarted after a growing delay.  The state is that of the goroutines: the
    map of workers, the map of rejected signatures, and every process goroutine
    ever started, with its context and its [done] channel. *)
From S2P Require Import Prelude GoStd Types Host.

Local Open Scope Z_scope.

(** ** State *)

Definition managerScanInterval : Z := 5 * Time.second.
Definition managerGracefulStop : Z := 10 * Time.second.
Definition managerStopTimeout : Z := 15 * Time.second.

(** managedWorker: [cancel] and [done] are those of the goroutine with this
    number. *)
Record managedWorker := mkWorker { wk_profile : managedProfile; wk_process : nat }.

(** A goroutine of [startManagedWorker]: whether its context is cancelled and
    whether [done] is closed. *)
Record process := mkProcess { pc_profile : managedProfile; pc_cancelled : bool; pc_done : bool }.

Record supervisor := mkSupervisor {
  su_workers : gmap string managedWorker;
  su_rejected : gmap string string;
  su_processes : list process;
  su_logged : list string;
  su_tick : nat;
}.

(** What is decided outside: which goroutines, cancelled or not, have ended by
    the moment their channel is looked at; which case a ready [select] of [stopManagedWorker]
    takes; whether the supervisor's own context ends during a wait; the order
    of a [range] over the workers. *)
Class Supervision := {
  hasEnded : nat → nat → bool → bool;
  seesDone : nat → bool;
  outlivesWait : nat → bool;
  workerOrder : nat → gmap string managedWorker → list (string * managedWorker);
  workerOrder_perm : ∀ i m, workerOrder i m ≡ₚ map_to_list m;
}.

Definition Sup (A : Type) : Type := supervisor → A * supervisor.
#[export] Instance Sup_ret : MRet Sup := λ A a s, (a, s).
#[export] Instance Sup_bind : MBind Sup := λ A B k m s, let '(a, s') := m s in k a s'.

Definition inspect {A} (f : supervisor → A) : Sup A := λ s, (f s, s).
Definition modWorkers (f : gmap string managedWorker → gmap string managedWorker) : Sup unit :=
  λ s, (tt, mkSupervisor (f (su_workers s)) (su_rejected s) (su_processes s) (su_logged s) (su_tick s)).
Definition modRejected (f : gmap string string → gmap string string) : Sup unit :=
  λ s, (tt, mkSupervisor (su_workers s) (f (su_rejected s)) (su_processes s) (su_logged s) (su_tick s)).
Definition modProcesses (f : list process → list process) : Sup unit :=
  λ s, (tt, mkSupervisor (su_workers s) (su_rejected s) (f (su_processes s)) (su_logged s) (su_tick s)).
Definition logLine (instance : string) : Sup unit :=
  λ s, (tt, mkSupervisor (su_workers s) (su_rejected s) (su_processes s) (su_logged s ++ [instance]) (su_tick s)).

Definition cancelProcess (p : process) : process := mkProcess (pc_profile p) true (pc_done p).
Definition isDone (i : nat) (s : supervisor) : bool :=
  match su_processes s !! i with Some p => pc_done p | None => false end.

(** ** Operations *)

Section Supervisor.
Context {supervision : Supervision}.

(** Time passes: goroutines end. *)
Definition settle : Sup nat := λ s,
  let n := su_tick s in
  (n, mkSupervisor (su_workers s) (su_rejected s)
        (imap (λ i p, mkProcess (pc_profile p) (pc_cancelled p) (pc_done p || hasEnded n i (pc_cancelled p))) (su_processes s))
        (su_logged s) (S n)).

Definition managedWorkerDone (worker : managedWorker) : Sup bool :=
  _ ← settle;
  inspect (isDone (wk_process worker)).

(** Cancels the worker; [false] when the supervisor's context or the timer
    came first. *)
Definition stopManagedWorker (worker : managedWorker) : Sup bool :=
  modProcesses (alter cancelProcess (wk_process worker)) ;;
  n ← settle;
  ended ← inspect (isDone (wk_process worker));
  mret (ended && seesDone n).

Definition startManagedWorker (profile : managedProfile) : Sup managedWorker :=
  i ← inspect (λ s, length (su_processes s));
  modProcesses (λ l, l ++ [mkProcess profile false false]) ;;
  mret (mkWorker profile i).

Definition waitContext : Sup bool := n ← settle; mret (outlivesWait n).

(** The loop over the workers whose instance is gone. *)
Fixpoint dropWorkers (wanted : gset string) (order : list (string * managedWorker)) : Sup unit :=
  match order with
  | [] => mret tt
  | (instance, worker) :: rest =>
      (if bool_decide (instance ∈ wanted) then mret tt
       else
         stopped ← stopManagedWorker worker;
         if (stopped : bool) then modWorkers (delete instance) else mret tt) ;;
      dropWorkers wanted rest
  end.

(** Stops the worker of [instance], if it has one; [false] when it does not
    stop in time. *)
Definition replaceable (instance : string) (current : option managedWorker) : Sup bool :=
  match current with
  | None => mret true
  | Some worker =>
      stopped ← stopManagedWorker worker;
      (if (stopped : bool) then modWorkers (delete instance) else mret tt) ;;
      mret stopped
  end.

(** [exists && signature unchanged && !managedWorkerDone(current)]. *)
Definition upToDate (profile : managedProfile) (current : option managedWorker) : Sup bool :=
  match current with
  | Some worker =>
      if (mg_signature (wk_profile worker) =? mg_signature profile)%string then
        ended ← managedWorkerDone worker; mret (negb ended)
      else mret false
  | None => mret false
  end.

(** One iteration of the loop over the profiles; [false] when the supervisor
    is told to end. *)
Definition reconcileProfile (profile : managedProfile) : Sup bool :=
  let instance := mg_instance profile in
  current ← inspect (λ s, su_workers s !! instance);
  if negb (mg_ok profile) then
    logged ← inspect (λ s, bool_decide (su_rejected s !! instance = Some (mg_signature profile)));
    (if (logged : bool) then mret tt
     else logLine instance ;; modRejected (insert instance (mg_signature profile))) ;;
    mret true
  else
    modRejected (delete instance) ;;
    if mg_disabled profile then _ ← replaceable instance current; mret true
    else
      same ← upToDate profile current;
      if (same : bool) then mret true else
      free ← replaceable instance current;
      if negb free then mret true else
      worker ← startManagedWorker profile;
      modWorkers (insert instance worker) ;;
      if (mg_role profile =? "coordinator")%string then waitContext else mret true.

Fixpoint reconcileProfiles (profiles : list managedProfile) : Sup unit :=
  match profiles with
  | [] => mret tt
  | p :: rest =>
      continue ← reconcileProfile p;
      if (continue : bool) then reconcileProfiles rest else mret tt
  end.

(** [reconcile], for the outcome of [managedProfiles]; whether its error is
    nil. *)
Definition reconcile (scan : option (list managedProfile)) : Sup bool :=
  match scan with
  | None => mret false
  | Some profiles =>
      order ← inspect (λ s, workerOrder (su_tick s) (su_workers s));
      dropWorkers (list_to_set (mg_instance <$> profiles)) order ;;
      reconcileProfiles profiles ;;
      mret true
  end.

(** What superviseProfiles does when its context ends. *)
Fixpoint cancelWorkers (order : list (string * managedWorker)) : Sup unit :=
  match order with
  | [] => mret tt
  | (_, worker) :: rest => modProcesses (alter cancelProcess (wk_process worker)) ;; cancelWorkers rest
  end.

Definition shutdown : Sup unit :=
  order ← inspect (λ s, workerOrder (su_tick s) (su_workers s));
  cancelWorkers order.

(** The rounds of superviseProfiles, one for each scan; time passes between
    them. *)
Fixpoint superviseRounds (scans : list (option (list managedProfile))) : Sup unit :=
  match scans with
  | [] => mret tt
  | scan :: rest => _ ← reconcile scan; _ ← settle; superviseRounds rest
  end.

(** [superviseProfiles]: the first scan must succeed; whether its error is
    nil. *)
Definition superviseProfiles (first : option (list managedProfile)) (scans : list (option (list managedProfile))) : Sup bool :=
  ok ← reconcile first;
  if negb ok then mret false
  else superviseRounds scans ;; shutdown ;; mret true.
End Supervisor.

Definition idle : supervisor := mkSupervisor ∅ ∅ [] [] 0.

(** ** The restarts of a node process *)

(** After a run of the given length: how long superviseProfile waits, and the
    delay it goes on with. *)
Definition restartDelay (delay ran : Z) : Z * Z :=
  let delay := if Time.minute <=? ran then Time.second else delay in
  (delay, if delay <? 30 * Time.second then
            (if 30 * Time.second <? 2 * delay then 30 * Time.second else 2 * delay)
          else delay).

(** The waits between the runs of a process, from the lengths of its runs. *)
Fixpoint restarts (delay : Z) (runs : list Z) : list Z :=
  match runs with
  | [] => []
  | ran :: rest => let '(wait, next) := restartDelay delay ran in wait :: restarts next rest
  end.

Definition superviseProfile (runs : list Z) : list Z := restarts Time.second runs.

(** ** Invariant *)

(** Every worker is that of its instance and of the goroutine that runs its
    profile; every goroutine that has not ended is the one of its instance's
    worker. *)
Record supInv (s : supervisor) : Prop := {
  si_worker : ∀ i w, su_workers s !! i = Some w →
    mg_instance (wk_profile w) = i ∧ ∃ p, su_processes s !! wk_process w = Some p ∧ pc_profile p = wk_profile w;
  si_live : ∀ k p, su_processes s !! k = Some p → pc_done p = false →
    ∃ w, su_workers s !! mg_instance (pc_profile p) = Some w ∧ wk_process w = k;
}.

(** What the supervisor holds for an instance: its worker, and whether that
    has been cancelled. *)
Definition view (i : string) (s : supervisor) : option (managedWorker * bool) :=
  w ← su_workers s !! i;
  p ← su_processes s !! wk_process w;
  Some (w, pc_cancelled p).

(** A change of one instance's worker. *)
Definition touchesOnly (i : string) (s s' : supervisor) : Prop :=
  supInv s' ∧ (∀ j, j ≠ i → view j s' = view j s) ∧ ∀ k, isDone k s = true → isDone k s' = true.

(** A change of no worker. *)
Definition touchesNone (s s' : supervisor) : Prop :=
  supInv s' ∧ (∀ j, view j s' = view j s) ∧ ∀ k, isDone k s = true → isDone k s' = true.

Lemma supInv_idle : supInv idle.
Proof. split; set_solver. Qed.

Lemma view_worker s i w : supInv s → su_workers s !! i = Some w → ∃ c, view i s = Some (w, c).
Proof. intros Hinv Hw. destruct (si_worker _ Hinv i w Hw) as (_ & p & Hp & _). unfold view. rewrite Hw. cbn. rewrite Hp. eauto. Qed.

Lemma view_None s i : supInv s → view i s = None ↔ su_workers s !! i = None.
Proof.
  intros Hinv. split; [|intros Hw; unfold view; by rewrite Hw].
  intros Hv. destruct (su_workers s !! i) as [w|] eqn:Hw; [|done]. destruct (view_worker s i w Hinv Hw) as [c Hc]. congruence.
Qed.

(** Two workers of one goroutine are of one instance. *)
Lemma worker_unique s i j v w :
  supInv s → su_workers s !! i = Some v → su_workers s !! j = Some w → wk_process v = wk_process w → i = j.
Proof.
  intros Hinv Hv Hw Heq. destruct (si_worker _ Hinv i v Hv) as (<- & p & Hp & Hpv).
  destruct (si_worker _ Hinv j w Hw) as (<- & q & Hq & Hqw). congruence.
Qed.

Lemma touchesOnly_trans i s1 s2 s3 : touchesOnly i s1 s2 → touchesOnly i s2 s3 → touchesOnly i s1 s3.
Proof. intros (_ & H1 & D1) (Hi & H2 & D2). split_and!; [done| |auto]. intros j Hj. by rewrite H2, H1. Qed.
Lemma touchesNone_only i s1 s2 s3 : touchesNone s1 s2 → touchesOnly i s2 s3 → touchesOnly i s1 s3.
Proof. intros (_ & H1 & D1) (Hi & H2 & D2). split_and!; [done| |auto]. intros j Hj. by rewrite H2, H1. Qed.
Lemma touchesOnly_none i s1 s2 s3 : touchesOnly i s1 s2 → touchesNone s2 s3 → touchesOnly i s1 s3.
Proof. intros (_ & H1 & D1) (Hi & H2 & D2). split_and!; [done| |auto]. intros j Hj. by rewrite H2, H1. Qed.
Lemma touchesNone_is i s s' : touchesNone s s' → touchesOnly i s s'.
Proof. intros (? & H & ?). by split_and!. Qed.
Lemma touchesNone_trans s1 s2 s3 : touchesNone s1 s2 → touchesNone s2 s3 → touchesNone s1 s3.
Proof. intros (_ & H1 & D1) (Hi & H2 & D2). split_and!; [done| |auto]. intros j. by rewrite H2, H1. Qed.

Section Rules.
Context {supervision : Supervision}.

Lemma settle_none s : supInv s → touchesNone s (settle s).2.
Proof.
  intros [H1 H2]. split_and!; [split; cbn| |].
  - intros i w Hw. destruct (H1 i w Hw) as (? & p & Hp & ?). split; [done|]. rewrite list_lookup_imap, Hp. cbn. eauto.
  - intros k p. rewrite list_lookup_imap, fmap_Some. intros (q & Hq & ->) Hd. cbn in Hd |- *.
    apply orb_false_iff in Hd as [Hd _]. by apply H2.
  - intros j. unfold view. cbn. destruct (su_workers s !! j) as [w|]; [|done]. cbn. rewrite list_lookup_imap.
    by destruct (su_processes s !! wk_process w).
  - intros k. unfold isDone. cbn. rewrite list_lookup_imap. destruct (su_processes s !! k); [|done]. cbn. by intros ->.
Qed.

Lemma cancel_inv k s : supInv s → supInv (modProcesses (alter cancelProcess k) s).2.
Proof.
  intros [H1 H2]. split; cbn.
  - intros i w Hw. destruct (H1 i w Hw) as (? & p & Hp & ?). split; [done|].
    destruct (decide (wk_process w = k)) as [<-|]; [rewrite list_lookup_alter_eq, Hp|rewrite list_lookup_alter_ne by done]; cbn; eauto.
  - intros j p Hp Hd. destruct (decide (j = k)) as [->|].
    + rewrite list_lookup_alter_eq in Hp. apply fmap_Some in Hp as (q & Hq & ->). cbn in Hd |- *. by apply H2.
    + rewrite list_lookup_alter_ne in Hp by done. by apply H2.
Qed.

Lemma cancel_only i w s :
  supInv s → su_workers s !! i = Some w →
  let s' := (modProcesses (alter cancelProcess (wk_process w)) s).2 in
  touchesOnly i s s' ∧ view i s' = Some (w, true).
Proof.
  intros Hinv Hw. cbn zeta. split; [split_and!|].
  - by apply cancel_inv.
  - intros j Hj. unfold view. cbn. destruct (su_workers s !! j) as [v|] eqn:Hv; [|done]. cbn.
    rewrite list_lookup_alter_ne; [done|]. intros Heq. destruct Hj. by eapply worker_unique.
  - intros k. unfold isDone. cbn. rewrite list_lookup_alter. case_decide as Hk; [|done].
    subst k. by destruct (su_processes s !! wk_process w).
  - unfold view. cbn. rewrite Hw. cbn. rewrite list_lookup_alter_eq. destruct (si_worker _ Hinv i w Hw) as (_ & p & Hp & _). by rewrite Hp.
Qed.

Lemma delete_only i w s :
  supInv s → su_workers s !! i = Some w → isDone (wk_process w) s = true →
  touchesOnly i s (modWorkers (delete i) s).2 ∧ view i (modWorkers (delete i) s).2 = None.
Proof.
  intros Hinv Hw Hd. split; [split_and!|].
  - split; cbn.
    + intros j v [_ Hv]%lookup_delete_Some. by apply (si_worker _ Hinv).
    + intros k p Hp Hpd. destruct (si_live _ Hinv k p Hp Hpd) as (v & Hv & Hk). exists v. split; [|done].
      rewrite lookup_delete_ne; [done|]. intros ->. unfold isDone in Hd. assert (v = w) as -> by congruence.
      rewrite Hk, Hp in Hd. congruence.
  - intros j Hj. unfold view. cbn. by rewrite lookup_delete_ne.
  - done.
  - unfold view. cbn. by rewrite lookup_delete_eq.
Qed.

Lemma start_only p s :
  supInv s → su_workers s !! mg_instance p = None →
  let started := (modProcesses (λ l, l ++ [mkProcess p false false]) s).2 in
  let s' := (modWorkers (insert (mg_instance p) (mkWorker p (length (su_processes s)))) started).2 in
  touchesOnly (mg_instance p) s s' ∧ view (mg_instance p) s' = Some (mkWorker p (length (su_processes s)), false).
Proof.
  intros Hinv Hw. cbn. split; [split_and!|].
  - split; cbn.
    + intros i w [[<- <-]|[Hi Hv]]%lookup_insert_Some; cbn.
      * split; [done|]. rewrite list_lookup_middle by done. eauto.
      * destruct (si_worker _ Hinv i w Hv) as (? & q & Hq & ?). split; [done|]. exists q. by rewrite lookup_app, Hq.
    + intros k q [Hq|(Hk & Hq)]%lookup_app_Some Hd.
      * destruct (si_live _ Hinv k q Hq Hd) as (v & Hv & ?). exists v. split; [|done]. rewrite lookup_insert_ne; [done|]. congruence.
      * apply list_lookup_singleton_Some in Hq as (Hq & <-). cbn. rewrite lookup_insert_eq. eexists. split; [done|]. cbn. lia.
  - intros j Hj. unfold view. cbn. rewrite lookup_insert_ne by done. destruct (su_workers s !! j) as [v|] eqn:Hv; [|done]. cbn.
    destruct (si_worker _ Hinv j v Hv) as (_ & q & Hq & _). by rewrite lookup_app, Hq.
  - intros k. unfold isDone. cbn. rewrite lookup_app. by destruct (su_processes s !! k).
  - unfold view. cbn. rewrite lookup_insert_eq. cbn. by rewrite list_lookup_middle.
Qed.

(** What is not a worker or a process does not matter. *)
Lemma same_none s s' :
  supInv s → su_workers s' = su_workers s → su_processes s' = su_processes s → touchesNone s s'.
Proof.
  intros [H1 H2] Hw Hp. split_and!; [split; by rewrite Hw, Hp| |].
  - intros j. unfold view. by rewrite Hw, Hp.
  - intros k. unfold isDone. by rewrite Hp.
Qed.

(** ** The operations *)

(** Every goroutine that is cancelled ends before the manager gives up waiting
    for it. *)
Definition prompt : Prop := (∀ n k, hasEnded n k true = true) ∧ ∀ n, seesDone n = true.

Lemma settle_cancelled s i w :
  prompt → view i s = Some (w, true) → isDone (wk_process w) (settle s).2 = true.
Proof.
  intros [He _] (v & _ & (p & Hp & Heq)%bind_Some)%bind_Some. injection Heq as -> Hc.
  unfold isDone. cbn. rewrite list_lookup_imap, Hp. cbn. by rewrite Hc, He, orb_true_r.
Qed.

Lemma stop_spec i w s :
  supInv s → su_workers s !! i = Some w →
  ∃ b s', stopManagedWorker w s = (b, s') ∧ touchesOnly i s s' ∧ view i s' = Some (w, true)
    ∧ su_workers s' = su_workers s ∧ (b = true → isDone (wk_process w) s' = true) ∧ (prompt → b = true).
Proof.
  intros Hinv Hw. destruct (cancel_only i w s Hinv Hw) as [Hc Hv]. cbn zeta in Hc, Hv.
  set (s1 := (modProcesses (alter cancelProcess (wk_process w)) s).2) in *.
  pose proof (settle_none s1 (proj1 Hc)) as Hn.
  exists (isDone (wk_process w) (settle s1).2 && seesDone (settle s1).1), (settle s1).2. split_and!.
  - reflexivity.
  - by eapply touchesOnly_none.
  - by rewrite (proj1 (proj2 Hn) i).
  - done.
  - by intros [? _]%andb_true_iff.
  - intros Hp. rewrite (settle_cancelled s1 i w Hp Hv). by rewrite (proj2 Hp).
Qed.

Lemma replaceable_spec i s :
  supInv s →
  ∃ b s', replaceable i (su_workers s !! i) s = (b, s') ∧ touchesOnly i s s'
    ∧ (if b then view i s' = None ∧ ∀ w c, view i s = Some (w, c) → isDone (wk_process w) s' = true
       else ∃ w c, view i s = Some (w, c) ∧ view i s' = Some (w, true))
    ∧ (prompt → b = true).
Proof.
  intros Hinv. destruct (su_workers s !! i) as [w|] eqn:Hw; cbn.
  2:{ exists true, s. split_and!; [done..| | |done]; unfold view; by rewrite Hw. }
  destruct (stop_spec i w s Hinv Hw) as (b & s1 & Hs & Ht & Hv & Hws & Hd & Hprompt). destruct (view_worker s i w Hinv Hw) as [c Hc].
  destruct b.
  - destruct (delete_only i w s1 (proj1 Ht)) as [Hdel Hnone]; [by rewrite Hws|by apply Hd|].
    exists true, (modWorkers (delete i) s1).2. split_and!.
    + unfold mbind, Sup_bind. rewrite Hs. reflexivity.
    + by eapply touchesOnly_trans.
    + done.
    + intros w' c' Hc'. rewrite Hc in Hc'. injection Hc' as <- <-. by apply Hd.
    + done.
  - exists false, s1. split_and!; [|done|eauto|done]. unfold mbind, Sup_bind. rewrite Hs. reflexivity.
Qed.

Lemma upToDate_spec p i s :
  supInv s →
  ∃ b s', upToDate p (su_workers s !! i) s = (b, s') ∧ touchesNone s s' ∧ su_workers s' = su_workers s
    ∧ (if b then ∃ w c, view i s = Some (w, c) ∧ mg_signature (wk_profile w) = mg_signature p
                   ∧ isDone (wk_process w) s' = false ∧ (prompt → c = false)
       else ∀ w c, view i s = Some (w, c) → mg_signature (wk_profile w) = mg_signature p → isDone (wk_process w) s' = true).
Proof.
  intros Hinv. destruct (su_workers s !! i) as [w|] eqn:Hw; cbn.
  2:{ exists false, s. split_and!; [done| |done|]. { by apply same_none. } unfold view. by rewrite Hw. }
  destruct (view_worker s i w Hinv Hw) as [c Hc]. rewrite Hc.
  destruct (mg_signature (wk_profile w) =? mg_signature p)%string eqn:Heq.
  - apply String.eqb_eq in Heq. exists (negb (isDone (wk_process w) (settle s).2)), (settle s).2.
    split_and!; [reflexivity|by apply settle_none|done|].
    destruct (isDone (wk_process w) (settle s).2) eqn:Hd; cbn; [intros ? ? [= <- <-] _; exact Hd|].
    exists w, c. split_and!; [done..|]. intros Hp. destruct c; [|done]. by rewrite (settle_cancelled s i w Hp Hc) in Hd.
  - apply String.eqb_neq in Heq. exists false, s. split_and!; [done| |done|]. { by apply same_none. } intros ? ? [= <- <-]. done.
Qed.

(** ** A scan *)

(** What a scan, of the state [s0], that finds [p] makes of its worker: nothing,
    when the profile is not valid; a stop, when the node is disabled; nothing,
    when the worker runs this configuration and has not ended before the scan;
    else a worker that runs it, or the old one, cancelled, when that has not
    stopped in time.  A worker of the same configuration is replaced only after
    it has ended. *)
Definition decided (s0 s : supervisor) (p : managedProfile) (old new : option (managedWorker * bool)) : Prop :=
  if negb (mg_ok p) then new = old
  else if mg_disabled p then new = None ∨ ∃ w c, old = Some (w, c) ∧ new = Some (w, true)
  else (∃ w c, old = Some (w, c) ∧ new = old ∧ mg_signature (wk_profile w) = mg_signature p ∧ isDone (wk_process w) s0 = false)
       ∨ ((∀ w c, old = Some (w, c) → mg_signature (wk_profile w) = mg_signature p → isDone (wk_process w) s = true)
          ∧ ((∃ k, new = Some (mkWorker p k, false)) ∨ ∃ w c, old = Some (w, c) ∧ new = Some (w, true))).

(** The state the profile asks for: as it was, when the profile is not valid;
    no worker, when the node is disabled; else a worker of this configuration,
    not cancelled, which is new or had not ended before the scan. *)
Definition asAsked (s0 : supervisor) (p : managedProfile) (old new : option (managedWorker * bool)) : Prop :=
  if negb (mg_ok p) then new = old
  else if mg_disabled p then new = None
  else ∃ w, new = Some (w, false) ∧ mg_signature (wk_profile w) = mg_signature p
         ∧ (wk_profile w = p ∨ old = Some (w, false) ∧ isDone (wk_process w) s0 = false).

(** The outcome of a scan for a profile. *)
Definition settled (s0 s : supervisor) (p : managedProfile) (old new : option (managedWorker * bool)) : Prop :=
  decided s0 s p old new ∧ (prompt → asAsked s0 p old new).

Lemma settled_later s0 s1 s s' p old new :
  (∀ k, isDone k s0 = true → isDone k s1 = true) → (∀ k, isDone k s = true → isDone k s' = true) →
  settled s1 s p old new → settled s0 s' p old new.
Proof.
  assert (∀ k, (isDone k s0 = true → isDone k s1 = true) → isDone k s1 = false → isDone k s0 = false) as Hback.
  { intros k H Hf. destruct (isDone k s0); [|done]. by rewrite H in Hf. }
  unfold settled, decided, asAsked. intros H0 Hd [Hdec Hp]. destruct (negb _); [done|]. destruct (mg_disabled p); [done|]. split.
  - destruct Hdec as [(w & c & ? & ? & ? & Hf)|[He ?]]; [left; exists w, c; by eauto 10|right]. split; [|done]. eauto.
  - intros H. destruct (Hp H) as (w & ? & ? & [?|[? ?]]); exists w; eauto 10.
Qed.

(** The part of an iteration for an enabled node. *)
Definition startOrKeep (p : managedProfile) (current : option managedWorker) : Sup bool :=
  same ← upToDate p current;
  if (same : bool) then mret true else
  free ← replaceable (mg_instance p) current;
  if negb free then mret true else
  worker ← startManagedWorker p;
  modWorkers (insert (mg_instance p) worker) ;;
  if (mg_role p =? "coordinator")%string then waitContext else mret true.

Lemma startOrKeep_spec p s :
  supInv s → mg_ok p = true → mg_disabled p = false →
  ∃ b s', startOrKeep p (su_workers s !! mg_instance p) s = (b, s') ∧ touchesOnly (mg_instance p) s s'
    ∧ settled s s' p (view (mg_instance p) s) (view (mg_instance p) s')
    ∧ ((∀ n, outlivesWait n = true) → b = true).
Proof.
  intros Hinv Hok Hen. unfold settled, decided, asAsked. rewrite Hok, Hen. cbn [negb]. set (i := mg_instance p).
  destruct (upToDate_spec p i s Hinv) as (same & s1 & Hu & Hn1 & Hw1 & Hsame).
  unfold startOrKeep. unfold mbind, Sup_bind. fold i. rewrite Hu. destruct same.
  { destruct Hsame as (w & c & Hv & Hsig & Hd1 & Hprompt).
    assert (isDone (wk_process w) s = false) as Hd0.
    { destruct (isDone (wk_process w) s) eqn:Hd; [|done]. by rewrite (proj2 (proj2 Hn1) _ Hd) in Hd1. }
    exists true, s1. rewrite (proj1 (proj2 Hn1)). split_and!; [reflexivity|by apply touchesNone_is| | |done].
    - left. by exists w, c.
    - intros Hp. exists w. rewrite Hv, (Hprompt Hp). auto. }
  destruct (replaceable_spec i s1 (proj1 Hn1)) as (free & s2 & Hr & Ht & Hfree & Hprompt). rewrite Hw1 in Hr. rewrite Hr.
  assert (touchesOnly i s s2) as Ht2 by (by eapply touchesNone_only).
  assert (∀ w c, view i s = Some (w, c) → mg_signature (wk_profile w) = mg_signature p → isDone (wk_process w) s2 = true) as Hdone
    by (intros w c Hv Hsig; apply (proj2 (proj2 Ht)); by eapply Hsame).
  destruct free; cbn [negb].
  2:{ exists true, s2. split_and!; [reflexivity|done| |by intros ?%Hprompt|done]. right. split; [done|]. right.
      destruct Hfree as (w & c & Hv & Hv'). exists w, c. split; [|done]. by rewrite <- (proj1 (proj2 Hn1)). }
  destruct (start_only p s2 (proj1 Ht)) as [Hst Hview]; [apply view_None, Hfree; apply Ht|]. cbn zeta in Hst, Hview. fold i in Hst, Hview.
  set (s3 := (modWorkers _ _).2) in Hst, Hview.
  assert (touchesOnly i s s3) as Ht3 by (by eapply touchesOnly_trans).
  pose proof (settle_none s3 (proj1 Ht3)) as Hn4.
  assert (∀ s', touchesNone s3 s' → touchesOnly i s s' ∧
    (((∃ w c, view i s = Some (w, c) ∧ view i s' = view i s ∧ mg_signature (wk_profile w) = mg_signature p ∧ isDone (wk_process w) s = false)
     ∨ ((∀ w c, view i s = Some (w, c) → mg_signature (wk_profile w) = mg_signature p → isDone (wk_process w) s' = true)
        ∧ ((∃ k, view i s' = Some (mkWorker p k, false)) ∨ ∃ w c, view i s = Some (w, c) ∧ view i s' = Some (w, true))))
     ∧ (prompt → ∃ w, view i s' = Some (w, false) ∧ mg_signature (wk_profile w) = mg_signature p
          ∧ (wk_profile w = p ∨ view i s = Some (w, false) ∧ isDone (wk_process w) s = false)))) as Hend.
  { intros s' Hn. split; [by eapply touchesOnly_none|]. rewrite (proj1 (proj2 Hn) i), Hview. split; [right; split|].
    - intros w c Hv Hsig. apply (proj2 (proj2 Hn)), (proj2 (proj2 Hst)). by eapply Hdone.
    - left. by eexists.
    - intros _. eexists. split; [reflexivity|]. cbn. auto. }
  destruct (mg_role p =? "coordinator")%string.
  - exists (outlivesWait (settle s3).1), (settle s3).2. destruct (Hend _ Hn4) as [H1 H2].
    split; [reflexivity|]. split; [exact H1|]. split; [exact H2|]. intros Hl. apply Hl.
  - exists true, s3. destruct (Hend s3) as [H1 H2]; [apply same_none; [apply Ht3|done..]|].
    split; [reflexivity|]. split; [exact H1|]. by split; [exact H2|].
Qed.

Lemma reconcileProfile_spec p s :
  supInv s →
  ∃ b s', reconcileProfile p s = (b, s') ∧ touchesOnly (mg_instance p) s s'
    ∧ settled s s' p (view (mg_instance p) s) (view (mg_instance p) s')
    ∧ ((∀ n, outlivesWait n = true) → b = true).
Proof.
  intros Hinv. unfold reconcileProfile, settled, decided, asAsked. unfold mbind, Sup_bind, inspect. cbn [fst snd].
  destruct (mg_ok p) eqn:Hok; cbn [negb].
  2:{ case_bool_decide; cbn -[view touchesOnly];
      (eexists true, _; split; [reflexivity|]); (split; [|by split]).
      - by apply touchesNone_is, same_none.
      - by apply touchesNone_is, same_none. }
  set (s1 := (modRejected (delete (mg_instance p)) s).2).
  assert (touchesNone s s1) as Hn1 by (by apply same_none). pose proof (proj1 Hn1) as Hinv1.
  destruct (mg_disabled p) eqn:Hen.
  - destruct (replaceable_spec (mg_instance p) s1 Hinv1) as (b & s2 & Hr & Ht & Hb & Hprompt).
    exists true, s2. split_and!; [|by eapply touchesNone_only| | |done].
    + change (modRejected (delete (mg_instance p)) s) with (tt, s1). cbn beta iota.
      change (su_workers s !! mg_instance p) with (su_workers s1 !! mg_instance p). by rewrite Hr.
    + destruct b; [by left; apply Hb|]. right. by rewrite <- (proj1 (proj2 Hn1)).
    + intros Hp. rewrite (Hprompt Hp) in Hb. apply Hb.
  - destruct (startOrKeep_spec p s1 Hinv1 Hok Hen) as (b & s2 & Hr & Ht & Hdec & Hb).
    exists b, s2. split; [exact Hr|]. split; [by eapply touchesNone_only|]. split; [|done].
    unfold settled, decided, asAsked in Hdec. rewrite Hok, Hen in Hdec. rewrite (proj1 (proj2 Hn1)) in Hdec. exact Hdec.
Qed.

Lemma view_same_worker j s s' :
  supInv s → supInv s' → view j s' = view j s → su_workers s' !! j = su_workers s !! j.
Proof.
  intros H H' Hv. destruct (su_workers s !! j) as [w|] eqn:Hw.
  - destruct (view_worker s j w H Hw) as [c Hc]. rewrite Hc in Hv. unfold view in Hv.
    apply bind_Some in Hv as (v & Hv & (p & _ & Heq)%bind_Some). by injection Heq as <- _.
  - apply view_None in Hw; [|done]. by apply view_None; [|congruence].
Qed.

Lemma dropWorkers_spec wanted order s :
  supInv s → NoDup order.*1 → (∀ i w, (i, w) ∈ order → su_workers s !! i = Some w) →
  let s' := (dropWorkers wanted order s).2 in
  supInv s' ∧ (∀ k, isDone k s = true → isDone k s' = true)
  ∧ (∀ j, j ∈ wanted ∨ j ∉ order.*1 → view j s' = view j s)
  ∧ (∀ j, j ∉ wanted → j ∈ order.*1 → (view j s' = None ∨ ∃ w c, view j s = Some (w, c) ∧ view j s' = Some (w, true)) ∧ (prompt → view j s' = None)).
Proof.
  revert s. induction order as [|[i w] rest IH]; intros s Hinv Hnd Hord; [by split_and!; [| | |intros j _ ?%elem_of_nil]|].
  cbn [fmap list_fmap fst] in Hnd |- *. apply NoDup_cons in Hnd as [Hi Hnd].
  assert (Hw : su_workers s !! i = Some w) by (apply Hord; left).
  assert (∃ s1, dropWorkers wanted ((i, w) :: rest) s = dropWorkers wanted rest s1 ∧ touchesOnly i s s1
          ∧ (i ∈ wanted → view i s1 = view i s)
          ∧ (i ∉ wanted → (view i s1 = None ∨ ∃ w c, view i s = Some (w, c) ∧ view i s1 = Some (w, true))
                           ∧ (prompt → view i s1 = None)))
    as (s1 & Heq & Ht & Hin & Hout).
  { cbn [dropWorkers]. unfold mbind, Sup_bind. case_bool_decide as Hwant; [by exists s; split_and!|].
    destruct (replaceable_spec i s Hinv) as (b & s1 & Hr & Ht & Hb & Hp). rewrite Hw in Hr. cbn in Hr.
    unfold mbind, Sup_bind in Hr. destruct (stopManagedWorker w s) as [b1 s0]. exists s1.
    destruct b1; cbn in Hr |- *; injection Hr as <- <-; (split_and!; [done..|]); intros _; split.
    - left. apply Hb.
    - intros _. apply Hb.
    - by right.
    - by intros ?%Hp. }
  rewrite Heq. pose proof (proj1 Ht) as Hinv1.
  assert (∀ j v, (j, v) ∈ rest → su_workers s1 !! j = Some v) as Hord1.
  { intros j v Hj. rewrite <- (Hord j v) by (by right). apply view_same_worker; [done..|]. apply (proj1 (proj2 Ht)).
    intros ->. apply Hi, list_elem_of_fmap. by exists (i, v). }
  destruct (IH s1 Hinv1 Hnd Hord1) as (Hinv2 & Hd & Hsame & Hdrop). split_and!; [done| | |].
  - intros k Hk. by apply Hd, (proj2 (proj2 Ht)).
  - intros j Hj. destruct (decide (j = i)) as [->|Hne].
    + destruct Hj as [Hj|Hj]; [|by destruct Hj; left]. rewrite Hsame by (by left). by apply Hin.
    + rewrite Hsame; [by apply (proj1 (proj2 Ht))|]. destruct Hj as [?|Hj]; [by left|right]. intros ?. destruct Hj. by right.
  - intros j Hj [->|Hjr]%elem_of_cons.
    + rewrite Hsame by (by right). by apply Hout.
    + assert (j ≠ i) by (by intros ->). rewrite <- (proj1 (proj2 Ht) j) by done. by apply Hdrop.
Qed.

Lemma reconcileProfiles_inv l s : supInv s → supInv (reconcileProfiles l s).2.
Proof.
  revert s. induction l as [|p l IH]; intros s Hinv; [done|]. cbn [reconcileProfiles]. unfold mbind, Sup_bind.
  destruct (reconcileProfile_spec p s Hinv) as (b & s1 & -> & Ht & _). destruct b; [apply IH, Ht|apply Ht].
Qed.

Lemma reconcileProfiles_spec l s :
  supInv s → NoDup (mg_instance <$> l) → (∀ n, outlivesWait n = true) →
  let s' := (reconcileProfiles l s).2 in
  (∀ k, isDone k s = true → isDone k s' = true)
  ∧ (∀ j, j ∉ mg_instance <$> l → view j s' = view j s)
  ∧ ∀ p, p ∈ l → settled s s' p (view (mg_instance p) s) (view (mg_instance p) s').
Proof.
  intros Hinv Hnd Hlives. revert s Hinv. induction l as [|p l IH]; intros s Hinv; [by split_and!; [| |intros p ?%elem_of_nil]|].
  cbn [reconcileProfiles fmap list_fmap] in Hnd |- *. apply NoDup_cons in Hnd as [Hp Hnd]. unfold mbind, Sup_bind.
  destruct (reconcileProfile_spec p s Hinv) as (b & s1 & -> & Ht & Hdec & ->); [|done].
  destruct (IH Hnd s1 (proj1 Ht)) as (Hd & Hsame & Hall). split_and!.
  - intros k Hk. by apply Hd, (proj2 (proj2 Ht)).
  - intros j [Hj1 Hj2]%not_elem_of_cons. rewrite Hsame by done. by apply (proj1 (proj2 Ht)).
  - intros q [->|Hq]%elem_of_cons.
    + rewrite Hsame by done. by eapply settled_later; [|exact Hd|exact Hdec].
    + assert (mg_instance q ≠ mg_instance p) as Hne by (intros Heq; destruct Hp; rewrite <- Heq; by apply list_elem_of_fmap_2).
      rewrite <- (proj1 (proj2 Ht) _ Hne). apply (settled_later s s1 (reconcileProfiles l s1).2); [exact (proj2 (proj2 Ht))|done|by apply Hall].
Qed.

Lemma order_ok s : NoDup (workerOrder (su_tick s) (su_workers s)).*1
  ∧ ∀ i w, (i, w) ∈ workerOrder (su_tick s) (su_workers s) ↔ su_workers s !! i = Some w.
Proof.
  split; [rewrite workerOrder_perm; apply NoDup_fst_map_to_list|]. intros i w. by rewrite workerOrder_perm, elem_of_map_to_list.
Qed.

Lemma reconcile_inv scan s : supInv s → supInv (reconcile scan s).2.
Proof.
  intros Hinv. destruct scan as [l|]; [|done]. unfold reconcile. unfold mbind, Sup_bind, inspect.
  destruct (order_ok s) as [Hnd Hord].
  destruct (dropWorkers_spec (list_to_set (mg_instance <$> l)) _ s Hinv Hnd) as [Hinv1 _]; [by intros i w ?%Hord|].
  destruct (dropWorkers _ _ s) as [u s1]. pose proof (reconcileProfiles_inv l s1 Hinv1) as Hinv2.
  destruct (reconcileProfiles l s1) as [u2 s2]. exact Hinv2.
Qed.

Lemma superviseRounds_inv scans s : supInv s → supInv (superviseRounds scans s).2.
Proof.
  revert s. induction scans as [|scan rest IH]; intros s Hinv; [done|]. cbn [superviseRounds]. unfold mbind, Sup_bind.
  pose proof (reconcile_inv scan s Hinv) as Hinv1. destruct (reconcile scan s) as [b s1].
  pose proof (settle_none s1 Hinv1) as (Hinv2 & _). destruct (settle s1) as [n s2]. by apply IH.
Qed.
End Rules.

(** ** Shutdown *)

Lemma cancelWorkers_spec (order : list (string * managedWorker)) s k p :
  su_processes (cancelWorkers order s).2 !! k = Some p →
  ∃ q, su_processes s !! k = Some q ∧ pc_profile q = pc_profile p ∧ pc_done q = pc_done p
    ∧ (pc_cancelled q = true ∨ k ∈ wk_process <$> order.*2 → pc_cancelled p = true).
Proof.
  revert s. induction order as [|[i w] rest IH]; intros s Hp.
  { exists p. split_and!; try done. intros [?|?%elem_of_nil]; done. }
  destruct (IH _ Hp) as (q & Hq & Hpr & Hd & Hc). cbn in Hq. rewrite list_lookup_alter in Hq. case_decide as Hk.
  - apply fmap_Some in Hq as (r & Hr & ->). exists r. cbn in Hpr, Hd, Hc. subst k.
    split_and!; [done..|]. intros _. apply Hc. left. reflexivity.
  - exists q. split_and!; [done..|]. intros [Hq'|[->|Hin]%elem_of_cons]; [apply Hc; by left|done|apply Hc; by right].
Qed.

Section Properties.
Context {supervision : Supervision}.

Lemma shutdown_cancels s k p :
  supInv s → su_processes (shutdown s).2 !! k = Some p → pc_done p = false → pc_cancelled p = true.
Proof.
  intros Hinv Hp Hd. destruct (cancelWorkers_spec _ s k p Hp) as (q & Hq & Hpr & Hd' & Hc).
  apply Hc. right. rewrite Hd in Hd'. destruct (si_live _ Hinv k q Hq Hd') as (w & Hw & <-).
  apply list_elem_of_fmap_2, (list_elem_of_fmap_2' _ _ (mg_instance (pc_profile q), w)); [|done].
  by apply order_ok.
Qed.

(** ** Properties *)

(** C28. A node never runs twice.  After any number of rounds of the manager,
    over any scans — failed ones, instances that come, go, are disabled,
    changed or broken — and however goroutines end and fail to stop in time:
    two goroutines that have not ended are of different instances, and each
    is the one of its instance's worker, so that it can still be stopped; and
    when the manager itself ends, every goroutine that still runs has been
    cancelled. *)
Theorem one_process_per_node scans :
  let s := (superviseRounds scans idle).2 in
  (∀ k l p q, su_processes s !! k = Some p → su_processes s !! l = Some q →
     pc_done p = false → pc_done q = false → mg_instance (pc_profile p) = mg_instance (pc_profile q) → k = l)
  ∧ (∀ k p, su_processes s !! k = Some p → pc_done p = false →
       su_workers s !! mg_instance (pc_profile p) = Some (mkWorker (pc_profile p) k))
  ∧ ∀ k p, su_processes (shutdown s).2 !! k = Some p → pc_done p = false → pc_cancelled p = true.
Proof.
  cbn zeta. pose proof (superviseRounds_inv scans idle supInv_idle) as Hinv. split_and!.
  - intros k l p q Hp Hq Hdp Hdq Heq. destruct (si_live _ Hinv k p Hp Hdp) as (v & Hv & <-).
    destruct (si_live _ Hinv l q Hq Hdq) as (w & Hw & <-). rewrite Heq in Hv. congruence.
  - intros k p Hp Hd. destruct (si_live _ Hinv k p Hp Hd) as (w & Hw & <-).
    destruct (si_worker _ Hinv _ w Hw) as (_ & q & Hq & Hpr). rewrite Hw. f_equal. destruct w. cbn in *. congruence.
  - intros k p. by apply shutdown_cancels.
Qed.

(** C32. What a scan makes of the workers.  In a state the manager can be in, a
    scan that is not cut short by the end of the manager decides for each
    profile it found as [decided] says: an invalid profile keeps the worker
    it has, with the last valid configuration; a disabled node is stopped; a
    worker that runs the same configuration and had not ended is left alone,
    and one that has ended is replaced; every other enabled node gets a worker
    that runs the new configuration, or keeps the old one, cancelled, until it
    stops.  The worker of an instance that is gone is removed or cancelled.
    When every cancelled goroutine ends before the manager gives up waiting, the
    scan leaves every node as its profile asks: no worker of a disabled node or
    of an instance that is gone, and a worker of the present configuration, not
    cancelled, for every other valid one.  A failed scan changes nothing. *)
Theorem scan_decides l s (Hinv : supInv s) (Hnd : NoDup (mg_instance <$> l)) (Hlives : ∀ n, outlivesWait n = true) :
  let s' := (reconcile (Some l) s).2 in
  (∀ p, p ∈ l → decided s s' p (view (mg_instance p) s) (view (mg_instance p) s'))
  ∧ (∀ i, i ∉ mg_instance <$> l →
       view i s' = None ∨ ∃ w c, view i s = Some (w, c) ∧ view i s' = Some (w, true))
  ∧ (prompt →
       (∀ p, p ∈ l → asAsked s p (view (mg_instance p) s) (view (mg_instance p) s'))
       ∧ ∀ i, i ∉ mg_instance <$> l → view i s' = None)
  ∧ reconcile None s = (false, s).
Proof.
  cbn zeta. unfold reconcile. unfold mbind, Sup_bind, inspect. destruct (order_ok s) as [Hndo Hord].
  destruct (dropWorkers_spec (list_to_set (mg_instance <$> l)) _ s Hinv Hndo) as (Hinv1 & Hd1 & Hsame1 & Hdrop); [by intros i w ?%Hord|].
  destruct (dropWorkers _ _ s) as [u s1]. cbn [snd] in *.
  destruct (reconcileProfiles_spec l s1 Hinv1 Hnd Hlives) as (Hd2 & Hsame2 & Hdec).
  destruct (reconcileProfiles l s1) as [u2 s2]. cbn [snd] in *.
  assert (∀ p, p ∈ l → settled s s2 p (view (mg_instance p) s) (view (mg_instance p) s2)) as Hall.
  { intros p Hp. rewrite <- (Hsame1 (mg_instance p)); [|left; by apply elem_of_list_to_set, list_elem_of_fmap_2].
    apply (settled_later s s1 s2); [exact Hd1|done|by apply Hdec]. }
  assert (∀ i, i ∉ mg_instance <$> l →
    (view i s2 = None ∨ ∃ w c, view i s = Some (w, c) ∧ view i s2 = Some (w, true)) ∧ (prompt → view i s2 = None)) as Hgone.
  { intros i Hi. rewrite Hsame2 by done. destruct (su_workers s !! i) as [w|] eqn:Hw.
    + apply Hdrop; [by rewrite elem_of_list_to_set|]. apply (list_elem_of_fmap_2' _ _ (i, w)); [by apply Hord|done].
    + assert (view i s1 = None); [|auto]. rewrite Hsame1; [unfold view; by rewrite Hw|]. right. intros ([j v] & -> & Hj%Hord)%list_elem_of_fmap.
      cbn in Hw. congruence. }
  split_and!; [intros p Hp; by apply Hall|intros i Hi; by apply Hgone| |done].
  intros Hp. split; [intros p Hin; by apply Hall|intros i Hi; by apply Hgone].
Qed.
End Properties.

Lemma next_delay delay ran :
  ran < Time.minute → 0 < delay ≤ 30 * Time.second → restartDelay delay ran = (delay, Z.min (2 * delay) (30 * Time.second)).
Proof.
  intros Hr Hd. unfold restartDelay. rewrite (proj2 (Z.leb_gt Time.minute ran)) by done. f_equal.
  destruct (Z.ltb_spec delay (30 * Time.second)); [|lia]. destruct (Z.ltb_spec (30 * Time.second) (2 * delay)); lia.
Qed.

Lemma double_min a d m : 1 ≤ a → 0 < d ≤ m → Z.min (a * Z.min (2 * d) m) m = Z.min (2 * a * d) m.
Proof. intros Ha Hd. destruct (Z.min_spec (2 * d) m) as [[? ->]|[? ->]]; [f_equal; lia|]. rewrite !Z.min_r; nia. Qed.

(** The delay after [k] runs of less than a minute. *)
Lemma restarts_short delay runs k ran :
  0 < delay ≤ 30 * Time.second → Forall (λ r, r < Time.minute) (take (S k) runs) → runs !! k = Some ran →
  restarts delay runs !! k = Some (Z.min (2 ^ Z.of_nat k * delay) (30 * Time.second)).
Proof.
  revert delay runs. induction k as [|k IH]; intros delay [|r runs] Hd Hs Hk; try done; cbn [take] in Hs; apply Forall_cons in Hs as [Hr Hs];
    cbn [restarts]; rewrite next_delay by done; cbn [lookup list_lookup].
  - f_equal. lia.
  - change (list_lookup k ?l) with (l !! k). rewrite IH; [|lia|done|done]. f_equal.
    rewrite Nat2Z.inj_succ, Z.pow_succ_r by lia. apply double_min; [|done]. pose proof (Z.pow_pos_nonneg 2 (Z.of_nat k)). lia.
Qed.

Lemma restarts_bounds delay runs k wait :
  Time.second ≤ delay ≤ 30 * Time.second → restarts delay runs !! k = Some wait → Time.second ≤ wait ≤ 30 * Time.second.
Proof.
  revert delay runs. induction k as [|k IH]; intros delay [|r runs] Hd Hk; try done; cbn [restarts] in Hk;
    unfold restartDelay in Hk; cbn [lookup list_lookup] in Hk.
  - destruct (Time.minute <=? r); injection Hk as <-; unfold Time.second in *; lia.
  - eapply IH, Hk. unfold Time.second in *. destruct (Time.minute <=? r);
    repeat match goal with |- context [?a <? ?b] => destruct (Z.ltb_spec a b) end; lia.
Qed.

Lemma restarts_length delay runs : length (restarts delay runs) = length runs.
Proof. revert delay. induction runs as [|r runs IH]; intros delay; [done|]. cbn [restarts]. destruct (restartDelay delay r). cbn. by rewrite IH. Qed.

Lemma restarts_long delay runs k ran wait :
  runs !! k = Some ran → Time.minute ≤ ran → restarts delay runs !! k = Some wait → wait = Time.second.
Proof.
  revert delay runs. induction k as [|k IH]; intros delay [|r runs] Hk Hr Hw; try done; cbn [restarts] in Hw; unfold restartDelay in Hw.
  - injection Hk as ->. rewrite (proj2 (Z.leb_le _ _)) in Hw by done. by injection Hw as <-.
  - eapply IH; [exact Hk|done|exact Hw].
Qed.

(** The restarts of a node process: after every run there is one wait, of
    at least one second and at most thirty; after a run of a minute or more
    it is one second; and after [k] runs shorter than a minute it is 2^k
    seconds, or thirty. *)
Theorem restart_backoff runs :
  length (superviseProfile runs) = length runs
  ∧ (∀ k wait, superviseProfile runs !! k = Some wait → Time.second ≤ wait ≤ 30 * Time.second)
  ∧ (∀ k ran wait, runs !! k = Some ran → superviseProfile runs !! k = Some wait → Time.minute ≤ ran → wait = Time.second)
  ∧ ∀ k ran, Forall (λ r, r < Time.minute) (take (S k) runs) → runs !! k = Some ran →
      superviseProfile runs !! k = Some (Z.min (2 ^ Z.of_nat k * Time.second) (30 * Time.second)).
Proof.
  unfold superviseProfile. split_and!.
  - apply restarts_length.
  - intros k wait. apply restarts_bounds. unfold Time.second. lia.
  - intros k ran wait Hk Hw Hr. exact (restarts_long _ runs k ran wait Hk Hr Hw).
  - intros k ran. apply restarts_short. unfold Time.second. lia.
Qed.

(** ** An example *)

(** Goroutines end once they are cancelled, but for the first, which does not
    stop; every wait runs its course. *)
#[local] Instance demoSupervision : Supervision := {
  hasEnded := λ n i cancelled, cancelled && negb (i =? 0)%nat;
  seesDone := λ _, true;
  outlivesWait := λ _, true;
  workerOrder := λ _ m, map_to_list m;
  workerOrder_perm := λ _ _, reflexivity _;
}.

Definition foundProfile (instance role signature : string) (disabled ok : bool) : managedProfile :=
  mkManagedProfile instance ("/c/nodes/" +:+ instance +:+ "/profile.json") role signature disabled ok.

Definition firstScan : list managedProfile := [foundProfile "hub" "coordinator" "1" false true; foundProfile "a" "client" "1" false true].
Definition running : supervisor := (reconcile (Some firstScan) idle).2.
(** The client is broken; the coordinator has changed, and does not stop. *)
Definition secondScan : list managedProfile := [foundProfile "hub" "coordinator" "2" false true; foundProfile "a" "client" "2" false false].

(** The client is disabled. *)
Definition thirdScan : list managedProfile := [foundProfile "a" "client" "3" true true].

(** The same, where every goroutine ends when it is cancelled. *)
Definition promptSupervision : Supervision := {|
  hasEnded := λ n i cancelled, cancelled; seesDone := λ _, true; outlivesWait := λ _, true;
  workerOrder := λ _ m, map_to_list m; workerOrder_perm := λ _ _, reflexivity _;
|}.

Lemma scan_decides_witness :
  view "a" running = Some (mkWorker (foundProfile "a" "client" "1" false true) 1, false)
  ∧ view "a" (reconcile (Some secondScan) running).2 = view "a" running
  ∧ decided running (reconcile (Some secondScan) running).2 (foundProfile "hub" "coordinator" "2" false true)
      (view "hub" running) (view "hub" (reconcile (Some secondScan) running).2)
  ∧ view "a" (reconcile (supervision := promptSupervision) (Some thirdScan) running).2 = None
  ∧ view "hub" (reconcile (supervision := promptSupervision) (Some thirdScan) running).2 = None.
Proof.
  assert (supInv running) as Hinv by (apply reconcile_inv, supInv_idle).
  split; [by vm_compute|].
  destruct (scan_decides secondScan running Hinv) as (H & _ & _).
  { apply NoDup_ListNoDup. repeat constructor; cbn; intuition discriminate. }
  { done. }
  split; [exact (H (foundProfile "a" "client" "2" false false) ltac:(by right; left))|].
  split; [apply (H (foundProfile "hub" "coordinator" "2" false true)); by left|].
  destruct (scan_decides (supervision := promptSupervision) thirdScan running Hinv) as (_ & _ & Hp & _).
  { apply NoDup_ListNoDup. repeat constructor; cbn; intuition discriminate. }
  { done. }
  destruct Hp as [H1 H2]; [by split|]. split.
  - exact (H1 (foundProfile "a" "client" "3" true true) ltac:(by left)).
  - apply H2. apply (bool_decide_unpack (_ ∉ _)). vm_compute. exact I.
Defined.
