(* ===== verification/ConnSpec.v ===== *)
(** * The connection protocol, abstractly

    What the connection control of the coordinator promises, without HTTP,
    clocks, signals or persistence: a transition system over the connection
    requests, the idempotency index and the per-target cursors.  Every step
    names the node on whose behalf it is taken.  The handlers of Cleanup,
    Connections and LongPoll are shown to refine it; its invariants are proved
    here once, by induction over the steps. *)
From S2P Require Import Prelude GoStd Types Registry.

Local Open Scope Z_scope.

Record connState := mkConnState {
  cs_conns : gmap string connectionRequest;
  cs_idem : gmap string string;
  cs_cursors : gmap string Z;
  cs_acks : gmap string Z;
  (** the request ids drawn so far (ghost: it only constrains [cs_create]) *)
  cs_used : gset string;
}.

(** [sourceNode + "\x00" + key] *)
Definition idemKey (source key : string) : string :=
  source +:+ Strings.ofBytes [ascii_of_nat 0] +:+ key.
Definition connKey (c : connectionRequest) : string := idemKey (cr_SourceNode c) (cr_IdempotencyKey c).

Definition cursorOf (m : gmap string Z) (node : string) : Z := default 0 (m !! node).
(** [r.state.ConnectionCursors[node]++] on a uint64. *)
Definition nextCursor (m : gmap string Z) (node : string) : Z := wrapUint64 (cursorOf m node + 1).

Definition livePending (target : string) (c : connectionRequest) : bool :=
  (cr_TargetNode c =? target)%string && negb (connectionTerminal (cr_State c)).

(** The identity of a request never changes. *)
Definition sameRequest (c d : connectionRequest) : Prop :=
  cr_ID c = cr_ID d ∧ cr_IdempotencyKey c = cr_IdempotencyKey d ∧ cr_SourceNode c = cr_SourceNode d
  ∧ cr_TargetNode c = cr_TargetNode d ∧ cr_Service c = cr_Service d
  ∧ cr_ReturnRelay c = cr_ReturnRelay d ∧ cr_CreatedAt c = cr_CreatedAt d
  ∧ cr_ExpiresAt c = cr_ExpiresAt d.

Section Steps.
(** [limit] is the capacity, [actor] the authenticated node. *)
Context (limit : Z) (actor : string).

Inductive connStep : connState → connState → Prop :=
| cs_create conns idem cursors acks used c :
    cr_SourceNode c = actor → cr_ID c ∉ used →
    idem !! connKey c = None →
    Z.of_nat (size conns) < limit →
    Z.of_nat (countMap (livePending (cr_TargetNode c)) conns) < maxConnectionsPerTarget →
    cr_State c = "queued" → cr_StatusCode c = 100 → cr_OfferLeaseEnds c = Time.zero →
    cr_Cursor c = nextCursor cursors (cr_TargetNode c) →
    connStep (mkConnState conns idem cursors acks used)
      (mkConnState (<[cr_ID c := c]> conns) (<[connKey c := cr_ID c]> idem)
         (<[cr_TargetNode c := nextCursor cursors (cr_TargetNode c)]> cursors) acks
         ({[cr_ID c]} ∪ used))
| cs_burn conns idem cursors acks used tokens :
    connStep (mkConnState conns idem cursors acks used)
             (mkConnState conns idem cursors acks (tokens ∪ used))
| cs_offer conns idem cursors acks used id c now lease :
    conns !! id = Some c → cr_State c = "queued" → cr_TargetNode c = actor →
    connStep (mkConnState conns idem cursors acks used)
      (mkConnState (<[id := moveConnection c "offered" 102 (cr_Reason c) (cr_Cursor c) now lease]> conns)
         idem cursors acks used)
| cs_requeue conns idem cursors acks used id c now :
    conns !! id = Some c → cr_State c = "offered" →
    let cursor := nextCursor cursors (cr_TargetNode c) in
    connStep (mkConnState conns idem cursors acks used)
      (mkConnState (<[id := moveConnection c "queued" 100 (cr_Reason c) cursor now Time.zero]> conns)
         idem (<[cr_TargetNode c := cursor]> cursors) acks used)
| cs_expire conns idem cursors acks used id c now :
    conns !! id = Some c → connectionTerminal (cr_State c) = false →
    connStep (mkConnState conns idem cursors acks used)
      (mkConnState (<[id := moveConnection c "expired" 410 "request expired" (cr_Cursor c) now Time.zero]> conns)
         idem cursors acks used)
| cs_decide conns idem cursors acks used id c st code reason now :
    conns !! id = Some c → cr_State c = "queued" ∨ cr_State c = "offered" →
    (st = "accepted" ∧ code = 200) ∨ (st = "rejected" ∧ code = 403) →
    cr_TargetNode c = actor →
    connStep (mkConnState conns idem cursors acks used)
      (mkConnState (<[id := moveConnection c st code reason (cr_Cursor c) now Time.zero]> conns)
         idem cursors acks used)
| cs_cancel conns idem cursors acks used id c reason now :
    conns !! id = Some c → connectionTerminal (cr_State c) = false →
    cr_SourceNode c = actor →
    connStep (mkConnState conns idem cursors acks used)
      (mkConnState (<[id := moveConnection c "canceled" 499 reason (cr_Cursor c) now Time.zero]> conns)
         idem cursors acks used)
| cs_forget conns idem cursors acks used id c :
    conns !! id = Some c → connectionTerminal (cr_State c) = true →
    connStep (mkConnState conns idem cursors acks used)
      (mkConnState (delete id conns) (delete (connKey c) idem) cursors acks used)
| cs_ack conns idem cursors acks used cursor :
    cursorOf acks actor < cursor ≤ cursorOf cursors actor →
    connStep (mkConnState conns idem cursors acks used)
      (mkConnState conns idem cursors (<[actor := cursor]> acks) used).
End Steps.

(** ** The life cycle of one request *)

(** The edges queued → offered → queued, and to a terminal state. *)
Definition lifecycle (s t : string) : bool :=
  bool_decide ((s, t) ∈ [("queued", "offered"); ("offered", "queued");
                         ("queued", "accepted"); ("queued", "rejected"); ("queued", "canceled");
                         ("queued", "expired"); ("offered", "accepted"); ("offered", "rejected");
                         ("offered", "canceled"); ("offered", "expired")]).

Definition statusOf (st : string) : option Z :=
  (list_to_map [("queued", 100); ("offered", 102); ("accepted", 200); ("rejected", 403);
                ("canceled", 499); ("expired", 410)] : gmap string Z) !! st.

Record connInv (limit : Z) (s : connState) : Prop := {
  ci_keyed : ∀ id c, cs_conns s !! id = Some c → cr_ID c = id;
  ci_used : ∀ id, is_Some (cs_conns s !! id) → id ∈ cs_used s;
  ci_indexed : ∀ id c, cs_conns s !! id = Some c → cs_idem s !! connKey c = Some id;
  ci_idem : ∀ k id, cs_idem s !! k = Some id → ∃ c, cs_conns s !! id = Some c ∧ connKey c = k;
  ci_status : ∀ id c, cs_conns s !! id = Some c →
    statusOf (cr_State c) = Some (cr_StatusCode c)
    ∧ (cr_State c ≠ "offered" → cr_OfferLeaseEnds c = Time.zero);
  ci_capacity : Z.of_nat (size (cs_conns s)) ≤ Z.max 0 limit;
  ci_target : ∀ t, Z.of_nat (countMap (livePending t) (cs_conns s)) ≤ maxConnectionsPerTarget;
}.

(** Cursors, while no per-target counter has reached its last value. *)
Definition noOverflow (s : connState) : Prop :=
  ∀ t, cursorOf (cs_cursors s) t < 2 ^ 64 - 1.

Record cursorInv (s : connState) : Prop := {
  cu_range : ∀ t, 0 ≤ cursorOf (cs_cursors s) t;
  cu_bound : ∀ id c, cs_conns s !! id = Some c → 0 < cr_Cursor c ≤ cursorOf (cs_cursors s) (cr_TargetNode c);
  cu_unique : ∀ i j c d, cs_conns s !! i = Some c → cs_conns s !! j = Some d →
    cr_TargetNode c = cr_TargetNode d → cr_Cursor c = cr_Cursor d → i = j;
  cu_acks : ∀ t, cursorOf (cs_acks s) t ≤ cursorOf (cs_cursors s) t;
}.

(** ** Lemmas *)

Lemma statusOf_terminal st code :
  statusOf st = Some code → connectionTerminal st = false → st = "queued" ∨ st = "offered".
Proof.
  unfold statusOf. intros H Ht.
  apply (elem_of_list_to_map_2 (M := gmap string)) in H.
  apply list_elem_of_In in H. simpl in H.
  repeat destruct H as [[= <- <-]|H]; try done; auto.
Qed.

Lemma lifecycle_terminal s t : connectionTerminal s = true → lifecycle s t = false.
Proof.
  intros H. apply bool_decide_eq_false. intros Hin. apply list_elem_of_In in Hin. simpl in Hin.
  repeat destruct Hin as [[= <- <-]|Hin]; done.
Qed.

Lemma nextCursor_small m t :
  0 ≤ cursorOf m t < 2 ^ 64 - 1 → nextCursor m t = cursorOf m t + 1.
Proof. intros H. unfold nextCursor. apply wrapUint64_id. lia. Qed.

Lemma cursorOf_insert m t v u :
  cursorOf (<[t := v]> m) u = if decide (t = u) then v else cursorOf m u.
Proof. unfold cursorOf. rewrite lookup_insert. by case_decide. Qed.

Lemma moveConnection_same c st code reason cursor at_ lease :
  sameRequest c (moveConnection c st code reason cursor at_ lease).
Proof. by repeat split. Qed.

Lemma sameRequest_key c d : sameRequest c d → connKey c = connKey d.
Proof. intros (_ & H1 & H2 & _). unfold connKey. by rewrite H1, H2. Qed.

#[export] Instance sameRequest_preorder : PreOrder sameRequest.
Proof.
  split; [by repeat split|]. unfold sameRequest. intros x y z ? ?. destruct_and?.
  split_and!; congruence.
Qed.

#[export] Hint Resolve moveConnection_same : mayoiga.

(** A step that replaces one request by a moved version of itself. *)
Lemma connInv_update limit conns idem cursors acks used id c d cursors' :
  connInv limit (mkConnState conns idem cursors acks used) →
  conns !! id = Some c → sameRequest c d →
  statusOf (cr_State d) = Some (cr_StatusCode d) →
  (cr_State d ≠ "offered" → cr_OfferLeaseEnds d = Time.zero) →
  connectionTerminal (cr_State c) = false →
  connInv limit (mkConnState (<[id := d]> conns) idem cursors' acks used).
Proof.
  intros [Hk Hu Hix Hid Hs Hc Ht] Hid0 Hsame Hst Hlease Hterm. simpl in *.
  pose proof (sameRequest_key _ _ Hsame) as Hkey.
  destruct Hsame as (Hids & _ & _ & Htg & _).
  split; simpl.
  - intros i e. rewrite lookup_insert. case_decide as Hi; [|by apply Hk].
    intros [= <-]. subst. rewrite <- Hids. by apply Hk.
  - intros i. rewrite lookup_insert. case_decide as Hi; [|by apply Hu]. subst. intros _. apply Hu. eauto.
  - intros i e. rewrite lookup_insert. case_decide as Hi; [|by apply Hix].
    intros [= <-]. subst. rewrite <- Hkey. by apply Hix.
  - intros k i Hi. destruct (Hid k i Hi) as (e & He & Hek).
    destruct (decide (i = id)) as [->|Hne].
    + exists d. rewrite lookup_insert_eq. split; [done|]. simplify_eq. by rewrite <- Hkey.
    + exists e. by rewrite lookup_insert_ne.
  - intros i e. rewrite lookup_insert. case_decide as Hi; [|by apply Hs]. by intros [= <-].
  - rewrite map_size_insert_Some by eauto. done.
  - intros t. etrans; [|apply (Ht t)]. apply inj_le. apply (countMap_update_le _ _ _ c); [done|].
    unfold livePending. rewrite Htg, Hterm. intros [-> _]%andb_true_iff. done.
Qed.

(** A step that adds a request under a fresh id and key. *)
Lemma connInv_create limit conns idem cursors acks used c cursors' :
  connInv limit (mkConnState conns idem cursors acks used) →
  cr_ID c ∉ used → idem !! connKey c = None →
  Z.of_nat (size conns) < limit →
  Z.of_nat (countMap (livePending (cr_TargetNode c)) conns) < maxConnectionsPerTarget →
  statusOf (cr_State c) = Some (cr_StatusCode c) → cr_OfferLeaseEnds c = Time.zero →
  connInv limit (mkConnState (<[cr_ID c := c]> conns) (<[connKey c := cr_ID c]> idem)
                   cursors' acks ({[cr_ID c]} ∪ used)).
Proof.
  intros [Hk Hu Hix Hid Hs Hc Ht] Hfresh Hkey Hsize Htarget Hst Hlease. simpl in *.
  assert (conns !! cr_ID c = None) as Hnew.
  { destruct (conns !! cr_ID c) eqn:E; [|done]. exfalso. apply Hfresh. apply Hu. eauto. }
  split; simpl.
  - intros i e. rewrite lookup_insert. case_decide; [by intros [= <-]|by apply Hk].
  - intros i. rewrite lookup_insert. case_decide as Hi; [subst; intros _; apply elem_of_union_l, elem_of_singleton; done|].
    intros ?. apply elem_of_union_r. by apply Hu.
  - intros i e. rewrite lookup_insert. case_decide as Hi; [intros [= <-]; subst; apply lookup_insert_eq|].
    intros He. rewrite lookup_insert_ne; [by apply Hix|].
    intros Heq. apply Hix in He. congruence.
  - intros k i. rewrite lookup_insert. case_decide as Hi.
    + intros [= <-]. exists c. by rewrite lookup_insert_eq.
    + intros Hki. destruct (Hid k i Hki) as (e & He & Hek). exists e.
      rewrite lookup_insert_ne; [done|]. intros <-. congruence.
  - intros i e. rewrite lookup_insert. case_decide; [|by apply Hs]. by intros [= <-].
  - rewrite map_size_insert_None by done. lia.
  - intros t. rewrite countMap_insert_new by done. unfold livePending at 1.
    destruct (String.eqb_spec (cr_TargetNode c) t) as [<-|]; simpl; [|apply Ht].
    destruct (connectionTerminal _); simpl; lia.
Qed.

Lemma connInv_forget limit conns idem cursors acks used id c :
  connInv limit (mkConnState conns idem cursors acks used) →
  conns !! id = Some c →
  connInv limit (mkConnState (delete id conns) (delete (connKey c) idem) cursors acks used).
Proof.
  intros [Hk Hu Hix Hid Hs Hc Ht] Hc0. simpl in *. split; simpl.
  - intros i e [_ He]%lookup_delete_Some. by apply Hk.
  - intros i [e [_ He]%lookup_delete_Some]. apply Hu. eauto.
  - intros i e [Hne He]%lookup_delete_Some. rewrite lookup_delete_ne; [by apply Hix|].
    intros Heq. apply Hix in He. apply Hix in Hc0. congruence.
  - intros k i [Hne Hki]%lookup_delete_Some. destruct (Hid k i Hki) as (e & He & Hek). exists e.
    rewrite lookup_delete_ne; [done|]. intros <-. congruence.
  - intros i e [_ He]%lookup_delete_Some. by apply (Hs i).
  - rewrite map_size_delete_Some by eauto. lia.
  - intros t. etrans; [|apply (Ht t)]. apply inj_le. apply countMap_delete_le.
Qed.

Lemma queued_or_offered st :
  st = "queued" ∨ st = "offered" → connectionTerminal st = false.
Proof. by intros [->| ->]. Qed.

Lemma connStep_inv limit actor s s' : connStep limit actor s s' → connInv limit s → connInv limit s'.
Proof.
  intros Hstep Hinv.
  destruct Hstep as [conns idem cursors acks used c Ha Hf Hk Hs Ht Hst Hcd Hl _
    |conns idem cursors acks used tokens|conns idem cursors acks used id c now lease Hc Hst _
    |conns idem cursors acks used id c now Hc Hst|conns idem cursors acks used id c now Hc Hst
    |conns idem cursors acks used id c st code reason now Hc Hst Hd _
    |conns idem cursors acks used id c reason now Hc Hst _|conns idem cursors acks used id c Hc _
    |conns idem cursors acks used cursor _].
  - eapply connInv_create; try done. by rewrite Hst, Hcd.
  - destruct Hinv. split; simpl in *; try done. intros i Hi. apply elem_of_union_r. auto.
  - eapply connInv_update; [done|done|eauto with mayoiga|done|done|by rewrite Hst].
  - eapply connInv_update; [done|done|eauto with mayoiga|done|done|by rewrite Hst].
  - eapply connInv_update; [done|done|eauto with mayoiga|done..].
  - eapply connInv_update; [done|done|eauto with mayoiga| |done|by apply queued_or_offered].
    by destruct Hd as [[-> ->]|[-> ->]].
  - eapply connInv_update; [done|done|eauto with mayoiga|done..].
  - by apply connInv_forget.
  - by destruct Hinv.
Qed.

(** ** Cursors *)

Lemma cursorInv_bump conns idem cursors acks used id c :
  cursorInv (mkConnState conns idem cursors acks used) →
  noOverflow (mkConnState conns idem cursors acks used) →
  (∀ d, conns !! id = Some d → cr_TargetNode d = cr_TargetNode c) →
  cr_Cursor c = nextCursor cursors (cr_TargetNode c) →
  ∀ idem' used',
  cursorInv (mkConnState (<[id := c]> conns) idem'
    (<[cr_TargetNode c := nextCursor cursors (cr_TargetNode c)]> cursors) acks used').
Proof.
  intros [Hr Hb Hu Ha] Hno Htgt Hcur idem' used'. simpl in *.
  specialize (Hno (cr_TargetNode c)) as Hn. simpl in Hn.
  pose proof (Hr (cr_TargetNode c)) as Hr0.
  rewrite nextCursor_small in * by (simpl; lia).
  split; simpl.
  - intros t. rewrite cursorOf_insert. case_decide; [lia|apply Hr].
  - intros i d. rewrite lookup_insert. case_decide as Hi.
    + intros [= <-]. rewrite cursorOf_insert, decide_True by done. lia.
    + intros Hd. pose proof (Hb i d Hd). rewrite cursorOf_insert. case_decide as Ht; [|lia].
      rewrite <- Ht in *. lia.
  - intros i j d e. rewrite !lookup_insert.
    case_decide as Hi; case_decide as Hj; intros Hd He Ht Hc; simplify_eq; [done| | |by eapply Hu].
    + pose proof (Hb j e He). rewrite <- Ht in *. lia.
    + pose proof (Hb i d Hd). rewrite Ht in *. lia.
  - intros t. pose proof (Ha t). rewrite cursorOf_insert. case_decide as Ht; [|done].
    rewrite <- Ht in *. lia.
Qed.

Lemma cursorInv_update conns idem cursors acks used id c d :
  cursorInv (mkConnState conns idem cursors acks used) →
  conns !! id = Some c → sameRequest c d → cr_Cursor d = cr_Cursor c →
  cursorInv (mkConnState (<[id := d]> conns) idem cursors acks used).
Proof.
  intros [Hr Hb Hu Ha] Hc (_ & _ & _ & Ht & _) Hcur. simpl in *.
  assert (∀ i e, <[id := d]> conns !! i = Some e →
    ∃ e', conns !! i = Some e' ∧ cr_TargetNode e' = cr_TargetNode e ∧ cr_Cursor e' = cr_Cursor e) as Hold.
  { intros i e. rewrite lookup_insert. case_decide; [|by eauto]. intros [= <-]. subst. eauto. }
  split; simpl; [done| | |done].
  - intros i e He. destruct (Hold i e He) as (e' & He' & <- & <-). by eapply Hb.
  - intros i j e f He Hf. destruct (Hold i e He) as (e' & He' & <- & <-).
    destruct (Hold j f Hf) as (f' & Hf' & <- & <-). by eapply Hu.
Qed.

Lemma connStep_cursors limit actor s s' :
  connStep limit actor s s' → connInv limit s → noOverflow s → cursorInv s → cursorInv s'.
Proof.
  intros Hstep Hinv Hno Hcur.
  destruct Hstep as [conns idem cursors acks used c _ Hf Hk _ _ _ _ _ Hcc
    |conns idem cursors acks used tokens|conns idem cursors acks used id c now lease Hc _ _
    |conns idem cursors acks used id c now Hc _|conns idem cursors acks used id c now Hc _
    |conns idem cursors acks used id c st code reason now Hc _ _ _
    |conns idem cursors acks used id c reason now Hc _ _|conns idem cursors acks used id c Hc _
    |conns idem cursors acks used cursor Hack].
  - eapply cursorInv_bump; try done. intros d Hd. exfalso. apply Hf.
    apply (ci_used _ _ Hinv). simpl. eauto.
  - by destruct Hcur.
  - eapply cursorInv_update; eauto with mayoiga.
  - eapply (cursorInv_bump _ _ _ _ _ id (moveConnection c _ _ _ _ _ _)); try done.
    simpl. intros d Hd. by simplify_eq.
  - eapply cursorInv_update; eauto with mayoiga.
  - eapply cursorInv_update; eauto with mayoiga.
  - eapply cursorInv_update; eauto with mayoiga.
  - destruct Hcur as [Hr Hb Hu Ha]. simpl in *. split; simpl; try done.
    + intros i d [_ Hd]%lookup_delete_Some. by eapply Hb.
    + intros i j d e [_ Hd]%lookup_delete_Some [_ He]%lookup_delete_Some. by eapply Hu.
  - destruct Hcur as [Hr Hb Hu Ha]. simpl in *. split; simpl; try done.
    intros t. rewrite cursorOf_insert. case_decide; [subst; lia|done].
Qed.

(** ** What a request can become *)

Definition lifecycleEdge (s t : string) : Prop := lifecycle s t = true.

(** How one request moves on behalf of [actor]: its identity is kept, its
    state follows the life cycle, a terminal request is frozen, only the
    target decides it and only the source cancels it. *)
Record requestMoves (actor : string) (c d : connectionRequest) : Prop := {
  rm_same : sameRequest c d;
  rm_lifecycle : rtc lifecycleEdge (cr_State c) (cr_State d);
  rm_frozen : connectionTerminal (cr_State c) = true → d = c;
  rm_decide : cr_State d = "accepted" ∨ cr_State d = "rejected" →
    cr_State c = cr_State d ∨ cr_TargetNode c = actor;
  rm_cancel : cr_State d = "canceled" → cr_State c = "canceled" ∨ cr_SourceNode c = actor;
}.

(** A request whose id had been drawn before was there before, and moved. *)
Definition connMoves (actor : string) (s s' : connState) : Prop :=
  cs_used s ⊆ cs_used s' ∧
  ∀ id d, cs_conns s' !! id = Some d → id ∈ cs_used s →
    ∃ c, cs_conns s !! id = Some c ∧ requestMoves actor c d.

#[export] Instance requestMoves_preorder actor : PreOrder (requestMoves actor).
Proof.
  split.
  - intros c. by split; auto.
  - intros c d e [S1 L1 F1 D1 C1] [S2 L2 F2 D2 C2]. split; [by etrans|by etrans| | |].
    + intros H. specialize (F1 H). subst. auto.
    + intros H. destruct (D2 H) as [E|E].
      * rewrite <- E in H |- *. by apply D1.
      * right. destruct S1 as (_ & _ & _ & -> & _). done.
    + intros H. destruct (C2 H) as [E|E]; [by apply C1|].
      right. destruct S1 as (_ & _ & -> & _). done.
Qed.

#[export] Instance connMoves_preorder actor : PreOrder (connMoves actor).
Proof.
  split.
  - intros s. split; [done|]. intros id d Hd _. exists d. by split.
  - intros s1 s2 s3 [U1 M1] [U2 M2]. split; [by etrans|]. intros id e He Hid.
    destruct (M2 id e He) as (d & Hd & Hde); [by apply U1|].
    destruct (M1 id d Hd Hid) as (c & Hc & Hcd). exists c. split; [done|by etrans].
Qed.

Lemma requestMoves_edge actor c d :
  sameRequest c d → lifecycle (cr_State c) (cr_State d) = true →
  (cr_State d = "accepted" ∨ cr_State d = "rejected" → cr_TargetNode c = actor) →
  (cr_State d = "canceled" → cr_SourceNode c = actor) →
  requestMoves actor c d.
Proof.
  intros Hs Hl Hd Hc. split; [done|by apply rtc_once| |auto|auto].
  intros Ht. by rewrite lifecycle_terminal in Hl.
Qed.

Lemma connMoves_update actor conns idem cursors acks used id c d idem' cursors' acks' :
  conns !! id = Some c → requestMoves actor c d →
  connMoves actor (mkConnState conns idem cursors acks used)
                  (mkConnState (<[id := d]> conns) idem' cursors' acks' used).
Proof.
  intros Hc Hm. split; simpl; [done|]. intros i e. rewrite lookup_insert. case_decide as Hi.
  - intros [= <-] _. subst. eauto.
  - intros He _. exists e. by split.
Qed.

Lemma lifecycle_from st t :
  st = "queued" ∨ st = "offered" → t ∈ ["accepted"; "rejected"; "canceled"; "expired"] → lifecycle st t = true.
Proof.
  intros Hst Ht. apply list_elem_of_In in Ht. simpl in Ht.
  destruct Hst as [->| ->]; repeat destruct Ht as [<-|Ht]; done.
Qed.

Lemma connStep_moves limit actor s s' :
  connInv limit s → connStep limit actor s s' → connMoves actor s s'.
Proof.
  intros Hinv Hstep.
  assert (∀ id c, cs_conns s !! id = Some c → connectionTerminal (cr_State c) = false →
    cr_State c = "queued" ∨ cr_State c = "offered") as Hlive.
  { intros id c Hc. eapply statusOf_terminal. by eapply (ci_status _ _ Hinv). }
  destruct Hstep as [conns idem cursors acks used c _ Hf _ _ _ _ _ _ _
    |conns idem cursors acks used tokens|conns idem cursors acks used id c now lease Hc Hst _
    |conns idem cursors acks used id c now Hc Hst|conns idem cursors acks used id c now Hc Hst
    |conns idem cursors acks used id c st code reason now Hc Hst Hd Ha
    |conns idem cursors acks used id c reason now Hc Hst Ha|conns idem cursors acks used id c Hc _
    |conns idem cursors acks used cursor _]; simpl in *.
  - split; simpl; [set_solver|]. intros i d. rewrite lookup_insert. case_decide; [by subst|].
    intros Hd _. exists d. by split.
  - split; simpl; [set_solver|]. intros i d Hd _. exists d. by split.
  - apply (connMoves_update _ _ _ _ _ _ _ c); [done|].
    apply requestMoves_edge; [eauto with mayoiga| |simpl; by intros [?|?]|done]. simpl. by rewrite Hst.
  - apply (connMoves_update _ _ _ _ _ _ _ c); [done|].
    apply requestMoves_edge; [eauto with mayoiga| |simpl; by intros [?|?]|done]. simpl. by rewrite Hst.
  - apply (connMoves_update _ _ _ _ _ _ _ c); [done|].
    apply requestMoves_edge; [eauto with mayoiga| |simpl; by intros [?|?]|done].
    apply lifecycle_from; [eauto|by vm_compute; repeat constructor].
  - apply (connMoves_update _ _ _ _ _ _ _ c); [done|].
    apply requestMoves_edge; [eauto with mayoiga| |done|].
    + apply lifecycle_from; [done|]. simpl. destruct Hd as [[-> _]|[-> _]]; set_solver.
    + simpl. by destruct Hd as [[-> _]|[-> _]].
  - apply (connMoves_update _ _ _ _ _ _ _ c); [done|].
    apply requestMoves_edge; [eauto with mayoiga| |simpl; by intros [?|?]|done].
    apply lifecycle_from; [eauto|]. simpl. set_solver.
  - split; simpl; [done|]. intros i d [_ Hd]%lookup_delete_Some _. exists d. by split.
  - split; simpl; [done|]. intros i d Hd _. exists d. by split.
Qed.

(** All the steps taken on behalf of one node. *)
Definition connSteps (limit : Z) (actor : string) : connState → connState → Prop :=
  rtc (connStep limit actor).

Lemma connSteps_inv limit actor s s' : connSteps limit actor s s' → connInv limit s → connInv limit s'.
Proof. apply star_invariant. intros x y. apply connStep_inv. Qed.

Lemma connSteps_moves limit actor s s' :
  connInv limit s → connSteps limit actor s s' → connMoves actor s s'.
Proof.
  intros Hinv H. revert Hinv. induction H as [s|s1 s2 s3 H12 _ IH]; intros Hinv; [reflexivity|].
  etrans; [by eapply connStep_moves|]. apply IH. by eapply connStep_inv.
Qed.
