(* ===== verification/EnrollSpec.v ===== *)
(** * Enrollment, abstractly

    The life of a handshake — requested, approved or rejected by an
    administrator, completed by the node, expired or revoked — as a transition
    system over the pending handshakes, the history and the authorized
    credentials.  The handlers of Cleanup, Enrollment and Directory refine it. *)
From S2P Require Import Prelude GoStd Types.

Local Open Scope Z_scope.

Record enrollPart := mkEnrollPart {
  en_pending : gmap string pendingHandshake;
  en_history : gmap string handshakeHistory;
  en_auth : gmap string authorizedNode;
}.

(** On whose authority a step is taken: nobody's, the administrator's, or that
    of a node that signed with its authorized key. *)
Inductive authority := Anyone | Administrator | SignedBy (node key : string).

Definition fromSource (source : string) (p : pendingHandshake) : bool := (ph_Source p =? source)%string.
Definition freshHandshake (p : pendingHandshake) : bool := negb (ph_Approved p) && negb (ph_Rejected p).

Definition historyOf (m : gmap string handshakeHistory) (id : string) : handshakeHistory :=
  default zeroHistory (m !! id).

Inductive enrollStep (a : authority) : enrollPart → enrollPart → Prop :=
| en_request pending history auth p created :
    pending !! ph_RequestID p = None → history !! ph_RequestID p = None →
    (∀ id q, pending !! id = Some q → ph_DeviceCode q ≠ ph_DeviceCode p) →
    Z.of_nat (size pending) < maxPendingHandshakes →
    Z.of_nat (countMap (fromSource (ph_Source p)) pending) < maxPendingPerSource →
    freshHandshake p = true →
    enrollStep a (mkEnrollPart pending history auth)
      (mkEnrollPart (<[ph_RequestID p := p]> pending)
         (<[ph_RequestID p := mkHandshakeHistory (ph_RequestID p) (ph_DeviceCode p) (ph_Node p) 100 ""
                               created (ph_ExpiresAt p) Time.zero]> history) auth)
| en_approve pending history auth id p replace now :
    a = Administrator →
    pending !! id = Some p → freshHandshake p = true →
    (∀ k, auth !! dn_ID (ph_Node p) = Some k → an_PublicKey k ≠ ph_PublicKey p → replace = true) →
    enrollStep a (mkEnrollPart pending history auth)
      (mkEnrollPart (<[id := setApproved true p]> pending)
         (<[id := handleHistory 200 now (historyOf history id)]> history)
         (<[dn_ID (ph_Node p) := mkAuthorizedNode (ph_PublicKey p)]> auth))
| en_reject pending history auth id p reason now :
    a = Administrator →
    pending !! id = Some p → ph_Approved p = false →
    enrollStep a (mkEnrollPart pending history auth)
      (mkEnrollPart (<[id := setRejected true p]> pending)
         (<[id := setReason reason (handleHistory 403 now (historyOf history id))]> history) auth)
| en_revoke pending history auth node pending' history' :
    a = Administrator →
    is_Some (auth !! node) →
    pending' = filter (λ kv, dn_ID (ph_Node kv.2) ≠ node) pending →
    (∀ id, match pending !! id with
           | Some p => if bool_decide (dn_ID (ph_Node p) = node)
                       then ∃ now, history' !! id = Some (handleHistory 403 now (historyOf history id))
                       else history' !! id = history !! id
           | None => history' !! id = history !! id
           end) →
    enrollStep a (mkEnrollPart pending history auth) (mkEnrollPart pending' history' (delete node auth))
| en_complete pending history auth id p now :
    a = SignedBy (dn_ID (ph_Node p)) (ph_PublicKey p) →
    pending !! id = Some p → ph_Approved p = true →
    auth !! dn_ID (ph_Node p) = Some (mkAuthorizedNode (ph_PublicKey p)) →
    enrollStep a (mkEnrollPart pending history auth)
      (mkEnrollPart (delete id pending) (<[id := handleHistory 201 now (historyOf history id)]> history) auth)
| en_expire pending history auth id p now :
    pending !! id = Some p → ph_ExpiresAt p < now →
    let h := historyOf history id in
    enrollStep a (mkEnrollPart pending history auth)
      (mkEnrollPart (delete id pending)
         (if (hh_StatusCode h =? 100) || (hh_StatusCode h =? 200)
          then <[id := handleHistory 410 now h]> history else history) auth)
| en_evict pending history auth id :
    enrollStep a (mkEnrollPart pending history auth)
      (mkEnrollPart pending (delete id history) auth).

Definition enrollSteps (a : authority) : enrollPart → enrollPart → Prop := rtc (enrollStep a).

(** The status a handshake's history shows while it is pending. *)
Definition pendingStatus (p : pendingHandshake) : Z :=
  if ph_Approved p then 200 else if ph_Rejected p then 403 else 100.

Record enrollInv (s : enrollPart) : Prop := {
  ei_keyed : ∀ id p, en_pending s !! id = Some p → ph_RequestID p = id;
  ei_codes : ∀ i j p q, en_pending s !! i = Some p → en_pending s !! j = Some q →
    ph_DeviceCode p = ph_DeviceCode q → i = j;
  ei_exclusive : ∀ id p, en_pending s !! id = Some p → ph_Approved p = true → ph_Rejected p = false;
  ei_capacity : Z.of_nat (size (en_pending s)) ≤ maxPendingHandshakes;
  ei_source : ∀ source, Z.of_nat (countMap (fromSource source) (en_pending s)) ≤ maxPendingPerSource;
  ei_authorized : ∀ id p, en_pending s !! id = Some p → ph_Approved p = true →
    is_Some (en_auth s !! dn_ID (ph_Node p));
  ei_mirror : ∀ id p h, en_pending s !! id = Some p → en_history s !! id = Some h →
    hh_StatusCode h = pendingStatus p;
  ei_codesKnown : ∀ id h, en_history s !! id = Some h →
    hh_StatusCode h ∈ [100; 200; 201; 403; 410];
}.

(** ** The invariant is preserved *)

Lemma enrollInv_request pending history auth p created :
  enrollInv (mkEnrollPart pending history auth) →
  pending !! ph_RequestID p = None → history !! ph_RequestID p = None →
  (∀ id q, pending !! id = Some q → ph_DeviceCode q ≠ ph_DeviceCode p) →
  Z.of_nat (size pending) < maxPendingHandshakes →
  Z.of_nat (countMap (fromSource (ph_Source p)) pending) < maxPendingPerSource →
  freshHandshake p = true →
  enrollInv (mkEnrollPart (<[ph_RequestID p := p]> pending)
     (<[ph_RequestID p := mkHandshakeHistory (ph_RequestID p) (ph_DeviceCode p) (ph_Node p) 100 ""
                           created (ph_ExpiresAt p) Time.zero]> history) auth).
Proof.
  intros [Hk Hc He Hcap Hsrc Hau Hm Hck] Hp Hh Hcode Hsize Hcount Hf. simpl in *.
  apply andb_true_iff in Hf as [Ha%negb_true_iff Hr%negb_true_iff].
  split; simpl.
  - intros i q. rewrite lookup_insert. case_decide; [by intros [= <-]|apply Hk].
  - intros i j q r. rewrite !lookup_insert.
    case_decide; case_decide; intros H1 H2 Heq; simplify_eq; [done| | |by eapply Hc].
    + exfalso. eapply (Hcode j); [done|congruence].
    + exfalso. eapply (Hcode i); [done|congruence].
  - intros i q. rewrite lookup_insert. case_decide; [by intros [= <-]|apply He].
  - rewrite map_size_insert_None by done. lia.
  - intros s. rewrite countMap_insert_new by done. unfold fromSource at 1.
    destruct (String.eqb_spec (ph_Source p) s) as [<-|]; simpl; [lia|apply Hsrc].
  - intros i q. rewrite lookup_insert. case_decide; [intros [= <-]; congruence|apply Hau].
  - intros i q h. rewrite !lookup_insert. case_decide; [|apply Hm].
    intros [= <-] [= <-]. unfold pendingStatus. by rewrite Ha, Hr.
  - intros i h. rewrite lookup_insert. case_decide; [|apply Hck]. intros [= <-]. simpl. set_solver.
Qed.

(** A pending handshake is replaced by a decided version of itself. *)
Lemma enrollInv_decide pending history auth auth' id p q h :
  enrollInv (mkEnrollPart pending history auth) →
  pending !! id = Some p →
  ph_RequestID q = ph_RequestID p → ph_DeviceCode q = ph_DeviceCode p → ph_Source q = ph_Source p →
  (ph_Approved q = true → ph_Rejected q = false ∧ is_Some (auth' !! dn_ID (ph_Node q))) →
  (∀ n, is_Some (auth !! n) → is_Some (auth' !! n)) →
  hh_StatusCode h = pendingStatus q →
  enrollInv (mkEnrollPart (<[id := q]> pending) (<[id := h]> history) auth').
Proof.
  intros [Hk Hc He Hcap Hsrc Hau Hm Hck] Hp Hid Hcode Hs Happ Hmono Hst. simpl in *.
  split; simpl.
  - intros i r. rewrite lookup_insert. case_decide; [|apply Hk]. intros [= <-]. subst.
    rewrite Hid. by apply Hk.
  - intros i j r t. rewrite !lookup_insert.
    case_decide; case_decide; intros H1 H2 Heq; simplify_eq; [done| | |by eapply Hc];
      eapply Hc; try done; congruence.
  - intros i r. rewrite lookup_insert. case_decide; [|apply He]. intros [= <-] H1. by apply Happ.
  - rewrite map_size_insert_Some by eauto. done.
  - intros s. etrans; [|apply (Hsrc s)]. apply inj_le. eapply countMap_update_le; [done|].
    unfold fromSource. by rewrite Hs.
  - intros i r. rewrite lookup_insert. case_decide; [intros [= <-] H1; by apply Happ|].
    intros Hr H1. apply Hmono. by eapply Hau.
  - intros i r g. rewrite !lookup_insert. case_decide; [|apply Hm]. by intros [= <-] [= <-].
  - intros i g. rewrite lookup_insert. case_decide; [|apply Hck]. intros [= <-]. rewrite Hst.
    unfold pendingStatus. destruct (ph_Approved q), (ph_Rejected q); set_solver.
Qed.

(** Handshakes leave the pending set; the history of those that leave gets a
    final status, the rest is untouched. *)
Lemma enrollInv_remove pending history auth pending' history' auth' :
  enrollInv (mkEnrollPart pending history auth) →
  (∀ id p, pending' !! id = Some p → pending !! id = Some p) →
  pending' ⊆ pending →
  (∀ id p, pending' !! id = Some p → ph_Approved p = true → is_Some (auth' !! dn_ID (ph_Node p))) →
  (∀ id h, history' !! id = Some h →
     history !! id = Some h ∨ (pending' !! id = None ∧ hh_StatusCode h ∈ [201; 403; 410])) →
  enrollInv (mkEnrollPart pending' history' auth').
Proof.
  intros [Hk Hc He Hcap Hsrc Hau Hm Hck] Hp Hsub Hau' Hh. simpl in *.
  split; simpl.
  - eauto.
  - intros i j r t H1 H2. eapply Hc; eauto.
  - eauto.
  - pose proof (map_subseteq_size _ _ Hsub). lia.
  - intros s. etrans; [|apply (Hsrc s)]. apply inj_le, countMap_subseteq, Hsub.
  - eauto.
  - intros i p h Hi Hhi. destruct (Hh i h Hhi) as [H|[H _]]; [by eapply Hm; eauto|congruence].
  - intros i h Hi. destruct (Hh i h Hi) as [H|[_ H]]; [by eapply Hck|set_solver].
Qed.

Lemma enrollStep_inv a s s' : enrollStep a s s' → enrollInv s → enrollInv s'.
Proof.
  intros Hstep Hinv. destruct Hstep as [pending history auth p created Hp Hh Hc Hs Hn Hf
    |pending history auth id p replace now _ Hp Hf _|pending history auth id p reason now _ Hp Ha
    |pending history auth node pending' history' _ _ -> Hh|pending history auth id p now _ Hp Ha _
    |pending history auth id p now Hp _ h|pending history auth id].
  - by apply enrollInv_request.
  - apply andb_true_iff in Hf as [Ha%negb_true_iff Hr%negb_true_iff].
    eapply enrollInv_decide; try done.
    + intros _. simpl. split; [done|]. rewrite lookup_insert_eq. eauto.
    + intros n [k Hk]. destruct (decide (dn_ID (ph_Node p) = n)) as [->|];
        [rewrite lookup_insert_eq|rewrite lookup_insert_ne by done]; eauto.
  - eapply enrollInv_decide; try done; simpl; [congruence|]. unfold pendingStatus. simpl. by rewrite Ha.
  - eapply enrollInv_remove; [done| | | |].
    + intros i p [? _]%map_lookup_filter_Some. done.
    + apply map_filter_subseteq.
    + intros i p [Hi Hne]%map_lookup_filter_Some Ha. simpl in Hne.
      rewrite lookup_delete_ne by done. by eapply (ei_authorized _ Hinv).
    + intros i g Hg. specialize (Hh i). destruct (pending !! i) as [p|] eqn:Ep; [|left; congruence].
      case_bool_decide as Hn; [|left; congruence]. destruct Hh as [now Hnow]. right. split.
      * apply map_lookup_filter_None. right. intros q Hq. simplify_eq. simpl. auto.
      * simplify_eq. simpl. set_solver.
  - eapply enrollInv_remove; [done| | | |].
    + by intros i q [_ ?]%lookup_delete_Some.
    + apply delete_subseteq.
    + intros i q [_ ?]%lookup_delete_Some. by apply (ei_authorized _ Hinv i).
    + intros i g. rewrite lookup_insert. case_decide; [|by left]. intros [= <-]. right. subst.
      rewrite lookup_delete_eq. split; [done|]. simpl. set_solver.
  - eapply enrollInv_remove; [done| | | |].
    + by intros i q [_ ?]%lookup_delete_Some.
    + apply delete_subseteq.
    + intros i q [_ ?]%lookup_delete_Some. by apply (ei_authorized _ Hinv i).
    + intros i g. destruct (_ || _); [|by left]. rewrite lookup_insert. case_decide; [|by left].
      intros [= <-]. right. subst. rewrite lookup_delete_eq. split; [done|]. simpl. set_solver.
  - eapply enrollInv_remove; [done|done|done| |].
    + apply (ei_authorized _ Hinv).
    + intros i g [_ ?]%lookup_delete_Some. by left.
Qed.

Lemma enrollSteps_inv a s s' : enrollSteps a s s' → enrollInv s → enrollInv s'.
Proof. apply star_invariant. intros x y. apply enrollStep_inv. Qed.

(** ** Who can change what *)

Lemma enrollStep_auth a s s' :
  a ≠ Administrator → enrollStep a s s' → en_auth s' = en_auth s.
Proof. intros Ha Hstep. by destruct Hstep. Qed.

(** Only the administrator changes the authorized credentials. *)
Lemma enrollSteps_auth a s s' :
  a ≠ Administrator → enrollSteps a s s' → en_auth s' = en_auth s.
Proof.
  intros Ha. induction 1 as [|x y z Hxy _ IH]; [done|]. rewrite IH. by eapply enrollStep_auth.
Qed.

(** The edges of a handshake's history. *)
Definition historyEdge (c d : Z) : bool :=
  bool_decide ((c, d) ∈ [(100, 200); (100, 403); (100, 410); (200, 201); (200, 403); (200, 410); (403, 403)]).

Lemma enrollStep_history a s s' id h h' :
  enrollInv s → enrollStep a s s' →
  en_history s !! id = Some h → en_history s' !! id = Some h' →
  h' = h ∨ historyEdge (hh_StatusCode h) (hh_StatusCode h') = true.
Proof.
  intros Hinv Hstep Hh Hh'.
  assert (∀ p, en_pending s !! id = Some p → hh_StatusCode h = pendingStatus p) as Hm.
  { intros p Hp. by eapply (ei_mirror _ Hinv). }
  destruct Hstep as [pending history auth p created Hp Hn _ _ _ _
    |pending history auth i p replace now _ Hp Hf _|pending history auth i p reason now _ Hp Ha
    |pending history auth node pending' history' _ _ -> Hr|pending history auth i p now _ Hp Ha _
    |pending history auth i p now Hp _ h0|pending history auth i]; simpl in *.
  - rewrite lookup_insert_ne in Hh' by congruence. left. congruence.
  - apply andb_true_iff in Hf as [Ha%negb_true_iff Hr%negb_true_iff].
    rewrite lookup_insert in Hh'. case_decide; [|left; congruence]. subst. simplify_eq. right.
    rewrite (Hm p Hp). unfold pendingStatus. by rewrite Ha, Hr.
  - rewrite lookup_insert in Hh'. case_decide; [|left; congruence]. subst. simplify_eq. right.
    rewrite (Hm p Hp). unfold pendingStatus. rewrite Ha. by destruct (ph_Rejected p).
  - specialize (Hr id). destruct (pending !! id) as [p|] eqn:Ep; [|left; congruence].
    case_bool_decide; [|left; congruence]. destruct Hr as [now Hnow]. simplify_eq. right.
    rewrite (Hm p eq_refl). unfold pendingStatus. by destruct (ph_Approved p), (ph_Rejected p).
  - rewrite lookup_insert in Hh'. case_decide; [|left; congruence]. subst. simplify_eq. right.
    rewrite (Hm p Hp). unfold pendingStatus. by rewrite Ha.
  - destruct (_ || _) eqn:Hc in Hh'; [|left; congruence].
    rewrite lookup_insert in Hh'. case_decide; [|left; congruence]. subst. simplify_eq. right.
    unfold h0, historyOf in Hc. rewrite Hh in Hc. simpl in Hc.
    apply orb_true_iff in Hc as [->%Z.eqb_eq| ->%Z.eqb_eq]; done.
  - apply lookup_delete_Some in Hh' as [_ ?]. left. congruence.
Qed.
