(* ===== verification/World.v ===== *)
(** * The coordinator's global invariant and what a handler may do

    The abstraction functions from a [world] to the states of ConnSpec and
    EnrollSpec, the invariant of the whole coordinator ([worldInv]: memory,
    state file and signal channels), and [stepsTo], the relation every
    handler is proved to stay in: it refines both protocols on the authority
    it was called with, and keeps the invariant. *)
From S2P Require Import Prelude GoStd GoNet GoCrypto Types Runtime Validate Registry ConnSpec EnrollSpec.

Local Open Scope Z_scope.

(** ** Directory entries *)

Definition byAddress (x y : directCandidate) : bool := (dc_Address x <? dc_Address y)%string.

Record candidatesOk (l : list directCandidate) : Prop := {
  ca_count : Z.of_nat (length l) ≤ maxDirectCandidates;
  ca_sorted : StronglySorted (notAfter byAddress) l;
  ca_distinct : NoDup (dc_Address <$> l);
  ca_private : Forall (λ c, validateDirectCandidate (dc_Address c) = true) l;
}.

Section Directory.
Context {unicode : Unicode}.

Record serviceOk (n : discoveredNode) (s : publishedService) : Prop := {
  se_owner : ps_NodeID s = dn_ID n ∧ ps_Segment s = dn_Segment n;
  se_named : ps_Name s ≠ "" ∧ ps_UUID s ≠ "";
  se_pinned : validSHA256Pin (ps_PinnedSHA256 s) = true;
  se_candidates : candidatesOk (ps_DirectCandidates s);
}.

Definition relayOk (r : relayAdvertisement) : bool :=
  validateHostPort (ra_Endpoint r) && validSHA256Pin (ra_PinnedSHA256 r) && (0 <=? ra_Priority r).

(** A node as the coordinator stores it under [id]. *)
Record nodeOk (network id : string) (n : discoveredNode) : Prop := {
  no_id : dn_ID n = id;
  no_name : dn_Name n ≠ "";
  no_network : dn_VirtualNetwork n = network;
  no_services : Forall (serviceOk n) (dn_Services n);
  no_relay : match dn_Relay n with
             | Some r => dn_Role n = "relay" ∧ relayOk r = true
             | None => dn_Role n ≠ "relay"
             end;
  no_upstream : dn_Role n = "subnode" ↔ dn_UpstreamRelay n ≠ "";
}.
End Directory.

(** ** Abstraction *)

Definition connPart (s : coordinatorState) (used : gset string) : connState :=
  mkConnState (Connections s) (ConnectionIdempotency s) (ConnectionCursors s) (ConnectionAcks s) used.
Definition enrollOf (s : coordinatorState) : enrollPart :=
  mkEnrollPart (Pending s) (History s) (Authorized s).

(** The random identifiers never repeat: what 32 bytes from [crypto/rand]
    are relied on for ([createConnection] does not check for a collision). *)
Class UniqueTokens {env : Env} : Prop :=
  uniqueTokens : ∀ i j b, randRead i 32 = Some b → randRead j 32 = Some b → i = j.
Arguments UniqueTokens : clear implicits.

Section World.
Context {env : Env}.

(** The tokens drawn from the random source so far. *)
Definition usedTokens (w : world) : gset string :=
  list_to_set (omap (λ i, Hex.EncodeToString <$> randRead i 32) (seq 0 (w_rand w))).

Definition connOf (w : world) : connState := connPart (w_state w) (usedTokens w).

(** ** The invariant *)

Record stateInv (net : string) (limit : Z) (used : gset string) (s : coordinatorState) : Prop := {
  si_enroll : enrollInv (enrollOf s);
  si_conn : connInv limit (connPart s used);
  si_audit : Z.of_nat (length (Audit s)) ≤ maxAuditEvents;
  si_nodes : ∀ id n, Nodes s !! id = Some n → nodeOk net id n ∧ is_Some (Authorized s !! id);
}.

(** Every registered signal is an open channel registered once, and no
    closed channel has been closed again. *)
Record signalsOk (targets requests : gmap string chan) (h : chanHeap) : Prop := {
  sg_panic : closePanics h = false;
  sg_closed : ∀ c, c ∈ closedChans h → (c < nextChan h)%nat;
  sg_open : ∀ k c, targets !! k = Some c ∨ requests !! k = Some c →
    (c < nextChan h)%nat ∧ c ∉ closedChans h;
  sg_targets : ∀ j k c, targets !! j = Some c → targets !! k = Some c → j = k;
  sg_requests : ∀ j k c, requests !! j = Some c → requests !! k = Some c → j = k;
  sg_disjoint : ∀ j k c, targets !! j = Some c → requests !! k = Some c → False;
}.

Definition wNetwork (w : world) : string := network (w_reg w).
Definition wLimit (w : world) : Z := connectionMax (w_reg w).
Definition wStateInv (w : world) : coordinatorState → Prop :=
  stateInv (wNetwork w) (wLimit w) (usedTokens w).

(** A status signal is registered only for a request that can still move. *)
Definition requestsLive (w : world) : Prop :=
  ∀ id s, requestSignals (w_reg w) !! id = Some s →
    ∃ c, Connections (w_state w) !! id = Some c ∧ connectionTerminal (cr_State c) = false.

Record worldInv (w : world) : Prop := {
  wi_memory : wStateInv w (w_state w);
  wi_disk : ∀ s, w_disk w = Some s → wStateInv w s;
  wi_signals : signalsOk (connectionSignals (w_reg w)) (requestSignals (w_reg w)) (w_chans w);
  wi_live : requestsLive w;
}.

(** The parts of the registry only the start of an inbox wait and its end
    change ([inboxWaiters]), or nothing does. *)
Definition config (w : world) : string * string * gmap string bool * (Z * Z * Z * Z) :=
  (adminToken (w_reg w), network (w_reg w), inboxWaiters (w_reg w),
   (connectionWait (w_reg w), connectionTTL (w_reg w), connectionLease (w_reg w), connectionMax (w_reg w))).

(** ** Wake-ups *)

(** A request an inbox wait of [node] would be given. *)
Definition deliverable (node : string) (c : connectionRequest) : bool :=
  (cr_TargetNode c =? node)%string && (cr_State c =? "queued")%string.

(** No waiter is forgotten: a registered signal is closed unless nothing it
    announces has happened.  For a node that is a request to deliver that
    was not there before, for a request a change of its state. *)
Record wakes (w w' : world) : Prop := {
  wk_closed : closedChans (w_chans w) ⊆ closedChans (w_chans w');
  wk_targets : ∀ node s, connectionSignals (w_reg w) !! node = Some s →
    s ∈ closedChans (w_chans w') ∨
    (connectionSignals (w_reg w') !! node = Some s ∧
     ∀ id c, Connections (w_state w') !! id = Some c → deliverable node c = true →
       ∃ c0, Connections (w_state w) !! id = Some c0 ∧ deliverable node c0 = true ∧ cr_Cursor c0 = cr_Cursor c);
  wk_requests : ∀ id s, requestSignals (w_reg w) !! id = Some s →
    s ∈ closedChans (w_chans w') ∨
    (requestSignals (w_reg w') !! id = Some s ∧
     cr_State <$> Connections (w_state w') !! id = cr_State <$> Connections (w_state w) !! id);
}.

#[export] Instance wakes_preorder : PreOrder wakes.
Proof.
  split.
  - intros w. split; [done| |]; intros k s Hk; right; [|done]. split; [done|]. intros id c. eauto.
  - intros w1 w2 w3 [C1 T1 R1] [C2 T2 R2]. split; [by etrans| |].
    + intros node s Hs. destruct (T1 node s Hs) as [H|[Hs2 Hd]]; [left; by apply C2|].
      destruct (T2 node s Hs2) as [H|[Hs3 Hd3]]; [by left|right]. split; [done|].
      intros id c Hc Hq. destruct (Hd3 id c Hc Hq) as (c2 & Hc2 & Hq2 & <-). by apply Hd.
    + intros id s Hs. destruct (R1 id s Hs) as [H|[Hs2 Hd]]; [left; by apply C2|].
      destruct (R2 id s Hs2) as [H|[Hs3 Hd3]]; [by left|right]. split; [done|congruence].
Qed.

(** ** Nonces *)

(** A nonce that was remembered is remembered at least as long, or the clock
    has been read at its expiry or later. *)
Definition noncesKept (w w' : world) : Prop :=
  (w_clock w ≤ w_clock w')%nat
  ∧ ∀ n e, nonces (w_reg w) !! n = Some e →
      (∃ e', nonces (w_reg w') !! n = Some e' ∧ e ≤ e') ∨ (∃ i, (i < w_clock w')%nat ∧ e ≤ clock i).

#[export] Instance noncesKept_preorder : PreOrder noncesKept.
Proof.
  split.
  - intros w. split; [done|]. intros n e He. left. by exists e.
  - intros w1 w2 w3 [C1 N1] [C2 N2]. split; [lia|]. intros n e He.
    destruct (N1 n e He) as [(e2 & H2 & ?)|(i & Hi & ?)]; [|right; exists i; split; [lia|done]].
    destruct (N2 n e2 H2) as [(e3 & H3 & ?)|(i & Hi & ?)]; [left; exists e3|right; exists i]; (split; [done|lia]).
Qed.

Lemma noncesKept_same w w' :
  nonces (w_reg w') = nonces (w_reg w) → (w_clock w ≤ w_clock w')%nat → noncesKept w w'.
Proof. intros Hn Hc. split; [done|]. intros n e He. left. exists e. by rewrite Hn. Qed.

(** A time the clock has shown. *)
Definition readAt (now : Z) (w : world) : Prop := ∃ i, (i < w_clock w)%nat ∧ now = clock i.

Lemma readAt_mono now w w' : (w_clock w ≤ w_clock w')%nat → readAt now w → readAt now w'.
Proof. intros H (i & Hi & ->). exists i. split; [lia|done]. Qed.

Lemma readAt_tick w : readAt (clock (w_clock w)) (tickClock w).
Proof. exists (w_clock w). split; [simpl; lia|done]. Qed.

(** ** Tokens *)

Lemma elem_of_usedTokens w t :
  t ∈ usedTokens w ↔ ∃ i b, (i < w_rand w)%nat ∧ randRead i 32 = Some b ∧ t = Hex.EncodeToString b.
Proof.
  unfold usedTokens. rewrite elem_of_list_to_set, list_elem_of_omap. split.
  - intros (i & Hi & (b & Hb & ->)%fmap_Some). apply elem_of_seq in Hi. exists i, b.
    split_and!; [lia|done|done].
  - intros (i & b & Hi & Hb & ->). exists i. rewrite elem_of_seq. split; [lia|]. cbn beta. by rewrite Hb.
Qed.

Lemma usedTokens_mono w w' : (w_rand w ≤ w_rand w')%nat → usedTokens w ⊆ usedTokens w'.
Proof.
  intros H t. rewrite !elem_of_usedTokens. intros (i & b & ? & ? & ?). exists i, b. split_and!; [lia|done|done].
Qed.

(** ** Handshakes *)

(** What a handshake is made of, but for the decision. *)
Definition handshakeCore (p : pendingHandshake) :=
  (ph_RequestID p, ph_SecretHash p, ph_DeviceCode p, ph_Node p, ph_PublicKey p, ph_Source p, ph_ExpiresAt p).

(** A token that had not been drawn. *)
Definition drawnAfter (w : world) (id : string) : Prop :=
  ∃ i b, (w_rand w ≤ i)%nat ∧ randRead i 32 = Some b ∧ id = Hex.EncodeToString b.

Lemma drawnAfter_mono w w' id : (w_rand w ≤ w_rand w')%nat → drawnAfter w' id → drawnAfter w id.
Proof. intros H (i & b & Hi & Hb & ->). exists i, b. split_and!; [lia|done|done]. Qed.

(** The pending handshakes of [s] were pending in [w], or have an identifier
    that had not been drawn; an approval is the administrator's. *)
Definition originates (a : authority) (w : world) (s : coordinatorState) : Prop :=
  ∀ id p', Pending s !! id = Some p' →
    (∃ p, Pending (w_state w) !! id = Some p ∧ handshakeCore p = handshakeCore p'
       ∧ (ph_Approved p' = true → ph_Approved p = true ∨ a = Administrator))
    ∨ (drawnAfter w id ∧ (ph_Approved p' = true → a = Administrator)).

Record handshakesKept (a : authority) (w w' : world) : Prop := {
  hk_rand : (w_rand w ≤ w_rand w')%nat;
  hk_memory : originates a w (w_state w');
  hk_disk : ∀ s, w_disk w' = Some s → w_disk w = Some s ∨ originates a w s;
}.

Lemma originates_same a w s : Pending s = Pending (w_state w) → originates a w s.
Proof. intros Hs id p Hp. rewrite Hs in Hp. left. exists p. auto. Qed.

Lemma originates_subseteq a w s : Pending s ⊆ Pending (w_state w) → originates a w s.
Proof. intros Hs id p Hp. left. exists p. split_and!; [by eapply lookup_weaken|done|auto]. Qed.

(** One handshake is decided. *)
Lemma originates_update a w s id p q :
  Pending (w_state w) !! id = Some p → Pending s = <[id := q]> (Pending (w_state w)) → handshakeCore p = handshakeCore q →
  (ph_Approved q = true → ph_Approved p = true ∨ a = Administrator) → originates a w s.
Proof.
  intros Hp Hs Hc Ha i p' Hi. rewrite Hs, lookup_insert in Hi. left. case_decide; [|by exists p'; auto].
  injection Hi as <-. subst. exists p. auto.
Qed.

Lemma originates_trans a w w' s :
  (w_rand w ≤ w_rand w')%nat → originates a w (w_state w') → originates a w' s → originates a w s.
Proof.
  intros Hr H1 H2 id p' Hp.
  destruct (H2 id p' Hp) as [(p & Hp1 & Hc & Ha)|[Hn Ha]]; [|right; split; [by eapply drawnAfter_mono|done]].
  destruct (H1 id p Hp1) as [(p0 & Hp0 & Hc0 & Ha0)|[Hn0 Ha0]]; [left; exists p0|right]; split_and!; try done; [congruence|naive_solver..].
Qed.

#[export] Instance handshakesKept_preorder a : PreOrder (handshakesKept a).
Proof.
  split; [intros w; split; [done|by apply originates_same|by left]|].
  intros w1 w2 w3 [R1 M1 D1] [R2 M2 D2]. split; [lia|by eapply originates_trans|].
  intros s Hs. destruct (D2 s Hs) as [H|H]; [by apply D1|]. right. by eapply originates_trans.
Qed.

(** What a critical section run on the authority [a] (enrollment) for the
    node [actor] (connections) may do. *)
Record stepsTo (a : authority) (actor : string) (w w' : world) : Prop := {
  to_enroll : enrollSteps a (enrollOf (w_state w)) (enrollOf (w_state w'));
  to_conn : connSteps (wLimit w) actor (connOf w) (connOf w');
  to_config : config w' = config w;
  to_inv : worldInv w → worldInv w';
  to_wakes : worldInv w → wakes w w';
  to_nonces : noncesKept w w';
  to_handshakes : handshakesKept a w w';
}.

#[export] Instance stepsTo_preorder a actor : PreOrder (stepsTo a actor).
Proof.
  split; [intros w; by split|].
  intros w1 w2 w3 [E1 C1 F1 I1 W1 N1 K1] [E2 C2 F2 I2 W2 N2 K2].
  assert (wLimit w2 = wLimit w1) as HL by (unfold wLimit; unfold config in F1; congruence).
  rewrite HL in C2. split; [etrans; eassumption|etrans; eassumption|congruence|auto| |etrans; eassumption|by etrans].
  intros H. etrans; auto.
Qed.

Lemma stateInv_used net limit used used' s :
  used ⊆ used' → stateInv net limit used s → stateInv net limit used' s.
Proof.
  intros Hu [He Hc Ha Hn]. split; [done| |done|done].
  destruct Hc. split; simpl in *; try done. auto.
Qed.

Lemma stateInv_limit net limit limit' used s :
  limit ≤ limit' → stateInv net limit used s → stateInv net limit' used s.
Proof. intros Hl [He Hc Ha Hn]. split; [done| |done|done]. destruct Hc. split; simpl in *; try done. lia. Qed.

(** ** Ways to make a step *)

Record signalStep (w w' : world) : Prop := {
  ss_ok : signalsOk (connectionSignals (w_reg w')) (requestSignals (w_reg w')) (w_chans w');
  ss_live : requestsLive w';
  ss_wakes : wakes w w';
}.

Lemma stepsTo_intro a actor w w' :
  enrollSteps a (enrollOf (w_state w)) (enrollOf (w_state w')) →
  connSteps (wLimit w) actor (connOf w) (connOf w') →
  config w' = config w → (w_rand w ≤ w_rand w')%nat →
  (wStateInv w (w_state w) → Z.of_nat (length (Audit (w_state w'))) ≤ maxAuditEvents) →
  (wStateInv w (w_state w) → ∀ id n, Nodes (w_state w') !! id = Some n →
     nodeOk (wNetwork w) id n ∧ is_Some (Authorized (w_state w') !! id)) →
  (w_disk w' = w_disk w ∨ w_disk w' = Some (w_state w')) →
  (worldInv w → signalStep w w') →
  noncesKept w w' →
  originates a w (w_state w') →
  stepsTo a actor w w'.
Proof.
  intros He Hc Hf Hr Ha Hn Hd Hs Hk Ho.
  assert (wNetwork w' = wNetwork w ∧ wLimit w' = wLimit w) as [Hnet Hlim].
  { unfold wNetwork, wLimit. unfold config in Hf. split; congruence. }
  split; [done|done|done| |by apply Hs|done|]; last first.
  { split; [done|done|]. intros s Hs'. destruct Hd as [Hd|Hd]; rewrite Hd in Hs'; [by left|right; by simplify_eq]. }
  intros Hinv. destruct (Hs Hinv) as [Hok Hlive _]. destruct Hinv as [[Ie Ic Ia In] Hdisk _ _].
  assert (wStateInv w' (w_state w')) as Hmem.
  { unfold wStateInv. rewrite Hnet, Hlim. split.
    - by eapply enrollSteps_inv.
    - by eapply connSteps_inv.
    - by apply Ha.
    - by apply Hn. }
  split; [done| |done|done].
  intros s Hs'. destruct Hd as [Hd|Hd]; rewrite Hd in Hs'; [|by simplify_eq].
  unfold wStateInv. rewrite Hnet, Hlim. eapply stateInv_used; [by apply usedTokens_mono|by apply Hdisk].
Qed.

Lemma connSteps_burn limit actor w w' :
  connPart (w_state w') = connPart (w_state w) → (w_rand w ≤ w_rand w')%nat →
  connSteps limit actor (connOf w) (connOf w').
Proof.
  intros Hc Hr. pose proof (usedTokens_mono w w' Hr). unfold connOf. rewrite Hc. apply rtc_once. unfold connPart.
  replace (usedTokens w') with (usedTokens w' ∪ usedTokens w) by set_solver. constructor.
Qed.

(** Signals and requests are the same. *)
Lemma signalStep_same w w' :
  Connections (w_state w') = Connections (w_state w) →
  connectionSignals (w_reg w') = connectionSignals (w_reg w) →
  requestSignals (w_reg w') = requestSignals (w_reg w) → w_chans w' = w_chans w →
  worldInv w → signalStep w w'.
Proof.
  intros Hc Ht Hr Hh [_ _ Hs Hl]. split.
  - by rewrite Ht, Hr, Hh.
  - unfold requestsLive. by rewrite Hr, Hc.
  - split; rewrite ?Hh, ?Ht, ?Hr, ?Hc; [done| |]; intros k s Hk; right; [|done]. split; [done|]. eauto.
Qed.

(** The protocols' parts are the same. *)
Lemma stepsTo_frame a actor w w' :
  enrollOf (w_state w') = enrollOf (w_state w) →
  connPart (w_state w') = connPart (w_state w) →
  config w' = config w →
  (w_rand w ≤ w_rand w')%nat →
  (wStateInv w (w_state w) → Z.of_nat (length (Audit (w_state w'))) ≤ maxAuditEvents) →
  (wStateInv w (w_state w) → ∀ id n, Nodes (w_state w') !! id = Some n →
     nodeOk (wNetwork w) id n ∧ is_Some (Authorized (w_state w) !! id)) →
  (w_disk w' = w_disk w ∨ w_disk w' = Some (w_state w')) →
  (worldInv w → signalStep w w') →
  noncesKept w w' →
  stepsTo a actor w w'.
Proof.
  intros He Hc Hf Hr Ha Hn Hd Hs Hk. apply stepsTo_intro; try done.
  - rewrite He. apply rtc_refl.
  - by apply connSteps_burn.
  - injection He as _ _ ->. done.
  - apply originates_same. by injection He.
Qed.

(** An enrollment step. *)
Lemma stepsTo_protocol a actor w f :
  let s := w_state w in let s' := f s in
  enrollSteps a (enrollOf s) (enrollOf s') →
  connPart s' = connPart s →
  Audit s' = Audit s →
  (∀ id n, Nodes s' !! id = Some n → Nodes s !! id = Some n ∧
     (is_Some (Authorized s !! id) → is_Some (Authorized s' !! id))) →
  originates a w s' →
  stepsTo a actor w (setReg (setState f) w).
Proof.
  intros s s' He Hc Ha Hn Ho. apply stepsTo_intro; try done.
  - by apply connSteps_burn.
  - change (w_state (setReg (setState f) w)) with s'. rewrite Ha. by intros [].
  - intros [_ _ _ In] id n Hid. destruct (Hn id n Hid) as [H1 H2]. destruct (In id n H1). auto.
  - by left.
  - apply signalStep_same; try done. by apply (f_equal (λ g, cs_conns (g ∅))) in Hc.
  - by apply noncesKept_same.
Qed.
End World.
