(* ===== verification/Steps.v ===== *)
(** * What the shared operations do

    One weakest-precondition rule and one [stepsTo] lemma per operation of
    Registry and Auth: the exact world after it, so that the handlers'
    proofs compose.  The rules are declared to the tactic [wp_go], which
    extends [wp_steps] with them. *)
From S2P Require Import Prelude GoStd GoNet GoCrypto Types Runtime Validate Wire Registry RateLimit.
From S2P Require Import Auth ConnSpec EnrollSpec World.

Local Open Scope Z_scope.

(** ** Bounded audit *)

Lemma boundAudit_length l : Z.of_nat (length (boundAudit l)) ≤ maxAuditEvents.
Proof.
  unfold boundAudit. destruct (maxAuditEvents <? _) eqn:E; bool_simpl; [|lia].
  rewrite length_drop. unfold maxAuditEvents in *. lia.
Qed.

(** The newest events are kept. *)
Lemma boundAudit_suffix l : boundAudit l `suffix_of` l.
Proof.
  unfold boundAudit. destruct (_ <? _); [|done].
  exists (take (length l - Z.to_nat maxAuditEvents) l). by rewrite take_drop.
Qed.

(** ** Signals *)

Lemma signalsOk_drop targets requests h targets' requests' :
  targets' ⊆ targets → requests' ⊆ requests →
  signalsOk targets requests h → signalsOk targets' requests' h.
Proof.
  intros Ht Hr [Hp Hc Ho Hti Hri Hd].
  assert (∀ k c, targets' !! k = Some c → targets !! k = Some c) as Ht' by (intros; by eapply lookup_weaken).
  assert (∀ k c, requests' !! k = Some c → requests !! k = Some c) as Hr' by (intros; by eapply lookup_weaken).
  split; [done|done| |by eauto|by eauto|by eauto].
  intros k c [H|H]; eapply (Ho k); eauto.
Qed.

Lemma signalsOk_swap targets requests h : signalsOk targets requests h → signalsOk requests targets h.
Proof. intros [Hp Hc Ho Hti Hri Hd]. split; [done|done| |done|done|]; naive_solver. Qed.

Lemma signalsOk_close targets requests h k c :
  signalsOk targets requests h → targets !! k = Some c →
  (c ∉ closedChans h)
  ∧ signalsOk (delete k targets) requests (mkChanHeap (nextChan h) ({[c]} ∪ closedChans h) (closePanics h)).
Proof.
  intros [Hp Hc Ho Hti Hri Hd] Hk. pose proof (Ho k c (or_introl Hk)) as [Hlt Hopen].
  split; [done|]. split; simpl; [done| | | |done|].
  - intros d [->%elem_of_singleton|Hin]%elem_of_union; auto.
  - intros j d Hj. assert (d ≠ c) as Hne.
    { intros ->. destruct Hj as [[Hne Hj]%lookup_delete_Some|Hj]; [by specialize (Hti _ _ _ Hj Hk)|by eapply Hd]. }
    destruct (Ho j d) as [H1 H2]; [destruct Hj as [[_ ?]%lookup_delete_Some|]; auto|].
    split; [done|set_solver].
  - intros i j d [_ Hi]%lookup_delete_Some [_ Hj]%lookup_delete_Some. by eapply Hti.
  - intros i j d [_ Hi]%lookup_delete_Some Hj. by eapply Hd.
Qed.

Lemma signalsOk_make targets requests h k :
  signalsOk targets requests h → targets !! k = None →
  signalsOk (<[k := nextChan h]> targets) requests (mkChanHeap (S (nextChan h)) (closedChans h) (closePanics h)).
Proof.
  intros [Hp Hc Ho Hti Hri Hd] Hk.
  assert (∀ j c, targets !! j = Some c ∨ requests !! j = Some c → c ≠ nextChan h) as Hne.
  { intros j c Hj. destruct (Ho j c Hj). lia. }
  split; simpl; [done| | | |done|].
  - intros c Hin. specialize (Hc c Hin). lia.
  - intros j c. rewrite lookup_insert. case_decide; [intros [[= <-]|Hj]|intros Hj].
    + split; [lia|]. intros Hin. specialize (Hc _ Hin). lia.
    + destruct (Ho j c (or_intror Hj)). split; [lia|done].
    + destruct (Ho j c Hj). split; [lia|done].
  - intros i j c. rewrite !lookup_insert. case_decide; case_decide; intros Hi Hj; simplify_eq; [done| | |by eapply Hti].
    + by destruct (Hne j _ (or_introl Hj)).
    + by destruct (Hne i _ (or_introl Hi)).
  - intros i j c. rewrite lookup_insert. case_decide; [intros [= <-] Hj|by eapply Hd].
    by destruct (Hne j _ (or_intror Hj)).
Qed.

(** ** Purging a map

    [for k, v := range m { if drop(v) { delete(m, k) } }]. *)
Lemma wp_purge {V} (get : world → gmap string V) (drop : V → bool) (del : string → M unit)
    (R : world → world → Prop) l Q w0 w :
  (∀ x y z, R x y → R y z → R x z) →
  (∀ k v w', get w' !! k = Some v → drop v = true → R w0 w' →
     wp (del k) (λ _ w'', get w'' = delete k (get w') ∧ R w' w'') w') →
  R w0 w → l ≡ₚ map_to_list (get w) →
  (∀ w', R w0 w' → get w' = filter (λ kv, drop kv.2 = false) (get w) → Q tt w') →
  wp (forEach l (λ '(k, v), if drop v then del k else mret tt)) Q w.
Proof.
  intros Htrans Hdel H0 Hl HQ.
  assert (NoDup l.*1) as Hnd by (rewrite Hl; apply NoDup_fst_map_to_list).
  assert (∀ k v, (k, v) ∈ l ↔ get w !! k = Some v) as Hin.
  { intros k v. rewrite Hl. apply elem_of_map_to_list. }
  set (keep := λ m : gmap string V, filter (λ kv : string * V, drop kv.2 = false) m).
  apply (wp_forEach (λ l' w', R w0 w' ∧ NoDup l'.*1 ∧ (∀ k v, (k, v) ∈ l' → get w' !! k = Some v)
    ∧ (∀ k, k ∉ l'.*1 → get w' !! k = keep (get w) !! k)
    ∧ (∀ k v, (k, v) ∈ l' → get w !! k = Some v))).
  - split_and!; [done|done|intros k v; apply Hin| |intros k v; apply Hin].
    intros k Hk. unfold keep. rewrite map_lookup_filter.
    destruct (get w !! k) as [v|] eqn:E; [|done]. exfalso. apply Hk.
    apply list_elem_of_fmap. exists (k, v). by rewrite Hin.
  - intros [k v] l' w' (Hs & Hnd' & Hin' & Hdone & Horig). simpl in Hnd'.
    apply NoDup_cons in Hnd' as [Hk Hnd'].
    assert (∀ j x, (j, x) ∈ l' → j ≠ k) as Hne.
    { intros j x Hj ->. apply Hk. apply list_elem_of_fmap. by exists (k, x). }
    assert (keep (get w) !! k = if drop v then None else Some v) as Hkeep.
    { unfold keep. rewrite map_lookup_filter, (Horig k v) by left. simpl. by destruct (drop v). }
    destruct (drop v) eqn:Hv.
    + eapply wp_mono; [apply (Hdel k v); [apply Hin'; left|done|done]|]. intros [] w'' [Hg Hr]. split_and!; [by eapply Htrans|done| | |].
      * intros j x Hj. rewrite Hg, lookup_delete_ne by (symmetry; eauto). apply Hin'. by right.
      * intros j Hj. rewrite Hg. destruct (decide (j = k)) as [->|]; [by rewrite lookup_delete_eq|].
        rewrite lookup_delete_ne by done. apply Hdone. simpl. set_solver.
      * intros j x Hj. apply Horig. by right.
    + apply wp_ret. split_and!; [done|done| | |].
      * intros j x Hj. apply Hin'. by right.
      * intros j Hj. destruct (decide (j = k)) as [->|]; [rewrite Hkeep; apply Hin'; left|].
        apply Hdone. simpl. set_solver.
      * intros j x Hj. apply Horig. by right.
  - intros w' (Hs & _ & _ & Hdone & _). apply HQ; [done|].
    apply map_eq. intros k. apply Hdone. simpl. set_solver.
Qed.

Section Steps.
Context {env : Env} (a : authority) (actor : string).

(** ** Worlds after an operation *)

Definition afterAudit (e : auditEvent) (w : world) : world :=
  setReg (setState (setAudit (λ l, boundAudit (l ++ [stampAudit (clock (w_clock w)) e])))) (tickClock w).

Definition afterPersist (ok : bool) (w : world) : world :=
  mkWorld (w_reg w) (if ok then Some (w_state w) else w_disk w) (w_chans w) (w_clock w) (w_rand w)
    (S (w_files w)) (w_order w).

Definition closeSignal (m : gmap string chan) (k : string) (h : chanHeap) : chanHeap :=
  match m !! k with
  | Some c => if bool_decide (c ∈ closedChans h) then mkChanHeap (nextChan h) (closedChans h) true
              else mkChanHeap (nextChan h) ({[c]} ∪ closedChans h) (closePanics h)
  | None => h
  end.

Definition afterNotifyTarget (node : string) (w : world) : world :=
  setChans (closeSignal (connectionSignals (w_reg w)) node) (setReg (setConnectionSignals (delete node)) w).
Definition afterNotifyRequest (id : string) (w : world) : world :=
  setChans (closeSignal (requestSignals (w_reg w)) id) (setReg (setRequestSignals (delete id)) w).

Definition afterAllow (key : string) (limit now : Z) (w : world) : world :=
  setReg (setRates (λ m, (allowIn key limit now m).2)) w.

(** The signal under [k], made if there is none. *)
Definition signalOf (m : gmap string chan) (k : string) (h : chanHeap) : chan := default (nextChan h) (m !! k).
Definition makeSignal (m : gmap string chan) (k : string) (h : chanHeap) : chanHeap :=
  match m !! k with Some _ => h | None => mkChanHeap (S (nextChan h)) (closedChans h) (closePanics h) end.
Definition afterTargetSignal (node : string) (w : world) : world :=
  setChans (makeSignal (connectionSignals (w_reg w)) node)
    (setReg (setConnectionSignals (λ m, <[node := signalOf m node (w_chans w)]> m)) w).
Definition afterRequestSignal (id : string) (w : world) : world :=
  setChans (makeSignal (requestSignals (w_reg w)) id)
    (setReg (setRequestSignals (λ m, <[id := signalOf m id (w_chans w)]> m)) w).

(** ** Rules *)

Lemma wp_appendAudit e Q w :
  ae_Time e = Time.zero → Q tt (afterAudit e w) → wp (appendAuditLocked e) Q w.
Proof. intros He HQ. unfold appendAuditLocked. rewrite He. exact HQ. Qed.

Lemma wp_persist Q w : (∀ ok, Q ok (afterPersist ok w)) → wp persistLocked Q w.
Proof.
  intros HQ. unfold persistLocked. wp_steps. apply wp_writeStateFile. intros ok.
  replace (tickFiles _) with (afterPersist ok w) by (destruct ok; by destruct w). apply HQ.
Qed.

Lemma world_eta w : mkWorld (w_reg w) (w_disk w) (w_chans w) (w_clock w) (w_rand w) (w_files w) (w_order w) = w.
Proof. by destruct w. Qed.

Lemma wp_notifyTarget node Q w : Q tt (afterNotifyTarget node w) → wp (notifyTargetLocked node) Q w.
Proof.
  intros HQ. unfold notifyTargetLocked. wp_step. wp_step.
  destruct (connectionSignals (w_reg w) !! node) as [c|] eqn:E.
  - unfold afterNotifyTarget, closeSignal in HQ. rewrite E in HQ.
    unfold wp, closeChan, modReg, mbind, M_bind. simpl. exact HQ.
  - wp_step. replace w with (afterNotifyTarget node w); [done|].
    unfold afterNotifyTarget, closeSignal. rewrite E. destruct w as [r]; destruct r. simpl in *.
    unfold setChans, setReg, setConnectionSignals. simpl. by rewrite delete_id.
Qed.

Lemma wp_notifyRequest id Q w : Q tt (afterNotifyRequest id w) → wp (notifyRequestLocked id) Q w.
Proof.
  intros HQ. unfold notifyRequestLocked. wp_step. wp_step.
  destruct (requestSignals (w_reg w) !! id) as [c|] eqn:E.
  - unfold afterNotifyRequest, closeSignal in HQ. rewrite E in HQ.
    unfold wp, closeChan, modReg, mbind, M_bind. simpl. exact HQ.
  - wp_step. replace w with (afterNotifyRequest id w); [done|].
    unfold afterNotifyRequest, closeSignal. rewrite E. destruct w as [r]; destruct r. simpl in *.
    unfold setChans, setReg, setRequestSignals. simpl. by rewrite delete_id.
Qed.

Lemma wp_targetSignal node Q w :
  Q (signalOf (connectionSignals (w_reg w)) node (w_chans w)) (afterTargetSignal node w) →
  wp (targetSignalLocked node) Q w.
Proof.
  intros HQ. unfold targetSignalLocked. wp_step. wp_step.
  unfold signalOf, afterTargetSignal, makeSignal, signalOf in HQ.
  destruct (connectionSignals (w_reg w) !! node) as [c|] eqn:E; simpl in HQ.
  - wp_step. replace w with (setChans (λ h, h) (setReg (setConnectionSignals (λ m, <[node := default (nextChan (w_chans w)) (m !! node)]> m)) w)); [done|].
    destruct w as [r]; destruct r. simpl in *.
    unfold setChans, setReg, setConnectionSignals. simpl. rewrite E. simpl. by rewrite insert_id.
  - unfold wp, makeChan, modReg, mbind, M_bind. simpl.
    unfold setConnectionSignals, setReg, setChans in *. simpl in *. rewrite E in HQ. exact HQ.
Qed.

Lemma wp_requestSignal id Q w :
  Q (signalOf (requestSignals (w_reg w)) id (w_chans w)) (afterRequestSignal id w) →
  wp (requestSignalLocked id) Q w.
Proof.
  intros HQ. unfold requestSignalLocked. wp_step. wp_step.
  unfold signalOf, afterRequestSignal, makeSignal, signalOf in HQ.
  destruct (requestSignals (w_reg w) !! id) as [c|] eqn:E; simpl in HQ.
  - wp_step. replace w with (setChans (λ h, h) (setReg (setRequestSignals (λ m, <[id := default (nextChan (w_chans w)) (m !! id)]> m)) w)); [done|].
    destruct w as [r]; destruct r. simpl in *.
    unfold setChans, setReg, setRequestSignals. simpl. rewrite E. simpl. by rewrite insert_id.
  - unfold wp, makeChan, modReg, mbind, M_bind. simpl.
    unfold setRequestSignals, setReg, setChans in *. simpl in *. rewrite E in HQ. exact HQ.
Qed.

Lemma wp_allowLocked key limit now Q w :
  Q (allowIn key limit now (rates (w_reg w))).1 (afterAllow key limit now w) →
  wp (allowRequestLocked key limit now) Q w.
Proof.
  intros HQ. unfold allowRequestLocked. wp_step. wp_step. unfold afterAllow in HQ.
  destruct (allowIn key limit now (rates (w_reg w))) as [ok m] eqn:E. do 3 wp_step. simpl in HQ.
  replace (setReg (setRates (λ _, m)) w) with (setReg (setRates (λ m, (allowIn key limit now m).2)) w); [done|].
  unfold setReg, setRates. by rewrite E.
Qed.

Lemma wp_verifySignature req body key Q w :
  (∀ (ok : bool) w', (if ok then
      (∃ sent, wellSigned req body key sent
         ∧ clock (w_clock w) - 2 * Time.minute ≤ sent ≤ clock (w_clock w) + 2 * Time.minute)
      ∧ nonceLive (nonces (w_reg w)) (headerGet req "X-Mayoiga-Nonce") (clock (w_clock w)) = false
      ∧ w' = rememberNonce (headerGet req "X-Mayoiga-Nonce") w
    else w' = w ∨ w' = tickClock w) → Q ok w') →
  wp (verifySignatureLocked req body key) Q w.
Proof.
  intros HQ. unfold wp. pose proof (verifySignature_cases req body key w) as H. unfold run in H.
  destruct (verifySignatureLocked req body key w) as [ok w']. apply HQ. exact (H ok w' eq_refl).
Qed.

(** ** Steps *)

(** Nothing the invariant speaks about changes but signals. *)
Lemma stepsTo_same w w' :
  w_state w' = w_state w → config w' = config w → (w_rand w ≤ w_rand w')%nat →
  (w_disk w' = w_disk w ∨ w_disk w' = Some (w_state w)) →
  (worldInv w → signalStep w w') →
  noncesKept w w' →
  stepsTo a actor w w'.
Proof.
  intros Hs Hc Hr Hd Hsig Hk. apply stepsTo_frame; rewrite ?Hs; try done.
  - by intros [].
  - intros []. auto.
Qed.

Lemma stepsTo_nonSignal w w' :
  w_state w' = w_state w → config w' = config w → (w_rand w ≤ w_rand w')%nat →
  (w_disk w' = w_disk w ∨ w_disk w' = Some (w_state w)) →
  connectionSignals (w_reg w') = connectionSignals (w_reg w) →
  requestSignals (w_reg w') = requestSignals (w_reg w) → w_chans w' = w_chans w →
  noncesKept w w' →
  stepsTo a actor w w'.
Proof. intros Hs ? ? ? ? ? ? ?. apply stepsTo_same; try done. apply signalStep_same; try done. by rewrite Hs. Qed.

(** Nothing but clocks, the random source and the rate windows changes. *)
Lemma stepsTo_quiet w w' :
  w_state w' = w_state w → config w' = config w → (w_rand w ≤ w_rand w')%nat →
  (w_disk w' = w_disk w ∨ w_disk w' = Some (w_state w)) →
  connectionSignals (w_reg w') = connectionSignals (w_reg w) →
  requestSignals (w_reg w') = requestSignals (w_reg w) → w_chans w' = w_chans w →
  nonces (w_reg w') = nonces (w_reg w) → (w_clock w ≤ w_clock w')%nat →
  stepsTo a actor w w'.
Proof. intros. apply stepsTo_nonSignal; try done. by apply noncesKept_same. Qed.

(** An accepted nonce was not in use, or had expired. *)
Lemma stepsTo_remember nonce w :
  nonceLive (nonces (w_reg w)) nonce (clock (w_clock w)) = false → stepsTo a actor w (rememberNonce nonce w).
Proof.
  intros Hn. apply stepsTo_nonSignal; try done; [by left|]. split; [simpl; lia|].
  intros n e He. simpl. rewrite lookup_insert. case_decide as Hd; [|left; by exists e]. subst.
  unfold nonceLive, Time.After in Hn. rewrite He in Hn. bool_simpl.
  right. exists (w_clock w). split; [lia|done].
Qed.

(** A nonce that has expired is forgotten. *)
Lemma stepsTo_dropNonce now nonce e w :
  readAt now w → nonces (w_reg w) !! nonce = Some e → e < now →
  stepsTo a actor w (setReg (setNonces (delete nonce)) w).
Proof.
  intros (i & Hi & ->) He Hexp. apply stepsTo_nonSignal; try done; [by left|]. split; [done|].
  intros n x Hx. simpl. rewrite lookup_delete. case_decide as Hd; [|left; by exists x]. subst.
  right. exists i. split; [done|]. assert (x = e) as -> by congruence. lia.
Qed.

Lemma stepsTo_audit e w : stepsTo a actor w (afterAudit e w).
Proof.
  apply stepsTo_frame; try done; simpl.
  - intros _. apply boundAudit_length.
  - intros []. auto.
  - by left.
  - by apply signalStep_same.
  - apply noncesKept_same; [done|simpl; lia].
Qed.

Lemma stepsTo_persist ok w : stepsTo a actor w (afterPersist ok w).
Proof. apply stepsTo_quiet; try done; [|by destruct ok..]. destruct ok; simpl; auto. Qed.

Lemma closeSignal_spec m other k h :
  signalsOk m other h →
  signalsOk (delete k m) other (closeSignal m k h)
  ∧ closedChans h ⊆ closedChans (closeSignal m k h)
  ∧ (∀ c, m !! k = Some c → c ∈ closedChans (closeSignal m k h)).
Proof.
  intros Hs. unfold closeSignal. destruct (m !! k) as [c|] eqn:E.
  - destruct (signalsOk_close _ _ _ _ _ Hs E) as [Hopen H]. rewrite bool_decide_false by done.
    split_and!; [done|set_solver|]. intros ? [= <-]. set_solver.
  - rewrite delete_id by done. by split_and!.
Qed.

(** *** A change of one connection request, with its notifications *)

Definition wakeTarget (wake : option string) (w : world) : world :=
  match wake with Some t => afterNotifyTarget t w | None => w end.

(** [w1] is [w] with the request [id] changed; then its target's waiter is
    woken, if it must be, and the waiters for its status. *)
Definition moved (id : string) (wake : option string) (w w1 : world) : Prop :=
  (∀ j, j ≠ id → Connections (w_state w1) !! j = Connections (w_state w) !! j)
  ∧ (∀ c t, Connections (w_state w1) !! id = Some c → deliverable t c = true → wake = Some t).

Lemma signalStep_moved id wake w w1 :
  moved id wake w w1 → worldInv w →
  connectionSignals (w_reg w1) = connectionSignals (w_reg w) →
  requestSignals (w_reg w1) = requestSignals (w_reg w) → w_chans w1 = w_chans w →
  signalStep w (afterNotifyRequest id (wakeTarget wake w1)).
Proof.
  intros [Hother Hdel] [_ _ Hs Hl] Ht Hr Hh.
  set (w2 := wakeTarget wake w1).
  assert (signalsOk (connectionSignals (w_reg w2)) (requestSignals (w_reg w2)) (w_chans w2)
    ∧ closedChans (w_chans w) ⊆ closedChans (w_chans w2)
    ∧ requestSignals (w_reg w2) = requestSignals (w_reg w) ∧ w_state w2 = w_state w1
    ∧ (∀ t, wake ≠ Some t → connectionSignals (w_reg w2) !! t = connectionSignals (w_reg w) !! t)
    ∧ (∀ t c, wake = Some t → connectionSignals (w_reg w) !! t = Some c → c ∈ closedChans (w_chans w2)))
    as (Hs2 & Hc2 & Hr2 & E2 & Hkept & Hwoken).
  { unfold w2. destruct wake as [t|]; simpl; rewrite ?Ht, ?Hr, ?Hh.
    - destruct (closeSignal_spec _ _ t _ Hs) as (H1 & H2 & H3). split_and!; try done.
      + intros u Hu. rewrite lookup_delete_ne; [done|congruence].
      + intros u c [= <-]. apply H3.
    - by split_and!. }
  apply signalsOk_swap in Hs2. destruct (closeSignal_spec _ _ id _ Hs2) as (H1 & H2 & H3).
  rewrite Hr2 in *. split; simpl; rewrite ?Hr2.
  - by apply signalsOk_swap.
  - intros j s Hj. simpl in Hj. rewrite Hr2 in Hj. apply lookup_delete_Some in Hj as [Hj Hjs].
    change (w_state (afterNotifyRequest id w2)) with (w_state w2). rewrite E2, Hother by done. by eapply Hl.
  - split; simpl; rewrite ?Hr2.
    + etrans; [exact Hc2|exact H2].
    + intros node s Hns. destruct (decide (wake = Some node)) as [Hw|Hw]; [left; apply H2; by eapply Hwoken|].
      right. split; [by rewrite Hkept|]. intros j c. change (w_state (afterNotifyRequest id w2)) with (w_state w2).
      rewrite E2. destruct (decide (j = id)) as [->|Hj]; [|rewrite Hother by done; eauto].
      intros Hc Hd. destruct Hw. by eapply Hdel.
    + intros j s Hj. destruct (decide (j = id)) as [->|Hne]; [left; by apply H3|right].
      rewrite lookup_delete_ne by done. split; [done|].
      change (w_state (afterNotifyRequest id w2)) with (w_state w2). by rewrite E2, Hother.
Qed.

Lemma stepsTo_moved id wake w w1 :
  moved id wake w w1 →
  connSteps (wLimit w) actor (connOf w) (connOf w1) →
  enrollOf (w_state w1) = enrollOf (w_state w) → Audit (w_state w1) = Audit (w_state w) →
  Nodes (w_state w1) = Nodes (w_state w) → config w1 = config w →
  (w_rand w ≤ w_rand w1)%nat → w_disk w1 = w_disk w →
  connectionSignals (w_reg w1) = connectionSignals (w_reg w) →
  requestSignals (w_reg w1) = requestSignals (w_reg w) → w_chans w1 = w_chans w →
  nonces (w_reg w1) = nonces (w_reg w) → (w_clock w ≤ w_clock w1)%nat →
  stepsTo a actor w (afterNotifyRequest id (wakeTarget wake w1)).
Proof.
  intros Hm Hc He Ha Hn Hf Hr Hd Ht Hq Hh Hno Hk.
  assert (w_state (afterNotifyRequest id (wakeTarget wake w1)) = w_state w1) as E by (by destruct wake).
  assert (w_rand (afterNotifyRequest id (wakeTarget wake w1)) = w_rand w1) as Er by (by destruct wake).
  apply stepsTo_intro; rewrite ?E, ?Er.
  - rewrite He. apply rtc_refl.
  - unfold connOf at 2, usedTokens. rewrite E, Er. exact Hc.
  - rewrite <- Hf. by destruct wake.
  - done.
  - rewrite Ha. by intros [].
  - rewrite Hn. injection He as _ _ ->. by intros [].
  - left. rewrite <- Hd. by destruct wake.
  - intros Hinv. by apply signalStep_moved.
  - apply noncesKept_same; by destruct wake.
  - apply originates_same. by injection He.
Qed.

(** *** Registering a waiter *)

Lemma signalsOk_signalOf m other h k :
  signalsOk m other h → signalsOk (<[k := signalOf m k h]> m) other (makeSignal m k h).
Proof.
  intros Hs. unfold signalOf, makeSignal. destruct (m !! k) as [c|] eqn:E; simpl; [by rewrite insert_id|].
  by apply signalsOk_make.
Qed.

Lemma signalOf_kept m h k j s : m !! j = Some s → <[k := signalOf m k h]> m !! j = Some s.
Proof.
  intros Hj. rewrite lookup_insert. case_decide; [|done]. subst. unfold signalOf. by rewrite Hj.
Qed.

Lemma makeSignal_closed m h k : closedChans (makeSignal m k h) = closedChans h.
Proof. unfold makeSignal. by destruct (m !! k). Qed.

Lemma stepsTo_targetSignal node w : stepsTo a actor w (afterTargetSignal node w).
Proof.
  apply stepsTo_same; try done; [by left| |by apply noncesKept_same]. intros [_ _ Hs Hl]. split; simpl.
  - by apply signalsOk_signalOf.
  - done.
  - split; simpl; [by rewrite makeSignal_closed| |].
    + intros n s Hn. right. split; [by apply signalOf_kept|]. eauto.
    + intros i s Hi. by right.
Qed.

Lemma stepsTo_requestSignal id c w :
  Connections (w_state w) !! id = Some c → connectionTerminal (cr_State c) = false →
  stepsTo a actor w (afterRequestSignal id w).
Proof.
  intros Hc Hterm. apply stepsTo_same; try done; [by left| |by apply noncesKept_same]. intros [_ _ Hs Hl]. split; simpl.
  - apply signalsOk_swap, signalsOk_signalOf, signalsOk_swap, Hs.
  - intros j s. simpl. rewrite lookup_insert. case_decide; [subst; eauto|apply Hl].
  - split; simpl; [by rewrite makeSignal_closed| |].
    + intros n s Hn. right. split; [done|]. eauto.
    + intros i s Hi. right. split; [by apply signalOf_kept|done].
Qed.

(** *** The limiter with its eviction *)

Lemma wp_allowRequest key limit Q w :
  let now := clock (w_clock w) in
  let m := if 4096 <? Z.of_nat (size (rates (w_reg w))) then evict now (rates (w_reg w)) else rates (w_reg w) in
  (∀ w', stepsTo a actor w w' → w_state w' = w_state w → rates (w_reg w') = (allowIn key limit now m).2 →
     Q (allowIn key limit now m).1 w') →
  wp (allowRequest key limit) Q w.
Proof.
  intros now m HQ. unfold allowRequest. wp_step. wp_step. wp_step. wp_step.
  change (rates (w_reg (tickClock w))) with (rates (w_reg w)). wp_step.
  apply (wp_mono _ (λ _ w', stepsTo a actor w w' ∧ w_state w' = w_state w ∧ rates (w_reg w') = m)).
  - unfold m. destruct (4096 <? _); [|wp_steps; split_and!; [apply stepsTo_quiet; simpl; by auto|done..]].
    wp_step. apply wp_rangeMap. intros l Hl.
    apply (wp_purge (λ w, rates (w_reg w)) (λ x, 2 * Time.minute <=? Time.Sub now (rw_Started x))
      (λ k, modReg (setRates (delete k)))
      (λ x y, stepsTo a actor x y ∧ w_state y = w_state x) _ _ w).
    + intros x y z [S1 E1] [S2 E2]. split; [by etrans|congruence].
    + intros k x w' _ _ _. wp_step. split; [done|]. split; [|done]. apply stepsTo_quiet; simpl; by auto.
    + split; [|done]. apply stepsTo_quiet; simpl; by auto.
    + done.
    + intros w' [S E] Hr. split_and!; [done|done|]. rewrite Hr. unfold evict. simpl.
      apply map_filter_ext. intros k x _. simpl. rewrite Z.leb_gt. lia.
  - intros [] w1 (S & E & Hm). apply wp_allowLocked. rewrite Hm. apply HQ.
    + etrans; [exact S|]. apply stepsTo_quiet; simpl; by auto.
    + done.
    + simpl. by rewrite Hm.
Qed.
End Steps.

(** Proves a step that changes only what the invariant does not mention. *)
Ltac frame_step :=
  apply stepsTo_quiet; solve [reflexivity | simpl; lia | by left | by right].

#[export] Hint Resolve stepsTo_audit stepsTo_persist stepsTo_targetSignal : mayoiga.

(** [wp_steps] with the rules of the shared operations. *)
Ltac wp_op :=
  lazymatch goal with
  | |- wp (appendAuditLocked _) _ _ => apply wp_appendAudit; [reflexivity|]
  | |- wp persistLocked _ _ => apply wp_persist; intros ?
  | |- wp (notifyTargetLocked _) _ _ => apply wp_notifyTarget
  | |- wp (notifyRequestLocked _) _ _ => apply wp_notifyRequest
  | |- wp (targetSignalLocked _) _ _ => apply wp_targetSignal
  | |- wp (requestSignalLocked _) _ _ => apply wp_requestSignal
  | |- wp (allowRequestLocked _ _ _) _ _ => apply wp_allowLocked
  | |- _ => wp_step
  end; cbv beta.
Ltac wp_go := repeat wp_op.
