(* ===== verification/Cleanup.v ===== *)
(** * Expiry: cleanupLocked

    [cleanupLocked] (coordinator_nodes.go), which every handler runs first:
    pending handshakes, stale nodes and direct candidates, connection
    requests, nonces and the history bound.  [cleanupLocked_spec] says exactly
    what it does to each map, and that it stays within the protocols. *)
From S2P Require Import Prelude GoStd Types Runtime Validate Registry RateLimit ConnSpec EnrollSpec World.
From S2P Require Import Steps.

Local Open Scope Z_scope.

(** ** The per-entry decisions *)

Definition handshakeExpired (now : Z) (p : pendingHandshake) : bool := Time.Before (ph_ExpiresAt p) now.

Definition nodeStale (now : Z) (n : discoveredNode) : bool :=
  Time.Before (dn_LastSeen n) (Time.Add now (- (2 * Time.minute))).

Definition activeCandidates (now : Z) (l : list directCandidate) : list directCandidate :=
  filter (λ c, Time.After (dc_ExpiresAt c) now = true) l.

Definition candidatesChanged (now : Z) (s : publishedService) : bool :=
  negb (length (activeCandidates now (ps_DirectCandidates s)) =? length (ps_DirectCandidates s))%nat.

Definition pruneNode (now : Z) (n : discoveredNode) : discoveredNode :=
  setServices (fmap (λ s, if candidatesChanged now s
                          then setDirectCandidates (activeCandidates now (ps_DirectCandidates s)) s else s)) n.

Definition nodeChanged (now : Z) (n : discoveredNode) : bool := existsb (candidatesChanged now) (dn_Services n).

Definition connectionExpired (now : Z) (c : connectionRequest) : bool :=
  negb (connectionTerminal (cr_State c)) && Time.Before (cr_ExpiresAt c) now.
Definition leaseEnded (now : Z) (c : connectionRequest) : bool :=
  (cr_State c =? "offered")%string && negb (Time.IsZero (cr_OfferLeaseEnds c))
  && Time.Before (cr_OfferLeaseEnds c) now.
Definition connectionForgotten (now : Z) (c : connectionRequest) : bool :=
  connectionTerminal (cr_State c) && Time.Before (cr_UpdatedAt c) (Time.Add now (- (24 * Time.hour))).

Section Cleanup.
Context {env : Env}.

(** ** The loop bodies *)

Definition cleanupPending (now : Z) (e : string * pendingHandshake) : M bool :=
  let '(id, pending) := e in
  if Time.Before (ph_ExpiresAt pending) now then
    modState (setPending (delete id)) ;;
    st ← getState;
    let history := historyOf (History st) id in
    (if (hh_StatusCode history =? 100) || (hh_StatusCode history =? 200) then
       modState (setHistory (insert id (handleHistory 410 now history))) ;;
       appendAuditLocked (event "enrollment_expired" (dn_ID (ph_Node pending)) (dn_Name (ph_Node pending)) id "")
     else mret tt) ;;
    mret true
  else mret false.

Definition cleanupNode (now : Z) (e : string * discoveredNode) : M bool :=
  let '(id, node) := e in
  if Time.Before (dn_LastSeen node) (Time.Add now (- (2 * Time.minute))) then
    modState (setNodes (delete id)) ;;
    modState (setRevision (λ r, wrapUint64 (r + 1))) ;;
    mret true
  else if nodeChanged now node then
    modState (setNodes (insert id (pruneNode now node))) ;;
    modState (setRevision (λ r, wrapUint64 (r + 1))) ;;
    mret true
  else mret false.

Definition cleanupConnection (now : Z) (e : string * connectionRequest) : M bool :=
  let '(id, connection) := e in
  let target := cr_TargetNode connection in
  if negb (connectionTerminal (cr_State connection)) && Time.Before (cr_ExpiresAt connection) now then
    modState (setConnections (insert id
      (moveConnection connection "expired" 410 "request expired" (cr_Cursor connection) now Time.zero))) ;;
    notifyTargetLocked target ;;
    notifyRequestLocked id ;;
    mret true
  else if (cr_State connection =? "offered")%string && negb (Time.IsZero (cr_OfferLeaseEnds connection))
          && Time.Before (cr_OfferLeaseEnds connection) now then
    modState (setCursors (λ m, <[target := nextCursor m target]> m)) ;;
    st ← getState;
    modState (setConnections (insert id
      (moveConnection connection "queued" 100 (cr_Reason connection)
         (cursorOf (ConnectionCursors st) target) now Time.zero))) ;;
    notifyTargetLocked target ;;
    notifyRequestLocked id ;;
    mret true
  else if connectionTerminal (cr_State connection)
          && Time.Before (cr_UpdatedAt connection) (Time.Add now (- (24 * Time.hour))) then
    modState (setConnections (delete id)) ;;
    modState (setIdempotency (delete (idemKey (cr_SourceNode connection) (cr_IdempotencyKey connection)))) ;;
    modReg (setRequestSignals (delete id)) ;;
    mret true
  else mret false.

Definition cleanupNonce (now : Z) (e : string * Z) : M unit :=
  let '(nonce, expiry) := e in
  if Time.Before expiry now then modReg (setNonces (delete nonce)) else mret tt.

Definition cleanupHistory : M bool :=
  st ← getState;
  if maxHandshakeHistory <? Z.of_nat (size (History st)) then
    order ← rangeMap (History st);
    let items := sortSlice (λ x y, Time.Before (hh_CreatedAt x) (hh_CreatedAt y)) order.*2 in
    forEach (take (length items - Z.to_nat maxHandshakeHistory) items) (λ history,
      modState (setHistory (delete (hh_RequestID history)))) ;;
    mret true
  else mret false.

Definition cleanupLocked (now : Z) : M bool :=
  st ← getState;
  pending ← rangeMap (Pending st);
  c1 ← forAny pending (cleanupPending now);
  st ← getState;
  nodes ← rangeMap (Nodes st);
  c2 ← forAny nodes (cleanupNode now);
  st ← getState;
  connections ← rangeMap (Connections st);
  c3 ← forAny connections (cleanupConnection now);
  r ← getReg;
  nonces ← rangeMap (nonces r);
  forEach nonces (cleanupNonce now) ;;
  c4 ← cleanupHistory;
  mret (c1 || c2 || c3 || c4).
End Cleanup.

(** ** Sweeping a map *)

(** A loop over a snapshot of the map [proj w] whose body touches only the
    entry it visits. *)
Lemma wp_sweep {V} (proj : world → gmap string V) (I : list (string * V) → world → Prop)
    (P : string → V → option V → Prop) (l : list (string * V)) body Q w :
  l ≡ₚ map_to_list (proj w) →
  I l w →
  (∀ k v l' w', I ((k, v) :: l') w' → proj w' !! k = Some v →
     wp (body (k, v)) (λ (b : bool) w'', I l' w'' ∧ P k v (proj w'' !! k)
       ∧ (∀ j, j ≠ k → proj w'' !! j = proj w' !! j) ∧ (b = false → w_state w'' = w_state w')) w') →
  (∀ b w', I [] w' →
     (∀ k, match proj w !! k with Some v => P k v (proj w' !! k) | None => proj w' !! k = None end) →
     (b = false → w_state w' = w_state w) → Q b w') →
  wp (forAny l body) Q w.
Proof.
  intros Hl HI Hbody HQ.
  assert (NoDup l.*1) as Hnd by (rewrite Hl; apply NoDup_fst_map_to_list).
  assert (∀ k v, (k, v) ∈ l → proj w !! k = Some v) as Hin.
  { intros k v. rewrite Hl. apply elem_of_map_to_list. }
  assert (∀ k v, proj w !! k = Some v → (k, v) ∈ l) as Hin'.
  { intros k v Hkv. rewrite Hl. by apply elem_of_map_to_list. }
  enough (∀ w0 l, I l w → NoDup l.*1 → (∀ k v, (k, v) ∈ l → proj w !! k = Some v) →
    (∀ k, k ∉ l.*1 → match proj w0 !! k with Some v => P k v (proj w !! k) | None => proj w !! k = None end) →
    (∀ k v, (k, v) ∈ l → proj w0 !! k = Some v) →
    ∀ Q : bool → world → Prop,
    (∀ (b : bool) w', I [] w' → (∀ k, match proj w0 !! k with Some v => P k v (proj w' !! k) | None => proj w' !! k = None end) →
     (b = false → w_state w' = w_state w) → Q b w') →
    wp (forAny l body) Q w) as Hgen.
  { apply (Hgen w l); try done. intros k Hk. destruct (proj w !! k) as [v|] eqn:E; [|done].
    exfalso. apply Hk. apply list_elem_of_fmap. exists (k, v). eauto. }
  clear l Q Hl HI Hnd Hin Hin' HQ. intros w0 l. revert w.
  induction l as [|[k v] l IH]; intros w HI Hnd Hin Hdone Hrest Q HQ; simpl.
  { apply wp_ret. apply HQ; [done| |done]. intros k. apply Hdone. set_solver. }
  simpl in Hnd. apply NoDup_cons in Hnd as [Hk Hnd].
  apply wp_bind. eapply wp_mono; [apply (Hbody k v l); [done|apply Hin; left]|].
  intros b w' (HI' & HP & Hother & Hb). apply wp_bind.
  assert (∀ j x, (j, x) ∈ l → j ≠ k) as Hne.
  { intros j x Hj ->. apply Hk. apply list_elem_of_fmap. exists (k, x). done. }
  apply (IH w'); [done|done| | | |].
  - intros j x Hj. rewrite Hother by eauto. apply Hin. by right.
  - intros j Hj. destruct (decide (j = k)) as [->|Hjk].
    + rewrite (Hrest k v) by left. done.
    + rewrite Hother by done. apply Hdone. simpl. set_solver.
  - intros j x Hj. apply Hrest. by right.
  - intros c w'' HI'' Hall Hc. apply wp_ret. apply HQ; [done|done|].
    intros [-> ->]%orb_false_iff. rewrite Hc, Hb by done. done.
Qed.

(** ** What one call does *)

Definition sweptConnection (now : Z) (c : connectionRequest) (o : option connectionRequest) : Prop :=
  if connectionExpired now c then
    o = Some (moveConnection c "expired" 410 "request expired" (cr_Cursor c) now Time.zero)
  else if leaseEnded now c then
    ∃ cursor, o = Some (moveConnection c "queued" 100 (cr_Reason c) cursor now Time.zero)
  else if connectionForgotten now c then o = None
  else o = Some c.

Definition sweptNode (now : Z) (n : discoveredNode) : option discoveredNode :=
  if nodeStale now n then None else Some (pruneNode now n).

Section Spec.
Context {env : Env} (a : authority) (actor : string) (now : Z).

(** The parts no loop of [cleanupLocked] touches. *)
Definition untouched (w : world) :=
  (Authorized (w_state w), ConnectionAcks (w_state w), rates (w_reg w), inboxWaiters (w_reg w),
   (w_disk w, w_files w, w_rand w)).
(** The parts of the protocols, of the directory, and the nonces. *)
Definition directoryPart (w : world) := (Nodes (w_state w), Revision (w_state w)).
Definition connectionPart (w : world) :=
  (Connections (w_state w), ConnectionIdempotency (w_state w), ConnectionCursors (w_state w)).

Record cleaned (w : world) (changed : bool) (w' : world) : Prop := {
  cl_steps : stepsTo a actor w w';
  cl_untouched : untouched w' = untouched w;
  cl_pending : Pending (w_state w') = filter (λ kv, handshakeExpired now kv.2 = false) (Pending (w_state w));
  cl_nodes : Nodes (w_state w') = omap (sweptNode now) (Nodes (w_state w));
  cl_revision : wrapUint64 (Revision (w_state w')) = wrapUint64 (Revision (w_state w)
    + Z.of_nat (countMap (λ n, nodeStale now n || nodeChanged now n) (Nodes (w_state w))));
  cl_connections : ∀ id, match Connections (w_state w) !! id with
    | Some c => sweptConnection now c (Connections (w_state w') !! id)
    | None => Connections (w_state w') !! id = None
    end;
  cl_nonces : nonces (w_reg w') = filter (λ kv, Time.Before kv.2 now = false) (nonces (w_reg w));
  cl_unchanged : changed = false → w_state w' = w_state w;
}.

Lemma pruneNode_unchanged n : nodeChanged now n = false → pruneNode now n = n.
Proof.
  unfold nodeChanged, pruneNode, setServices. intros H. destruct n as [id nm ro se vn ik services re up ls].
  simpl in *. f_equal. induction services as [|s l IH]; [done|]. simpl in *. bool_simpl.
  match goal with H : candidatesChanged _ _ = false |- _ => rewrite H end. f_equal. by apply IH.
Qed.

Lemma candidatesOk_filter l : candidatesOk l → candidatesOk (activeCandidates now l).
Proof.
  intros [Hc Hs Hd Hp]. unfold activeCandidates. split.
  - pose proof (length_filter (λ c, Time.After (dc_ExpiresAt c) now = true) l). lia.
  - by apply StronglySorted_filter.
  - clear Hc Hs Hp. induction l as [|x l IH]; [done|]. simpl in Hd. apply NoDup_cons in Hd as [Hx Hd].
    rewrite filter_cons. case_decide; [|by apply IH]. simpl. apply NoDup_cons. split; [|by apply IH].
    intros (y & Hy & [_ Hin]%list_elem_of_filter)%list_elem_of_fmap. apply Hx.
    rewrite Hy. by apply list_elem_of_fmap_2.
  - rewrite Forall_forall in Hp |- *. intros x [_ Hx]%list_elem_of_filter. auto.
Qed.

Lemma nodeOk_prune net id n : nodeOk net id n → nodeOk net id (pruneNode now n).
Proof.
  intros [H1 H2 H3 H4 H5 H6]. split; try done. simpl.
  apply Forall_fmap, (Forall_impl _ _ _ H4). intros s [Ho Hn Hp Hc]. simpl.
  destruct (candidatesChanged now s); split; try done. simpl. by apply candidatesOk_filter.
Qed.
End Spec.

Lemma wrapUint64_add x y : wrapUint64 (wrapUint64 x + y) = wrapUint64 (x + y).
Proof. unfold wrapUint64. by rewrite Zplus_mod_idemp_l. Qed.

Section Phases.
Context {env : Env} (a : authority) (actor : string) (now : Z).

Let steps := stepsTo a actor.
Let changedNode (n : discoveredNode) : bool := nodeStale now n || nodeChanged now n.

Lemma stepsTo_expireHandshake w id p :
  Pending (w_state w) !! id = Some p → handshakeExpired now p = true →
  let h := historyOf (History (w_state w)) id in
  steps w (setReg (setState (λ s, (if (hh_StatusCode h =? 100) || (hh_StatusCode h =? 200)
     then setHistory (insert id (handleHistory 410 now h)) else (λ s, s)) (setPending (delete id) s))) w).
Proof.
  intros Hp He h. apply stepsTo_protocol.
  - apply rtc_once. unfold handshakeExpired, Time.Before in He. bool_simpl.
    pose proof (en_expire a _ (History (w_state w)) (Authorized (w_state w)) id p now Hp He) as Hstep.
    cbv zeta in Hstep. fold h in Hstep. destruct (_ || _); exact Hstep.
  - by destruct (_ || _).
  - by destruct (_ || _).
  - intros i n. destruct (_ || _); done.
  - apply originates_subseteq. destruct (_ || _); apply delete_subseteq.
Qed.

(** The handshake loop. *)
Lemma wp_pendingPhase Q w :
  (∀ b w', steps w w' → untouched w' = untouched w → directoryPart w' = directoryPart w →
     connectionPart w' = connectionPart w → nonces (w_reg w') = nonces (w_reg w) →
     Pending (w_state w') = filter (λ kv, handshakeExpired now kv.2 = false) (Pending (w_state w)) →
     (b = false → w_state w' = w_state w) → Q b w') →
  wp (pending ← rangeMap (Pending (w_state w)); forAny pending (cleanupPending now)) Q w.
Proof.
  intros HQ. apply wp_bind, wp_rangeMap. intros l Hl.
  apply (wp_sweep (λ w, Pending (w_state w))
    (λ _ w', steps w w' ∧ untouched w' = untouched w ∧ directoryPart w' = directoryPart w
       ∧ connectionPart w' = connectionPart w ∧ nonces (w_reg w') = nonces (w_reg w))
    (λ _ p o, o = if handshakeExpired now p then None else Some p)); [done| | |].
  - split_and!; [|done..]. frame_step.
  - intros id p _ w' (Hs & Hu & Hd & Hc & Hn) Hp. unfold cleanupPending. fold (handshakeExpired now p).
    destruct (handshakeExpired now p) eqn:He.
    + pose proof (stepsTo_expireHandshake w' id p Hp He) as Hstep. simpl in Hstep.
      wp_op. wp_op. wp_op. wp_op. wp_op. simpl.
      destruct ((hh_StatusCode _ =? 100) || _) eqn:Hh; wp_go; split_and!; try done.
      * etrans; [exact Hs|]. etrans; [exact Hstep|]. apply (stepsTo_audit a actor _ _).
      * apply lookup_delete_eq.
      * intros j Hj. by apply lookup_delete_ne.
      * etrans; [exact Hs|exact Hstep].
      * apply lookup_delete_eq.
      * intros j Hj. by apply lookup_delete_ne.
    + wp_go. by split_and!.
  - intros b w' (Hs & Hu & Hd & Hc & Hn) Hall Hb. apply HQ; try done.
    apply map_eq. intros id. specialize (Hall id). rewrite map_lookup_filter.
    change (Pending (w_state (tickOrder w))) with (Pending (w_state w)) in Hall.
    destruct (Pending (w_state w) !! id) as [p|]; simpl in *; rewrite Hall; [|done].
    by destruct (handshakeExpired now p).
Qed.

(** The directory loop. *)
Lemma stepsTo_node f g w :
  (stateInv (wNetwork w) (wLimit w) (usedTokens w) (w_state w) →
    ∀ id n, f (Nodes (w_state w)) !! id = Some n →
      nodeOk (wNetwork w) id n ∧ is_Some (Authorized (w_state w) !! id)) →
  steps w (setReg (setState (λ s, setRevision g (setNodes f s))) w).
Proof.
  intros Hf. apply stepsTo_frame; try done.
  - by intros [].
  - by left.
  - by apply signalStep_same.
  - by apply noncesKept_same.
Qed.

Lemma wp_nodePhase Q w :
  (∀ b w', steps w w' → untouched w' = untouched w → enrollOf (w_state w') = enrollOf (w_state w) →
     connectionPart w' = connectionPart w → nonces (w_reg w') = nonces (w_reg w) →
     Nodes (w_state w') = omap (sweptNode now) (Nodes (w_state w)) →
     wrapUint64 (Revision (w_state w')) = wrapUint64 (Revision (w_state w)
       + Z.of_nat (countMap changedNode (Nodes (w_state w)))) →
     (b = false → w_state w' = w_state w) → Q b w') →
  wp (nodes ← rangeMap (Nodes (w_state w)); forAny nodes (cleanupNode now)) Q w.
Proof.
  intros HQ. apply wp_bind, wp_rangeMap. intros l Hl.
  set (todo := λ l : list (string * discoveredNode), Z.of_nat (length (filter (λ kv, changedNode kv.2 = true) l))).
  apply (wp_sweep (λ w, Nodes (w_state w))
    (λ l' w', steps w w' ∧ untouched w' = untouched w ∧ enrollOf (w_state w') = enrollOf (w_state w)
       ∧ connectionPart w' = connectionPart w ∧ nonces (w_reg w') = nonces (w_reg w)
       ∧ wrapUint64 (Revision (w_state w') + todo l') = wrapUint64 (Revision (w_state w) + todo l))
    (λ _ n o, o = sweptNode now n)); [done| | |].
  - split_and!; [|done..]. frame_step.
  - intros id n l' w' (Hs & Hu & He & Hc & Hn & Hr) Hid.
    assert (todo ((id, n) :: l') = (if changedNode n then 1 else 0) + todo l') as Htodo.
    { unfold todo. rewrite filter_cons. simpl. destruct (changedNode n); simpl; lia. }
    rewrite Htodo in Hr. unfold cleanupNode. fold (nodeStale now n). unfold sweptNode.
    assert (∀ r, wrapUint64 (wrapUint64 (r + 1) + todo l') = wrapUint64 (r + (1 + todo l'))) as Hwrap.
    { intros r. rewrite wrapUint64_add. f_equal. lia. }
    unfold changedNode in Hr. destruct (nodeStale now n) eqn:Hst; [|destruct (nodeChanged now n) eqn:Hch].
    + wp_go. split_and!; try done.
      * etrans; [exact Hs|]. apply (stepsTo_node (delete id) (λ r, wrapUint64 (r + 1)) w'). intros [_ _ _ Hnodes] j m [_ Hj]%lookup_delete_Some.
        by apply Hnodes.
      * simpl. rewrite <- Hr. apply Hwrap.
      * apply lookup_delete_eq.
      * intros j Hj. by apply lookup_delete_ne.
    + wp_go. split_and!; try done.
      * etrans; [exact Hs|]. apply (stepsTo_node (insert id (pruneNode now n)) (λ r, wrapUint64 (r + 1)) w'). intros [_ _ _ Hnodes] j m.
        rewrite lookup_insert. case_decide; [|apply Hnodes]. intros [= <-]. subst.
        destruct (Hnodes _ _ Hid). split; [by apply nodeOk_prune|done].
      * simpl. rewrite <- Hr. apply Hwrap.
      * apply lookup_insert_eq.
      * intros j Hj. by apply lookup_insert_ne.
    + wp_go. split_and!; try done. rewrite Hid. f_equal. symmetry. by apply pruneNode_unchanged.
  - intros b w' (Hs & Hu & He & Hc & Hn & Hr) Hall Hb. apply HQ; try done.
    + apply map_eq. intros id. specialize (Hall id). rewrite lookup_omap.
      change (Nodes (w_state (tickOrder w))) with (Nodes (w_state w)) in Hall.
      by destruct (Nodes (w_state w) !! id).
    + unfold todo in Hr. simpl in Hr. rewrite Z.add_0_r in Hr. rewrite Hr.
      by rewrite (countMap_perm changedNode (Nodes (w_state w)) l Hl).
Qed.

(** The connection loop. *)
Definition afterNotify (target id : string) (w : world) : world :=
  afterNotifyRequest id (afterNotifyTarget target w).

(** A request moves and its waiters are woken. *)
Lemma stepsTo_moveNotify f id target w :
  (∀ j, j ≠ id → Connections (f (w_state w)) !! j = Connections (w_state w) !! j) →
  (∀ c u, Connections (f (w_state w)) !! id = Some c → deliverable u c = true → target = u) →
  connStep (wLimit w) actor (connOf w) (connPart (f (w_state w)) (usedTokens w)) →
  enrollOf (f (w_state w)) = enrollOf (w_state w) → Audit (f (w_state w)) = Audit (w_state w) →
  Nodes (f (w_state w)) = Nodes (w_state w) →
  steps w (afterNotify target id (setReg (setState f) w)).
Proof.
  intros Ho Hd Hc He Ha Hn.
  apply (stepsTo_moved a actor id (Some target) w (setReg (setState f) w)); try done; [|by apply rtc_once].
  split; [done|]. intros c t Hid Ht. f_equal. by eapply Hd.
Qed.

(** A forgotten request has no waiters left. *)
Lemma stepsTo_forget id c w :
  Connections (w_state w) !! id = Some c → connectionTerminal (cr_State c) = true →
  steps w (setReg (setRequestSignals (delete id))
    (setReg (setState (λ s, setIdempotency (delete (connKey c)) (setConnections (delete id) s))) w)).
Proof.
  intros Hc Hterm. apply stepsTo_intro; try done.
  - apply rtc_once. by apply (cs_forget (wLimit w) actor (Connections (w_state w))).
  - by intros [].
  - by intros [].
  - by left.
  - intros [_ _ Hs Hl].
    assert (requestSignals (w_reg w) !! id = None) as Hnone.
    { destruct (requestSignals (w_reg w) !! id) as [s|] eqn:E; [|done].
      destruct (Hl id s E) as (d & Hd & Hlive). congruence. }
    split; simpl; rewrite ?delete_id by done; [done| |].
    + intros j s. simpl. rewrite delete_id by done. intros Hj. rewrite lookup_delete_ne; [by eapply Hl|congruence].
    + split; simpl; rewrite ?delete_id by done; [done| |].
      * intros n s Hn. right. split; [done|]. intros j d [_ Hd]%lookup_delete_Some. eauto.
      * intros j s Hj. right. rewrite lookup_delete_ne; [done|congruence].
  - by apply noncesKept_same.
  - by apply originates_same.
Qed.

Lemma wp_connectionPhase Q w :
  (∀ b w', steps w w' → untouched w' = untouched w → enrollOf (w_state w') = enrollOf (w_state w) →
     directoryPart w' = directoryPart w → nonces (w_reg w') = nonces (w_reg w) →
     (∀ id, match Connections (w_state w) !! id with
      | Some c => sweptConnection now c (Connections (w_state w') !! id)
      | None => Connections (w_state w') !! id = None
      end) →
     (b = false → w_state w' = w_state w) → Q b w') →
  wp (connections ← rangeMap (Connections (w_state w)); forAny connections (cleanupConnection now)) Q w.
Proof.
  intros HQ. apply wp_bind, wp_rangeMap. intros l Hl.
  apply (wp_sweep (λ w, Connections (w_state w))
    (λ _ w', steps w w' ∧ untouched w' = untouched w ∧ enrollOf (w_state w') = enrollOf (w_state w)
       ∧ directoryPart w' = directoryPart w ∧ nonces (w_reg w') = nonces (w_reg w))
    (λ _ c o, sweptConnection now c o)); [done| | |].
  - split_and!; [|done..]. frame_step.
  - intros id c _ w' (Hs & Hu & He & Hd & Hn) Hid. unfold cleanupConnection, sweptConnection.
    fold (connectionExpired now c) (leaseEnded now c) (connectionForgotten now c). cbv zeta.
    destruct (connectionExpired now c) eqn:Hexp; [|destruct (leaseEnded now c) eqn:Hle;
      [|destruct (connectionForgotten now c) eqn:Hf]]; wp_go; split_and!; try done.
    + etrans; [exact Hs|]. apply (stepsTo_moveNotify (setConnections
        (insert id (moveConnection c "expired" 410 "request expired" (cr_Cursor c) now Time.zero))));
        [|intros d u|..|done|done|done].
      * intros j Hj. by apply lookup_insert_ne.
      * simpl. rewrite lookup_insert_eq. intros [= <-]. unfold deliverable. simpl. by rewrite andb_false_r.
      * unfold connectionExpired in Hexp. bool_simpl. by constructor.
    + apply lookup_insert_eq.
    + intros j Hj. by apply lookup_insert_ne.
    + etrans; [exact Hs|]. unfold leaseEnded in Hle. bool_simpl.
      pose proof (cs_requeue (wLimit w') actor _ (ConnectionIdempotency (w_state w')) (ConnectionCursors (w_state w'))
        (ConnectionAcks (w_state w')) (usedTokens w') id c now Hid ltac:(done)) as Hstep. cbv zeta in Hstep.
      apply (stepsTo_moveNotify (λ s, setConnections (insert id (moveConnection c "queued" 100 (cr_Reason c)
        (cursorOf (ConnectionCursors (setCursors (λ m, <[cr_TargetNode c := nextCursor m (cr_TargetNode c)]> m) (w_state w')))
          (cr_TargetNode c)) now Time.zero)) (setCursors (λ m, <[cr_TargetNode c := nextCursor m (cr_TargetNode c)]> m) s)) id _ w');
        [|intros d u|..|done|done|done].
      * intros j Hj. by apply lookup_insert_ne.
      * simpl. rewrite lookup_insert_eq. intros [= <-]. unfold deliverable. simpl. intros Hd'. by bool_simpl.
      * unfold connPart. simpl. rewrite cursorOf_insert, decide_True by done. exact Hstep.
    + eexists. apply lookup_insert_eq.
    + intros j Hj. by apply lookup_insert_ne.
    + etrans; [exact Hs|]. unfold connectionForgotten in Hf. bool_simpl. by apply (stepsTo_forget id c).
    + apply lookup_delete_eq.
    + intros j Hj. by apply lookup_delete_ne.
  - intros b w' (Hs & Hu & He & Hd & Hn) Hall Hb. by apply HQ.
Qed.

(** The nonces. *)
Lemma wp_noncePhase Q w :
  readAt now w →
  (∀ w', steps w w' → untouched w' = untouched w → w_state w' = w_state w →
     nonces (w_reg w') = filter (λ kv, Time.Before kv.2 now = false) (nonces (w_reg w)) → Q tt w') →
  wp (nonces ← rangeMap (nonces (w_reg w)); forEach nonces (cleanupNonce now)) Q w.
Proof.
  intros Hnow HQ. apply wp_bind, wp_rangeMap. intros l Hl. unfold cleanupNonce.
  apply (wp_purge (λ w, nonces (w_reg w)) (λ expiry, Time.Before expiry now)
    (λ nonce, modReg (setNonces (delete nonce)))
    (λ x y, steps x y ∧ untouched y = untouched x ∧ w_state y = w_state x) _ _ w).
  - intros x y z (S1 & U1 & E1) (S2 & U2 & E2). split_and!; [by etrans|congruence|congruence].
  - intros k e w' He Hexp (S & _). wp_step. split_and!; [done| |done|done].
    apply (stepsTo_dropNonce a actor now k e w'); [|done|unfold Time.Before in Hexp; bool_simpl; lia].
    by apply (readAt_mono now w); [apply S|].
  - split_and!; [frame_step|done|done].
  - done.
  - intros w' (S & U & E) Hn. by apply HQ.
Qed.

(** The history bound. *)
Lemma stepsTo_evictHistory id w : steps w (setReg (setState (setHistory (delete id))) w).
Proof. apply stepsTo_protocol; [apply rtc_once, en_evict|done..|by apply originates_same]. Qed.

Lemma wp_historyPhase Q w :
  (∀ b w', steps w w' → untouched w' = untouched w → directoryPart w' = directoryPart w →
     connectionPart w' = connectionPart w → nonces (w_reg w') = nonces (w_reg w) →
     Pending (w_state w') = Pending (w_state w) →
     (b = false → w_state w' = w_state w) → Q b w') →
  wp cleanupHistory Q w.
Proof.
  intros HQ. unfold cleanupHistory. wp_op. wp_op. wp_op; [|wp_go; by apply HQ].
  apply wp_bind, wp_rangeMap. intros l Hl. cbv zeta. apply wp_bind.
  apply (wp_forEach (λ _ w', steps w w' ∧ untouched w' = untouched w ∧ directoryPart w' = directoryPart w
     ∧ connectionPart w' = connectionPart w ∧ nonces (w_reg w') = nonces (w_reg w)
     ∧ Pending (w_state w') = Pending (w_state w))).
  - split_and!; [|done..]. frame_step.
  - intros h _ w' (Hs & Hu & Hd & Hc & Hn & Hp). wp_go. split_and!; [|done..].
    etrans; [exact Hs|apply stepsTo_evictHistory].
  - intros w' (Hs & Hu & Hd & Hc & Hn & Hp). wp_go. by apply HQ.
Qed.
End Phases.

Lemma wp_assoc {A B C} (m : M A) (f : A → M B) (k : B → M C) Q w :
  wp (m ≫= f) (λ b, wp (k b) Q) w → wp (m ≫= λ x, f x ≫= k) Q w.
Proof. unfold wp, mbind, M_bind. destruct (m w) as [x w1]. by destruct (f x w1). Qed.

Section Whole.
Context {env : Env} (a : authority) (actor : string).

Lemma cleanupLocked_spec now w : readAt now w → wp (cleanupLocked now) (cleaned a actor now w) w.
Proof.
  intros Hnow. unfold cleanupLocked. wp_op. wp_op. apply wp_assoc, (wp_pendingPhase a actor).
  intros b1 w1 S1 U1 D1 C1 N1 P1 B1. injection D1 as Dn1 Dr1. injection C1 as Cc1 Ci1 Ck1.
  wp_op. wp_op. apply wp_assoc, (wp_nodePhase a actor).
  intros b2 w2 S2 U2 E2 C2 N2 O2 R2 B2. injection E2 as Ep2 Eh2 Ea2. injection C2 as Cc2 Ci2 Ck2.
  wp_op. wp_op. apply wp_assoc, (wp_connectionPhase a actor).
  intros b3 w3 S3 U3 E3 D3 N3 O3 B3. injection E3 as Ep3 Eh3 Ea3. injection D3 as Dn3 Dr3.
  wp_op. wp_op. apply wp_assoc, (wp_noncePhase a actor).
  { apply (readAt_mono now w); [|done]. change (w_clock w ≤ w_clock w3)%nat. etrans; [apply S1|]. etrans; [apply S2|apply S3]. }
  intros w4 S4 U4 T4 N4. wp_op. apply (wp_historyPhase a actor).
  intros b5 w5 S5 U5 D5 C5 N5 P5 B5. injection D5 as Dn5 Dr5. injection C5 as Cc5 Ci5 Ck5.
  wp_op. split.
  - do 4 (etrans; [eassumption|]). done.
  - congruence.
  - rewrite P5, T4, Ep3, Ep2, P1. done.
  - rewrite Dn5, T4, Dn3, O2, Dn1. done.
  - rewrite Dr5, T4, Dr3, R2, Dr1, Dn1. done.
  - intros id. specialize (O3 id). rewrite Cc5, T4. rewrite Cc2, Cc1 in O3. exact O3.
  - rewrite N5, N4, N3, N2, N1. done.
  - intros H. bool_simpl. rewrite B5, T4, B3, B2, B1 by done. done.
Qed.

(** As a rule: after a cleanup only [cleaned] is known. *)
Lemma wp_cleanup now Q w :
  readAt now w → (∀ b w', cleaned a actor now w b w' → Q b w') → wp (cleanupLocked now) Q w.
Proof. intros Hnow HQ. eapply wp_mono; [by apply cleanupLocked_spec|done]. Qed.
End Whole.
