(* ===== verification/Enrollment.v ===== *)
(** * Enrollment handlers

    coordinator_enrollment.go: a node asks for a device code, polls for the
    decision, and an administrator approves, rejects or revokes.  Every
    handler is shown to refine the protocol of EnrollSpec on the authority of
    its caller, and its successful answer is characterised. *)
From S2P Require Import Prelude GoStd GoNet GoCrypto Types Runtime Validate Wire Registry RateLimit.
From S2P Require Import Auth ConnSpec EnrollSpec World Steps Cleanup.

Local Open Scope Z_scope.

Definition nodesUpstreamOk (nodes : gmap string discoveredNode) (n : discoveredNode) : bool :=
  match nodes !! dn_UpstreamRelay n with
  | Some upstream =>
      negb (negb (dn_Role upstream =? "relay")%string || negb (dn_Segment upstream =? dn_Segment n)%string
            || negb (dn_VirtualNetwork upstream =? dn_VirtualNetwork n)%string)
  | None => false
  end.

Definition setRequestID id p := mkPendingHandshake id (ph_SecretHash p) (ph_DeviceCode p) (ph_Node p)
  (ph_PublicKey p) (ph_Source p) (ph_ExpiresAt p) (ph_Approved p) (ph_Rejected p).
Definition setDeviceCode code p := mkPendingHandshake (ph_RequestID p) (ph_SecretHash p) code (ph_Node p)
  (ph_PublicKey p) (ph_Source p) (ph_ExpiresAt p) (ph_Approved p) (ph_Rejected p).

(** The handshake's status as a poll reports it. *)
Definition pollStatus (p : pendingHandshake) : string :=
  let status := "pending" in
  let status := if ph_Approved p then "approved" else status in
  if ph_Rejected p then "rejected" else status.

Section Enrollment.
Context {env : Env}.

Fixpoint allocateRequestID (attempts : nat) : M (option string) :=
  match attempts with
  | O => mret None
  | S attempts =>
      token ← randomToken;
      match token with
      | None => mret None
      | Some requestID =>
          st ← getState;
          match Pending st !! requestID with
          | Some _ => allocateRequestID attempts
          | None =>
              match History st !! requestID with
              | None => mret (Some requestID)
              | Some _ => allocateRequestID attempts
              end
          end
      end
  end.
Definition allocateRequestIDLocked : M (option string) := allocateRequestID deviceCodeAttempts.

Fixpoint allocateDeviceCode (attempts : nat) : M (option string) :=
  match attempts with
  | O => mret None
  | S attempts =>
      code ← randomDeviceCode;
      match code with
      | None => mret None
      | Some code =>
          st ← getState;
          order ← rangeMap (Pending st);
          match firstMatch (λ e, (ph_DeviceCode e.2 =? code)%string) order with
          | None => mret (Some code)
          | Some _ => allocateDeviceCode attempts
          end
      end
  end.
Definition allocateDeviceCodeLocked : M (option string) := allocateDeviceCode deviceCodeAttempts.

(** The critical section of [requestEnrollment]. *)
Definition enrollLocked (n : discoveredNode) (pending : pendingHandshake) (secret : string) : M response :=
  now ← timeNow;
  cleanupLocked now ;;
  st ← getState;
  if (dn_Role n =? "subnode")%string && negb (nodesUpstreamOk (Nodes st) n) then
    mret (httpError "subnode upstream is not an active relay in the same segment" 400)
  else if maxPendingHandshakes <=? Z.of_nat (size (Pending st)) then
    mret (httpError "too many pending handshakes" 503)
  else
    order ← rangeMap (Pending st);
    let sourcePending := Z.of_nat (length (filter (λ e, fromSource (ph_Source pending) e.2 = true) order)) in
    if maxPendingPerSource <=? sourcePending then
      mret (httpError "too many pending handshakes from this source" 429)
    else
      requestID ← allocateRequestIDLocked;
      match requestID with
      | None => mret (httpError "unable to allocate handshake request id" 503)
      | Some requestID =>
          let pending := setRequestID requestID pending in
          deviceCode ← allocateDeviceCodeLocked;
          match deviceCode with
          | None => mret (httpError "unable to allocate device code" 503)
          | Some code =>
              let pending := setDeviceCode code pending in
              modState (setPending (insert (ph_RequestID pending) pending)) ;;
              created ← timeNow;
              modState (setHistory (insert (ph_RequestID pending)
                (mkHandshakeHistory (ph_RequestID pending) (ph_DeviceCode pending) (ph_Node pending)
                   100 "" created (ph_ExpiresAt pending) Time.zero))) ;;
              appendAuditLocked (event "enrollment_requested" (dn_ID (ph_Node pending))
                (dn_Name (ph_Node pending)) (ph_RequestID pending) (ph_Source pending)) ;;
              persisted ← persistLocked;
              if negb persisted then mret (httpError "failed to persist handshake" 500) else
              mret (writeJSON 201 (JEnrollment (mkEnrollmentState (ph_RequestID pending) secret
                (ph_DeviceCode pending) (ph_ExpiresAt pending) "" None)))
          end
      end.

Definition requestEnrollment (req : request) : M response :=
  match decodeJSON decodeDiscoveryRequest req with
  | None => mret (httpError "invalid JSON" 400)
  | Some input =>
      let n := dq_Node input in
      r ← getReg;
      if (dn_ID n =? "")%string || (dn_Name n =? "")%string
         || negb (dn_VirtualNetwork n =? network r)%string then
        mret (httpError "valid node id, name, and virtual network are required" 403)
      else if negb (match Base64.RawStdDecode (dq_PublicKey input) with
                    | Some publicKey => (String.length publicKey =? PublicKeySize)%nat
                    | None => false
                    end) then
        mret (httpError "valid node public key is required" 400)
      else
        token ← randomToken;
        match token with
        | None => mret (httpError "secure random source unavailable" 500)
        | Some secret =>
            now ← timeNow;
            enrollLocked n
              (mkPendingHandshake "" (Hex.EncodeToString (Sha256.Sum256 secret)) "" n (dq_PublicKey input)
                 (requestSource req) (Time.Add now handshakeLifetime) false false)
              secret
        end
  end.

Definition pollEnrollment (req : request) : M response :=
  match decodeJSON decodePollRequest req with
  | None => mret (httpError "invalid JSON" 400)
  | Some input =>
      now ← timeNow;
      cleanupLocked now ;;
      persistLocked ;;
      st ← getState;
      match Pending st !! pq_RequestID input with
      | Some pending =>
          if matchesHash (pq_Secret input) (ph_SecretHash pending) then
            mret (writeJSON 200 (JPoll (mkPollResponse (pollStatus pending) (ph_ExpiresAt pending)
              (hh_Reason (historyOf (History st) (pq_RequestID input))))))
          else mret (httpError "handshake not found or expired" 404)
      | None => mret (httpError "handshake not found or expired" 404)
      end
  end.

Definition listHandshakes (req : request) : M response :=
  r ← getReg;
  if negb (adminAuthorized r req) then mret (httpError "unauthorized" 401) else
  now ← timeNow;
  cleanupLocked now ;;
  let raw := queryGet req "status" in
  let statusFilter := if (raw =? "")%string then 0 else (Strconv.Atoi raw).1 in
  st ← getState;
  order ← rangeMap (History st);
  let items := filter (λ h, (statusFilter =? 0) || (hh_StatusCode h =? statusFilter) = true) order.*2 in
  persistLocked ;;
  mret (writeJSON 200 (JHandshakes
    (sortSlice (λ x y, Time.After (hh_CreatedAt x) (hh_CreatedAt y)) items))).

Definition listAudit (req : request) : M response :=
  r ← getReg;
  if negb (adminAuthorized r req) then mret (httpError "unauthorized" 401) else
  st ← getState;
  mret (writeJSON 200 (JAudit (sortSlice (λ x y, Time.After (ae_Time x) (ae_Time y)) (Audit st)))).

(** The handshake with a device code: the first one the loop meets. *)
Definition findCode (code : string) : M (option (string * pendingHandshake)) :=
  st ← getState;
  order ← rangeMap (Pending st);
  mret (firstMatch (λ e, (ph_DeviceCode e.2 =? code)%string) order).

Definition approveLocked (source : string) (code : string) (replace : bool) : M response :=
  now ← timeNow;
  cleanupLocked now ;;
  found ← findCode code;
  match found with
  | None => mret (httpError "unexpired handshake not found" 404)
  | Some (requestID, pending) =>
      if (requestID =? "")%string then mret (httpError "unexpired handshake not found" 404) else
      if ph_Rejected pending then mret (httpError "handshake was rejected" 409) else
      st ← getState;
      let node := ph_Node pending in
      if match Authorized st !! dn_ID node with
         | Some existing => negb (an_PublicKey existing =? ph_PublicKey pending)%string && negb replace
         | None => false
         end then
        mret (httpError "node id is already authorized; explicit replacement is required" 409)
      else if ph_Approved pending then
        mret (writeJSON 200 (JApproved (dn_Name node) (ph_ExpiresAt pending)))
      else
        let action := match Authorized st !! dn_ID node with
                      | Some _ => "credential_replaced"
                      | None => "credential_approved"
                      end in
        modState (setPending (insert requestID (setApproved true pending))) ;;
        modState (setAuthorized (insert (dn_ID node) (mkAuthorizedNode (ph_PublicKey pending)))) ;;
        now ← timeNow;
        modState (setHistory (λ m, <[requestID := handleHistory 200 now (historyOf m requestID)]> m)) ;;
        appendAuditLocked (event action (dn_ID node) (dn_Name node) requestID source) ;;
        ok ← persistLocked;
        if negb ok then mret (httpError "failed to persist credential" 500) else
        mret (writeJSON 200 (JApproved (dn_Name node) (ph_ExpiresAt pending)))
  end.

Definition approveHandshake (req : request) : M response :=
  r ← getReg;
  if negb (adminAuthorized r req) then mret (httpError "unauthorized" 401) else
  match decodeJSON decodeApproveRequest req with
  | None => mret (httpError "invalid JSON" 400)
  | Some input =>
      approveLocked (requestSource req) (normalizeDeviceCode (aq_DeviceCode input)) (aq_Replace input)
  end.

Definition rejectLocked (source : string) (code reason : string) : M response :=
  now ← timeNow;
  cleanupLocked now ;;
  found ← findCode code;
  match found with
  | None => mret (httpError "unexpired handshake not found" 404)
  | Some (requestID, pending) =>
      if (requestID =? "")%string then mret (httpError "unexpired handshake not found" 404) else
      if ph_Approved pending then mret (httpError "handshake was already approved" 409) else
      modState (setPending (insert requestID (setRejected true pending))) ;;
      now ← timeNow;
      modState (setHistory (λ m, <[requestID := setReason reason (handleHistory 403 now (historyOf m requestID))]> m)) ;;
      appendAuditLocked (event "enrollment_rejected" (dn_ID (ph_Node pending)) (dn_Name (ph_Node pending))
        requestID source) ;;
      ok ← persistLocked;
      if negb ok then mret (httpError "failed to persist rejection" 500) else
      mret (writeJSON 200 (JRejected (dn_Name (ph_Node pending))))
  end.

Definition rejectHandshake (req : request) : M response :=
  r ← getReg;
  if negb (adminAuthorized r req) then mret (httpError "unauthorized" 401) else
  match decodeJSON decodeApproveRequest req with
  | None => mret (httpError "invalid JSON" 400)
  | Some input =>
      let reason := Strings.TrimSpace (aq_Reason input) in
      if maxEnrollmentReason <? Z.of_nat (String.length reason)
      then mret (httpError "enrollment reason is too long" 400)
      else rejectLocked (requestSource req) (normalizeDeviceCode (aq_DeviceCode input)) reason
  end.

Definition revokePending (nodeID : string) (e : string * pendingHandshake) : M bool :=
  let '(id, pending) := e in
  if (dn_ID (ph_Node pending) =? nodeID)%string then
    modState (setPending (delete id)) ;;
    now ← timeNow;
    modState (setHistory (λ m, <[id := handleHistory 403 now (historyOf m id)]> m)) ;;
    mret true
  else mret false.

Definition revokeLocked (source nodeID : string) : M response :=
  st ← getState;
  match Authorized st !! nodeID with
  | None => mret (httpError "authorized node not found" 404)
  | Some _ =>
      modState (setAuthorized (delete nodeID)) ;;
      modState (setNodes (delete nodeID)) ;;
      appendAuditLocked (event "credential_revoked" nodeID "" "" source) ;;
      st ← getState;
      order ← rangeMap (Pending st);
      forAny order (revokePending nodeID) ;;
      ok ← persistLocked;
      if negb ok then mret (httpError "failed to persist revocation" 500) else
      mret (writeJSON 200 (JRevoked nodeID))
  end.

Definition revokeNode (req : request) : M response :=
  r ← getReg;
  if negb (adminAuthorized r req) then mret (httpError "unauthorized" 401) else
  match decodeJSON decodeRevokeRequest req with
  | None => mret (httpError "invalid JSON" 400)
  | Some input =>
      if (Strings.TrimSpace (rq_NodeID input) =? "")%string
      then mret (httpError "node_id is required" 400)
      else revokeLocked (requestSource req) (rq_NodeID input)
  end.
End Enrollment.

(** ** Refinement *)

Section EnrollmentSteps.
Context {env : Env} (a : authority) (actor : string).

(** Only the random source and the iteration order have advanced. *)
Record drew (w w' : world) : Prop := {
  dr_reg : w_reg w' = w_reg w;
  dr_disk : w_disk w' = w_disk w;
  dr_chans : w_chans w' = w_chans w;
  dr_rand : (w_rand w ≤ w_rand w')%nat;
  dr_clock : (w_clock w ≤ w_clock w')%nat;
}.

#[export] Instance drew_preorder : PreOrder drew.
Proof. split; [by split|]. intros x y z [] []. split; try congruence; lia. Qed.

Lemma drew_state w w' : drew w w' → w_state w' = w_state w.
Proof. intros []. unfold w_state. congruence. Qed.

Lemma stepsTo_drew w w' : drew w w' → stepsTo a actor w w'.
Proof.
  intros [Hr Hd Hc Hn Hk]. apply stepsTo_quiet; unfold w_state, config; rewrite ?Hr; try done. by left.
Qed.

Lemma allocateRequestID_spec attempts w :
  wp (allocateRequestID attempts) (λ o w', drew w w' ∧
    ∀ id, o = Some id → Pending (w_state w) !! id = None ∧ History (w_state w) !! id = None
      ∧ drawnAfter w id ∧ id ∈ usedTokens w') w.
Proof.
  revert w. induction attempts as [|n IH]; intros w; simpl; [by wp_go|].
  unfold randomToken. wp_op. wp_op. wp_op. wp_op.
  assert (drew w (tickRand w)) as Hd by (split; simpl; try done; lia).
  assert (wp (allocateRequestID n) (λ o w', drew w w' ∧ ∀ id, o = Some id →
    Pending (w_state w) !! id = None ∧ History (w_state w) !! id = None ∧ drawnAfter w id ∧ id ∈ usedTokens w') (tickRand w)) as Hrec.
  { eapply wp_mono; [apply IH|]. intros o w' [H1 H2]. split; [by etrans|]. intros id Hid.
    destruct (H2 id Hid) as (? & ? & ? & ?). split_and!; [done..|eapply drawnAfter_mono; [|done]; simpl; lia|done]. }
  destruct (Hex.EncodeToString <$> _) as [id|] eqn:Eid; [|by wp_go]. apply fmap_Some in Eid as (bytes & Hbytes & Eid).
  wp_op. wp_op. destruct (Pending _ !! id) eqn:E1; [done|]. destruct (History _ !! id) eqn:E2; [done|].
  wp_go. split; [done|]. intros ? [= <-]. split_and!; [done..|exists (w_rand w), bytes; auto|].
  apply elem_of_usedTokens. exists (w_rand w), bytes. split_and!; [simpl; lia|done..].
Qed.

Lemma allocateDeviceCode_spec attempts w :
  wp (allocateDeviceCode attempts) (λ o w', drew w w' ∧
    ∀ code, o = Some code → ∀ id p, Pending (w_state w) !! id = Some p → ph_DeviceCode p ≠ code) w.
Proof.
  revert w. induction attempts as [|n IH]; intros w; simpl; [by wp_go|].
  unfold randomDeviceCode. wp_op. wp_op. wp_op. wp_op.
  destruct (deviceCodeText <$> _) as [code|]; [|wp_go; split; [split; simpl; done || lia|done]].
  wp_op. wp_op. wp_op. apply wp_rangeMap. intros l Hl.
  assert (drew w (tickOrder (tickRand w))) as Hd by (split; simpl; try done; lia).
  destruct (firstMatch _ l) as [e|] eqn:E.
  - eapply wp_mono; [apply IH|]. intros o w' [H1 H2]. split; [by etrans|done].
  - wp_go. split; [done|]. intros ? [= <-] id p Hp. rewrite firstMatch_None in E.
    apply String.eqb_neq, (E (id, p)). rewrite Hl. by apply elem_of_map_to_list.
Qed.

Definition requestedHistory (created : Z) (p : pendingHandshake) : handshakeHistory :=
  mkHandshakeHistory (ph_RequestID p) (ph_DeviceCode p) (ph_Node p) 100 "" created (ph_ExpiresAt p) Time.zero.

(** A handshake under an identifier drawn since [w0]. *)
Lemma stepsTo_request created p w0 w :
  let s := w_state w0 in
  drew w0 w → drawnAfter w0 (ph_RequestID p) →
  Pending s !! ph_RequestID p = None → History s !! ph_RequestID p = None →
  (∀ id q, Pending s !! id = Some q → ph_DeviceCode q ≠ ph_DeviceCode p) →
  Z.of_nat (size (Pending s)) < maxPendingHandshakes →
  Z.of_nat (countMap (fromSource (ph_Source p)) (Pending s)) < maxPendingPerSource →
  freshHandshake p = true →
  stepsTo a actor w0 (setReg (setState (λ s, setHistory (insert (ph_RequestID p) (requestedHistory created p))
                                             (setPending (insert (ph_RequestID p) p) s))) w).
Proof.
  intros s [Er Ed Ech Ern Eck] Hdrawn Hp Hh Hc Hs Hn Hf. unfold s in *.
  apply stepsTo_intro; try (unfold w_state, config; simpl; rewrite Er; done); try done.
  - apply rtc_once. unfold enrollOf, w_state. simpl. rewrite Er.
    by apply (en_request a (Pending (w_state w0)) (History (w_state w0)) (Authorized (w_state w0)) p created).
  - apply connSteps_burn; [|done]. unfold w_state. simpl. by rewrite Er.
  - unfold w_state. simpl. rewrite Er. by intros [].
  - unfold w_state. simpl. rewrite Er. by intros [].
  - by left.
  - apply signalStep_same; simpl; rewrite ?Er; done.
  - apply noncesKept_same; simpl; [by rewrite Er|done].
  - intros id q Hq. unfold w_state in Hq. simpl in Hq. rewrite Er, lookup_insert in Hq. case_decide as Hid.
    + right. subst. split; [done|]. injection Hq as <-. unfold freshHandshake in Hf. bool_simpl. congruence.
    + left. exists q. auto.
Qed.

(** What a 201 says. *)
Definition enrolled (p : pendingHandshake) (secret : string) (r : response) (w' : world) : Prop :=
  ∃ id code created,
    let q := setDeviceCode code (setRequestID id p) in
    r = writeJSON 201 (JEnrollment (mkEnrollmentState id secret code (ph_ExpiresAt p) "" None))
    ∧ Pending (w_state w') !! id = Some q
    ∧ (∀ j p', Pending (w_state w') !! j = Some p' → ph_DeviceCode p' = code → j = id)
    ∧ History (w_state w') !! id = Some (requestedHistory created q)
    ∧ id ∈ usedTokens w'
    ∧ w_disk w' = Some (w_state w').

Lemma enrollLocked_spec n p secret w :
  freshHandshake p = true →
  wp (enrollLocked n p secret)
     (λ r w', stepsTo a actor w w' ∧ (rs_Status r = 201 → enrolled p secret r w')) w.
Proof.
  intros Hf. unfold enrollLocked. wp_op. wp_op. wp_op. apply (wp_cleanup a actor); [apply readAt_tick|]. intros b w1 [S1 _ _ _ _ _ _ _].
  assert (stepsTo a actor w w1) as S by (etrans; [|exact S1]; frame_step). clear S1.
  wp_op. wp_op. wp_op; [by wp_go|]. wp_op; [by wp_go|]. bool_simpl.
  wp_op. apply wp_rangeMap. intros l Hl. cbv zeta. wp_op.
  { wp_go. split; [|done]. etrans; [exact S|]. frame_step. }
  bool_simpl. rewrite (countMap_perm _ _ _ Hl) in *.
  assert (stepsTo a actor w (tickOrder w1)) as S1' by (etrans; [exact S|]; frame_step).
  wp_op. eapply wp_mono; [apply allocateRequestID_spec|]. intros oid w2 [D2 H2].
  assert (stepsTo a actor w w2) as S' by (etrans; [exact S|]; etrans; [|by apply stepsTo_drew]; frame_step).
  pose proof (drew_state _ _ D2) as Hw2. simpl in Hw2.
  destruct oid as [id|]; [|by wp_go]. destruct (H2 id eq_refl) as (Hid & Hhid & Hdrawn & Hused). cbv zeta.
  wp_op. eapply wp_mono; [apply allocateDeviceCode_spec|]. intros ocode w3 [D3 H3].
  assert (stepsTo a actor w w3) as S'' by (etrans; [exact S'|]; by apply stepsTo_drew).
  pose proof (drew_state _ _ D3) as Hw3. rewrite Hw2 in *.
  destruct ocode as [code|]; [|by wp_go]. specialize (H3 code eq_refl).
  assert (∀ created, stepsTo a actor (tickOrder w1) (setReg (setState (λ s,
    setHistory (insert id (requestedHistory created (setDeviceCode code (setRequestID id p))))
      (setPending (insert id (setDeviceCode code (setRequestID id p))) s))) (tickClock w3))) as Hreq.
  { intros created. apply (stepsTo_request created (setDeviceCode code (setRequestID id p))); try done.
    etrans; [exact D2|]. etrans; [exact D3|]. split; simpl; done || lia. }
  assert (∀ ok e created, stepsTo a actor w (afterPersist ok (afterAudit e (setReg (setState (λ s,
    setHistory (insert id (requestedHistory created (setDeviceCode code (setRequestID id p))))
      (setPending (insert id (setDeviceCode code (setRequestID id p))) s))) (tickClock w3))))) as Hall.
  { intros ok e created. etrans; [|apply stepsTo_persist]. etrans; [|apply stepsTo_audit]. etrans; [exact S1'|apply Hreq]. }
  wp_go; (split; [apply Hall|]); [done|]. intros _. destruct ok; [|done].
  exists id, code, (clock (w_clock w3)). simpl. split_and!; [done|apply lookup_insert_eq| |apply lookup_insert_eq|eapply usedTokens_mono, Hused; apply D3|done].
  intros j p' Hj Hcode. simpl in Hj. rewrite lookup_insert in Hj. case_decide; [done|].
  change (state (w_reg w3)) with (w_state w3) in Hj. rewrite Hw3 in Hj. by destruct (H3 j p').
Qed.

(** Every request for enrollment stays in the protocol. *)
Lemma requestEnrollment_spec req w :
  wp (requestEnrollment req) (λ r w', stepsTo a actor w w' ∧
    (rs_Status r = 201 → ∃ input secret expires,
      decodeJSON decodeDiscoveryRequest req = Some input
      ∧ dn_VirtualNetwork (dq_Node input) = network (w_reg w)
      ∧ enrolled (mkPendingHandshake "" (Hex.EncodeToString (Sha256.Sum256 secret)) "" (dq_Node input)
          (dq_PublicKey input) (requestSource req) expires false false) secret r w')) w.
Proof.
  unfold requestEnrollment. destruct (decodeJSON _ req) as [input|] eqn:Hin; [|by wp_go]. cbv zeta.
  wp_op. wp_op. wp_op; [by wp_go|]. wp_op; [by wp_go|]. unfold randomToken.
  wp_op. wp_op. wp_op. wp_op. destruct (Hex.EncodeToString <$> _) as [secret|].
  - wp_op. wp_op. eapply wp_mono; [by apply enrollLocked_spec|]. intros r w' [S H]. split.
    + etrans; [|exact S]. frame_step.
    + intros Hr. bool_simpl. eexists input, secret, _. split_and!; [done|done|by apply H].
  - wp_go. split; [frame_step|done].
Qed.

Lemma pollEnrollment_spec req w :
  wp (pollEnrollment req) (λ r w', stepsTo a actor w w' ∧
    (rs_Status r = 200 → ∃ input p, decodeJSON decodePollRequest req = Some input
      ∧ Pending (w_state w') !! pq_RequestID input = Some p
      ∧ ph_SecretHash p = Hex.EncodeToString (Sha256.Sum256 (pq_Secret input))
      ∧ r = writeJSON 200 (JPoll (mkPollResponse (pollStatus p) (ph_ExpiresAt p)
              (hh_Reason (historyOf (History (w_state w')) (pq_RequestID input))))))) w.
Proof.
  unfold pollEnrollment. destruct (decodeJSON _ req) as [input|] eqn:Hin; [|by wp_go].
  wp_op. wp_op. wp_op. apply (wp_cleanup a actor); [apply readAt_tick|]. intros b w1 [S _ _ _ _ _ _ _].
  wp_op. apply wp_persist. intros ok. wp_op. wp_op.
  assert (stepsTo a actor w (afterPersist ok w1)) as S'.
  { etrans; [|apply stepsTo_persist]. etrans; [|exact S]. frame_step. }
  destruct (Pending _ !! _) as [p|] eqn:Hp; [|by wp_go].
  destruct (matchesHash _ _) eqn:Hm; wp_go; (split; [done|]); [|done].
  intros _. exists input, p. apply matchesHash_spec in Hm. by split_and!.
Qed.
End EnrollmentSteps.

(** ** The administrator's handlers *)

Section AdminSteps.
Context {env : Env} (actor : string).
Let steps := stepsTo Administrator actor.

Lemma findCode_spec code w :
  wp (findCode code) (λ o w', w' = tickOrder w ∧
    match o with
    | Some (id, p) => Pending (w_state w) !! id = Some p ∧ ph_DeviceCode p = code
    | None => ∀ id p, Pending (w_state w) !! id = Some p → ph_DeviceCode p ≠ code
    end) w.
Proof.
  unfold findCode. wp_op. wp_op. wp_op. apply wp_rangeMap. intros l Hl. wp_op. split; [done|].
  destruct (firstMatch _ l) as [[id p]|] eqn:E.
  - apply firstMatch_Some in E as [Hin Hc]. simpl in Hc. bool_simpl. split; [|done].
    apply elem_of_map_to_list. by rewrite <- Hl.
  - intros id p Hp. rewrite firstMatch_None in E. apply String.eqb_neq, (E (id, p)).
    rewrite Hl. by apply elem_of_map_to_list.
Qed.

(** The approval and the rejection of a pending handshake, as state changes. *)
Definition approveState (id : string) (p : pendingHandshake) (now : Z) (s : coordinatorState) : coordinatorState :=
  setHistory (λ m, <[id := handleHistory 200 now (historyOf m id)]> m)
    (setAuthorized (insert (dn_ID (ph_Node p)) (mkAuthorizedNode (ph_PublicKey p)))
      (setPending (insert id (setApproved true p)) s)).
Definition rejectState (id : string) (p : pendingHandshake) (reason : string) (now : Z)
    (s : coordinatorState) : coordinatorState :=
  setHistory (λ m, <[id := setReason reason (handleHistory 403 now (historyOf m id))]> m)
    (setPending (insert id (setRejected true p)) s).

(** A new key for a node id is accepted only with [Replace]. *)
Definition replacementAllowed (auth : gmap string authorizedNode) (p : pendingHandshake) (replace : bool) : Prop :=
  ∀ k, auth !! dn_ID (ph_Node p) = Some k → an_PublicKey k ≠ ph_PublicKey p → replace = true.

Lemma stepsTo_approve id p replace now w :
  Pending (w_state w) !! id = Some p → freshHandshake p = true →
  replacementAllowed (Authorized (w_state w)) p replace →
  steps w (setReg (setState (approveState id p now)) w).
Proof.
  intros Hp Hf Hr. apply stepsTo_protocol; [|done|done| |].
  - apply rtc_once. by eapply (en_approve Administrator _ _ _ id p replace now).
  - intros i n Hn. split; [done|]. intros [k Hk]. simpl. rewrite lookup_insert. case_decide; [done|by exists k].
  - eapply (originates_update _ _ _ id p); [done|reflexivity|reflexivity|by right].
Qed.

Lemma stepsTo_reject id p reason now w :
  Pending (w_state w) !! id = Some p → ph_Approved p = false →
  steps w (setReg (setState (rejectState id p reason now)) w).
Proof.
  intros Hp Hf. apply stepsTo_protocol; [|done|done|done|].
  2:{ eapply (originates_update _ _ _ id p); [done|reflexivity|reflexivity|simpl; congruence]. }
  apply rtc_once. by eapply (en_reject Administrator _ _ _ id p reason now).
Qed.

(** What an answered approval did: the handshake with that device code is
    approved, its key is the node's credential, and it is on disk; a
    handshake that was approved before is only reported. *)
Definition approvedBy (code : string) (replace : bool) (w1 : world) (r : response) (w' : world) : Prop :=
  ∃ id p, Pending (w_state w1) !! id = Some p ∧ ph_DeviceCode p = code ∧ ph_Rejected p = false
    ∧ replacementAllowed (Authorized (w_state w1)) p replace
    ∧ r = writeJSON 200 (JApproved (dn_Name (ph_Node p)) (ph_ExpiresAt p))
    ∧ (if ph_Approved p then w_state w' = w_state w1
       else Pending (w_state w') !! id = Some (setApproved true p)
            ∧ Authorized (w_state w') = <[dn_ID (ph_Node p) := mkAuthorizedNode (ph_PublicKey p)]> (Authorized (w_state w1))
            ∧ w_disk w' = Some (w_state w')).

Lemma approveLocked_spec source code replace w :
  wp (approveLocked source code replace) (λ r w', steps w w' ∧
    (rs_Status r = 200 → ∃ now b w1, cleaned Administrator actor now (tickClock w) b w1
       ∧ approvedBy code replace w1 r w')) w.
Proof.
  unfold approveLocked. wp_op. wp_op. wp_op. apply (wp_cleanup Administrator actor); [apply readAt_tick|]. intros b w1 C1.
  assert (steps w w1) as S by (etrans; [|apply C1]; frame_step).
  wp_op. eapply wp_mono; [apply findCode_spec|]. intros o w2 [-> Ho].
  assert (steps w (tickOrder w1)) as S' by (etrans; [exact S|]; frame_step).
  destruct o as [[id p]|]; [|by wp_go]. destruct Ho as [Hp Hcode].
  wp_op; [by wp_go|]. wp_op; [by wp_go|]. wp_op. wp_op. cbv zeta.
  wp_op; [by wp_go|].
  assert (replacementAllowed (Authorized (w_state w1)) p replace) as Hrep.
  { intros k Hk Hne. destruct (Authorized (w_state (tickOrder w1)) !! _) eqn:E in Heqb2;
      change (w_state (tickOrder w1)) with (w_state w1) in *; rewrite Hk in E; [|done]. injection E as <-.
    apply andb_false_iff in Heqb2 as [Hb|Hb]; bool_simpl; done. }
  wp_op.
  - wp_go. split; [done|]. intros _. exists (clock (w_clock w)), b, w1. split; [done|].
    exists id, p. split_and!; try done. by rewrite Heqb3.
  - assert (∀ now e ok, steps w (afterPersist ok (afterAudit e (tickClock (setReg (setState (approveState id p now)) (tickOrder w1)))))) as Hall.
    { intros now e ok. etrans; [|apply stepsTo_persist]. etrans; [|apply stepsTo_audit].
      etrans; [exact S'|]. etrans; [eapply (stepsTo_approve id p replace now); [done| |done]|frame_step].
      unfold freshHandshake. by rewrite Heqb3, Heqb1. }
    wp_go; (split; [apply Hall|]); [done|]. intros _. destruct ok; [|done].
    exists (clock (w_clock w)), b, w1. split; [done|]. exists id, p. split_and!; try done.
    rewrite Heqb3. split_and!; [apply lookup_insert_eq|done|done].
Qed.

Definition rejectedBy (code reason : string) (w1 : world) (r : response) (w' : world) : Prop :=
  ∃ id p, Pending (w_state w1) !! id = Some p ∧ ph_DeviceCode p = code ∧ ph_Approved p = false
    ∧ r = writeJSON 200 (JRejected (dn_Name (ph_Node p)))
    ∧ Pending (w_state w') = <[id := setRejected true p]> (Pending (w_state w1))
    ∧ (∃ h, History (w_state w') !! id = Some h ∧ hh_StatusCode h = 403 ∧ hh_Reason h = reason)
    ∧ Authorized (w_state w') = Authorized (w_state w1)
    ∧ w_disk w' = Some (w_state w').

Lemma rejectLocked_spec source code reason w :
  wp (rejectLocked source code reason) (λ r w', steps w w' ∧
    (rs_Status r = 200 → ∃ now b w1, cleaned Administrator actor now (tickClock w) b w1
       ∧ rejectedBy code reason w1 r w')) w.
Proof.
  unfold rejectLocked. wp_op. wp_op. wp_op. apply (wp_cleanup Administrator actor); [apply readAt_tick|]. intros b w1 C1.
  assert (steps w w1) as S by (etrans; [|apply C1]; frame_step).
  wp_op. eapply wp_mono; [apply findCode_spec|]. intros o w2 [-> Ho].
  assert (steps w (tickOrder w1)) as S' by (etrans; [exact S|]; frame_step).
  destruct o as [[id p]|]; [|by wp_go]. destruct Ho as [Hp Hcode].
  wp_op; [by wp_go|]. wp_op; [by wp_go|].
  assert (∀ now e ok, steps w (afterPersist ok (afterAudit e (tickClock (setReg (setState (rejectState id p reason now)) (tickOrder w1)))))) as Hall.
  { intros now e ok. etrans; [|apply stepsTo_persist]. etrans; [|apply stepsTo_audit].
    etrans; [exact S'|]. etrans; [by eapply (stepsTo_reject id p reason now)|frame_step]. }
  wp_go; (split; [apply Hall|]); [done|]. intros _. destruct ok; [|done].
  exists (clock (w_clock w)), b, w1. split; [done|]. exists id, p. split_and!; try done.
  eexists. split; [apply lookup_insert_eq|done].
Qed.

(** *** Revocation *)

(** The history after the pending handshakes of [node] other than those
    still in [todo] are gone. *)
Definition revokedHistory (node : string) (todo : list string) (pending : gmap string pendingHandshake)
    (history history' : gmap string handshakeHistory) : Prop :=
  ∀ id, match pending !! id with
        | Some p => if bool_decide (dn_ID (ph_Node p) = node ∧ id ∉ todo)
                    then ∃ now, history' !! id = Some (handleHistory 403 now (historyOf history id))
                    else history' !! id = history !! id
        | None => history' !! id = history !! id
        end.

Definition revokeState (node : string) (pending : gmap string pendingHandshake)
    (history : gmap string handshakeHistory) (s : coordinatorState) : coordinatorState :=
  setNodes (delete node) (setHistory (λ _, history) (setAuthorized (delete node) (setPending (λ _, pending) s))).

Lemma stepsTo_revoke node history w :
  is_Some (Authorized (w_state w) !! node) →
  revokedHistory node [] (Pending (w_state w)) (History (w_state w)) history →
  steps w (setReg (setState (revokeState node
    (filter (λ kv, dn_ID (ph_Node kv.2) ≠ node) (Pending (w_state w))) history)) w).
Proof.
  intros Ha Hh. apply stepsTo_protocol; [|done|done| |apply originates_subseteq, map_filter_subseteq].
  - apply rtc_once. apply (en_revoke Administrator); try done.
    intros id. specialize (Hh id). destruct (Pending (w_state w) !! id) as [p|]; [|done].
    case_bool_decide as H1; case_bool_decide as H2; try done; [naive_solver|].
    exfalso. apply H1. split; [done|apply not_elem_of_nil].
  - intros i n Hn. simpl in Hn. apply lookup_delete_Some in Hn as [Hne Hn].
    split; [done|]. simpl. by rewrite lookup_delete_ne.
Qed.

(** Everything but the pending handshakes, the history, the clock and the
    iteration order. *)
Definition restState (s : coordinatorState) :=
  (Authorized s, Nodes s, Revision s, Audit s,
   (Connections s, ConnectionIdempotency s, ConnectionCursors s, ConnectionAcks s)).
Definition restWorld (w : world) :=
  (restState (w_state w), setState (λ _, emptyState) (w_reg w), w_disk w, w_chans w, w_rand w, w_files w).

Lemma revokePending_loop node w Q :
  (∀ b w', Pending (w_state w') = filter (λ kv, dn_ID (ph_Node kv.2) ≠ node) (Pending (w_state w)) →
     revokedHistory node [] (Pending (w_state w)) (History (w_state w)) (History (w_state w')) →
     restWorld w' = restWorld w → (w_clock w ≤ w_clock w')%nat →
     Q b w') →
  wp (order ← rangeMap (Pending (w_state w)); forAny order (revokePending node)) Q w.
Proof.
  intros HQ. apply wp_bind, wp_rangeMap. intros l Hl.
  assert (NoDup l.*1) as Hnd by (rewrite Hl; apply NoDup_fst_map_to_list).
  assert (∀ id p, Pending (w_state w) !! id = Some p → id ∈ l.*1) as Hin.
  { intros id p Hp. apply list_elem_of_fmap. exists (id, p). rewrite Hl. split; [done|by apply elem_of_map_to_list]. }
  assert (∀ id p, (id, p) ∈ l → Pending (w_state w) !! id = Some p) as Horig.
  { intros id p. rewrite Hl. apply elem_of_map_to_list. }
  apply (wp_sweep (λ w, Pending (w_state w))
    (λ l' w', NoDup l'.*1 ∧ (∀ id p, (id, p) ∈ l' → Pending (w_state w) !! id = Some p)
       ∧ revokedHistory node l'.*1 (Pending (w_state w)) (History (w_state w)) (History (w_state w'))
       ∧ restWorld w' = restWorld w ∧ (w_clock w ≤ w_clock w')%nat)
    (λ _ p o, o = if bool_decide (dn_ID (ph_Node p) = node) then None else Some p)); [done| | |].
  - split_and!; [done|done| |done|done].
    intros id. destruct (Pending (w_state w) !! id) as [p|] eqn:Hp; [|done].
    rewrite bool_decide_false; [done|]. intros [_ Hn]. apply Hn. by eapply Hin.
  - intros id p l' w' (Hnd' & Ho & Hh & Hr & Hk) Hp. unfold revokePending. simpl in Hnd'.
    apply NoDup_cons in Hnd' as [Hid Hnd'].
    assert (Pending (w_state w) !! id = Some p) as Hp0 by (apply Ho; left).
    pose proof (Hh id) as Hhid. rewrite Hp0 in Hhid. simpl in Hhid.
    rewrite bool_decide_false in Hhid by (intros [_ Hx]; apply Hx; left).
    destruct (String.eqb_spec (dn_ID (ph_Node p)) node) as [He|He].
    + wp_go. simpl. split_and!; [done|intros j q Hj; apply Ho; by right| |done|lia|by rewrite bool_decide_true, lookup_delete_eq| |done].
      * intros j. destruct (Pending (w_state w) !! j) as [q|] eqn:Hq.
        -- destruct (decide (j = id)) as [->|Hj].
           ++ simplify_eq. rewrite bool_decide_true by done. exists (clock (w_clock w')).
              rewrite lookup_insert_eq. unfold historyOf. by rewrite <- Hhid.
           ++ specialize (Hh j). rewrite Hq in Hh. rewrite lookup_insert_ne by done. simpl in Hh.
              erewrite bool_decide_ext; [exact Hh|]. set_solver.
        -- specialize (Hh j). rewrite Hq in Hh. rewrite lookup_insert_ne; [done|]. congruence.
      * intros j Hj. by apply lookup_delete_ne.
    + wp_go. split_and!; [done|intros j q Hj; apply Ho; by right| |done|done
        |by rewrite bool_decide_false|done|done].
      intros j. specialize (Hh j). destruct (Pending (w_state w) !! j) as [q|] eqn:Hq; [|done].
      destruct (decide (j = id)) as [->|Hj].
      * simplify_eq. rewrite bool_decide_false by (by intros [? _]). done.
      * simpl in Hh. erewrite bool_decide_ext; [exact Hh|]. set_solver.
  - intros b w' (_ & _ & Hh & Hr & Hk) Hall _. apply (HQ b); try done.
    apply map_eq. intros id. specialize (Hall id). rewrite map_lookup_filter.
    change (Pending (w_state (tickOrder w))) with (Pending (w_state w)) in Hall.
    destruct (Pending (w_state w) !! id) as [p|]; simpl in *; rewrite Hall; [|done].
    case_bool_decide; case_guard; naive_solver.
Qed.

Definition revokedBy (node : string) (w : world) (r : response) (w' : world) : Prop :=
  is_Some (Authorized (w_state w) !! node)
  ∧ r = writeJSON 200 (JRevoked node)
  ∧ Authorized (w_state w') = delete node (Authorized (w_state w))
  ∧ Nodes (w_state w') = delete node (Nodes (w_state w))
  ∧ Pending (w_state w') = filter (λ kv, dn_ID (ph_Node kv.2) ≠ node) (Pending (w_state w))
  ∧ Revision (w_state w') = Revision (w_state w)
  ∧ w_disk w' = Some (w_state w').

Lemma revokeLocked_spec source node w :
  wp (revokeLocked source node) (λ r w', steps w w' ∧ (rs_Status r = 200 → revokedBy node w r w')) w.
Proof.
  unfold revokeLocked. wp_op. wp_op. wp_op; [|by wp_go].
  assert (is_Some (Authorized (w_state w) !! node)) as Ha by eauto.
  do 8 wp_op. apply wp_assoc.
  set (wA := afterAudit _ _). apply (revokePending_loop node wA). intros b w' Hp Hh Hr Hk.
  change (Pending (w_state wA)) with (Pending (w_state w)) in *.
  change (History (w_state wA)) with (History (w_state w)) in *.
  unfold restWorld, restState in Hr.
  assert (Authorized (w_state w') = Authorized (w_state wA)) as E1 by congruence.
  assert (Nodes (w_state w') = Nodes (w_state wA)) as E2 by congruence.
  assert (Revision (w_state w') = Revision (w_state wA)) as E3 by congruence.
  assert (Audit (w_state w') = Audit (w_state wA)) as E4 by congruence.
  assert (connPart (w_state w') = connPart (w_state wA)) as E5.
  { unfold connPart. injection Hr as _ _ _ _ -> -> -> -> _ _ _ _ _. done. }
  assert (setState (λ _, emptyState) (w_reg w') = setState (λ _, emptyState) (w_reg wA)) as E6 by congruence.
  assert (w_disk w' = w_disk w ∧ w_chans w' = w_chans w ∧ w_rand w' = w_rand w) as (E7 & E8 & E9).
  { clear -Hr. by injection Hr. }
  assert (steps w w') as S.
  { etrans; [by apply (stepsTo_revoke node (History (w_state w')))|].
    apply stepsTo_frame.
    - unfold enrollOf. rewrite E1, Hp. done.
    - rewrite E5. done.
    - change (config w' = config w). unfold config. clear -E6. injection E6. intros. congruence.
    - simpl. rewrite E9. done.
    - intros _. rewrite E4. apply boundAudit_length.
    - rewrite E2. intros [_ _ _ Hn]. exact Hn.
    - left. simpl. congruence.
    - apply signalStep_same.
      + by apply (f_equal (λ g, cs_conns (g ∅))) in E5.
      + change (connectionSignals (w_reg w') = connectionSignals (w_reg w)). clear -E6. by injection E6.
      + change (requestSignals (w_reg w') = requestSignals (w_reg w)). clear -E6. by injection E6.
      + exact E8.
    - apply noncesKept_same; [|simpl in *; lia].
      change (nonces (w_reg w') = nonces (w_reg w)). clear -E6. by injection E6. }
  wp_go; (split; [etrans; [exact S|apply stepsTo_persist]|]); [done|].
  intros _. destruct ok; [|done]. by split_and!.
Qed.
End AdminSteps.

Section Admin.
Context {env : Env} (actor : string).

(** Who an admin request speaks for. *)
Definition adminAuthority (w : world) (req : request) : authority :=
  if adminAuthorized (w_reg w) req then Administrator else Anyone.

Lemma approveHandshake_spec req w :
  wp (approveHandshake req) (λ r w', stepsTo (adminAuthority w req) actor w w' ∧
    (rs_Status r = 200 → adminAuthorized (w_reg w) req = true ∧
      ∃ input now b w1, decodeJSON decodeApproveRequest req = Some input
        ∧ cleaned Administrator actor now (tickClock w) b w1
        ∧ approvedBy (normalizeDeviceCode (aq_DeviceCode input)) (aq_Replace input) w1 r w')) w.
Proof.
  unfold approveHandshake, adminAuthority. wp_op. wp_op.
  destruct (adminAuthorized (w_reg w) req) eqn:Ha; simpl; [|by wp_go].
  destruct (decodeJSON _ req) as [input|] eqn:Hin; [|by wp_go].
  eapply wp_mono; [apply approveLocked_spec|]. intros r w' [S H]. split; [done|].
  intros Hr. split; [done|]. destruct (H Hr) as (now & b & w1 & ? & ?). by exists input, now, b, w1.
Qed.

Lemma rejectHandshake_spec req w :
  wp (rejectHandshake req) (λ r w', stepsTo (adminAuthority w req) actor w w' ∧
    (rs_Status r = 200 → adminAuthorized (w_reg w) req = true ∧
      ∃ input now b w1, decodeJSON decodeApproveRequest req = Some input
        ∧ Z.of_nat (String.length (Strings.TrimSpace (aq_Reason input))) ≤ maxEnrollmentReason
        ∧ cleaned Administrator actor now (tickClock w) b w1
        ∧ rejectedBy (normalizeDeviceCode (aq_DeviceCode input)) (Strings.TrimSpace (aq_Reason input)) w1 r w')) w.
Proof.
  unfold rejectHandshake, adminAuthority. wp_op. wp_op.
  destruct (adminAuthorized (w_reg w) req) eqn:Ha; simpl; [|by wp_go].
  destruct (decodeJSON _ req) as [input|] eqn:Hin; [|by wp_go]. cbv zeta. wp_op; [by wp_go|].
  eapply wp_mono; [apply rejectLocked_spec|]. intros r w' [S H]. split; [done|].
  intros Hr. split; [done|]. bool_simpl. destruct (H Hr) as (now & b & w1 & ? & ?). by exists input, now, b, w1.
Qed.

Lemma revokeNode_spec req w :
  wp (revokeNode req) (λ r w', stepsTo (adminAuthority w req) actor w w' ∧
    (rs_Status r = 200 → adminAuthorized (w_reg w) req = true ∧
      ∃ input, decodeJSON decodeRevokeRequest req = Some input ∧ revokedBy (rq_NodeID input) w r w')) w.
Proof.
  unfold revokeNode, adminAuthority. wp_op. wp_op.
  destruct (adminAuthorized (w_reg w) req) eqn:Ha; simpl; [|by wp_go].
  destruct (decodeJSON _ req) as [input|] eqn:Hin; [|by wp_go]. wp_op; [by wp_go|].
  eapply wp_mono; [apply revokeLocked_spec|]. intros r w' [S H]. split; [done|].
  intros Hr. split; [done|]. exists input. auto.
Qed.

Lemma listHandshakes_spec a req w :
  wp (listHandshakes req) (λ r w', stepsTo a actor w w' ∧
    (rs_Status r = 200 → adminAuthorized (w_reg w) req = true)) w.
Proof.
  unfold listHandshakes. wp_op. wp_op.
  destruct (adminAuthorized (w_reg w) req) eqn:Ha; simpl; [|by wp_go].
  wp_op. wp_op. wp_op. apply (wp_cleanup a actor); [apply readAt_tick|]. intros b w1 [S _ _ _ _ _ _ _]. cbv zeta.
  wp_op. wp_op. wp_op. apply wp_rangeMap. intros l Hl. wp_go. split; [|done].
  etrans; [|apply stepsTo_persist]. etrans; [|etrans; [exact S|]]; frame_step.
Qed.

Lemma listAudit_spec req w :
  wp (listAudit req) (λ r w', w' = w ∧ (rs_Status r = 200 → adminAuthorized (w_reg w) req = true)) w.
Proof.
  unfold listAudit. wp_op. wp_op. destruct (adminAuthorized (w_reg w) req) eqn:Ha; simpl; by wp_go.
Qed.
End Admin.
