(* ===== verification/Directory.v ===== *)
(** * The node directory

    Registration, heartbeat and discovery (coordinator_nodes.go): what a node
    may publish, when the directory's revision moves, what a peer is told,
    and how a heartbeat completes an approved enrollment. *)
From S2P Require Import Prelude GoStd GoNet GoCrypto Types Runtime Validate Wire Registry RateLimit.
From S2P Require Import Auth ConnSpec EnrollSpec World Steps Cleanup Enrollment.

Local Open Scope Z_scope.

(** ** Direct candidates *)

(** The loop of [managedDirectCandidates]: [None] on the first candidate that
    is not valid, a repeated address once. *)
Fixpoint collectCandidates (expiry : Z) (seen : gset string) (input : list directCandidate)
    : option (list directCandidate) :=
  match input with
  | [] => Some []
  | candidate :: input =>
      if negb (validateDirectCandidate (dc_Address candidate)) then None
      else if bool_decide (dc_Address candidate ∈ seen) then collectCandidates expiry seen input
      else cons (mkDirectCandidate (dc_Address candidate) expiry)
             <$> collectCandidates expiry ({[dc_Address candidate]} ∪ seen) input
  end.

Definition managedDirectCandidates (input : list directCandidate) (expiry : Z) : option (list directCandidate) :=
  if maxDirectCandidates <? Z.of_nat (length input) then None
  else sortSlice byAddress <$> collectCandidates expiry ∅ input.

(** ** Topology *)

Definition clearLeases (s : publishedService) : publishedService :=
  setDirectCandidates (fmap (λ c, mkDirectCandidate (dc_Address c) Time.zero) (ps_DirectCandidates s)) s.

Definition topologyWithoutLeases (node : discoveredNode) : discoveredNode :=
  setServices (fmap clearLeases) (setLastSeen Time.zero node).

Definition sameNodeTopology `{Json} (left right : discoveredNode) : bool :=
  (marshalNode (topologyWithoutLeases left) =? marshalNode (topologyWithoutLeases right))%string.

Definition directCandidateRenewalDue (node : discoveredNode) (now : Z) : bool :=
  let refreshAt := Time.Add now (Z.quot directCandidateLease 2) in
  existsb (λ service, existsb (λ candidate,
    negb (Time.IsZero (dc_ExpiresAt candidate)) && negb (Time.After (dc_ExpiresAt candidate) refreshAt))
    (ps_DirectCandidates service)) (dn_Services node).

Definition nodeForDiscovery (requester candidate : discoveredNode) : discoveredNode :=
  if (dn_Segment requester =? dn_Segment candidate)%string then candidate
  else setServices (fmap (setDirectCandidates [])) candidate.

Definition byName (x y : discoveredNode) : bool := (dn_Name x <? dn_Name y)%string.

(** The peers of [requester] among the nodes in iteration order. *)
Definition peersOf (requester : discoveredNode) (self : string) (order : list discoveredNode) : list discoveredNode :=
  nodeForDiscovery requester <$>
    filter (λ candidate, (dn_VirtualNetwork candidate =? dn_VirtualNetwork requester)%string
                         && negb (dn_ID candidate =? self)%string = true) order.

Section Directory.
Context {env : Env}.

(** One iteration of the loop over the published services. *)
Definition publishService (n : discoveredNode) (expiry : Z) (s : publishedService) : option publishedService :=
  match managedDirectCandidates (ps_DirectCandidates s) expiry with
  | Some candidates =>
      if (ps_Name s =? "")%string || (ps_UUID s =? "")%string || negb (validSHA256Pin (ps_PinnedSHA256 s))
      then None
      else Some (mkPublishedService (dn_ID n) (ps_Name s) (dn_Segment n) candidates (ps_UUID s) (ps_PinnedSHA256 s))
  | None => None
  end.

(** The node as it will be stored, or the message of the refusal. *)
Definition admitNode (nodes : gmap string discoveredNode) (now : Z) (n : discoveredNode)
    : string + discoveredNode :=
  match mapM (publishService n (Time.Add now directCandidateLease)) (dn_Services n) with
  | None => inl "invalid published service"
  | Some services =>
      let n := setServices (λ _, services) n in
      match (if (dn_Role n =? "relay")%string then
               match dn_Relay n with
               | Some relay => if relayOk relay then Some n else None
               | None => None
               end
             else Some (setRelay None n)) with
      | None => inl "invalid relay advertisement"
      | Some n =>
          if (dn_Role n =? "subnode")%string then
            if (dn_UpstreamRelay n =? "")%string then inl "subnode has no upstream relay"
            else if negb (nodesUpstreamOk nodes n)
                 then inl "subnode upstream is not an active relay in the same segment"
                 else inr n
          else inr (setUpstreamRelay "" n)
      end
  end.

(** One iteration of the loop that completes enrollments. *)
Definition completePending (n : discoveredNode) (key source : string) (now : Z)
    (e : string * pendingHandshake) : M bool :=
  let '(id, pending) := e in
  if (dn_ID (ph_Node pending) =? dn_ID n)%string && ph_Approved pending && (ph_PublicKey pending =? key)%string then
    modState (setPending (delete id)) ;;
    modState (setHistory (λ m, <[id := handleHistory 201 now (historyOf m id)]> m)) ;;
    appendAuditLocked (event "enrollment_completed" (dn_ID n) (dn_Name n) id source) ;;
    mret true
  else mret false.

(** The rest of the critical section once the node is admitted. *)
Definition storeNode (n : discoveredNode) (key source : string) (now : Z)
    : M (response + discoveredNode * list discoveredNode * Z) :=
  st ← getState;
  let old := Nodes st !! dn_ID n in
  let n := setLastSeen now n in
  modState (setNodes (insert (dn_ID n) n)) ;;
  (if match old with
      | None => true
      | Some old => negb (sameNodeTopology old n) || directCandidateRenewalDue old now
      end
   then modState (setRevision (λ r, wrapUint64 (r + 1))) else mret tt) ;;
  st ← getState;
  order ← rangeMap (Pending st);
  forAny order (completePending n key source now) ;;
  cleanupLocked now ;;
  st ← getState;
  order ← rangeMap (Nodes st);
  let nodes := peersOf n (dn_ID n) order.*2 in
  persisted ← persistLocked;
  st ← getState;
  let revision := Revision st in
  if negb persisted then mret (inl (httpError "failed to persist registry" 500)) else
  mret (inr (n, sortSlice byName nodes, revision)).

Definition updateNode (req : request) : M (response + discoveredNode * list discoveredNode * Z) :=
  match readBody req with
  | None => mret (inl (httpError "invalid body" 400))
  | Some body =>
      let nodeID := headerGet req "X-Mayoiga-Node" in
      st ← getState;
      match Authorized st !! nodeID with
      | None => mret (inl (httpError "invalid node signature" 401))
      | Some authorized =>
          ok ← verifySignatureLocked req body (an_PublicKey authorized);
          if negb ok then mret (inl (httpError "invalid node signature" 401)) else
          now ← timeNow;
          allowed ← allowRequestLocked ("node:" +:+ nodeID) publicRequestsPerMinute now;
          if negb allowed then mret (inl (httpError "node rate limit exceeded" 429)) else
          match unmarshalDiscoveryRequest body with
          | None => mret (inl (httpError "invalid JSON or node id" 400))
          | Some input =>
              if negb (dn_ID (dq_Node input) =? nodeID)%string
              then mret (inl (httpError "invalid JSON or node id" 400)) else
              let n := dq_Node input in
              r ← getReg;
              if (dn_Name n =? "")%string || negb (dn_VirtualNetwork n =? network r)%string
              then mret (inl (httpError "virtual network is not allowed" 403)) else
              let n := setIdentityKey (an_PublicKey authorized) n in
              now ← timeNow;
              st ← getState;
              match admitNode (Nodes st) now n with
              | inl message => mret (inl (httpError message 400))
              | inr n => storeNode n (an_PublicKey authorized) (requestSource req) now
              end
          end
      end
  end.

Definition registerNode (req : request) : M response :=
  result ← updateNode req;
  match result with
  | inl r => mret r
  | inr (_, nodes, revision) => mret (writeJSON 200 (JDiscovery (mkDiscoveryResponse revision true nodes)))
  end.

Definition heartbeatNode (req : request) : M response :=
  result ← updateNode req;
  match result with
  | inl r => mret r
  | inr (_, _, revision) =>
      now ← timeNow;
      mret (writeJSON 200 (JHeartbeat (mkHeartbeatResponse revision now)))
  end.

(** The critical section of [discoverNodes]. *)
Definition discoverLocked (nodeID : string) (after : Z) : M response :=
  now ← timeNow;
  cleanupLocked now ;;
  st ← getState;
  match Nodes st !! nodeID with
  | None => mret (httpError "node must heartbeat before discovery" 409)
  | Some node =>
      let revision := Revision st in
      if after =? revision
      then mret (writeJSON 200 (JDiscovery (mkDiscoveryResponse revision false [])))
      else
        order ← rangeMap (Nodes st);
        mret (writeJSON 200 (JDiscovery (mkDiscoveryResponse revision true
          (sortSlice byName (peersOf node nodeID order.*2)))))
  end.

Definition discoverNodes (req : request) : M response :=
  auth ← authenticatedConnectionBody req;
  match auth with
  | inl r => mret r
  | inr (body, nodeID) =>
      match unmarshalDiscoverySync body with
      | None => mret (httpError "invalid JSON" 400)
      | Some input => discoverLocked nodeID (sy_AfterRevision input)
      end
  end.
End Directory.

(** ** What is published is well formed *)

Lemma collectCandidates_Some expiry seen input out :
  collectCandidates expiry seen input = Some out →
  Forall (λ c, validateDirectCandidate (dc_Address c) = true) input
  ∧ (length out ≤ length input)%nat
  ∧ NoDup (dc_Address <$> out)
  ∧ Forall (λ c, dc_ExpiresAt c = expiry ∧ dc_Address c ∉ seen) out
  ∧ (∀ x, x ∈ dc_Address <$> input ↔ x ∈ dc_Address <$> out ∨ (x ∈ seen ∧ x ∈ dc_Address <$> input)).
Proof.
  revert seen out. induction input as [|c input IH]; intros seen out; simpl.
  { intros [= <-]. split_and!; try done; [constructor|]. set_solver. }
  destruct (validateDirectCandidate (dc_Address c)) eqn:Hv; simpl; [|done].
  case_bool_decide as Hs.
  - intros H. destruct (IH _ _ H) as (H1 & H2 & H3 & H4 & H5).
    split_and!; [by constructor|lia|done|done|]. intros x. rewrite elem_of_cons, H5. set_solver.
  - intros (out' & H & ->)%fmap_Some. destruct (IH _ _ H) as (H1 & H2 & H3 & H4 & H5).
    rewrite fmap_cons. split_and!; [by constructor|simpl; lia| | |].
    + simpl. constructor; [|done]. intros (d & Hd & Hin)%list_elem_of_fmap.
      rewrite Forall_forall in H4. apply H4 in Hin as [_ Hin]. apply Hin. set_solver.
    + constructor; [done|]. eapply Forall_impl; [exact H4|]. intros d [? ?]. set_solver.
    + intros x. simpl. rewrite !elem_of_cons, H5. set_solver.
Qed.

Lemma collectCandidates_None expiry seen input :
  collectCandidates expiry seen input = None ↔
  Exists (λ c, validateDirectCandidate (dc_Address c) = false) input.
Proof.
  revert seen. induction input as [|c input IH]; intros seen; simpl.
  { split; [done|by intros H%Exists_nil]. }
  rewrite Exists_cons. destruct (validateDirectCandidate (dc_Address c)) eqn:Hv; simpl; [|naive_solver].
  case_bool_decide; rewrite ?fmap_None, IH; naive_solver.
Qed.

Lemma managedDirectCandidates_Some input expiry out :
  managedDirectCandidates input expiry = Some out →
  candidatesOk out ∧ Forall (λ c, dc_ExpiresAt c = expiry) out
  ∧ ∀ x, x ∈ dc_Address <$> out ↔ x ∈ dc_Address <$> input.
Proof.
  unfold managedDirectCandidates. destruct (maxDirectCandidates <? _) eqn:Hl; [done|]. bool_simpl.
  intros (l & H & ->)%fmap_Some. destruct (collectCandidates_Some _ _ _ _ H) as (H1 & H2 & H3 & H4 & H5).
  assert (sortSlice byAddress l ≡ₚ l) as Hperm by apply sortSlice_perm.
  assert (∀ x, x ∈ dc_Address <$> sortSlice byAddress l ↔ x ∈ dc_Address <$> input) as Hsame.
  { intros x. rewrite Hperm, H5. set_solver. }
  split; [split|split; [|done]].
  - rewrite Hperm. lia.
  - apply (sortSlice_text_sorted dc_Address).
  - by rewrite Hperm.
  - rewrite Forall_forall in H1 |- *. intros c Hc.
    assert (dc_Address c ∈ dc_Address <$> input) as Hin by (apply Hsame; by apply list_elem_of_fmap_2).
    apply list_elem_of_fmap in Hin as (d & -> & Hd). auto.
  - rewrite Hperm. eapply Forall_impl; [exact H4|]. by intros c [].
Qed.

Lemma managedDirectCandidates_None input expiry :
  managedDirectCandidates input expiry = None ↔
  maxDirectCandidates < Z.of_nat (length input)
  ∨ Exists (λ c, validateDirectCandidate (dc_Address c) = false) input.
Proof.
  unfold managedDirectCandidates. destruct (maxDirectCandidates <? _) eqn:Hl; bool_simpl; [naive_solver|].
  rewrite fmap_None, collectCandidates_None. split; [by right|]. intros [?|?]; [lia|done].
Qed.

Section Admit.
Context {env : Env}.

Lemma publishService_ok n expiry s s' :
  publishService n expiry s = Some s' → serviceOk n s'.
Proof.
  unfold publishService. destruct (managedDirectCandidates _ _) as [l|] eqn:Hl; [|done].
  destruct (_ || _) eqn:E; [done|]. bool_simpl. intros [= <-].
  apply managedDirectCandidates_Some in Hl as [Hl _]. by split.
Qed.

(** The parts of a node a refusal depends on are kept. *)
Lemma admitNode_same nodes now n n' :
  admitNode nodes now n = inr n' →
  dn_ID n' = dn_ID n ∧ dn_Name n' = dn_Name n ∧ dn_Role n' = dn_Role n ∧ dn_Segment n' = dn_Segment n
  ∧ dn_VirtualNetwork n' = dn_VirtualNetwork n ∧ dn_IdentityKey n' = dn_IdentityKey n
  ∧ mapM (publishService n (Time.Add now directCandidateLease)) (dn_Services n) = Some (dn_Services n').
Proof.
  unfold admitNode. destruct (mapM _ _) as [services|]; [|done].
  destruct (dn_Role _ =? "relay")%string; [simpl; destruct (dn_Relay n) as [relay|]; [destruct (relayOk relay)|]|];
    try done; simpl; repeat step_case; intros; simplify_eq; done.
Qed.

Lemma admitNode_ok nodes now n n' :
  admitNode nodes now n = inr n' → dn_Name n ≠ "" →
  nodeOk (dn_VirtualNetwork n) (dn_ID n) n'.
Proof.
  intros H Hname. destruct (admitNode_same _ _ _ _ H) as (Hi & Hn & Hr & Hs & Hv & _ & Hm).
  assert (Forall (serviceOk n') (dn_Services n')) as Hsv.
  { apply mapM_Some in Hm.
    apply Forall_forall. intros s' Hin. apply list_elem_of_lookup in Hin as [i Hi'].
    destruct (Forall2_lookup_r _ _ _ _ _ Hm Hi') as (s & _ & Hs').
    apply publishService_ok in Hs' as [[Ho1 Ho2] ? ? ?]. split; [|done..]. by rewrite Hi, Hs. }
  split; [done|by rewrite Hn|done|done| |]; revert H; unfold admitNode;
    destruct (mapM _ _) as [services|]; try done; simpl;
    destruct (dn_Role n =? "relay")%string eqn:Erl; simpl; try destruct (dn_Relay n) as [relay|] eqn:Ery;
    try destruct (relayOk relay) eqn:Erk; try done; simpl;
    destruct (dn_Role n =? "subnode")%string eqn:Esb; simpl; try (bool_simpl; congruence);
    try destruct (dn_UpstreamRelay n =? "")%string eqn:Eup; try destruct (nodesUpstreamOk _ _); try done;
    intros [= <-]; simpl in *; bool_simpl; rewrite ?Ery; first [done|by split|split; congruence].
Qed.
End Admit.

(** ** Registration refines the protocols *)

Lemma nodeOk_seen {unicode : Unicode} net id t n : nodeOk net id n → nodeOk net id (setLastSeen t n).
Proof.
  intros [? ? ? Hs ? ?]. split; try done. simpl. eapply Forall_impl; [exact Hs|]. intros s []. by split.
Qed.

Section Store.
Context {env : Env} (actor : string) (n : discoveredNode) (key source : string) (now : Z).
Let a := SignedBy (dn_ID n) key.
Let steps := stepsTo a actor.

(** The handshakes a heartbeat of [n] completes. *)
Definition completes (p : pendingHandshake) : bool :=
  (dn_ID (ph_Node p) =? dn_ID n)%string && ph_Approved p && (ph_PublicKey p =? key)%string.

Definition completeState (id : string) (s : coordinatorState) : coordinatorState :=
  setHistory (λ m, <[id := handleHistory 201 now (historyOf m id)]> m) (setPending (delete id) s).

Lemma stepsTo_complete id p w :
  Pending (w_state w) !! id = Some p → completes p = true →
  Authorized (w_state w) !! dn_ID n = Some (mkAuthorizedNode key) →
  steps w (setReg (setState (completeState id)) w).
Proof.
  unfold completes. intros Hp Hc Ha. bool_simpl. apply stepsTo_protocol; [|done|done|done|apply originates_subseteq, delete_subseteq].
  apply rtc_once. eapply (en_complete a _ _ _ id p); unfold a; congruence.
Qed.

Lemma wp_completePhase n' Q w :
  dn_ID n' = dn_ID n → dn_Name n' = dn_Name n →
  Authorized (w_state w) !! dn_ID n = Some (mkAuthorizedNode key) →
  (∀ b w', steps w w' → directoryPart w' = directoryPart w → connectionPart w' = connectionPart w →
     Authorized (w_state w') = Authorized (w_state w) → nonces (w_reg w') = nonces (w_reg w) →
     Pending (w_state w') = filter (λ kv, completes kv.2 = false) (Pending (w_state w)) → Q b w') →
  wp (order ← rangeMap (Pending (w_state w)); forAny order (completePending n' key source now)) Q w.
Proof.
  intros Hid Hname Hauth HQ. apply wp_bind, wp_rangeMap. intros l Hl.
  apply (wp_sweep (λ w, Pending (w_state w))
    (λ _ w', steps w w' ∧ directoryPart w' = directoryPart w ∧ connectionPart w' = connectionPart w
       ∧ Authorized (w_state w') = Authorized (w_state w) ∧ nonces (w_reg w') = nonces (w_reg w))
    (λ _ p o, o = if completes p then None else Some p)); [done| | |].
  - split_and!; [|done..]. frame_step.
  - intros id p _ w' (Hs & Hd & Hc & Ha & Hn) Hp. unfold completePending. rewrite Hid.
    fold (completes p). destruct (completes p) eqn:He.
    + wp_go. split_and!; try done.
      * etrans; [exact Hs|]. etrans; [eapply (stepsTo_complete id p); [done|done|congruence]|].
        apply (stepsTo_audit a actor).
      * apply lookup_delete_eq.
      * intros j Hj. by apply lookup_delete_ne.
    + wp_go. by split_and!.
  - intros b w' (Hs & Hd & Hc & Ha & Hn) Hall _. apply (HQ b); try done.
    apply map_eq. intros id. specialize (Hall id). rewrite map_lookup_filter.
    change (Pending (w_state (tickOrder w))) with (Pending (w_state w)) in Hall.
    destruct (Pending (w_state w) !! id) as [p|]; simpl in *; rewrite Hall; [|done].
    by destruct (completes p).
Qed.

(** How much a registration moves the revision by itself. *)
Definition topologyMoves (old : option discoveredNode) (n : discoveredNode) : bool :=
  match old with
  | None => true
  | Some old => negb (sameNodeTopology old n) || directCandidateRenewalDue old now
  end.

Definition changedBy (m : discoveredNode) : bool := nodeStale now m || nodeChanged now m.

(** The answer to an admitted node. *)
Definition stored (w : world) (x : discoveredNode * list discoveredNode * Z) (w' : world) : Prop :=
  let n' := setLastSeen now n in
  let nodes := <[dn_ID n := n']> (Nodes (w_state w)) in
  ∃ order, order ≡ₚ map_to_list (Nodes (w_state w'))
  ∧ x = (n', sortSlice byName (peersOf n' (dn_ID n) order.*2), Revision (w_state w'))
  ∧ Nodes (w_state w') = omap (sweptNode now) nodes
  ∧ wrapUint64 (Revision (w_state w')) = wrapUint64 (Revision (w_state w)
      + Z.of_nat (b2n (topologyMoves (Nodes (w_state w) !! dn_ID n) n')) + Z.of_nat (countMap changedBy nodes))
  ∧ (∀ id p, Pending (w_state w') !! id = Some p → completes p = false)
  ∧ w_disk w' = Some (w_state w').

Lemma storeNode_spec w :
  nodeOk (wNetwork w) (dn_ID n) n → Authorized (w_state w) !! dn_ID n = Some (mkAuthorizedNode key) →
  readAt now w →
  wp (storeNode n key source now) (λ r w', steps w w' ∧
    match r with inl e => 400 ≤ rs_Status e | inr x => stored w x w' end) w.
Proof.
  intros Hok Ha Hnow. unfold storeNode. wp_op. wp_op. cbv zeta. wp_op. wp_op.
  change (dn_ID (setLastSeen now n)) with (dn_ID n).
  set (n' := setLastSeen now n). set (w1 := setReg (setState (setNodes <[dn_ID n:=n']>)) w).
  fold (topologyMoves (Nodes (w_state w) !! dn_ID n) n').
  set (moves := topologyMoves _ _). wp_op.
  apply (wp_mono _ (λ _ w2, w2 = if moves then setReg (setState (setRevision (λ r, wrapUint64 (r + 1)))) w1 else w1)).
  { destruct moves; wp_go; done. }
  intros _ w2 ->. set (w2 := if moves then _ else _).
  assert (steps w w2) as S2.
  { assert (∀ g, steps w (setReg (setState (λ s, setRevision g (setNodes (insert (dn_ID n) n') s))) w)) as Hg.
    { intros g. apply stepsTo_node. intros [_ _ _ Hn] id m. rewrite lookup_insert. case_decide; [|apply Hn].
      intros [= <-]. subst. split; [|by eexists]. by apply nodeOk_seen. }
    unfold w2. destruct moves; [apply (Hg (λ r, wrapUint64 (r + 1)))|].
    specialize (Hg (λ r, r)). replace w1 with (setReg (setState (λ s, setRevision (λ r, r) (setNodes (insert (dn_ID n) n') s))) w);
      [done|]. unfold w1. by destruct w as [r]; destruct r as [? ? s]; destruct s. }
  assert (Authorized (w_state w2) = Authorized (w_state w)) as A2 by (unfold w2; by destruct moves).
  assert (Nodes (w_state w2) = <[dn_ID n := n']> (Nodes (w_state w))) as N2 by (unfold w2; by destruct moves).
  assert (wrapUint64 (Revision (w_state w2)) = wrapUint64 (Revision (w_state w) + Z.of_nat (b2n moves))) as R2.
  { unfold w2. destruct moves; simpl.
    - rewrite wrapUint64_id by apply wrapUint64_range. done.
    - by rewrite Z.add_0_r. }
  wp_op. wp_op. apply wp_assoc, (wp_completePhase n'); [done|done|congruence|].
  intros _ w3 S3 D3 C3 A3 _ P3. injection D3 as N3 R3.
  wp_op. apply (wp_cleanup a actor); [by apply (readAt_mono now w); [etrans; [apply S2|apply S3]|]|]. intros b w4 [S4 _ P4 N4 R4 _ _ _].
  wp_op. wp_op. wp_op. apply wp_rangeMap. intros order Horder. cbv zeta.
  assert (∀ ok, steps w (afterPersist ok (tickOrder w4))) as Hall.
  { intros ok. etrans; [exact S2|]. etrans; [exact S3|]. etrans; [exact S4|].
    etrans; [|apply stepsTo_persist]. frame_step. }
  wp_go; (split; [apply Hall|]); [simpl; lia|]. destruct ok; [|done].
  exists order. split_and!; [done|done| | | |done].
  - simpl. change (w_state (afterPersist true (tickOrder w4))) with (w_state w4). by rewrite N4, N3, N2.
  - change (w_state (afterPersist true (tickOrder w4))) with (w_state w4). rewrite R4, N3, R3, N2.
    fold n' moves. rewrite <- wrapUint64_add, R2, wrapUint64_add. done.
  - intros id p Hp. change (w_state (afterPersist true (tickOrder w4))) with (w_state w4) in Hp.
    rewrite P4 in Hp. apply map_lookup_filter_Some in Hp as [Hp _].
    rewrite P3 in Hp. by apply map_lookup_filter_Some in Hp as [_ Hp].
Qed.
End Store.

Section Requests.
Context {env : Env} (actor : string).

Definition requestNode (req : request) : string := headerGet req "X-Mayoiga-Node".

(** Whether the request passes the signature check of the node it names. *)
Definition signatureAccepted (w : world) (req : request) : bool :=
  match readBody req, Authorized (w_state w) !! requestNode req with
  | Some body, Some authorized => (run (verifySignatureLocked req body (an_PublicKey authorized)) w).1
  | _, _ => false
  end.

(** Whom a node's request speaks for: the node it names, when that node has
    signed it. *)
Definition nodeAuthority (w : world) (req : request) : authority :=
  match Authorized (w_state w) !! requestNode req with
  | Some authorized =>
      if signatureAccepted w req then SignedBy (requestNode req) (an_PublicKey authorized) else Anyone
  | None => Anyone
  end.

Lemma nodeAuthority_public w req : nodeAuthority w req ≠ Administrator.
Proof. unfold nodeAuthority. destruct (Authorized _ !! _); [|done]. by destruct (signatureAccepted w req). Qed.

(** The request carries a fresh signature of the node it names, by the key
    it is authorized for. *)
Definition signedBy (w : world) (req : request) (body key : string) : Prop :=
  readBody req = Some body
  ∧ Authorized (w_state w) !! requestNode req = Some (mkAuthorizedNode key)
  ∧ nonceLive (nonces (w_reg w)) (headerGet req "X-Mayoiga-Nonce") (clock (w_clock w)) = false
  ∧ ∃ sent, wellSigned req body key sent
      ∧ clock (w_clock w) - 2 * Time.minute ≤ sent ≤ clock (w_clock w) + 2 * Time.minute.

(** The authority of a node is that of a fresh signature by its key. *)
Lemma nodeAuthority_signed w req node key :
  nodeAuthority w req = SignedBy node key → node = requestNode req ∧ ∃ body, signedBy w req body key.
Proof.
  unfold nodeAuthority, signatureAccepted. destruct (Authorized _ !! _) as [[k]|] eqn:Hauth; [|done].
  destruct (readBody req) as [body|] eqn:Hbody; [|done]. simpl.
  destruct (run (verifySignatureLocked req body k) w) as [ok w'] eqn:Hrun. simpl.
  pose proof (verifySignature_cases _ _ _ _ _ _ Hrun) as Hcase. destruct ok; [|done]. intros [= <- <-].
  destruct Hcase as ((sent & Hsigned & Hwindow) & Hlive & _). split; [done|]. exists body. by split_and!; [..|exists sent].
Qed.

Definition updated (w : world) (req : request) (x : discoveredNode * list discoveredNode * Z) (w' : world) : Prop :=
  ∃ body key input n now w1,
    signedBy w req body key
    ∧ unmarshalDiscoveryRequest body = Some input
    ∧ dn_ID (dq_Node input) = requestNode req
    ∧ dn_VirtualNetwork (dq_Node input) = wNetwork w
    ∧ w_state w1 = w_state w
    ∧ noncesKept (rememberNonce (headerGet req "X-Mayoiga-Nonce") w) w'
    ∧ admitNode (Nodes (w_state w)) now (setIdentityKey key (dq_Node input)) = inr n
    ∧ stored n key now w1 x w'.

Lemma updateNode_spec req w :
  wp (updateNode req) (λ r w', stepsTo (nodeAuthority w req) actor w w' ∧
    match r with inl e => 400 ≤ rs_Status e | inr x => updated w req x w' end) w.
Proof.
  unfold updateNode, nodeAuthority, signatureAccepted. fold (requestNode req).
  destruct (readBody req) as [body|] eqn:Hbody; [|by wp_go; destruct (Authorized _ !! _)]. cbv zeta. wp_op. wp_op.
  destruct (Authorized (w_state w) !! requestNode req) as [[key]|] eqn:Hauth; [|by wp_go]. simpl.
  destruct (run (verifySignatureLocked req body key) w) as [ok w1] eqn:Hver.
  pose proof (verifySignature_cases _ _ _ _ _ _ Hver) as Hw1.
  wp_op. apply (wp_of_run _ _ _ _ _ Hver). destruct ok; simpl; [|wp_go; split; [|done]; destruct Hw1 as [->| ->]; [done|frame_step]].
  set (a := SignedBy _ _). destruct Hw1 as ((sent & Hsigned & Hwindow) & Hlive & ->). clear Hver.
  set (w1 := rememberNonce _ w).
  assert (stepsTo a actor w w1) as S1 by by apply stepsTo_remember.
  wp_op. wp_op. wp_op. wp_op. set (w2 := afterAllow _ _ _ _).
  assert (stepsTo a actor w1 w2) as S12 by frame_step.
  assert (stepsTo a actor w w2) as S2 by (by etrans).
  wp_op; [by wp_go|]. destruct (unmarshalDiscoveryRequest body) as [input|] eqn:Hin; [|by wp_go].
  wp_op; [by wp_go|]. cbv zeta. wp_op. wp_op. wp_op; [by wp_go|].
  wp_op. wp_op. wp_op. wp_op. bool_simpl.
  set (w3 := tickClock w2). change (w_state w3) with (w_state w).
  assert (stepsTo a actor w w3) as S3 by (etrans; [exact S2|]; frame_step).
  destruct (admitNode _ _ _) as [m|n] eqn:Hadm; [by wp_go|].
  destruct (admitNode_same _ _ _ _ Hadm) as (Hid & Hname & _ & _ & Hnet & _). simpl in Hid, Hnet.
  assert (dn_ID n = requestNode req) as Hreq by congruence.
  eapply wp_mono; [apply (storeNode_spec actor n key (requestSource req))|].
  - replace (wNetwork w3) with (dn_VirtualNetwork (dq_Node input)) by assumption. rewrite Hid.
    by apply (admitNode_ok _ _ (setIdentityKey key (dq_Node input)) n Hadm).
  - by rewrite Hreq.
  - apply readAt_tick.
  - intros r w' [S HS]. split; [etrans; [exact S3|]; unfold a; rewrite <- Hreq; exact S|].
    destruct r as [e|x]; [done|]. exists body, key, input, n, (clock (w_clock w2)), w3. split_and!; try done.
    + split_and!; [done|done|done|by exists sent].
    + etrans; [apply S12|]. trans w3; [by apply noncesKept_same; [|simpl; lia]|apply S].
Qed.

Lemma registerNode_spec req w :
  wp (registerNode req) (λ r w', stepsTo (nodeAuthority w req) actor w w' ∧
    (rs_Status r = 200 → ∃ n nodes revision, updated w req (n, nodes, revision) w'
       ∧ r = writeJSON 200 (JDiscovery (mkDiscoveryResponse revision true nodes)))) w.
Proof.
  unfold registerNode. wp_op. eapply wp_mono; [apply updateNode_spec|]. intros [r|[[n nodes] rev]] w' [S H];
    wp_go; (split; [done|]); [intros Hr; simpl in *; lia|]. intros _. by exists n, nodes, rev.
Qed.

Lemma heartbeatNode_spec req w :
  wp (heartbeatNode req) (λ r w', stepsTo (nodeAuthority w req) actor w w' ∧
    (rs_Status r = 200 → ∃ n nodes revision now w1, updated w req (n, nodes, revision) w1 ∧ w_state w' = w_state w1
       ∧ r = writeJSON 200 (JHeartbeat (mkHeartbeatResponse revision now)))) w.
Proof.
  unfold heartbeatNode. wp_op. eapply wp_mono; [apply updateNode_spec|]. intros [r|[[n nodes] rev]] w' [S H];
    wp_go; (split; [try done|]); [intros Hr; simpl in *; lia|etrans; [exact S|]; frame_step|].
  intros _. by eexists n, nodes, rev, _, w'.
Qed.

(** ** Discovery *)

(** The list a peer is given: every other node of its virtual network, with
    LAN addresses only inside its own segment. *)
Definition discovered (node : discoveredNode) (self : string) (nodes : gmap string discoveredNode)
    (l : list discoveredNode) : Prop :=
  ∃ order, order ≡ₚ map_to_list nodes ∧ l = sortSlice byName (peersOf node self order.*2).

Lemma discoverLocked_spec nodeID after w :
  wp (discoverLocked nodeID after) (λ r w', stepsTo Anyone actor w w' ∧
    (rs_Status r = 200 → ∃ node, Nodes (w_state w') !! nodeID = Some node ∧
      if after =? Revision (w_state w')
      then r = writeJSON 200 (JDiscovery (mkDiscoveryResponse after false []))
      else ∃ l, discovered node nodeID (Nodes (w_state w')) l
             ∧ r = writeJSON 200 (JDiscovery (mkDiscoveryResponse (Revision (w_state w')) true l)))) w.
Proof.
  unfold discoverLocked. wp_op. wp_op. wp_op. apply (wp_cleanup Anyone actor); [apply readAt_tick|]. intros b w1 [S _ _ _ _ _ _ _].
  assert (stepsTo Anyone actor w w1) as S' by (etrans; [|exact S]; frame_step).
  wp_op. wp_op. destruct (Nodes (w_state w1) !! nodeID) as [node|] eqn:Hn; [|by wp_go]. cbv zeta.
  wp_op.
  - wp_go. split; [done|]. intros _. exists node. split; [done|]. rewrite Heqb0. bool_simpl. by subst.
  - wp_op. apply wp_rangeMap. intros order Horder. wp_go. split; [etrans; [exact S'|]; frame_step|].
    intros _. exists node. split; [done|]. change (w_state (tickOrder w1)) with (w_state w1). rewrite Heqb0.
    eexists. split; [by exists order|done].
Qed.

(** The first critical section of every authenticated connection request. *)
Lemma authBody_spec a req w :
  wp (authenticatedConnectionBody req) (λ r w', stepsTo a actor w w' ∧ (w_state w', w_disk w') = (w_state w, w_disk w) ∧
    match r with
    | inl e => 400 ≤ rs_Status e
    | inr (body, node) => node = requestNode req ∧ ∃ key, signedBy w req body key
    end) w.
Proof.
  unfold authenticatedConnectionBody. fold (requestNode req).
  destruct (readBody req) as [body|] eqn:Hbody; [|by wp_go]. cbv zeta. wp_op. wp_op. wp_op.
  destruct (Authorized (w_state w) !! requestNode req) as [[key]|] eqn:Hauth; [|by wp_go]. simpl.
  apply wp_verifySignature. intros ok w1 Hw1.
  assert (stepsTo a actor w w1 ∧ (w_state w1, w_disk w1) = (w_state w, w_disk w)) as [S1 E1].
  { destruct ok; [destruct Hw1 as (_ & Hlive & ->); split; [by apply stepsTo_remember|done]|].
    destruct Hw1 as [->| ->]; (split; [frame_step|done]). }
  wp_op; [by wp_go|]. destruct ok; [|done]. destruct Hw1 as ((sent & Hsigned & Hwindow) & Hlive & _).
  wp_op. wp_op. wp_op. wp_op. set (w2 := afterAllow _ _ _ _).
  assert (stepsTo a actor w w2) as S2 by (etrans; [exact S1|]; frame_step).
  wp_op; wp_go; split_and!; try done. exists key. split_and!; [done|done|done|by exists sent].
Qed.

(** Its nonce stays remembered. *)
Lemma authBody_remembers req w :
  wp (authenticatedConnectionBody req) (λ r w', ∀ x, r = inr x →
    noncesKept (rememberNonce (headerGet req "X-Mayoiga-Nonce") w) w') w.
Proof.
  unfold authenticatedConnectionBody. fold (requestNode req).
  destruct (readBody req) as [body|] eqn:Hbody; [|by wp_go]. cbv zeta. wp_op. wp_op. wp_op.
  destruct (Authorized (w_state w) !! requestNode req) as [[key]|] eqn:Hauth; [|by wp_go]. simpl.
  apply wp_verifySignature. intros ok w1 Hw1. destruct ok; [destruct Hw1 as (_ & _ & ->)|by wp_go].
  wp_go; try done; intros _ _; (apply noncesKept_same; [done|simpl; lia]).
Qed.

Lemma discoverNodes_spec req w :
  wp (discoverNodes req) (λ r w', stepsTo Anyone actor w w' ∧
    (rs_Status r = 200 → ∃ body key input node,
      signedBy w req body key ∧ unmarshalDiscoverySync body = Some input
      ∧ Nodes (w_state w') !! requestNode req = Some node
      ∧ if sy_AfterRevision input =? Revision (w_state w')
        then r = writeJSON 200 (JDiscovery (mkDiscoveryResponse (sy_AfterRevision input) false []))
        else ∃ l, discovered node (requestNode req) (Nodes (w_state w')) l
               ∧ r = writeJSON 200 (JDiscovery (mkDiscoveryResponse (Revision (w_state w')) true l)))) w.
Proof.
  unfold discoverNodes. wp_op. eapply wp_mono; [apply (authBody_spec Anyone)|].
  intros [e|[body node]] w1 (S1 & E1 & H).
  { wp_go. split; [done|]. lia. }
  destruct H as [-> [key Hs]].
  destruct (unmarshalDiscoverySync body) as [input|] eqn:Hin; [|by wp_go].
  eapply wp_mono; [apply discoverLocked_spec|]. intros r w' [S2 H]. split; [by etrans|].
  intros Hr. destruct (H Hr) as (node & Hn & Hrest). by exists body, key, input, node.
Qed.
End Requests.

(** ** What peers are told *)

Lemma nodeForDiscovery_same requester candidate :
  let m := nodeForDiscovery requester candidate in
  dn_ID m = dn_ID candidate ∧ dn_Name m = dn_Name candidate ∧ dn_Segment m = dn_Segment candidate
  ∧ dn_VirtualNetwork m = dn_VirtualNetwork candidate
  ∧ (dn_Segment m ≠ dn_Segment requester → ∀ s, s ∈ dn_Services m → ps_DirectCandidates s = []).
Proof.
  unfold nodeForDiscovery. destruct (dn_Segment requester =? dn_Segment candidate)%string eqn:E; bool_simpl; simpl.
  - split_and!; try done; try congruence.
  - split_and!; try done. intros _ s (s0 & -> & _)%list_elem_of_fmap. done.
Qed.

Lemma discovered_spec node self nodes l :
  discovered node self nodes l →
  (∀ m, m ∈ l → dn_VirtualNetwork m = dn_VirtualNetwork node ∧ dn_ID m ≠ self
     ∧ (dn_Segment m ≠ dn_Segment node → ∀ s, s ∈ dn_Services m → ps_DirectCandidates s = []))
  ∧ StronglySorted (notAfter byName) l
  ∧ (∀ id n, nodes !! id = Some n → dn_VirtualNetwork n = dn_VirtualNetwork node → dn_ID n ≠ self →
       nodeForDiscovery node n ∈ l).
Proof.
  intros (order & Horder & ->). split; [|split].
  - intros m. rewrite sortSlice_elem. unfold peersOf. intros (c & -> & [Hc _]%list_elem_of_filter)%list_elem_of_fmap.
    bool_simpl. destruct (nodeForDiscovery_same node c) as (-> & _ & _ & -> & Hseg). by split_and!.
  - apply (sortSlice_text_sorted dn_Name).
  - intros id n Hn Hnet Hid. rewrite sortSlice_elem. unfold peersOf. apply list_elem_of_fmap_2, list_elem_of_filter. split.
    + apply andb_true_iff. split; [by apply String.eqb_eq|]. by apply negb_true_iff, String.eqb_neq.
    + apply list_elem_of_fmap. exists (id, n). split; [done|]. rewrite Horder. by apply elem_of_map_to_list.
Qed.
