(* ===== verification/Connections.v ===== *)
(** * Connection requests

    The handlers of connection_server.go that return at once: create,
    acknowledge, decide, cancel.  Each is shown to refine ConnSpec on behalf
    of the node that signed the request, and its successful answer is
    characterised. *)
From S2P Require Import Prelude GoStd GoNet GoCrypto Types Runtime Validate Wire Registry RateLimit.
From S2P Require Import Auth ConnSpec EnrollSpec World Steps Cleanup Enrollment Directory.

Local Open Scope Z_scope.

Section Handlers.
Context {env : Env}.

(** [if r.cleanupLocked(now) { if err := r.persistLocked(); … }]: whether
    the handler goes on. *)
Definition cleanupAndPersist (now : Z) : M bool :=
  changed ← cleanupLocked now;
  if (changed : bool) then persistLocked else mret true.

Definition returnRelayOk (nodes : gmap string discoveredNode) (source : discoveredNode) (relayID : string) : bool :=
  (relayID =? "")%string
  || match nodes !! relayID with
     | Some relay =>
         negb (negb (dn_Role relay =? "relay")%string || negb (bool_decide (is_Some (dn_Relay relay)))
               || negb (dn_VirtualNetwork relay =? dn_VirtualNetwork source)%string
               || negb (dn_Segment relay =? dn_Segment source)%string)
     | None => false
     end.

(** [createConnection] after authentication and input checks. *)
Definition createLocked (input : createConnectionInput) (sourceNode : string) : M response :=
  now ← timeNow;
  ok ← cleanupAndPersist now;
  if negb ok then mret (httpError "failed to persist connection state" 500) else
  st ← getState;
  let idempotencyIndex := idemKey sourceNode (ci_IdempotencyKey input) in
  let existingID := default "" (ConnectionIdempotency st !! idempotencyIndex) in
  if negb (existingID =? "")%string then
    match Connections st !! existingID with
    | None => mret (httpError "idempotency index is inconsistent" 500)
    | Some existing => mret (writeJSON 200 (JConnection existing))
    end
  else
    match Nodes st !! sourceNode, Nodes st !! ci_TargetNode input with
    | Some source, Some target =>
        if negb (dn_VirtualNetwork source =? dn_VirtualNetwork target)%string
        then mret (httpError "source or target node is not active" 404)
        else if negb (returnRelayOk (Nodes st) source (ci_ReturnRelay input))
        then mret (httpError "return relay is not active in the source segment" 400)
        else if negb (existsb (λ service, (ps_Name service =? ci_Service input)%string) (dn_Services target))
        then mret (httpError "target service is not published" 404)
        else
          r ← getReg;
          if connectionMax r <=? Z.of_nat (size (Connections st))
          then mret (httpError "connection request capacity reached" 503)
          else
            order ← rangeMap (Connections st);
            let targetPending := Z.of_nat (length
              (filter (λ e, livePending (ci_TargetNode input) e.2 = true) order)) in
            if maxConnectionsPerTarget <=? targetPending
            then mret (httpError "target connection queue is full" 429)
            else
              token ← randomToken;
              match token with
              | None => mret (httpError "secure random source unavailable" 500)
              | Some id =>
                  modState (setCursors (λ m, <[ci_TargetNode input := nextCursor m (ci_TargetNode input)]> m)) ;;
                  st ← getState;
                  let connection := mkConnectionRequest id (ci_IdempotencyKey input) sourceNode
                    (ci_TargetNode input) (ci_Service input) (ci_ReturnRelay input) "queued" 100 ""
                    (cursorOf (ConnectionCursors st) (ci_TargetNode input)) now now
                    (Time.Add now (connectionTTL r)) Time.zero in
                  modState (setConnections (insert id connection)) ;;
                  modState (setIdempotency (insert idempotencyIndex id)) ;;
                  appendAuditLocked (event "connection_requested" sourceNode "" id "") ;;
                  ok ← persistLocked;
                  notifyTargetLocked (ci_TargetNode input) ;;
                  notifyRequestLocked id ;;
                  if negb ok then mret (httpError "failed to persist connection request" 500) else
                  mret (writeJSON 201 (JConnection connection))
              end
    | _, _ => mret (httpError "source or target node is not active" 404)
    end.

Definition validCreate (input : createConnectionInput) : bool :=
  negb ((ci_TargetNode input =? "")%string || (ci_Service input =? "")%string
        || (ci_IdempotencyKey input =? "")%string || (128 <? Z.of_nat (String.length (ci_IdempotencyKey input)))).

Definition createConnection (req : request) : M response :=
  auth ← authenticatedConnectionBody req;
  match auth with
  | inl r => mret r
  | inr (body, sourceNode) =>
      match unmarshalCreateConnection body with
      | Some input =>
          if validCreate input then createLocked input sourceNode
          else mret (httpError "idempotency_key, target_node, and service are required" 400)
      | None => mret (httpError "idempotency_key, target_node, and service are required" 400)
      end
  end.

Definition ackLocked (nodeID : string) (cursor : Z) : M response :=
  st ← getState;
  if cursorOf (ConnectionCursors st) nodeID <? cursor
  then mret (httpError "cursor is ahead of server state" 409)
  else
    ok ← (if cursorOf (ConnectionAcks st) nodeID <? cursor
          then modState (setAcks (insert nodeID cursor)) ;; persistLocked
          else mret true);
    if negb ok then mret (httpError "failed to persist inbox acknowledgement" 500) else
    st ← getState;
    mret (writeJSON 200 (JAcknowledged (cursorOf (ConnectionAcks st) nodeID))).

Definition ackConnectionInbox (req : request) : M response :=
  auth ← authenticatedConnectionBody req;
  match auth with
  | inl r => mret r
  | inr (body, nodeID) =>
      match unmarshalInboxAck body with
      | None => mret (httpError "invalid JSON" 400)
      | Some input => ackLocked nodeID (ia_Cursor input)
      end
  end.

Definition decideLocked (nodeID requestID reason st0 : string) (statusCode : Z) : M response :=
  now ← timeNow;
  ok ← cleanupAndPersist now;
  if negb ok then mret (httpError "failed to persist connection state" 500) else
  st ← getState;
  match Connections st !! requestID with
  | None => mret (httpError "connection request not found" 404)
  | Some connection =>
      if negb (cr_TargetNode connection =? nodeID)%string
      then mret (httpError "only the target node can decide this request" 403)
      else if (cr_State connection =? st0)%string then mret (writeJSON 200 (JConnection connection))
      else if connectionTerminal (cr_State connection)
              || (negb (cr_State connection =? "queued")%string && negb (cr_State connection =? "offered")%string)
      then mret (httpError "connection request cannot be decided in its current state" 409)
      else
        let connection := moveConnection connection st0 statusCode reason (cr_Cursor connection) now Time.zero in
        modState (setConnections (insert (cr_ID connection) connection)) ;;
        appendAuditLocked (event ("connection_" +:+ st0) nodeID "" (cr_ID connection) "") ;;
        ok ← persistLocked;
        notifyRequestLocked (cr_ID connection) ;;
        if negb ok then mret (httpError "failed to persist connection decision" 500) else
        mret (writeJSON 200 (JConnection connection))
  end.

(** The checks [decideConnection] and [cancelConnection] share. *)
Definition withRequestID (req : request) (next : string → string → string → M response) : M response :=
  auth ← authenticatedConnectionBody req;
  match auth with
  | inl r => mret r
  | inr (body, nodeID) =>
      match unmarshalConnectionID body with
      | None => mret (httpError "request_id is required" 400)
      | Some input =>
          if (ii_RequestID input =? "")%string then mret (httpError "request_id is required" 400)
          else
            let reason := Strings.TrimSpace (ii_Reason input) in
            if maxConnectionReason <? Z.of_nat (String.length reason)
            then mret (httpError "connection reason is too long" 400)
            else next nodeID (ii_RequestID input) reason
      end
  end.

Definition decideConnection (req : request) (st0 : string) (statusCode : Z) : M response :=
  withRequestID req (λ nodeID requestID reason, decideLocked nodeID requestID reason st0 statusCode).

Definition cancelLocked (nodeID requestID reason : string) : M response :=
  now ← timeNow;
  ok ← cleanupAndPersist now;
  if negb ok then mret (httpError "failed to persist connection state" 500) else
  st ← getState;
  match Connections st !! requestID with
  | None => mret (httpError "connection request not found" 404)
  | Some connection =>
      if negb (cr_SourceNode connection =? nodeID)%string
      then mret (httpError "only the source node can cancel this request" 403)
      else if (cr_State connection =? "canceled")%string then mret (writeJSON 200 (JConnection connection))
      else if connectionTerminal (cr_State connection)
      then mret (httpError "connection request is already terminal" 409)
      else
        let connection := moveConnection connection "canceled" 499 reason (cr_Cursor connection) now Time.zero in
        modState (setConnections (insert (cr_ID connection) connection)) ;;
        appendAuditLocked (event "connection_canceled" nodeID "" (cr_ID connection) "") ;;
        ok ← persistLocked;
        notifyTargetLocked (cr_TargetNode connection) ;;
        notifyRequestLocked (cr_ID connection) ;;
        if negb ok then mret (httpError "failed to persist cancellation" 500) else
        mret (writeJSON 200 (JConnection connection))
  end.

Definition cancelConnection (req : request) : M response := withRequestID req cancelLocked.

Definition boundedConnectionWait (r : registry) (seconds : Z) : Z :=
  if seconds <=? 0 then connectionWait r
  else
    let wait := wrapInt64 (seconds * Time.second) in
    if connectionWait r <? wait then connectionWait r else wait.
End Handlers.

(** ** Refinement *)

Lemma bytes_cons c s : Strings.bytes (String c s) = c :: Strings.bytes s.
Proof. done. Qed.

Section Refinement.
Context {env : Env} {unique : UniqueTokens env}.

(** The state file holds the state in memory. *)
Definition synced (w : world) : Prop := w_disk w = Some (w_state w).

Lemma token_nonempty w t : t ∈ usedTokens w → t ≠ "".
Proof.
  rewrite elem_of_usedTokens. intros (i & b & _ & Hb & ->). apply randRead_length in Hb.
  destruct b as [|c b]; [done|]. done.
Qed.

Lemma token_fresh w b : randRead (w_rand w) 32 = Some b → Hex.EncodeToString b ∉ usedTokens w.
Proof.
  intros Hb (i & b' & Hi & Hb' & Heq)%elem_of_usedTokens.
  apply hex_inj in Heq as ->. specialize (unique _ _ _ Hb Hb'). lia.
Qed.

Lemma usedTokens_draw w b :
  randRead (w_rand w) 32 = Some b → usedTokens (tickRand w) = {[Hex.EncodeToString b]} ∪ usedTokens w.
Proof.
  intros Hb. apply set_eq. intros t. rewrite elem_of_union, elem_of_singleton, !elem_of_usedTokens. simpl. split.
  - intros (i & b' & Hi & Hb' & ->). destruct (decide (i = w_rand w)) as [->|]; [left; congruence|].
    right. exists i, b'. split_and!; [lia|done|done].
  - intros [->|(i & b' & Hi & Hb' & ->)]; [exists (w_rand w), b|exists i, b']; split_and!; try done; lia.
Qed.

Lemma cleanupAndPersist_spec a actor now w :
  readAt now w →
  wp (cleanupAndPersist now) (λ ok w', stepsTo a actor w w' ∧ (synced w → ok = true → synced w')
    ∧ ∃ b w1, cleaned a actor now w b w1 ∧ w_reg w' = w_reg w1 ∧ w_rand w' = w_rand w1) w.
Proof.
  intros Hnow. unfold cleanupAndPersist. wp_op. apply (wp_cleanup a actor); [done|]. intros b w1 C. wp_op.
  - apply wp_persist. intros ok. split_and!; [etrans; [apply C|apply stepsTo_persist]| |by eexists _, _].
    by intros _ ->.
  - wp_go. split_and!; [apply C| |by eexists _, _]. intros Hs _. unfold synced.
    rewrite (cl_unchanged _ _ _ _ _ _ C) by done.
    pose proof (cl_untouched _ _ _ _ _ _ C) as Hu. unfold untouched in Hu. simplify_eq. congruence.
Qed.
End Refinement.

(** ** Create *)

Section Create.
Context {env : Env} {unique : UniqueTokens env} (a : authority) (source : string).

Definition newConnection (id : string) (input : createConnectionInput) (now ttl : Z) (cursors : gmap string Z)
    : connectionRequest :=
  mkConnectionRequest id (ci_IdempotencyKey input) source (ci_TargetNode input) (ci_Service input)
    (ci_ReturnRelay input) "queued" 100 "" (nextCursor cursors (ci_TargetNode input)) now now
    (Time.Add now ttl) Time.zero.

Definition insertConnection (c : connectionRequest) (s : coordinatorState) : coordinatorState :=
  setIdempotency (insert (connKey c) (cr_ID c)) (setConnections (insert (cr_ID c) c)
    (setCursors (λ m, <[cr_TargetNode c := cr_Cursor c]> m) s)).

(** The checks of a new request, as the code makes them. *)
Record admissible (w : world) (input : createConnectionInput) : Prop := {
  ad_nodes : ∃ src target, Nodes (w_state w) !! source = Some src
    ∧ Nodes (w_state w) !! ci_TargetNode input = Some target
    ∧ dn_VirtualNetwork src = dn_VirtualNetwork target
    ∧ returnRelayOk (Nodes (w_state w)) src (ci_ReturnRelay input) = true
    ∧ ∃ service, service ∈ dn_Services target ∧ ps_Name service = ci_Service input;
  ad_capacity : Z.of_nat (size (Connections (w_state w))) < connectionMax (w_reg w);
  ad_queue : Z.of_nat (countMap (livePending (ci_TargetNode input)) (Connections (w_state w)))
    < maxConnectionsPerTarget;
  ad_new : ConnectionIdempotency (w_state w) !! idemKey source (ci_IdempotencyKey input) = None;
}.

Lemma stepsTo_create input now b w :
  worldInv w → admissible w input → randRead (w_rand w) 32 = Some b →
  let c := newConnection (Hex.EncodeToString b) input now (connectionTTL (w_reg w)) (ConnectionCursors (w_state w)) in
  stepsTo a source w (afterNotifyRequest (cr_ID c) (afterNotifyTarget (ci_TargetNode input)
    (setReg (setState (insertConnection c)) (tickRand w)))).
Proof.
  intros Hinv [_ Hcap Hqueue Hnew] Hb c.
  apply (stepsTo_moved a source (cr_ID c) (Some (ci_TargetNode input))); try done; [| |simpl; lia].
  - split; [intros j Hj; by apply lookup_insert_ne|]. intros d t. simpl. rewrite lookup_insert_eq. intros [= <-].
    unfold deliverable. simpl. intros Hd. bool_simpl. by subst.
  - apply rtc_once. unfold connOf.
    change (usedTokens (setReg (setState (insertConnection c)) (tickRand w))) with (usedTokens (tickRand w)).
    rewrite (usedTokens_draw w b) by done.
    apply (cs_create (wLimit w) source (Connections (w_state w)) _ (ConnectionCursors (w_state w)) _ (usedTokens w) c); try done.
    by apply token_fresh.
Qed.

Lemma admissible_reg w w' input : w_reg w' = w_reg w → admissible w' input → admissible w input.
Proof. intros E [H1 H2 H3 H4]. unfold w_state in *. rewrite E in *. by split. Qed.

(** What a 201 says of a request read in [w]: when the cleanup of that moment
    has passed over the state, the new request meets every check; it is
    queued, under the random identifier and the next cursor of its target, it
    is the only request that is added, it is indexed, and it is on disk. *)
Definition createdBy (w : world) (input : createConnectionInput) (r : response) (w' : world) : Prop :=
  let now := clock (w_clock w) in
  ∃ changed wc b, cleaned a source now (tickClock w) changed wc
    ∧ admissible wc input
    ∧ randRead (w_rand w) 32 = Some b
    ∧ let c := newConnection (Hex.EncodeToString b) input now (connectionTTL (w_reg w)) (ConnectionCursors (w_state wc)) in
      r = writeJSON 201 (JConnection c)
      ∧ Connections (w_state w') = <[cr_ID c := c]> (Connections (w_state wc))
      ∧ ConnectionIdempotency (w_state w') = <[connKey c := cr_ID c]> (ConnectionIdempotency (w_state wc))
      ∧ ConnectionCursors (w_state w') = <[ci_TargetNode input := cr_Cursor c]> (ConnectionCursors (w_state wc))
      ∧ synced w'.

(** What a 200 says: the same source had used the key before, and nothing is
    created. *)
Definition existingBy (w : world) (input : createConnectionInput) (r : response) (w' : world) : Prop :=
  ∃ changed wc c, cleaned a source (clock (w_clock w)) (tickClock w) changed wc
    ∧ w_state w' = w_state wc
    ∧ r = writeJSON 200 (JConnection c)
    ∧ ConnectionIdempotency (w_state wc) !! idemKey source (ci_IdempotencyKey input) = Some (cr_ID c)
    ∧ Connections (w_state wc) !! cr_ID c = Some c
    ∧ connKey c = idemKey source (ci_IdempotencyKey input).

Lemma createLocked_spec input w :
  worldInv w →
  wp (createLocked input source) (λ r w', stepsTo a source w w'
    ∧ (rs_Status r = 201 → createdBy w input r w') ∧ (rs_Status r = 200 → existingBy w input r w')) w.
Proof.
  intros Hinv. unfold createLocked. wp_op. wp_op. wp_op.
  eapply wp_mono; [apply (cleanupAndPersist_spec a source), readAt_tick|].
  intros ok w1 (S1 & _ & changed & wc & Hclean & Ereg & Erand).
  assert (stepsTo a source w w1) as S by (etrans; [|exact S1]; frame_step). clear S1.
  assert (worldInv w1) as Hinv1 by (by apply S).
  wp_op; [by wp_go|]. wp_op. wp_op. cbv zeta. wp_op.
  { destruct (Connections _ !! _) as [c|] eqn:Hc; wp_go; split_and!; try done. intros _.
    destruct (ConnectionIdempotency (w_state w1) !! _) as [id|] eqn:Hid; simpl in Hc; [|done].
    destruct (ci_idem _ _ (si_conn _ _ _ _ (wi_memory _ Hinv1)) _ _ Hid) as (d & Hd & Hkey). simpl in Hd.
    assert (d = c) as -> by congruence.
    pose proof (ci_keyed _ _ (si_conn _ _ _ _ (wi_memory _ Hinv1)) _ _ Hc) as Hcid. simpl in Hcid.
    exists changed, wc, c. rewrite Hcid. unfold w_state in *. rewrite <- Ereg. by split_and!. }
  assert (ConnectionIdempotency (w_state w1) !! idemKey source (ci_IdempotencyKey input) = None) as Hnew.
  { destruct (ConnectionIdempotency (w_state w1) !! _) as [id|] eqn:Hid; [|done]. exfalso. simpl in *. bool_simpl. subst.
    destruct (ci_idem _ _ (si_conn _ _ _ _ (wi_memory _ Hinv1)) _ _ Hid) as (d & Hd & _).
    eapply token_nonempty; [|reflexivity]. apply (ci_used _ _ (si_conn _ _ _ _ (wi_memory _ Hinv1))). by eexists. }
  destruct (Nodes (w_state w1) !! source) as [src|] eqn:Hsrc; [|by wp_go].
  destruct (Nodes (w_state w1) !! ci_TargetNode input) as [target|] eqn:Htgt; [|by wp_go].
  do 3 (wp_op; [by wp_go|]). wp_op. wp_op. wp_op; [by wp_go|].
  wp_op. apply wp_rangeMap. intros order Horder. cbv zeta.
  rewrite (countMap_perm _ _ _ Horder).
  set (w2 := tickOrder w1). assert (stepsTo a source w w2) as S2 by (etrans; [exact S|]; frame_step).
  wp_op; [by wp_go|]. bool_simpl.
  assert (admissible w2 input) as Had.
  { split; [|done|done|done]. exists src, target. split_and!; try done.
    match goal with H : existsb _ _ = true |- _ => apply existsb_exists in H as (sv & Hin & Hsv) end.
    bool_simpl. exists sv. by rewrite list_elem_of_In. }
  unfold randomToken. wp_op. wp_op. wp_op. wp_op.
  destruct (randRead (w_rand w2) 32) as [b|] eqn:Hb; simpl; [|wp_go; split_and!; try done; etrans; [exact S2|]; frame_step].
  assert (worldInv w2) as Hinv2 by (by apply S2).
  pose proof (stepsTo_create input (clock (w_clock w)) b w2 Hinv2 Had Hb) as Hstep. cbv zeta in Hstep.
  set (c := newConnection _ input _ _ _) in Hstep.
  assert (∀ e ok', stepsTo a source w2 (afterNotifyRequest (cr_ID c) (afterNotifyTarget (ci_TargetNode input)
    (afterPersist ok' (afterAudit e (setReg (setState (insertConnection c)) (tickRand w2))))))) as Hall.
  { intros e ok'. etrans; [exact Hstep|]. etrans; [apply (stepsTo_audit a source e)|].
    apply (stepsTo_persist a source ok'). }
  wp_op. wp_op. wp_op. wp_op. cbv zeta.
  assert (cursorOf (ConnectionCursors (w_state (setReg (setState (setCursors (λ m : gmap string Z,
    <[ci_TargetNode input:=nextCursor m (ci_TargetNode input)]> m))) (tickRand w2)))) (ci_TargetNode input)
    = cr_Cursor c) as -> by (simpl; by rewrite cursorOf_insert, decide_True).
  wp_go; (split; [etrans; [exact S2|apply Hall]|]); [done|]. split; [intros _|done]. destruct ok0; [|done].
  assert (w_rand w1 = w_rand w ∧ connectionTTL (w_reg wc) = connectionTTL (w_reg w)) as [Er Ettl].
  { pose proof (cl_untouched _ _ _ _ _ _ Hclean) as Hu. pose proof (to_config _ _ _ _ (cl_steps _ _ _ _ _ _ Hclean)) as Hcf.
    unfold untouched in Hu. unfold config in Hcf. split; [rewrite Erand|]; simpl in *; congruence. }
  exists changed, wc, b. split; [exact Hclean|]. split; [by apply (admissible_reg _ w2)|].
  rewrite <- Er. split; [done|]. rewrite <- Ettl. unfold w_state. rewrite <- Ereg. by split_and!.
Qed.

Lemma createConnection_spec req w :
  worldInv w → source = requestNode req →
  wp (createConnection req) (λ r w', stepsTo a source w w'
    ∧ (rs_Status r = 201 ∨ rs_Status r = 200 → ∃ body key input, signedBy w req body key
         ∧ unmarshalCreateConnection body = Some input ∧ validCreate input = true
         ∧ let wa := (run (authenticatedConnectionBody req) w).2 in w_state wa = w_state w
         ∧ (rs_Status r = 201 → createdBy wa input r w') ∧ (rs_Status r = 200 → existingBy wa input r w'))) w.
Proof.
  intros Hinv Hreq. unfold createConnection. wp_op.
  eapply wp_mono; [apply wp_self, (authBody_spec source a)|]. intros [e|[body node]] w1 [(S1 & E1 & HA) Hw1].
  { wp_go. split; [done|]. intros []; lia. }
  destruct HA as [-> [key Hs]]. rewrite <- Hreq.
  destruct (unmarshalCreateConnection body) as [input|] eqn:Hin; [|wp_go; split; [done|by intros []]].
  wp_op; [|wp_go; split; [done|by intros []]].
  pose proof (to_inv _ _ _ _ S1 Hinv) as Hinv1.
  eapply wp_mono; [exact (createLocked_spec input w1 Hinv1)|]. intros r w' (S2 & H1 & H2).
  split; [by etrans|]. intros _. exists body, key, input. cbv zeta. rewrite <- Hw1. injection E1 as E1 _. by split_and!.
Qed.
End Create.

(** ** Acknowledge, decide, cancel *)

Section Decide.
Context {env : Env} {unique : UniqueTokens env} (a : authority) (node : string).
Let steps := stepsTo a node.

Lemma stepsTo_ack cursor w :
  cursorOf (ConnectionAcks (w_state w)) node < cursor ≤ cursorOf (ConnectionCursors (w_state w)) node →
  steps w (setReg (setState (setAcks (insert node cursor))) w).
Proof.
  intros Hc. apply stepsTo_intro; try done; [|by intros []|by intros []|by left|by apply signalStep_same|by apply noncesKept_same|by apply originates_same].
  apply rtc_once. by apply (cs_ack (wLimit w) node (Connections (w_state w))).
Qed.

(** The acknowledged cursor is the larger of the two, and never ahead of
    what the coordinator handed out. *)
Lemma ackLocked_spec cursor w :
  wp (ackLocked node cursor) (λ r w', steps w w' ∧
    (rs_Status r = 200 → cursor ≤ cursorOf (ConnectionCursors (w_state w)) node
       ∧ cursorOf (ConnectionAcks (w_state w')) node = Z.max cursor (cursorOf (ConnectionAcks (w_state w)) node)
       ∧ r = writeJSON 200 (JAcknowledged (cursorOf (ConnectionAcks (w_state w')) node))
       ∧ (synced w → synced w'))) w.
Proof.
  unfold ackLocked. wp_op. wp_op. wp_op; [by wp_go|]. bool_simpl. wp_op. wp_op.
  - bool_simpl. wp_op. wp_op. apply wp_persist. intros ok.
    assert (steps w (afterPersist ok (setReg (setState (setAcks (insert node cursor))) w))) as S.
    { etrans; [by apply (stepsTo_ack cursor)|apply stepsTo_persist]. }
    wp_go; (split; [done|]); [done|]. intros _. destruct ok; [|done]. split_and!; [done| |done|done].
    simpl. rewrite cursorOf_insert, decide_True by done. lia.
  - bool_simpl. wp_go; [done|]. split; [done|]. intros _. split_and!; try done. lia.
Qed.

(** A decided or canceled request, as the answer and the state show it. *)
Definition settledBy (id st : string) (party : connectionRequest → string) (r : response) (w w' : world) : Prop :=
  ∃ c, r = writeJSON 200 (JConnection c) ∧ Connections (w_state w') !! id = Some c
    ∧ cr_State c = st ∧ party c = node ∧ (synced w → synced w').

Lemma stepsTo_settle c id wake st code reason now w :
  worldInv w → Connections (w_state w) !! id = Some c →
  (cr_State c = "queued" ∨ cr_State c = "offered")
    ∧ ((st = "accepted" ∧ code = 200) ∨ (st = "rejected" ∧ code = 403)) ∧ cr_TargetNode c = node
  ∨ connectionTerminal (cr_State c) = false ∧ st = "canceled" ∧ code = 499 ∧ cr_SourceNode c = node →
  steps w (afterNotifyRequest (cr_ID c) (wakeTarget wake
    (setReg (setState (setConnections (insert (cr_ID c) (moveConnection c st code reason (cr_Cursor c) now Time.zero)))) w))).
Proof.
  intros Hinv Hc Hcase.
  assert (cr_ID c = id) as ->.
  { by apply (ci_keyed _ _ (si_conn _ _ _ _ (wi_memory _ Hinv)) _ _ Hc). }
  assert (st ≠ "queued") as Hst0 by (destruct Hcase as [(_ & [[-> _]|[-> _]] & _)|(_ & -> & _)]; done).
  apply stepsTo_moved; try done.
  { split; [intros j Hj; by apply lookup_insert_ne|]. intros d t. simpl. rewrite lookup_insert_eq. intros [= <-].
    unfold deliverable. simpl. intros Hd. bool_simpl. congruence. }
  apply rtc_once. destruct Hcase as [(Hst & Hd & Ht)|(Hterm & -> & -> & Hs)].
  - by apply (cs_decide (wLimit w) node (Connections (w_state w))).
  - by apply (cs_cancel (wLimit w) node (Connections (w_state w))).
Qed.

Lemma decideLocked_spec id reason st code w :
  worldInv w → (st = "accepted" ∧ code = 200) ∨ (st = "rejected" ∧ code = 403) →
  wp (decideLocked node id reason st code) (λ r w', steps w w' ∧
    (rs_Status r = 200 → settledBy id st cr_TargetNode r w w')) w.
Proof.
  intros Hinv Hst. unfold decideLocked. wp_op. wp_op. wp_op.
  eapply wp_mono; [apply (cleanupAndPersist_spec a node), readAt_tick|]. intros ok w1 (S1 & Y1 & _).
  assert (steps w w1) as S by (etrans; [|exact S1]; frame_step). clear S1.
  assert (worldInv w1) as Hinv1 by (by apply S).
  wp_op; [by wp_go|]. wp_op. wp_op.
  destruct (Connections (w_state w1) !! id) as [c|] eqn:Hc; [|by wp_go].
  wp_op; [by wp_go|]. bool_simpl. wp_op.
  { wp_go. split; [done|]. intros _. bool_simpl. exists c. split_and!; try done. destruct ok; [|done]. intros. by apply Y1. }
  wp_op; [by wp_go|]. cbv zeta.
  assert (cr_State c = "queued" ∨ cr_State c = "offered") as Hlive.
  { bool_simpl. destruct (cr_State c =? "queued")%string eqn:E1; bool_simpl; [by left|].
    destruct (cr_State c =? "offered")%string eqn:E2; bool_simpl; [by right|]. done. }
  assert (∀ now e ok, steps w (afterNotifyRequest (cr_ID c) (afterPersist ok (afterAudit e (setReg (setState
    (setConnections (insert (cr_ID c) (moveConnection c st code reason (cr_Cursor c) now Time.zero)))) w1))))) as Hall.
  { intros now e ok'. etrans; [exact S|].
    etrans; [apply (stepsTo_settle c id None st code reason now w1); [done|done|by left]|].
    etrans; [apply (stepsTo_audit a node e)|apply (stepsTo_persist a node ok')]. }
  wp_go; (split; [apply Hall|]); [done|]. intros _. destruct ok0; [|done].
  eexists. split; [done|]. split_and!; try done. simpl.
  rewrite (ci_keyed _ _ (si_conn _ _ _ _ (wi_memory _ Hinv1)) _ _ Hc). apply lookup_insert_eq.
Qed.

Lemma cancelLocked_spec id reason w :
  worldInv w →
  wp (cancelLocked node id reason) (λ r w', steps w w' ∧
    (rs_Status r = 200 → settledBy id "canceled" cr_SourceNode r w w')) w.
Proof.
  intros Hinv. unfold cancelLocked. wp_op. wp_op. wp_op.
  eapply wp_mono; [apply (cleanupAndPersist_spec a node), readAt_tick|]. intros ok w1 (S1 & Y1 & _).
  assert (steps w w1) as S by (etrans; [|exact S1]; frame_step). clear S1.
  assert (worldInv w1) as Hinv1 by (by apply S).
  wp_op; [by wp_go|]. wp_op. wp_op.
  destruct (Connections (w_state w1) !! id) as [c|] eqn:Hc; [|by wp_go].
  wp_op; [by wp_go|]. bool_simpl. wp_op.
  { wp_go. split; [done|]. intros _. bool_simpl. exists c. split_and!; try done. destruct ok; [|done]. intros. by apply Y1. }
  wp_op; [by wp_go|]. cbv zeta.
  assert (∀ now e ok, steps w (afterNotifyRequest (cr_ID c) (afterNotifyTarget (cr_TargetNode c) (afterPersist ok (afterAudit e (setReg (setState
    (setConnections (insert (cr_ID c) (moveConnection c "canceled" 499 reason (cr_Cursor c) now Time.zero)))) w1)))))) as Hall.
  { intros now e ok'. etrans; [exact S|].
    etrans; [apply (stepsTo_settle c id (Some (cr_TargetNode c)) "canceled" 499 reason now w1); [done|done|by right]|].
    etrans; [apply (stepsTo_audit a node e)|apply (stepsTo_persist a node ok')]. }
  wp_go; (split; [apply Hall|]); [done|]. intros _. destruct ok0; [|done].
  eexists. split; [done|]. split_and!; try done. simpl.
  rewrite (ci_keyed _ _ (si_conn _ _ _ _ (wi_memory _ Hinv1)) _ _ Hc). apply lookup_insert_eq.
Qed.

(** The shared prefix of decide and cancel. *)
Lemma withRequestID_spec req next P w :
  worldInv w → node = requestNode req →
  (∀ id reason w1, worldInv w1 → (synced w → synced w1) →
     wp (next node id reason) (λ r w', steps w1 w' ∧ (rs_Status r = 200 → P id r w')) w1) →
  wp (withRequestID req next) (λ r w', steps w w' ∧
    (rs_Status r = 200 → ∃ body key input, signedBy w req body key
       ∧ unmarshalConnectionID body = Some input ∧ P (ii_RequestID input) r w')) w.
Proof.
  intros Hinv Hreq Hnext. unfold withRequestID. wp_op.
  eapply wp_mono; [apply (authBody_spec node a)|]. intros [e|[body n]] w1 (S1 & E1 & HA).
  { wp_go. split; [done|]. intros; lia. }
  destruct HA as [-> [key Hs]]. rewrite <- Hreq.
  destruct (unmarshalConnectionID body) as [input|] eqn:Hin; [|by wp_go].
  wp_op; [by wp_go|]. cbv zeta. wp_op; [by wp_go|].
  pose proof (to_inv _ _ _ _ S1 Hinv) as Hinv1.
  eapply wp_mono; [apply (Hnext (ii_RequestID input) _ w1 Hinv1); injection E1 as E1 D1; unfold synced; congruence|]. intros r w' [S2 H2].
  split; [etrans; [exact S1|exact S2]|]. intros Hr. exists body, key, input. auto.
Qed.

Lemma decideConnection_spec req st code w :
  worldInv w → node = requestNode req → (st = "accepted" ∧ code = 200) ∨ (st = "rejected" ∧ code = 403) →
  wp (decideConnection req st code) (λ r w', steps w w' ∧
    (rs_Status r = 200 → ∃ body key input, signedBy w req body key
       ∧ unmarshalConnectionID body = Some input ∧ settledBy (ii_RequestID input) st cr_TargetNode r w w')) w.
Proof.
  intros Hinv Hreq Hst. apply (withRequestID_spec _ _ (λ id r w', settledBy id st cr_TargetNode r w w')); [done|done|].
  intros id reason w1 Hinv1 Hs. eapply wp_mono; [by apply decideLocked_spec|]. intros r w' [S H]. split; [done|].
  intros Hr. destruct (H Hr) as (c & ? & ? & ? & ? & ?). exists c. split_and!; auto.
Qed.

Lemma cancelConnection_spec req w :
  worldInv w → node = requestNode req →
  wp (cancelConnection req) (λ r w', steps w w' ∧
    (rs_Status r = 200 → ∃ body key input, signedBy w req body key
       ∧ unmarshalConnectionID body = Some input ∧ settledBy (ii_RequestID input) "canceled" cr_SourceNode r w w')) w.
Proof.
  intros Hinv Hreq. apply (withRequestID_spec _ _ (λ id r w', settledBy id "canceled" cr_SourceNode r w w')); [done|done|].
  intros id reason w1 Hinv1 Hs. eapply wp_mono; [by apply cancelLocked_spec|]. intros r w' [S H]. split; [done|].
  intros Hr. destruct (H Hr) as (c & ? & ? & ? & ? & ?). exists c. split_and!; auto.
Qed.

Lemma ackConnectionInbox_spec req w :
  node = requestNode req →
  wp (ackConnectionInbox req) (λ r w', steps w w' ∧
    (rs_Status r = 200 → ∃ body key input, signedBy w req body key ∧ unmarshalInboxAck body = Some input
       ∧ ia_Cursor input ≤ cursorOf (ConnectionAcks (w_state w')) node
       ∧ ia_Cursor input ≤ cursorOf (ConnectionCursors (w_state w)) node)) w.
Proof.
  intros Hreq. unfold ackConnectionInbox. wp_op.
  eapply wp_mono; [apply (authBody_spec node a)|]. intros [e|[body n]] w1 (S1 & E1 & HA).
  { wp_go. split; [done|]. intros; lia. }
  destruct HA as [-> [key Hs]]. rewrite <- Hreq.
  destruct (unmarshalInboxAck body) as [input|] eqn:Hin; [|by wp_go].
  eapply wp_mono; [apply ackLocked_spec|]. intros r w' [S2 H2].
  split; [etrans; [exact S1|exact S2]|]. intros Hr. destruct (H2 Hr) as (Hle & -> & _).
  injection E1 as E1 _. rewrite E1 in Hle. exists body, key, input. split_and!; [done|done|lia|done].
Qed.
End Decide.
