(* ===== verification/LongPoll.v ===== *)
(** * Long polls

    [waitConnectionInbox] and [connectionStatus] (connection_server.go).  A
    long poll is a loop of critical sections with a [select] in between; one
    round of it is a computation that answers or says which signal to wait
    for.  System puts the rounds of many handlers together. *)
From S2P Require Import Prelude GoStd GoNet GoCrypto Types Runtime Validate Wire Registry RateLimit.
From S2P Require Import Auth ConnSpec EnrollSpec World Steps Cleanup Enrollment Directory Connections.

Local Open Scope Z_scope.

(** What one round of the loop comes to: an answer, or a wait for a signal
    with the answer to give at the deadline. *)
Inductive roundResult :=
  | Answer (r : response)
  | Wait (signal : chan) (onDeadline : response).

Definition offer (now lease : Z) (c : connectionRequest) : connectionRequest :=
  moveConnection c "offered" 102 (cr_Reason c) (cr_Cursor c) now (Time.Add now lease).

Section Rounds.
Context {env : Env}.

(** ** The inbox *)

Definition registerWaiter (nodeID : string) : M bool :=
  r ← getReg;
  if default false (inboxWaiters r !! nodeID) then mret false
  else modReg (setInboxWaiters (insert nodeID true)) ;; mret true.

Definition unregisterWaiter (nodeID : string) : M unit := modReg (setInboxWaiters (delete nodeID)).

Definition pendingEventsLocked (nodeID : string) (after limit : Z) : M (list connectionRequest) :=
  st ← getState;
  order ← rangeMap (Connections st);
  let events := filter (λ c, (cr_TargetNode c =? nodeID)%string && (cr_State c =? "queued")%string
                             && (after <? cr_Cursor c) = true) order.*2 in
  let events := sortSlice (λ x y, cr_Cursor x <? cr_Cursor y) events in
  mret (if limit <? Z.of_nat (length events) then take (Z.to_nat limit) events else events).

Definition inboxLimit (maxEvents : Z) : Z :=
  if (maxEvents <=? 0) || (maxInboxEvents <? maxEvents) then maxInboxEvents else maxEvents.

Definition inboxRound (nodeID : string) (after limit : Z) : M roundResult :=
  now ← timeNow;
  changed ← cleanupLocked now;
  events ← pendingEventsLocked nodeID after limit;
  r ← getReg;
  match last events with
  | Some final =>
      let offered := offer now (connectionLease r) <$> events in
      forEach offered (λ connection,
        modState (setConnections (insert (cr_ID connection) connection)) ;;
        notifyRequestLocked (cr_ID connection)) ;;
      ok ← persistLocked;
      if negb ok then mret (Answer (httpError "failed to persist inbox delivery" 500)) else
      mret (Answer (writeJSON 200 (JInbox (mkInboxWaitResponse (cr_Cursor final) offered))))
  | None =>
      signal ← targetSignalLocked nodeID;
      st ← getState;
      let cursor := cursorOf (ConnectionCursors st) nodeID in
      ok ← (if (changed : bool) then persistLocked else mret true);
      if negb ok then mret (Answer (httpError "failed to persist connection state" 500)) else
      mret (Wait signal (writeJSON 200 (JInbox (mkInboxWaitResponse cursor []))))
  end.

(** ** The status of a request *)

Definition statusRound (nodeID requestID knownState : string) (wait : bool) : M roundResult :=
  now ← timeNow;
  changed ← cleanupLocked now;
  st ← getState;
  match Connections st !! requestID with
  | None => mret (Answer (httpError "connection request not found" 404))
  | Some connection =>
      if negb (cr_SourceNode connection =? nodeID)%string && negb (cr_TargetNode connection =? nodeID)%string
      then mret (Answer (httpError "connection request is not visible to this node" 403))
      else if negb wait || negb (cr_State connection =? knownState)%string || connectionTerminal (cr_State connection)
      then
        ok ← (if (changed : bool) then persistLocked else mret true);
        if negb ok then mret (Answer (httpError "failed to persist connection state" 500)) else
        mret (Answer (writeJSON 200 (JConnection connection)))
      else
        signal ← requestSignalLocked (cr_ID connection);
        ok ← (if (changed : bool) then persistLocked else mret true);
        if negb ok then mret (Answer (httpError "failed to persist connection state" 500)) else
        mret (Wait signal (writeJSON 200 (JConnection connection)))
  end.
End Rounds.

(** ** What a round does *)

(** Values listed with their own keys have distinct keys. *)
Lemma NoDup_values_filter {V} (key : V → string) (l : list (string * V)) (P : V → Prop) `{∀ x, Decision (P x)} :
  (∀ e, e ∈ l → key e.2 = e.1) → NoDup l.*1 → NoDup (key <$> filter P l.*2).
Proof.
  induction l as [|[id c] l IH]; intros He Hnd; [constructor|]. simpl in *.
  apply NoDup_cons in Hnd as [Hid Hnd].
  assert (NoDup (key <$> filter P l.*2)) as Hrest by (apply IH; [intros e Hein; apply He; by right|done]).
  rewrite filter_cons. case_decide; [|done]. simpl. apply NoDup_cons. split; [|done].
  intros (d & Hd & [_ Hdin]%list_elem_of_filter)%list_elem_of_fmap. apply Hid.
  apply list_elem_of_fmap in Hdin as ([j e] & -> & Hje). apply list_elem_of_fmap. exists (j, e). split; [|done]. simpl.
  pose proof (He (id, c) ltac:(left)) as H1. pose proof (He (j, e) ltac:(by right)) as H2. simpl in *. congruence.
Qed.

Lemma StronglySorted_app_le {A} (R : A → A → Prop) l k :
  StronglySorted R (l ++ k) → ∀ x y, x ∈ l → y ∈ k → R x y.
Proof.
  induction l as [|z l IH]; simpl; [set_solver|]. intros [Hs Hall]%StronglySorted_inv x y [->|Hx]%elem_of_cons Hy.
  - rewrite Forall_forall in Hall. apply Hall. set_solver.
  - by apply IH.
Qed.

Lemma StronglySorted_take {A} (R : A → A → Prop) n l : StronglySorted R l → StronglySorted R (take n l).
Proof.
  intros H. revert n. induction H as [|x l _ IH Hall]; intros [|n]; simpl; try constructor; [done|].
  by apply Forall_take.
Qed.

Section InboxRound.
Context {env : Env} {unique : UniqueTokens env} (a : authority) (node : string).
Let steps := stepsTo a node.

(** The requests waiting for [node] after [cursor]. *)
Definition waiting (after : Z) (c : connectionRequest) : bool :=
  deliverable node c && (after <? cr_Cursor c).

(** A batch of events: the oldest waiting requests, in cursor order, at most
    [limit] of them, with nothing skipped. *)
Record batch (after limit : Z) (conns : gmap string connectionRequest) (events : list connectionRequest) : Prop := {
  ba_some : ∀ c, c ∈ events → conns !! cr_ID c = Some c ∧ waiting after c = true;
  ba_sorted : StronglySorted (λ x y, cr_Cursor x ≤ cr_Cursor y) events;
  ba_distinct : NoDup (cr_ID <$> events);
  ba_count : Z.of_nat (length events) ≤ limit;
  ba_complete : ∀ id c, conns !! id = Some c → waiting after c = true →
    c ∈ events ∨ (Z.of_nat (length events) = limit ∧ ∀ e, e ∈ events → cr_Cursor e ≤ cr_Cursor c);
}.

Lemma pendingEvents_spec after limit w :
  worldInv w → 0 ≤ limit →
  wp (pendingEventsLocked node after limit) (λ events w', w' = tickOrder w ∧
    batch after limit (Connections (w_state w)) events) w.
Proof.
  intros Hinv Hlim. unfold pendingEventsLocked. wp_op. wp_op. wp_op. apply wp_rangeMap. intros order Horder.
  cbv zeta. wp_op. split; [done|].
  set (sorted := sortSlice _ _).
  assert (∀ c, c ∈ sorted ↔ Connections (w_state w) !! cr_ID c = Some c ∧ waiting after c = true) as Hin.
  { intros c. unfold sorted. rewrite sortSlice_elem, list_elem_of_filter, list_elem_of_fmap. unfold waiting, deliverable.
    split.
    - intros [Hw ([id d] & -> & Hd)]. rewrite Horder in Hd. apply elem_of_map_to_list in Hd. simpl in *.
      by rewrite (ci_keyed _ _ (si_conn _ _ _ _ (wi_memory _ Hinv)) _ _ Hd).
    - intros [Hc Hw]. split; [done|]. exists (cr_ID c, c). split; [done|]. rewrite Horder.
      by apply elem_of_map_to_list. }
  assert (StronglySorted (λ x y, cr_Cursor x ≤ cr_Cursor y) sorted) as Hsort by apply sortSlice_key_sorted.
  assert (NoDup (cr_ID <$> sorted)) as Hnd.
  { unfold sorted. rewrite sortSlice_perm. apply NoDup_values_filter.
    - intros [id c] He. rewrite Horder in He. apply elem_of_map_to_list in He. simpl.
      by apply (ci_keyed _ _ (si_conn _ _ _ _ (wi_memory _ Hinv)) _ _ He).
    - rewrite Horder. apply NoDup_fst_map_to_list. }
  destruct (limit <? Z.of_nat (length sorted)) eqn:Hl; bool_simpl.
  - pose proof (take_drop (Z.to_nat limit) sorted) as Htd. split.
    + intros c Hc. apply Hin. eapply elem_of_take in Hc as (i & Hi & _). by eapply list_elem_of_lookup_2.
    + by apply StronglySorted_take.
    + rewrite <- Htd, fmap_app in Hnd. by apply NoDup_app in Hnd as [].
    + rewrite length_take. lia.
    + intros id c Hc Hw. assert (c ∈ sorted) as Hcs.
      { apply Hin. by rewrite (ci_keyed _ _ (si_conn _ _ _ _ (wi_memory _ Hinv)) _ _ Hc). }
      rewrite <- Htd in Hcs. apply elem_of_app in Hcs as [Hcs|Hcs]; [by left|right]. split; [rewrite length_take; lia|].
      intros e He. rewrite <- Htd in Hsort. by apply (StronglySorted_app_le _ _ _ Hsort).
  - split; [intros c; apply Hin|done|done|done|]. intros id c Hc Hw. left. apply Hin.
    by rewrite (ci_keyed _ _ (si_conn _ _ _ _ (wi_memory _ Hinv)) _ _ Hc).
Qed.

(** Delivering a batch. *)
Lemma stepsTo_offer c d w :
  Connections (w_state w) !! cr_ID c = Some c → deliverable node c = true →
  (∃ now lease, d = offer now lease c) →
  steps w (afterNotifyRequest (cr_ID c) (setReg (setState (setConnections (insert (cr_ID c) d))) w)).
Proof.
  intros Hc Hd (now & lease & ->). unfold deliverable in Hd. bool_simpl.
  apply (stepsTo_moved a node (cr_ID c) None w (setReg (setState (setConnections (insert (cr_ID c) (offer now lease c)))) w));
    try done.
  - split; [intros j Hj; by apply lookup_insert_ne|]. intros e t. simpl. rewrite lookup_insert_eq. intros [= <-].
    unfold deliverable. simpl. intros Ht. by bool_simpl.
  - apply rtc_once. by apply (cs_offer (wLimit w) node (Connections (w_state w))).
Qed.

Lemma wp_offerLoop now lease events w Q :
  (∀ c, c ∈ events → Connections (w_state w) !! cr_ID c = Some c ∧ deliverable node c = true) →
  NoDup (cr_ID <$> events) →
  (∀ w', steps w w' → w_disk w' = w_disk w →
     (∀ c, c ∈ events → Connections (w_state w') !! cr_ID c = Some (offer now lease c)) →
     (∀ j, j ∉ cr_ID <$> events → Connections (w_state w') !! j = Connections (w_state w) !! j) → Q tt w') →
  wp (forEach (offer now lease <$> events) (λ connection,
        modState (setConnections (insert (cr_ID connection) connection)) ;;
        notifyRequestLocked (cr_ID connection))) Q w.
Proof.
  revert w. induction events as [|c events IH]; intros w Hin Hnd HQ; simpl.
  { wp_op. apply HQ; [done|done|set_solver|done]. }
  simpl in Hnd. apply NoDup_cons in Hnd as [Hc Hnd].
  destruct (Hin c) as [Hlook Hd]; [left|]. wp_op. wp_op. wp_op. wp_op.
  set (w1 := afterNotifyRequest _ _).
  assert (steps w w1) as S1 by (apply (stepsTo_offer c (offer now lease c)); [done|done|eauto]).
  assert (∀ j, j ≠ cr_ID c → Connections (w_state w1) !! j = Connections (w_state w) !! j) as Hother.
  { intros j Hj. by apply lookup_insert_ne. }
  assert (∀ d, d ∈ events → cr_ID d ≠ cr_ID c) as Hne.
  { intros d Hdin Heq. apply Hc. rewrite <- Heq. by apply list_elem_of_fmap_2. }
  apply IH; [|done|].
  - intros d Hdin. rewrite Hother by auto. apply Hin. by right.
  - intros w' S2 Hdisk Hall Hrest. apply HQ; [by etrans|done| |].
    + intros d [->|Hdin]%elem_of_cons; [|by apply Hall]. rewrite Hrest by done. apply lookup_insert_eq.
    + intros j Hj. simpl in Hj. apply not_elem_of_cons in Hj as [Hj1 Hj2]. rewrite Hrest by done. by apply Hother.
Qed.

(** A round of the inbox poll. *)
Definition inboxOutcome (after limit : Z) (x : roundResult) (w' : world) : Prop :=
  match x with
  | Answer r => rs_Status r = 200 →
      ∃ w1 now events c, steps w1 w' ∧ batch after limit (Connections (w_state w1)) events
        ∧ last events = Some c
        ∧ r = writeJSON 200 (JInbox (mkInboxWaitResponse (cr_Cursor c) (offer now (connectionLease (w_reg w1)) <$> events)))
        ∧ (∀ e, e ∈ events → Connections (w_state w') !! cr_ID e = Some (offer now (connectionLease (w_reg w1)) e))
        ∧ synced w'
  | Wait signal r =>
      connectionSignals (w_reg w') !! node = Some signal
      ∧ (∀ id c, Connections (w_state w') !! id = Some c → waiting after c = false)
      ∧ r = writeJSON 200 (JInbox (mkInboxWaitResponse (cursorOf (ConnectionCursors (w_state w')) node) []))
  end.

Lemma inboxRound_spec after limit w :
  worldInv w → 0 < limit →
  wp (inboxRound node after limit) (λ x w', steps w w' ∧ inboxOutcome after limit x w') w.
Proof.
  intros Hinv Hlim. unfold inboxRound. wp_op. wp_op. wp_op. apply (wp_cleanup a node); [apply readAt_tick|]. intros b w1 [S1 _ _ _ _ _ _ _].
  assert (steps w w1) as S by (etrans; [|exact S1]; frame_step). clear S1.
  assert (worldInv w1) as Hinv1 by (by apply S).
  wp_op. eapply wp_mono; [apply pendingEvents_spec; [done|lia]|]. intros events w2 [-> Hb].
  set (w2 := tickOrder w1). assert (steps w w2) as S2 by (etrans; [exact S|]; frame_step).
  wp_op. wp_op. destruct (last events) as [c|] eqn:Hlast.
  - cbv zeta. wp_op. apply wp_offerLoop.
    + intros d Hd. destruct (ba_some _ _ _ _ Hb d Hd) as [H1 H2]. split; [done|].
      unfold waiting in H2. by bool_simpl.
    + apply (ba_distinct _ _ _ _ Hb).
    + intros w3 S3 _ Hoff _.
      assert (∀ ok, steps w (afterPersist ok w3)) as Hall.
      { intros ok. etrans; [exact S2|]. etrans; [exact S3|apply (stepsTo_persist a node)]. }
      wp_go; (split; [apply Hall|]); [done|]. intros _. destruct ok; [|done].
      exists w2, (clock (w_clock w)), events, c. split_and!; try done.
      etrans; [exact S3|apply (stepsTo_persist a node)].
  - assert (events = []) as -> by (by apply last_None).
    assert (∀ id c, Connections (w_state w2) !! id = Some c → waiting after c = false) as Hnone.
    { intros id c Hc. destruct (waiting after c) eqn:Hw; [|done].
      destruct (ba_complete _ _ _ _ Hb id c Hc Hw) as [Hx|[Hx _]]; [by apply not_elem_of_nil in Hx|simpl in Hx; lia]. }
    wp_op. wp_op. wp_op. wp_op. cbv zeta. set (w3 := afterTargetSignal node w2).
    assert (steps w w3) as S3 by (etrans; [exact S2|apply (stepsTo_targetSignal a node)]).
    assert (connectionSignals (w_reg w3) !! node = Some (signalOf (connectionSignals (w_reg w2)) node (w_chans w2)))
      as Hsig by (apply lookup_insert_eq).
    destruct b; wp_go; (split; [|try done]);
      try (etrans; [exact S3|apply (stepsTo_persist a node)]); done.
Qed.
End InboxRound.

Section StatusRound.
Context {env : Env} {unique : UniqueTokens env} (a : authority) (node : string).
Let steps := stepsTo a node.

Definition party (c : connectionRequest) : Prop := cr_SourceNode c = node ∨ cr_TargetNode c = node.

(** A round of the status poll: the request as it is, to one of its two
    parties; or a wait while it is still in the known state. *)
Definition statusOutcome (id known : string) (wait : bool) (x : roundResult) (w' : world) : Prop :=
  match x with
  | Answer r => rs_Status r = 200 →
      ∃ c, r = writeJSON 200 (JConnection c) ∧ Connections (w_state w') !! id = Some c ∧ party c
        ∧ (wait = false ∨ cr_State c ≠ known ∨ connectionTerminal (cr_State c) = true)
  | Wait signal r =>
      requestSignals (w_reg w') !! id = Some signal
      ∧ ∃ c, Connections (w_state w') !! id = Some c ∧ party c ∧ cr_State c = known
        ∧ connectionTerminal (cr_State c) = false ∧ r = writeJSON 200 (JConnection c)
  end.

Lemma statusRound_spec id known wait w :
  worldInv w →
  wp (statusRound node id known wait) (λ x w', steps w w' ∧ statusOutcome id known wait x w') w.
Proof.
  intros Hinv. unfold statusRound. wp_op. wp_op. wp_op. apply (wp_cleanup a node); [apply readAt_tick|]. intros b w1 [S1 _ _ _ _ _ _ _].
  assert (steps w w1) as S by (etrans; [|exact S1]; frame_step). clear S1.
  assert (worldInv w1) as Hinv1 by (by apply S).
  assert (∀ ok, steps w (afterPersist ok w1)) as Sp by (intros ok; etrans; [exact S|apply (stepsTo_persist a node)]).
  wp_op. wp_op. destruct (Connections (w_state w1) !! id) as [c|] eqn:Hc; [|by wp_go].
  wp_op; [by wp_go|].
  assert (party c) as Hparty.
  { apply andb_false_iff in Heqb0 as [Hx|Hx]; bool_simpl; [by left|by right]. }
  destruct (negb wait || _ || _) eqn:Hready.
  - assert (wait = false ∨ cr_State c ≠ known ∨ connectionTerminal (cr_State c) = true) as Hw.
    { apply orb_true_iff in Hready as [[Hx|Hx]%orb_true_iff|Hx]; bool_simpl; auto. }
    destruct b; wp_go; (split; [done|]); intros Hr; try done; by exists c.
  - bool_simpl. wp_op. wp_op.
    assert (cr_ID c = id) as -> by (apply (ci_keyed _ _ (si_conn _ _ _ _ (wi_memory _ Hinv1)) _ _ Hc)).
    set (w2 := afterRequestSignal id w1).
    assert (steps w w2) as S2 by (etrans; [exact S|by apply (stepsTo_requestSignal a node id c)]).
    assert (requestSignals (w_reg w2) !! id = Some (signalOf (requestSignals (w_reg w1)) id (w_chans w1)))
      as Hsig by (apply lookup_insert_eq).
    assert (∀ ok, steps w (afterPersist ok w2)) as S3 by (intros ok; etrans; [exact S2|apply (stepsTo_persist a node)]).
    destruct b; wp_go; (split; [done|]); try done; simpl; (split; [exact Hsig|]); by exists c.
Qed.
End StatusRound.
