(* ===== verification/Http.v ===== *)
(** * Dispatch

    [servePublic], [serveConnections] and [serveAdminRequest]
    (coordinator_http.go, connection_server.go): which handler a request
    reaches and what it must pass before.  A long poll is only routed here;
    its rounds are LongPoll's. *)
From S2P Require Import Prelude GoStd GoNet GoCrypto Types Runtime Validate Wire Registry RateLimit.
From S2P Require Import Auth ConnSpec EnrollSpec World Steps Cleanup Enrollment Directory Connections LongPoll.

Local Open Scope Z_scope.

(** Where a request goes: nowhere, to a handler that returns, or to one of
    the long polls ([wait] is the third argument of [connectionStatus]). *)
Inductive route {env : Env} :=
  | NoRoute
  | Handler (m : M response)
  | InboxPoll
  | StatusPoll (wait : bool).

Section Dispatch.
Context {env : Env}.

Definition isPost (req : request) (path : string) : bool :=
  (rq_Method req =? "POST")%string && (rq_Path req =? path)%string.
Definition isGet (req : request) (path : string) : bool :=
  (rq_Method req =? "GET")%string && (rq_Path req =? path)%string.

Definition serveConnections (req : request) : route :=
  if isPost req "/v1/connections/request" then Handler (createConnection req)
  else if isPost req "/v1/connections/inbox/wait" then InboxPoll
  else if isPost req "/v1/connections/inbox/ack" then Handler (ackConnectionInbox req)
  else if isPost req "/v1/connections/accept" then Handler (decideConnection req "accepted" 200)
  else if isPost req "/v1/connections/reject" then Handler (decideConnection req "rejected" 403)
  else if isPost req "/v1/connections/cancel" then Handler (cancelConnection req)
  else if isPost req "/v1/connections/status" then StatusPoll false
  else if isPost req "/v1/connections/status/wait" then StatusPoll true
  else NoRoute.

(** The key and the limit of the public rate limit. *)
Definition publicLimit (req : request) : string * Z :=
  if (rq_Path req =? "/v1/nodes/register")%string
  then ("unauthenticated-register:" +:+ requestSource req, publicRequestsPerMinute * 5)
  else ("enrollment:" +:+ requestSource req, publicRequestsPerMinute).

Definition publicHandler (req : request) : M response :=
  if isPost req "/v1/enroll/request" then requestEnrollment req
  else if isPost req "/v1/enroll/poll" then pollEnrollment req
  else if isPost req "/v1/nodes/register" then registerNode req
  else if isPost req "/v1/nodes/heartbeat" then heartbeatNode req
  else if isPost req "/v1/nodes/discovery" then discoverNodes req
  else mret notFound.

Definition servePublic (req : request) : route :=
  if Strings.HasPrefix (rq_Path req) "/v1/connections/" then
    match serveConnections req with
    | NoRoute => Handler (mret notFound)
    | r => r
    end
  else Handler (
    let '(key, limit) := publicLimit req in
    ok ← allowRequest key limit;
    if negb ok then mret (httpError "rate limit exceeded" 429) else publicHandler req).

Definition adminHandler (req : request) : M response :=
  if isGet req "/v1/admin/handshakes" then listHandshakes req
  else if isGet req "/v1/admin/audit" then listAudit req
  else if isPost req "/v1/admin/approve" then approveHandshake req
  else if isPost req "/v1/admin/reject" then rejectHandshake req
  else if isPost req "/v1/admin/revoke" then revokeNode req
  else mret notFound.

Definition serveAdminRequest (req : request) : M response :=
  if negb (isLoopbackRequest req) then mret (httpError "admin API is local only" 403) else
  ok ← allowRequest ("admin:" +:+ requestSource req) adminRequestsPerMinute;
  if negb ok then mret (httpError "rate limit exceeded" 429) else adminHandler req.

(** ** The start of a long poll *)

(** What an inbox poll runs with: the node, the cursor, the limit and the
    time until its deadline. *)
Definition inboxStart (req : request) : M (response + string * Z * Z * Z) :=
  auth ← authenticatedConnectionBody req;
  match auth with
  | inl r => mret (inl r)
  | inr (body, nodeID) =>
      match unmarshalInboxWait body with
      | None => mret (inl (httpError "invalid JSON" 400))
      | Some input =>
          r ← getReg;
          let wait := boundedConnectionWait r (iw_WaitSeconds input) in
          let maxEvents := inboxLimit (iw_MaxEvents input) in
          registered ← registerWaiter nodeID;
          if negb registered
          then mret (inl (httpError "an inbox wait is already active for this node" 409))
          else mret (inr (nodeID, iw_AfterCursor input, maxEvents, wait))
      end
  end.

(** The same for a status poll: the node, the request, the known state. *)
Definition statusStart (req : request) : M (response + string * string * string * Z) :=
  auth ← authenticatedConnectionBody req;
  match auth with
  | inl r => mret (inl r)
  | inr (body, nodeID) =>
      match unmarshalStatusWait body with
      | None => mret (inl (httpError "request_id is required" 400))
      | Some input =>
          if (sw_RequestID input =? "")%string then mret (inl (httpError "request_id is required" 400))
          else
            r ← getReg;
            mret (inr (nodeID, sw_RequestID input, sw_KnownState input,
                       boundedConnectionWait r (sw_WaitSeconds input)))
      end
  end.

(** ** Serving a request to the public listener *)

(** [serves req w0 w w']: the request [req], which arrived in [w0], takes the
    coordinator from [w] to [w'].  A handler that returns does so at once; a
    long poll does it when it starts, and then in every round, and for an inbox
    when it leaves, with whatever happened in between. *)
Inductive serves (req : request) (w0 : world) : world → world → Prop :=
  | sv_handler m :
      servePublic req = Handler m → serves req w0 w0 (run m w0).2
  | sv_inbox_start :
      servePublic req = InboxPoll → serves req w0 w0 (run (inboxStart req) w0).2
  | sv_inbox_round node after limit wait w1 w :
      servePublic req = InboxPoll → run (inboxStart req) w0 = (inr (node, after, limit, wait), w1) →
      serves req w0 w (run (inboxRound node after limit) w).2
  | sv_inbox_leave node after limit wait w1 w :
      servePublic req = InboxPoll → run (inboxStart req) w0 = (inr (node, after, limit, wait), w1) →
      serves req w0 w (run (unregisterWaiter node) w).2
  | sv_status_start wait :
      servePublic req = StatusPoll wait → serves req w0 w0 (run (statusStart req) w0).2
  | sv_status_round wait node id known deadline w1 w :
      servePublic req = StatusPoll wait → run (statusStart req) w0 = (inr (node, id, known, deadline), w1) →
      serves req w0 w (run (statusRound node id known wait) w).2.
End Dispatch.

(** ** What the dispatch guarantees *)

Section Serve.
Context {env : Env} {unique : UniqueTokens env}.

(** On whose authority a request to the public listener acts: a registration
    or a heartbeat, whose signature is checked once the rate limit has been,
    on that of the node that signed it. *)
Definition publicAuthority (w : world) (req : request) : authority :=
  if Strings.HasPrefix (rq_Path req) "/v1/connections/" then Anyone
  else if isPost req "/v1/nodes/register" || isPost req "/v1/nodes/heartbeat"
  then nodeAuthority (run (allowRequest (publicLimit req).1 (publicLimit req).2) w).2 req
  else Anyone.

Lemma publicAuthority_public w req : publicAuthority w req ≠ Administrator.
Proof. unfold publicAuthority. repeat step_case; try done. apply nodeAuthority_public. Qed.

Lemma publicHandler_steps actor req w :
  wp (publicHandler req) (λ _ w', stepsTo
    (if isPost req "/v1/nodes/register" || isPost req "/v1/nodes/heartbeat" then nodeAuthority w req else Anyone)
    actor w w') w.
Proof.
  unfold publicHandler, isPost. destruct (rq_Method req =? "POST")%string; simpl; [|by wp_go].
  destruct (rq_Path req =? "/v1/enroll/request")%string eqn:E1; [|destruct (rq_Path req =? "/v1/enroll/poll")%string eqn:E2;
    [|destruct (rq_Path req =? "/v1/nodes/register")%string eqn:E3; [|destruct (rq_Path req =? "/v1/nodes/heartbeat")%string eqn:E4;
    [|destruct (rq_Path req =? "/v1/nodes/discovery")%string eqn:E5; [|by wp_go]]]]]; simpl.
  - bool_simpl. rewrite E1. eapply wp_mono; [apply requestEnrollment_spec|by intros ? ? []].
  - bool_simpl. rewrite E2. eapply wp_mono; [apply pollEnrollment_spec|by intros ? ? []].
  - eapply wp_mono; [apply registerNode_spec|by intros ? ? []].
  - eapply wp_mono; [apply heartbeatNode_spec|by intros ? ? []].
  - eapply wp_mono; [apply discoverNodes_spec|by intros ? ? []].
Qed.

(** Every handler of the public listener that returns at once. *)
Lemma servePublic_steps req m w :
  worldInv w → servePublic req = Handler m →
  wp m (λ _ w', stepsTo (publicAuthority w req) (requestNode req) w w') w.
Proof.
  intros Hinv. unfold servePublic, publicAuthority.
  destruct (Strings.HasPrefix _ _).
  - unfold serveConnections. repeat step_case; intros; simplify_eq; try by wp_go.
    + eapply wp_mono; [by apply (createConnection_spec Anyone (requestNode req))|by intros ? ? []].
    + eapply wp_mono; [by apply (ackConnectionInbox_spec Anyone (requestNode req))|by intros ? ? []].
    + eapply wp_mono; [apply (decideConnection_spec Anyone (requestNode req)); by auto|by intros ? ? []].
    + eapply wp_mono; [apply (decideConnection_spec Anyone (requestNode req)); by auto|by intros ? ? []].
    + eapply wp_mono; [by apply (cancelConnection_spec Anyone (requestNode req))|by intros ? ? []].
  - destruct (publicLimit req) as [key limit]. intros [= <-]. simpl. set (a := if _ || _ then _ else _). wp_op.
    eapply wp_mono; [apply wp_self, (wp_allowRequest a (requestNode req) key limit (λ _ w1, stepsTo a (requestNode req) w w1))|].
    { by intros w1 S1 _ _. }
    intros ok w1 [S1 Hw1]. wp_op; [by wp_go|].
    subst w1. eapply wp_mono; [apply (publicHandler_steps (requestNode req))|]. intros r w' S2.
    etrans; [exact S1|exact S2].
Qed.

(** The admin listener acts on the administrator's authority only for a
    local request with the token. *)
Definition adminRequestAuthority (w : world) (req : request) : authority :=
  if isLoopbackRequest req then adminAuthority w req else Anyone.

(** A refused admin request leaves the state alone. *)
Lemma adminHandler_refused req w :
  adminAuthorized (w_reg w) req = false →
  wp (adminHandler req) (λ r w', 400 ≤ rs_Status r ∧ w' = w) w.
Proof.
  intros Ha. unfold adminHandler, listHandshakes, listAudit, approveHandshake, rejectHandshake, revokeNode.
  repeat (step_case; [wp_op; wp_op; rewrite Ha; simpl; wp_op; simpl; split; [lia|done]|]).
  wp_op. simpl. split; [lia|done].
Qed.

Lemma adminHandler_steps actor req w :
  wp (adminHandler req) (λ _ w', stepsTo (adminAuthority w req) actor w w') w.
Proof.
  unfold adminHandler. repeat step_case.
  - eapply wp_mono; [apply (listHandshakes_spec actor (adminAuthority w req))|by intros ? ? []].
  - eapply wp_mono; [apply listAudit_spec|by intros ? ? [-> _]].
  - eapply wp_mono; [apply approveHandshake_spec|by intros ? ? []].
  - eapply wp_mono; [apply rejectHandshake_spec|by intros ? ? []].
  - eapply wp_mono; [apply revokeNode_spec|by intros ? ? []].
  - by wp_op.
Qed.

Lemma adminAuthorized_config w w' req :
  config w' = config w → adminAuthorized (w_reg w') req = adminAuthorized (w_reg w) req.
Proof. unfold config, adminAuthorized. intros H. by replace (adminToken (w_reg w')) with (adminToken (w_reg w)) by congruence. Qed.

Lemma serveAdminRequest_steps actor req w :
  wp (serveAdminRequest req) (λ r w', stepsTo (adminRequestAuthority w req) actor w w' ∧
    (isLoopbackRequest req = false ∨ adminAuthorized (w_reg w) req = false →
       400 ≤ rs_Status r ∧ w_state w' = w_state w)) w.
Proof.
  unfold serveAdminRequest, adminRequestAuthority. destruct (isLoopbackRequest req); simpl; [|wp_op; simpl; split; [done|split; [lia|done]]].
  wp_op. apply (wp_allowRequest (adminAuthority w req) actor). intros w1 S1 E1 _.
  wp_op; [wp_op; simpl; split; [done|split; [lia|done]]|].
  pose proof (adminAuthorized_config _ _ req (to_config _ _ _ _ S1)) as Ha1.
  assert (adminAuthority w1 req = adminAuthority w req) as Hau by (unfold adminAuthority; by rewrite Ha1).
  destruct (adminAuthorized (w_reg w) req) eqn:Ha.
  - eapply wp_mono; [apply (adminHandler_steps actor)|]. intros r w' S2. rewrite Hau in S2.
    split; [by etrans|]. by intros [|].
  - eapply wp_mono; [by apply adminHandler_refused|]. intros r w' [Hr ->]. split; [done|]. done.
Qed.

(** ** Starting a long poll *)

Lemma statusStart_spec a actor req w :
  wp (statusStart req) (λ _ w', stepsTo a actor w w') w.
Proof.
  unfold statusStart. wp_op. eapply wp_mono; [apply (authBody_spec actor a)|].
  intros [e|[body n]] w1 (S1 & _ & _); [by wp_go|]. destruct (unmarshalStatusWait body); by wp_go.
Qed.

(** An inbox poll starts only when no other one of the node runs, and marks
    that it does. *)
Lemma inboxStart_spec a actor req w :
  wp (inboxStart req) (λ x w', ∃ w1, stepsTo a actor w w1 ∧
    match x with
    | inl _ => w' = w1
    | inr (node, _, limit, _) => node = requestNode req ∧ 0 < limit ≤ maxInboxEvents
        ∧ inboxWaiters (w_reg w1) !! node ≠ Some true
        ∧ w' = setReg (setInboxWaiters (insert node true)) w1
    end) w.
Proof.
  unfold inboxStart. wp_op. eapply wp_mono; [apply (authBody_spec actor a)|].
  intros [e|[body n]] w1 (S1 & _ & HA); [wp_go; by exists w1|]. destruct HA as [-> _].
  destruct (unmarshalInboxWait body) as [input|]; [|wp_go; by exists w1]. wp_op. wp_op. cbv zeta.
  unfold registerWaiter. wp_op. wp_op. wp_op. wp_op; [wp_op; simpl; wp_op; by exists w1|].
  do 3 wp_op. simpl. wp_op. exists w1. split; [done|].
  assert (0 < inboxLimit (iw_MaxEvents input) ≤ maxInboxEvents) as Hlim.
  { unfold inboxLimit, maxInboxEvents. destruct ((_ <=? _) || _) eqn:E; bool_simpl; lia. }
  split_and!; try done; try apply Hlim. intros Hx. by rewrite Hx in *.
Qed.

(** ** Serving, on whose behalf *)

(** The request carries a fresh signature of the node it names. *)
Definition signed (w : world) (req : request) : Prop := ∃ body key, signedBy w req body key.

(** What a handler does that starts with the signature check: nothing on
    behalf of any node, unless the node it names has signed. *)
Lemma wp_authenticated {A} req w (k : response + string * string → M A) :
  (∀ e, ∃ x, k (inl e) = mret x) →
  signed w req ∨ ∀ a actor, stepsTo a actor w (run (auth ← authenticatedConnectionBody req; k auth) w).2.
Proof.
  intros Hk. pose proof (λ a actor, authBody_spec actor a req w) as H. unfold wp in H. unfold run, mbind, M_bind.
  destruct (authenticatedConnectionBody req w) as [[e|[body node]] w1]; simpl in H.
  - right. intros a actor. destruct (Hk e) as [x ->]. exact (proj1 (H a actor)).
  - left. destruct (H Anyone "") as (_ & _ & _ & key & Hs). by exists body, key.
Qed.

Lemma serveConnections_signed req m w :
  serveConnections req = Handler m → signed w req ∨ ∀ a actor, stepsTo a actor w (run m w).2.
Proof.
  unfold serveConnections, createConnection, ackConnectionInbox, decideConnection, cancelConnection, withRequestID.
  repeat step_case; intros; simplify_eq; apply wp_authenticated; intros e; by eexists.
Qed.

(** A request that is no connection request acts for no node in particular. *)
Lemma publicRequest_anyone req m w actor :
  Strings.HasPrefix (rq_Path req) "/v1/connections/" = false → servePublic req = Handler m →
  ∃ a, a ≠ Administrator ∧ stepsTo a actor w (run m w).2.
Proof.
  unfold servePublic. intros ->. destruct (publicLimit req) as [key limit]. intros [= <-].
  eexists (if isPost req "/v1/nodes/register" || isPost req "/v1/nodes/heartbeat"
    then nodeAuthority (run (allowRequest key limit) w).2 req else Anyone).
  set (a := if _ || _ then _ else _). split.
  { unfold a. repeat step_case; try done; apply nodeAuthority_public. }
  change (wp (ok ← allowRequest key limit; if negb ok then mret (httpError "rate limit exceeded" 429) else publicHandler req)
    (λ _ w', stepsTo a actor w w') w). wp_op.
  eapply wp_mono; [apply wp_self, (wp_allowRequest a actor key limit (λ _ w1, stepsTo a actor w w1))|].
  { by intros w1 S1 _ _. }
  intros ok w1 [S1 Hw1]. wp_op; [by wp_go|]. subst w1.
  eapply wp_mono; [apply (publicHandler_steps actor)|]. intros r w' S2. etrans; [exact S1|exact S2].
Qed.

(** A long poll starts only for a node that has signed. *)
Lemma inboxStart_signed req w node after limit wait w' :
  run (inboxStart req) w = (inr (node, after, limit, wait), w') → node = requestNode req ∧ 0 < limit ∧ signed w req.
Proof.
  intros Hrun. destruct (wp_run _ _ _ _ _ Hrun (inboxStart_spec Anyone "" req w)) as (_ & _ & -> & Hlim & _).
  split; [done|]. split; [lia|].
  assert (wp (inboxStart req) (λ x _, ∀ y, x = inr y → signed w req) w) as H.
  { unfold inboxStart. wp_op. eapply wp_mono; [apply (authBody_spec "" Anyone)|].
    intros [e|[body n]] w1 (_ & _ & HA); [by wp_go|]. destruct HA as [_ [key Hs]].
    eapply (wp_mono _ (λ _ _, True)); [done|]. intros x _ _ y _. by exists body, key. }
  by apply (wp_run _ _ _ _ _ Hrun H (requestNode req, after, limit, wait)).
Qed.

Lemma statusStart_signed req w node id known deadline w' :
  run (statusStart req) w = (inr (node, id, known, deadline), w') → node = requestNode req ∧ signed w req.
Proof.
  intros Hrun.
  assert (wp (statusStart req) (λ x _, ∀ n i k d, x = inr (n, i, k, d) → n = requestNode req ∧ signed w req) w) as H.
  { unfold statusStart. wp_op. eapply wp_mono; [apply (authBody_spec "" Anyone)|].
    intros [e|[body n]] w1 (_ & _ & HA); [by wp_go|]. destruct HA as [-> [key Hs]].
    destruct (unmarshalStatusWait body); wp_go; try done; intros * [= <- _ _ _]; (split; [done|by exists body, key]). }
  by apply (wp_run _ _ _ _ _ Hrun H _ _ _ _ eq_refl).
Qed.
End Serve.
