(* ===== verification/System.v ===== *)
(** * The coordinator as a concurrent system

    Every handler is a sequence of critical sections of one mutex.  [section]
    lists them; [sysStep] interleaves them arbitrarily with the rounds of any
    number of long polls, with time-outs, disconnected clients and restarts.
    [sysInv] is what holds in every reachable state. *)
From S2P Require Import Prelude GoStd GoNet GoCrypto Types Runtime Validate Wire Registry RateLimit.
From S2P Require Import Auth ConnSpec EnrollSpec World Steps Cleanup Enrollment Directory Connections LongPoll.
From S2P Require Import Http.

Local Open Scope Z_scope.

(** ** Starting *)

(** [os.ReadFile] of the state file, then [json.Unmarshal]. *)
Inductive fileRead := NotExist | ReadFailed | Malformed | Parsed (s : coordinatorState).

Definition freshRegistry (token net : string) (s : coordinatorState) : registry :=
  mkRegistry token net s ∅ ∅ ∅ ∅ ∅ connectionWaitMaximum connectionRequestLifetime
    connectionOfferLease maxConnectionRequests.

(** [newRegistry]: a nil map of the parsed state becomes an empty one, which
    for a [gmap] is the same. *)
Definition newRegistry (token net : string) (file : fileRead) : option registry :=
  match file with
  | Parsed s => Some (freshRegistry token net s)
  | NotExist => Some (freshRegistry token net emptyState)
  | ReadFailed | Malformed => None
  end.

(** The limits of the profile's server section, in seconds, as
    [startCoordinator] applies them. *)
Record serverLimits := mkServerLimits {
  ConnectionWaitSeconds : Z;
  ConnectionRequestTTLSeconds : Z;
  ConnectionOfferLeaseSeconds : Z;
  ConnectionMaxPending : Z;
}.

Definition applyLimits (l : serverLimits) (r : registry) : registry :=
  let duration := λ seconds default, if 0 <? seconds then wrapInt64 (seconds * Time.second) else default in
  mkRegistry (adminToken r) (network r) (state r) (nonces r) (rates r) (connectionSignals r) (requestSignals r)
    (inboxWaiters r) (duration (ConnectionWaitSeconds l) (connectionWait r))
    (duration (ConnectionRequestTTLSeconds l) (connectionTTL r))
    (duration (ConnectionOfferLeaseSeconds l) (connectionLease r))
    (if 0 <? ConnectionMaxPending l then ConnectionMaxPending l else connectionMax r).

(** What the file system gives back after a run of the coordinator: the state
    written last. *)
Definition readBack (disk : option coordinatorState) : fileRead :=
  match disk with Some s => Parsed s | None => NotExist end.

Section System.
Context {env : Env}.

(** ** Threads *)

Inductive thread :=
  | InboxPolling (node : string) (after limit : Z)
  | InboxBlocked (node : string) (after limit : Z) (signal : chan) (answer : response)
  | InboxLeaving (node : string) (answer : option response)
  | StatusPolling (node id known : string) (wait : bool)
  | StatusBlocked (node id known : string) (signal : chan) (answer : response).

(** The node whose inbox a thread waits on. *)
Definition inboxOf (t : thread) : option string :=
  match t with
  | InboxPolling node _ _ | InboxBlocked node _ _ _ _ | InboxLeaving node _ => Some node
  | _ => None
  end.

(** The critical sections of the handlers that return at once, with the
    authority and the node each acts for. *)
Inductive section (w : world) : authority → string → ∀ A, M A → Prop :=
  | sec_allow key limit actor : section w Anyone actor bool (allowRequest key limit)
  | sec_random actor : section w Anyone actor _ randomToken
  | sec_clock actor : section w Anyone actor _ timeNow
  | sec_auth req actor : section w Anyone actor _ (authenticatedConnectionBody req)
  | sec_enroll n p secret actor :
      freshHandshake p = true → section w Anyone actor _ (enrollLocked n p secret)
  | sec_poll req actor : section w Anyone actor _ (pollEnrollment req)
  | sec_admin req actor : section w (adminAuthority w req) actor _ (adminHandler req)
  | sec_update req actor : section w (nodeAuthority w req) actor _ (updateNode req)
  | sec_discover node after actor : section w Anyone actor _ (discoverLocked node after)
  | sec_create input node : section w Anyone node _ (createLocked input node)
  | sec_ack node cursor : section w Anyone node _ (ackLocked node cursor)
  | sec_accept node id reason : section w Anyone node _ (decideLocked node id reason "accepted" 200)
  | sec_reject node id reason : section w Anyone node _ (decideLocked node id reason "rejected" 403)
  | sec_cancel node id reason : section w Anyone node _ (cancelLocked node id reason).

(** A restart: memory is what the state file holds, and every poll is gone. *)
Definition restart (r : registry) (w : world) : world :=
  mkWorld r (w_disk w) (mkChanHeap 0 ∅ false) (w_clock w) (w_rand w) (w_files w) (w_order w).

Definition system : Type := world * gmap nat thread.

(** What the running coordinator and its clients may do next. *)
Inductive runStep : system → system → Prop :=
  | rs_section w ts a actor A (m : M A) :
      section w a actor A m → runStep (w, ts) ((run m w).2, ts)
  | rs_inbox_start i req w ts node after limit wait w' :
      ts !! i = None → run (inboxStart req) w = (inr (node, after, limit, wait), w') →
      runStep (w, ts) (w', <[i := InboxPolling node after limit]> ts)
  | rs_inbox_refused req w ts r w' :
      run (inboxStart req) w = (inl r, w') → runStep (w, ts) (w', ts)
  | rs_inbox_round i w ts node after limit x w' :
      ts !! i = Some (InboxPolling node after limit) → run (inboxRound node after limit) w = (x, w') →
      runStep (w, ts) (w', <[i := match x with
                                  | Answer r => InboxLeaving node (Some r)
                                  | Wait s r => InboxBlocked node after limit s r
                                  end]> ts)
  | rs_inbox_woken i w ts node after limit s r :
      ts !! i = Some (InboxBlocked node after limit s r) → s ∈ closedChans (w_chans w) →
      runStep (w, ts) (w, <[i := InboxPolling node after limit]> ts)
  | rs_inbox_deadline i w ts node after limit s r :
      ts !! i = Some (InboxBlocked node after limit s r) →
      runStep (w, ts) (w, <[i := InboxLeaving node (Some r)]> ts)
  | rs_inbox_gone i w ts node after limit s r :
      ts !! i = Some (InboxBlocked node after limit s r) →
      runStep (w, ts) (w, <[i := InboxLeaving node None]> ts)
  | rs_inbox_leave i w ts node answer :
      ts !! i = Some (InboxLeaving node answer) →
      runStep (w, ts) ((run (unregisterWaiter node) w).2, delete i ts)
  | rs_status_start i req w ts wait node id known deadline w' :
      ts !! i = None → run (statusStart req) w = (inr (node, id, known, deadline), w') →
      runStep (w, ts) (w', <[i := StatusPolling node id known wait]> ts)
  | rs_status_refused req w ts r w' :
      run (statusStart req) w = (inl r, w') → runStep (w, ts) (w', ts)
  | rs_status_answer i w ts node id known wait r w' :
      ts !! i = Some (StatusPolling node id known wait) →
      run (statusRound node id known wait) w = (Answer r, w') →
      runStep (w, ts) (w', delete i ts)
  | rs_status_wait i w ts node id known wait s r w' :
      ts !! i = Some (StatusPolling node id known wait) →
      run (statusRound node id known wait) w = (Wait s r, w') →
      runStep (w, ts) (w', <[i := StatusBlocked node id known s r]> ts)
  | rs_status_woken i w ts node id known s r :
      ts !! i = Some (StatusBlocked node id known s r) → s ∈ closedChans (w_chans w) →
      runStep (w, ts) (w, <[i := StatusPolling node id known true]> ts)
  | rs_status_end i w ts node id known s r :
      ts !! i = Some (StatusBlocked node id known s r) → runStep (w, ts) (w, delete i ts).

(** … or it restarts, with any token, timings and lease, for the network it
    has, and with a capacity that is not lowered below it. *)
Inductive sysStep : system → system → Prop :=
  | ss_run s s' : runStep s s' → sysStep s s'
  | ss_restart w ts token net l r :
      newRegistry token net (readBack (w_disk w)) = Some r →
      net = wNetwork w → wLimit w ≤ connectionMax (applyLimits l r) →
      sysStep (w, ts) (restart (applyLimits l r) w, ∅).

(** A freshly started coordinator. *)
Definition started (token net : string) (l : serverLimits) : world :=
  mkWorld (applyLimits l (freshRegistry token net emptyState)) None (mkChanHeap 0 ∅ false) 0 0 0 0.

Definition reachable (token net : string) (l : serverLimits) : system → Prop :=
  rtc sysStep (started token net l, ∅).
End System.

(** ** The invariant of the system *)

Section Invariant.
Context {env : Env} {unique : UniqueTokens env}.

Lemma wp_elim {A} (m : M A) Q w a w' : run m w = (a, w') → wp m Q w → Q a w'.
Proof. apply wp_run. Qed.

(** Every critical section stays in the protocols. *)
Lemma section_steps w a actor A (m : M A) :
  worldInv w → section w a actor A m → stepsTo a actor w (run m w).2.
Proof.
  intros Hinv Hs. unfold run. change (wp m (λ _ w', stepsTo a actor w w') w).
  destruct Hs.
  - by apply (wp_allowRequest Anyone actor).
  - unfold randomToken. wp_go. frame_step.
  - wp_go. frame_step.
  - eapply wp_mono; [apply (authBody_spec actor Anyone)|by intros ? ? []].
  - eapply wp_mono; [by apply enrollLocked_spec|by intros ? ? []].
  - eapply wp_mono; [apply pollEnrollment_spec|by intros ? ? []].
  - apply adminHandler_steps.
  - eapply wp_mono; [apply updateNode_spec|by intros ? ? []].
  - eapply wp_mono; [apply discoverLocked_spec|by intros ? ? []].
  - eapply wp_mono; [by apply createLocked_spec|by intros ? ? []].
  - eapply wp_mono; [apply ackLocked_spec|by intros ? ? []].
  - eapply wp_mono; [apply decideLocked_spec; by auto|by intros ? ? []].
  - eapply wp_mono; [apply decideLocked_spec; by auto|by intros ? ? []].
  - eapply wp_mono; [by apply cancelLocked_spec|by intros ? ? []].
Qed.

(** What holds of a thread: a blocked one has a registered signal and
    nothing it waits for has happened, or its signal is closed. *)
Definition threadInv (w : world) (t : thread) : Prop :=
  match t with
  | InboxPolling _ _ limit => 0 < limit
  | InboxBlocked node after limit s _ =>
      0 < limit ∧
      (s ∈ closedChans (w_chans w) ∨
       (connectionSignals (w_reg w) !! node = Some s ∧
        ∀ id c, Connections (w_state w) !! id = Some c → waiting node after c = false))
  | StatusBlocked node id known s _ =>
      s ∈ closedChans (w_chans w) ∨
      (requestSignals (w_reg w) !! id = Some s ∧
       ∃ c, Connections (w_state w) !! id = Some c ∧ cr_State c = known ∧ connectionTerminal (cr_State c) = false)
  | InboxLeaving _ _ | StatusPolling _ _ _ _ => True
  end.

Record sysInv (s : system) : Prop := {
  sy_world : worldInv s.1;
  sy_threads : ∀ i t, s.2 !! i = Some t → threadInv s.1 t;
  sy_waiters : ∀ node, inboxWaiters (w_reg s.1) !! node = Some true ↔
    ∃ i t, s.2 !! i = Some t ∧ inboxOf t = Some node;
  sy_single : ∀ i j t u node, s.2 !! i = Some t → s.2 !! j = Some u →
    inboxOf t = Some node → inboxOf u = Some node → i = j;
}.

Lemma threadInv_wakes w w' t : wakes w w' → threadInv w t → threadInv w' t.
Proof.
  intros [Hc Ht Hr]. destruct t as [| node after limit s r | | |node id known s r]; simpl; try done.
  - intros [Hl [H|[Hs Hn]]]; (split; [done|]); [left; by apply Hc|].
    destruct (Ht node s Hs) as [H|[Hs' Hd]]; [by left|right]. split; [done|].
    intros id c Hid. destruct (waiting node after c) eqn:Hw; [|done]. unfold waiting in Hw. bool_simpl.
    destruct (Hd id c Hid) as (c0 & Hc0 & Hd0 & Hcur); [done|].
    specialize (Hn id c0 Hc0). unfold waiting in Hn. rewrite Hd0, Hcur in Hn. simpl in Hn. bool_simpl. lia.
  - intros [H|[Hs (c & Hid & Hst & Hterm)]]; [left; by apply Hc|].
    destruct (Hr id s Hs) as [H|[Hs' Hsame]]; [by left|right]. split; [done|].
    rewrite Hid in Hsame. simpl in Hsame. apply fmap_Some in Hsame as (d & Hd & Hst').
    exists d. split_and!; [done|congruence|congruence].
Qed.

(** A step of one critical section keeps the invariant of all threads. *)
Lemma sysInv_steps a actor w w' ts :
  stepsTo a actor w w' → sysInv (w, ts) → sysInv (w', ts).
Proof.
  intros S [Hw Ht Hwait Hs]. simpl in *. split; simpl.
  - by apply S.
  - intros i t Hi. eapply threadInv_wakes; [by apply S|]. by eapply Ht.
  - assert (inboxWaiters (w_reg w') = inboxWaiters (w_reg w)) as ->.
    { pose proof (to_config _ _ _ _ S) as H. unfold config in H. congruence. }
    done.
  - done.
Qed.

(** A thread goes on, or blocks. *)
Lemma sysInv_thread w ts i t u :
  sysInv (w, ts) → ts !! i = Some t → inboxOf u = inboxOf t → threadInv w u → sysInv (w, <[i := u]> ts).
Proof.
  intros [Hw Ht Hwait Hs] Hi Hin Hu. simpl in *. split; simpl; [done| | |].
  - intros j v. rewrite lookup_insert. case_decide; [by intros [= <-]|apply Ht].
  - intros node. rewrite Hwait. split.
    + intros (j & v & Hj & Hv). destruct (decide (i = j)) as [->|Hne].
      * exists j, u. rewrite lookup_insert_eq. split; [done|]. congruence.
      * exists j, v. by rewrite lookup_insert_ne.
    + intros (j & v & Hj & Hv). rewrite lookup_insert in Hj. case_decide; [|by exists j, v].
      simplify_eq. exists j, t. split; [done|congruence].
  - intros j k v x node. rewrite !lookup_insert.
    case_decide; case_decide; intros Hj Hk Hv Hx; simplify_eq; [done| | |by eapply Hs];
      eapply Hs; try done; congruence.
Qed.

(** A thread that is not an inbox poll ends. *)
Lemma sysInv_end w ts i t :
  sysInv (w, ts) → ts !! i = Some t → inboxOf t = None → sysInv (w, delete i ts).
Proof.
  intros [Hw Ht Hwait Hs] Hi Hin. simpl in *. split; simpl; [done| | |].
  - intros j v [_ Hj]%lookup_delete_Some. by eapply Ht.
  - intros node. rewrite Hwait. split.
    + intros (j & v & Hj & Hv). exists j, v. rewrite lookup_delete_ne; [done|]. intros ->. congruence.
    + intros (j & v & [_ Hj]%lookup_delete_Some & Hv). by exists j, v.
  - intros j k v x node [_ Hj]%lookup_delete_Some [_ Hk]%lookup_delete_Some. by eapply Hs.
Qed.

(** A new thread that is not an inbox poll. *)
Lemma sysInv_spawn w ts i t :
  sysInv (w, ts) → ts !! i = None → inboxOf t = None → threadInv w t → sysInv (w, <[i := t]> ts).
Proof.
  intros [Hw Ht Hwait Hs] Hi Hin Hu. simpl in *. split; simpl; [done| | |].
  - intros j v. rewrite lookup_insert. case_decide; [by intros [= <-]|apply Ht].
  - intros node. rewrite Hwait. split.
    + intros (j & v & Hj & Hv). exists j, v. rewrite lookup_insert_ne; [done|congruence].
    + intros (j & v & Hj & Hv). rewrite lookup_insert in Hj. case_decide; [simplify_eq|by exists j, v].
  - intros j k v x node. rewrite !lookup_insert.
    case_decide; case_decide; intros Hj Hk Hv Hx; simplify_eq. by eapply Hs.
Qed.

(** The waiter flag changes with the inbox poll it stands for. *)
Lemma worldInv_waiters f w : worldInv w → worldInv (setReg (setInboxWaiters f) w).
Proof. intros [Hm Hd Hs Hl]. by split. Qed.

Lemma sysInv_register w ts i node after limit :
  sysInv (w, ts) → ts !! i = None → inboxWaiters (w_reg w) !! node ≠ Some true → 0 < limit →
  sysInv (setReg (setInboxWaiters (insert node true)) w, <[i := InboxPolling node after limit]> ts).
Proof.
  intros [Hw Ht Hwait Hs] Hi Hfree Hl. simpl in *.
  assert (∀ j u, ts !! j = Some u → inboxOf u ≠ Some node) as Hnone.
  { intros j u Hj Hu. apply Hfree, Hwait. by exists j, u. }
  split; simpl.
  - by apply worldInv_waiters.
  - intros j v. rewrite lookup_insert. case_decide; [intros [= <-]; done|]. intros Hj. by apply (Ht j v).
  - intros n. rewrite lookup_insert. case_decide as Hn.
    + subst. split; [|done]. intros _. eexists i, _. by rewrite lookup_insert_eq.
    + rewrite Hwait. split.
      * intros (j & v & Hj & Hv). exists j, v. rewrite lookup_insert_ne; [done|congruence].
      * intros (j & v & Hj & Hv). rewrite lookup_insert in Hj. case_decide; [|by exists j, v].
        simplify_eq. simpl in Hv. congruence.
  - intros j k v x n. rewrite !lookup_insert.
    case_decide; case_decide; intros Hj Hk Hv Hx; simplify_eq; [done| | |by eapply Hs]; simpl in *; simplify_eq.
    + by destruct (Hnone k x).
    + by destruct (Hnone j v).
Qed.

Lemma sysInv_unregister w ts i t node :
  sysInv (w, ts) → ts !! i = Some t → inboxOf t = Some node →
  sysInv (setReg (setInboxWaiters (delete node)) w, delete i ts).
Proof.
  intros [Hw Ht Hwait Hs] Hi Hin. simpl in *. split; simpl.
  - by apply worldInv_waiters.
  - intros j v [_ Hj]%lookup_delete_Some. by apply (Ht j v).
  - intros n. rewrite lookup_delete. case_decide as Hn.
    + subst. split; [done|]. intros (j & v & [Hne Hj]%lookup_delete_Some & Hv). by destruct Hne; eapply Hs.
    + rewrite Hwait. split.
      * intros (j & v & Hj & Hv). exists j, v. rewrite lookup_delete_ne; [done|]. intros ->. congruence.
      * intros (j & v & [_ Hj]%lookup_delete_Some & Hv). by exists j, v.
  - intros j k v x n [_ Hj]%lookup_delete_Some [_ Hk]%lookup_delete_Some. by eapply Hs.
Qed.
End Invariant.

Section Reachable.
Context {env : Env} {unique : UniqueTokens env}.

Lemma stateInv_empty net limit used : stateInv net limit used emptyState.
Proof.
  split; [split|split| |]; simpl; try done.
  - intros id [x Hx]. done.
  - rewrite map_size_empty. lia.
Qed.

Lemma signalsOk_empty : signalsOk ∅ ∅ (mkChanHeap 0 ∅ false).
Proof. split; simpl; try done. by intros k c [?|?]. Qed.

(** A restart finds a state that was in the invariant when it was written. *)
Lemma sysInv_restart w ts net token l r :
  sysInv (w, ts) → newRegistry token net (readBack (w_disk w)) = Some r →
  net = wNetwork w → wLimit w ≤ connectionMax (applyLimits l r) →
  sysInv (restart (applyLimits l r) w, ∅).
Proof.
  intros [Hw _ _ _] Hr -> Hlim. simpl in Hw.
  assert (∃ s, r = freshRegistry token (wNetwork w) s ∧ wStateInv w s) as (s & -> & Hs).
  { destruct (w_disk w) as [s|] eqn:Hd; simpl in Hr; simplify_eq; eexists; (split; [done|]).
    - by apply (wi_disk _ Hw).
    - apply stateInv_empty. }
  assert (∀ s', wStateInv w s' → wStateInv (restart (applyLimits l (freshRegistry token (wNetwork w) s)) w) s') as Hsame.
  { intros s' H. unfold wStateInv. change (wLimit (restart _ w)) with (connectionMax (applyLimits l (freshRegistry token (wNetwork w) s))).
    by apply (stateInv_limit _ (wLimit w)). }
  split; simpl; [|done| |done].
  - split.
    + by apply Hsame.
    + intros s' Hd. apply Hsame. by apply (wi_disk _ Hw).
    + apply signalsOk_empty.
    + intros id x. simpl. by rewrite lookup_empty.
  - intros node. rewrite lookup_empty. split; [done|]. by intros (i & t & Hi & _).
Qed.

Lemma sysInv_started token net l : sysInv (started token net l, ∅).
Proof.
  split; simpl; [|done| |done].
  - split; simpl.
    + apply stateInv_empty.
    + done.
    + apply signalsOk_empty.
    + intros id s. simpl. by rewrite lookup_empty.
  - intros node. rewrite lookup_empty. split; [done|]. by intros (i & t & Hi & _).
Qed.

Lemma runStep_inv s s' : runStep s s' → sysInv s → sysInv s'.
Proof.
  intros Hstep Hinv. pose proof (sy_world _ Hinv) as Hw.
  destruct Hstep as [w ts a actor A m Hsec|i req w ts node after limit wait w' Hi Hrun|req w ts r w' Hrun
    |i w ts node after limit x w' Hi Hrun|i w ts node after limit s r Hi Hs|i w ts node after limit s r Hi
    |i w ts node after limit s r Hi|i w ts node answer Hi|i req w ts wait node id known d w' Hi Hrun
    |req w ts r w' Hrun|i w ts node id known wait r w' Hi Hrun|i w ts node id known wait s r w' Hi Hrun
    |i w ts node id known s r Hi Hs|i w ts node id known s r Hi]; simpl in Hw.
  - eapply sysInv_steps; [|done]. by eapply section_steps.
  - destruct (wp_elim _ _ _ _ _ Hrun (inboxStart_spec Anyone node req w)) as (w1 & S & -> & Hlim & Hfree & ->).
    apply sysInv_register; [by eapply sysInv_steps|done|done|lia].
  - destruct (wp_elim _ _ _ _ _ Hrun (inboxStart_spec Anyone "" req w)) as (w1 & S & ->). by eapply sysInv_steps.
  - assert (0 < limit) as Hlim by (by apply (sy_threads _ Hinv) in Hi).
    destruct (wp_elim _ _ _ _ _ Hrun (inboxRound_spec Anyone node after limit w Hw Hlim)) as [S Hout].
    eapply sysInv_thread; [by eapply sysInv_steps|done|by destruct x|].
    destruct x as [r|s r]; [done|]. destruct Hout as (Hsig & Hnone & _). split; [done|]. by right.
  - eapply sysInv_thread; [done|done|done|]. by apply (sy_threads _ Hinv) in Hi as [].
  - eapply sysInv_thread; try done.
  - eapply sysInv_thread; try done.
  - by apply (sysInv_unregister w ts i (InboxLeaving node answer)).
  - apply sysInv_spawn; [|done|done|done]. eapply sysInv_steps; [|done].
    exact (wp_elim _ _ _ _ _ Hrun (statusStart_spec Anyone "" req w)).
  - eapply sysInv_steps; [|done]. exact (wp_elim _ _ _ _ _ Hrun (statusStart_spec Anyone "" req w)).
  - destruct (wp_elim _ _ _ _ _ Hrun (statusRound_spec Anyone node id known wait w Hw)) as [S _].
    eapply sysInv_end; [by eapply sysInv_steps|done|done].
  - destruct (wp_elim _ _ _ _ _ Hrun (statusRound_spec Anyone node id known wait w Hw)) as [S Hout].
    eapply sysInv_thread; [by eapply sysInv_steps|done|done|].
    destruct Hout as (Hsig & c & Hc & _ & Hst & Hterm & _). right. split; [done|]. by exists c.
  - by eapply sysInv_thread.
  - by eapply sysInv_end.
Qed.

Lemma sysStep_inv s s' : sysStep s s' → sysInv s → sysInv s'.
Proof. intros [s0 s1 H|w ts token net l r Hr Hn Hl] Hinv; [by eapply runStep_inv|by eapply sysInv_restart]. Qed.

(** What changes besides the waiters' flags and the threads. *)
Definition recorded (w : world) :=
  (w_state w, w_disk w, nonces (w_reg w), w_clock w, w_rand w).

(** What is done without the administrator's authority, and for [actor]. *)
Definition actsFor (actor : string) (w w' : world) : Prop :=
  ∃ a w1, a ≠ Administrator ∧ stepsTo a actor w w1 ∧ recorded w' = recorded w1.

Lemma actsFor_steps a actor w w' : a ≠ Administrator → stepsTo a actor w w' → actsFor actor w w'.
Proof. intros Ha S. by exists a, w'. Qed.

Lemma serves_inbox_acts req w actor : actsFor actor w (run (inboxStart req) w).2.
Proof.
  destruct (run (inboxStart req) w) as [x w'] eqn:Hrun.
  destruct (wp_elim _ _ _ _ _ Hrun (inboxStart_spec Anyone actor req w)) as (w1 & S & H). exists Anyone, w1.
  split_and!; [done|done|]. destruct x as [r|[[[node after] limit] wait]]; [by subst|]. by destruct H as (_ & _ & _ & ->).
Qed.

(** Serving a request to the public listener, a long poll included, acts for
    the node the request names when that node has signed it, and for no node in
    particular otherwise. *)
Lemma serves_acts req w0 w w' :
  worldInv w → serves req w0 w w' →
  (signed w0 req ∧ actsFor (requestNode req) w w') ∨ ∀ actor, actsFor actor w w'.
Proof.
  intros Hinv Hs. destruct Hs as [m Hm|Hr|node after limit wait w1 w Hr Hrun|node after limit wait w1 w Hr Hrun
    |wait Hr|wait node id known deadline w1 w Hr Hrun].
  - destruct (Strings.HasPrefix (rq_Path req) "/v1/connections/") eqn:Hp.
    + unfold servePublic in Hm. rewrite Hp in Hm.
      destruct (serveConnections req) as [|m'| |] eqn:Hc; simplify_eq; [right; intros actor; by eapply (actsFor_steps Anyone)|].
      destruct (serveConnections_signed req m w0 Hc) as [Hsig|Hany].
      * left. split; [done|]. apply (actsFor_steps (publicAuthority w0 req)); [apply publicAuthority_public|].
        apply (servePublic_steps req m w0 Hinv). unfold servePublic. by rewrite Hp, Hc.
      * right. intros actor. by eapply (actsFor_steps Anyone).
    + right. intros actor. destruct (publicRequest_anyone req m w0 actor Hp Hm) as (a & Ha & S).
      by eapply actsFor_steps.
  - right. intros actor. apply serves_inbox_acts.
  - left. destruct (inboxStart_signed _ _ _ _ _ _ _ Hrun) as (-> & Hlim & Hsig). split; [done|].
    apply (actsFor_steps Anyone); [done|]. exact (proj1 (inboxRound_spec Anyone (requestNode req) after limit w Hinv Hlim)).
  - right. intros actor. by exists Anyone, w.
  - right. intros actor. apply (actsFor_steps Anyone); [done|]. exact (statusStart_spec Anyone actor req w0).
  - left. destruct (statusStart_signed _ _ _ _ _ _ _ Hrun) as (-> & Hsig). split; [done|].
    apply (actsFor_steps Anyone); [done|]. exact (proj1 (statusRound_spec Anyone (requestNode req) id known wait w Hinv)).
Qed.

(** Every step is a critical section's, on the administrator's authority only
    in an admin request with the token. *)
Lemma runStep_section s s' : runStep s s' → sysInv s →
  ∃ a actor w, stepsTo a actor s.1 w ∧ recorded s'.1 = recorded w
    ∧ (a = Administrator → ∃ req, adminAuthorized (w_reg s.1) req = true ∧ s'.1 = (run (adminHandler req) s.1).2).
Proof.
  intros Hstep Hinv. pose proof (sy_world _ Hinv) as Hw.
  assert (∀ a actor w w', stepsTo a actor w w' → a ≠ Administrator → ∀ x, recorded x = recorded w' →
    ∃ a actor w1, stepsTo a actor w w1 ∧ recorded x = recorded w1
      ∧ (a = Administrator → ∃ req, adminAuthorized (w_reg w) req = true ∧ x = (run (adminHandler req) w).2)) as Hsec.
  { intros a actor w w' S Ha x Hx. exists a, actor, w'. by split_and!. }
  assert (∀ w, stepsTo Anyone "" w w) as Hrefl by reflexivity.
  destruct Hstep as [w ts a actor A m Hm|i req w ts node after limit wait w' Hi Hrun|req w ts r w' Hrun
    |i w ts node after limit x w' Hi Hrun|i w ts node after limit s r Hi Hs|i w ts node after limit s r Hi
    |i w ts node after limit s r Hi|i w ts node answer Hi|i req w ts wait node id known d w' Hi Hrun
    |req w ts r w' Hrun|i w ts node id known wait r w' Hi Hrun|i w ts node id known wait s r w' Hi Hrun
    |i w ts node id known s r Hi Hs|i w ts node id known s r Hi]; simpl in *.
  - exists a, actor, (run m w).2. split_and!; [by eapply section_steps|done|].
    intros ->. inversion Hm as [| | | | | |req ?|req ?| | | | | | ]; simplify_eq.
    + exists req. unfold adminAuthority in *. by destruct (adminAuthorized _ _).
    + by destruct (nodeAuthority_public w req).
  - destruct (wp_elim _ _ _ _ _ Hrun (inboxStart_spec Anyone node req w)) as (w1 & S & _ & _ & _ & ->). by eapply Hsec.
  - destruct (wp_elim _ _ _ _ _ Hrun (inboxStart_spec Anyone "" req w)) as (w1 & S & ->). by eapply Hsec.
  - assert (0 < limit) as Hlim by (by apply (sy_threads _ Hinv) in Hi).
    destruct (wp_elim _ _ _ _ _ Hrun (inboxRound_spec Anyone node after limit w Hw Hlim)) as [S _]. by eapply Hsec.
  - by apply (Hsec Anyone "" w w).
  - by apply (Hsec Anyone "" w w).
  - by apply (Hsec Anyone "" w w).
  - by apply (Hsec Anyone "" w w).
  - eapply Hsec; [exact (wp_elim _ _ _ _ _ Hrun (statusStart_spec Anyone "" req w))|done..].
  - eapply Hsec; [exact (wp_elim _ _ _ _ _ Hrun (statusStart_spec Anyone "" req w))|done..].
  - destruct (wp_elim _ _ _ _ _ Hrun (statusRound_spec Anyone node id known wait w Hw)) as [S _]. by eapply Hsec.
  - destruct (wp_elim _ _ _ _ _ Hrun (statusRound_spec Anyone node id known wait w Hw)) as [S _]. by eapply Hsec.
  - by apply (Hsec Anyone "" w w).
  - by apply (Hsec Anyone "" w w).
Qed.

(** A running coordinator forgets no nonce before its time. *)
Lemma runStep_nonces s s' : runStep s s' → sysInv s → noncesKept s.1 s'.1.
Proof.
  intros Hstep Hinv. destruct (runStep_section _ _ Hstep Hinv) as (a & actor & w & S & Hr & _).
  etrans; [apply S|]. injection Hr as _ _ Hn Hc _. apply noncesKept_same; [done|lia].
Qed.

(** A step keeps the handshakes, but for the decisions. *)
Lemma runStep_handshakes s s' : runStep s s' → sysInv s →
  ∃ a, handshakesKept a s.1 s'.1
    ∧ (a = Administrator → ∃ req, adminAuthorized (w_reg s.1) req = true ∧ s'.1 = (run (adminHandler req) s.1).2).
Proof.
  intros Hstep Hinv. destruct (runStep_section _ _ Hstep Hinv) as (a & actor & w & S & Hr & Ha).
  exists a. split; [|done]. destruct (to_handshakes _ _ _ _ S) as [Hrand Hm Hd]. injection Hr as Es Ed _ _ Er.
  split; [lia|by rewrite Es|by rewrite Ed].
Qed.

Lemma runSteps_nonces s s' : rtc runStep s s' → sysInv s → noncesKept s.1 s'.1 ∧ sysInv s'.
Proof.
  induction 1 as [s|s1 s2 s3 H12 _ IH]; [done|]. intros Hinv.
  destruct IH as [Hk Hinv3]; [by eapply runStep_inv|]. split; [|done].
  etrans; [by apply runStep_nonces|done].
Qed.

Lemma reachable_inv token net l s : reachable token net l s → sysInv s.
Proof.
  intros H. eapply (star_invariant sysStep sysInv); [apply sysStep_inv|exact H|apply sysInv_started].
Qed.
End Reachable.

(** ** Handlers are sequences of critical sections *)

Section Sections.
Context {env : Env} (ts : gmap nat thread).

Definition sections (w w' : world) : Prop := rtc sysStep (w, ts) (w', ts).

Lemma wp_section w0 w a actor A (m : M A) (Q : A → world → Prop) :
  section w a actor A m → sections w0 w → (∀ x w', sections w0 w' → Q x w') → wp m Q w.
Proof.
  intros Hm H0 HQ. unfold wp. apply HQ. unfold sections in *.
  etrans; [exact H0|]. apply rtc_once, ss_run. by eapply (rs_section w).
Qed.

Lemma sections_refl w : sections w w.
Proof. apply rtc_refl. Qed.

(** The handlers' own code between two sections. *)
Ltac section_step rule := wp_op; eapply wp_section; [apply rule|eassumption || apply sections_refl|]; intros ? ? ?.

Lemma requestEnrollment_sections req w : wp (requestEnrollment req) (λ _ w', sections w w') w.
Proof.
  pose proof (sections_refl w) as H0. unfold requestEnrollment.
  destruct (decodeJSON _ req); [|by wp_go]. cbv zeta. wp_op. wp_op. wp_op; [by wp_go|]. wp_op; [by wp_go|].
  section_step (sec_random w ""). destruct x as [secret|]; [|by wp_go].
  section_step (sec_clock w' "").
  eapply wp_section; [by apply (sec_enroll _ _ _ _ "")|eassumption|]. done.
Qed.

Lemma node_sections req w : wp (registerNode req) (λ _ w', sections w w') w
  ∧ wp (heartbeatNode req) (λ _ w', sections w w') w ∧ wp (discoverNodes req) (λ _ w', sections w w') w.
Proof.
  pose proof (sections_refl w) as H0. unfold registerNode, heartbeatNode, discoverNodes. split_and!.
  - section_step (sec_update w req ""). destruct x as [|[[? ?] ?]]; by wp_go.
  - section_step (sec_update w req ""). destruct x as [|[[? ?] ?]]; [by wp_go|].
    section_step (sec_clock w' ""). by wp_go.
  - section_step (sec_auth w req ""). destruct x as [|[body node]]; [by wp_go|].
    destruct (unmarshalDiscoverySync body); [|by wp_go].
    eapply wp_section; [apply (sec_discover _ _ _ "")|eassumption|done].
Qed.

Lemma connection_sections req m w :
  serveConnections req = Handler m → wp m (λ _ w', sections w w') w.
Proof.
  pose proof (sections_refl w) as H0. unfold serveConnections, createConnection, ackConnectionInbox, decideConnection,
    cancelConnection, withRequestID.
  repeat step_case; intros; simplify_eq; (section_step (sec_auth w req ""); destruct x as [|[body node]]; [by wp_go|]).
  - destruct (unmarshalCreateConnection body); [|by wp_go]. wp_op; [|by wp_go].
    eapply wp_section; [apply sec_create|eassumption|done].
  - destruct (unmarshalInboxAck body); [|by wp_go]. eapply wp_section; [apply sec_ack|eassumption|done].
  - destruct (unmarshalConnectionID body); [|by wp_go]. wp_op; [by wp_go|]. cbv zeta. wp_op; [by wp_go|].
    eapply wp_section; [apply sec_accept|eassumption|done].
  - destruct (unmarshalConnectionID body); [|by wp_go]. wp_op; [by wp_go|]. cbv zeta. wp_op; [by wp_go|].
    eapply wp_section; [apply sec_reject|eassumption|done].
  - destruct (unmarshalConnectionID body); [|by wp_go]. wp_op; [by wp_go|]. cbv zeta. wp_op; [by wp_go|].
    eapply wp_section; [apply sec_cancel|eassumption|done].
Qed.

Lemma servePublic_sections req m w :
  servePublic req = Handler m → wp m (λ _ w', sections w w') w.
Proof.
  pose proof (sections_refl w) as H0. unfold servePublic. destruct (Strings.HasPrefix _ _).
  - destruct (serveConnections req) eqn:E; intros; simplify_eq; [by wp_go|]. by eapply connection_sections.
  - destruct (publicLimit req) as [key limit]. intros [= <-].
    section_step (sec_allow w key limit ""). wp_op; [by wp_go|]. unfold publicHandler.
    assert (∀ m : M response, wp m (λ _ w2, sections w' w2) w' → wp m (λ _ w2, sections w w2) w') as Hgen.
    { intros m Hm. eapply wp_mono; [exact Hm|]. intros r w2 H2. unfold sections in *. by etrans. }
    destruct (node_sections req w') as (H1 & H2 & H3). repeat step_case; [| | | | |by wp_go]; apply Hgen; try done.
    + apply requestEnrollment_sections.
    + eapply wp_section; [apply (sec_poll _ _ "")|apply sections_refl|done].
Qed.

Lemma serveAdmin_sections req w : wp (serveAdminRequest req) (λ _ w', sections w w') w.
Proof.
  pose proof (sections_refl w) as H0. unfold serveAdminRequest. wp_op; [by wp_go|].
  section_step (sec_allow w ("admin:" +:+ requestSource req) adminRequestsPerMinute "").
  wp_op; [by wp_go|]. eapply wp_section; [apply (sec_admin _ req "")|eassumption|done].
Qed.
End Sections.
