(* ===== verification/Demo.v ===== *)
(** * A concrete environment and a concrete history

    An instance of [Env] in which the development's theorems can be evaluated:
    a clock that ticks in milliseconds, a counter for the random source, a
    disk that works, maps in key order and a codec for the few requests the
    history sends.  [enrolledWorld] is the coordinator after two nodes have
    enrolled and registered. *)
From S2P Require Import Prelude GoStd GoNet GoCrypto Types Runtime Validate Wire Registry RateLimit.
From S2P Require Import Auth ConnSpec EnrollSpec World Steps Cleanup Enrollment Directory Connections LongPoll.
From S2P Require Import Http System.

Local Open Scope Z_scope.

(** ** A random source that never repeats *)

Fixpoint digitsOf (n : nat) (z : Z) : list ascii :=
  match n with
  | O => []
  | S n => ascii_of_nat (Z.to_nat (z `mod` 256)) :: digitsOf n (z / 256)
  end.

Fixpoint valueOf (l : list ascii) : Z :=
  match l with
  | [] => 0
  | a :: l => Z.of_nat (nat_of_ascii a) + 256 * valueOf l
  end.

Lemma valueOf_digitsOf n z : 0 ≤ z < 256 ^ Z.of_nat n → valueOf (digitsOf n z) = z.
Proof.
  revert z. induction n as [|n IH]; intros z Hz; simpl; [simpl in Hz; lia|].
  pose proof (Z.mod_pos_bound z 256 ltac:(lia)) as Hm.
  rewrite Stdlib.Strings.Ascii.nat_ascii_embedding by lia.
  rewrite Nat2Z.inj_succ, Z.pow_succ_r in Hz by lia.
  rewrite IH.
  - rewrite Z2Nat.id by lia. pose proof (Z.div_mod z 256 ltac:(lia)). lia.
  - split; [apply Z.div_pos; lia|]. apply Z.div_lt_upper_bound; lia.
Qed.

Lemma digitsOf_length n z : length (digitsOf n z) = n.
Proof. revert z. induction n; intros z; simpl; [done|]. by rewrite IHn. Qed.

Definition demoRandom (i n : nat) : option string :=
  if Z.of_nat i <? 256 ^ Z.of_nat n then Some (Strings.ofBytes (digitsOf n (Z.of_nat i))) else None.

Lemma demoRandom_length i n b : demoRandom i n = Some b → String.length b = n.
Proof.
  unfold demoRandom. destruct (_ <? _); [|done]. intros [= <-]. by rewrite ofBytes_length, digitsOf_length.
Qed.

(** ** The codec and the environment *)

Definition demoKey : string := "AAAAAAAAAAAAAAAAAAAAAAAAAAAAAAAAAAAAAAAAAAA".
Definition demoPin : string := "00000000000000000000000000000000000000000000000000000000000000ff".

Definition demoService (name : string) : publishedService :=
  mkPublishedService "" name "" [mkDirectCandidate "10.0.0.7:2222" Time.zero] "5f0c" demoPin.

Definition demoNode (id role segment : string) (services : list publishedService) : discoveredNode :=
  mkDiscoveredNode id (id +:+ "-name") role segment "home" "" services None "" Time.zero.

(** The bodies ["alpha"] and ["beta"] are the two nodes; ["beta"] publishes a
    service. *)
Definition demoDiscovery (body : string) : option discoveryRequest :=
  if (body =? "alpha")%string then Some (mkDiscoveryRequest (demoNode "alpha" "user" "lan-1" []) demoKey)
  else if (body =? "beta")%string
  then Some (mkDiscoveryRequest (demoNode "beta" "user" "lan-2" [demoService "ssh"]) demoKey)
  else None.

Definition demoNumber (s : string) : Z := (Strconv.Atoi s).1.

Definition demoUnicode : Unicode := {| unicodeUpper := λ s, s; unicodeLower := λ s, s |}.

Definition demoJson : Json := {|
  decodeDiscoveryRequest := demoDiscovery;
  decodePollRequest := λ s, Some (mkPollRequest (Strings.ofBytes (take 64 (Strings.bytes s)))
                                                (Strings.ofBytes (drop 64 (Strings.bytes s))));
  decodeApproveRequest := λ s, Some (mkApproveRequest s true "not now");
  decodeRevokeRequest := λ s, Some (mkRevokeRequest s);
  unmarshalDiscoveryRequest := demoDiscovery;
  unmarshalDiscoverySync := λ s, Some (mkDiscoverySyncRequest (demoNumber s));
  unmarshalCreateConnection := λ s, Some (mkCreateConnectionInput s "beta" "ssh" "");
  unmarshalConnectionID := λ s, Some (mkConnectionIDInput s "because");
  unmarshalInboxWait := λ s, Some (mkInboxWaitInput 0 (demoNumber s) 0);
  unmarshalInboxAck := λ s, Some (mkInboxAckInput (demoNumber s));
  unmarshalStatusWait := λ s, Some (mkConnectionStatusWaitInput s "queued" 5);
  marshalNode := λ n, dn_ID n +:+ dn_Name n +:+ dn_Segment n;
|}.

#[export] Program Instance demoEnv : Env := {|
  env_unicode := demoUnicode;
  env_json := demoJson;
  clock := λ i, Time.Unix 1700000000 + 1000000 * Z.of_nat i;
  randRead := demoRandom;
  randRead_length := demoRandom_length;
  fileWrite := λ _, true;
  mapOrder := λ V _ m, map_to_list m;
  ed25519Verify := λ key message signature, true;
|}.
Next Obligation. done. Qed.

#[export] Instance demoUnique : UniqueTokens demoEnv.
Proof.
  intros i j b. unfold randRead, demoEnv, demoRandom.
  destruct (Z.of_nat i <? _) eqn:Hi, (Z.of_nat j <? _) eqn:Hj; try done. bool_simpl.
  intros H1 H2.
  assert (Strings.ofBytes (digitsOf 32 (Z.of_nat i)) = Strings.ofBytes (digitsOf 32 (Z.of_nat j))) as H by congruence.
  apply (f_equal Strings.bytes) in H. rewrite !bytes_ofBytes in H.
  apply (f_equal valueOf) in H. rewrite !valueOf_digitsOf in H by lia. lia.
Qed.

(** ** The history *)

Definition demoToken : string := "s3cret".
Definition adminRequest (method path body : string) : request :=
  mkRequest method path "127.0.0.1:9000" {["Authorization" := "Bearer " +:+ demoToken]} ∅ body.
Definition publicRequest (path body : string) : request :=
  mkRequest "POST" path "203.0.113.5:40000" ∅ ∅ body.
(** A request signed by [node] with the given nonce. *)
Definition signedRequest (node nonce path body : string) : request :=
  mkRequest "POST" path "203.0.113.5:40000"
    (<["X-Mayoiga-Node" := node]> (<["X-Mayoiga-Nonce" := nonce]> (<["X-Mayoiga-Time" := "1700000000"]>
      {["X-Mayoiga-Signature" := "AAAA"]}))) ∅ body.

Definition demoStart : world := started demoToken "home" (mkServerLimits 0 0 0 0).
Definition after {A} (m : M A) (w : world) : world := (run m w).2.
Definition answer {A} (m : M A) (w : world) : A := (run m w).1.

Definition codeIn (r : response) : string :=
  match rs_Body r with Encoded (JEnrollment e) => es_DeviceCode e | _ => "" end.

(** Enrollment, approval and registration of one node. *)
Definition enrollNode (name : string) : M unit :=
  r ← requestEnrollment (publicRequest "/v1/enroll/request" name);
  approveHandshake (adminRequest "POST" "/v1/admin/approve" (codeIn r)) ;;
  registerNode (signedRequest name ("nonce-" +:+ name) "/v1/nodes/register" name) ;;
  mret tt.

Definition enrolledWorld : world := after (enrollNode "alpha" ;; enrollNode "beta") demoStart.

(** ** The invariant along the history *)

Section DemoInvariant.
Context {env : Env} {unique : UniqueTokens env}.

Lemma demoStart_inv token net l : worldInv (started token net l).
Proof. apply (sysInv_started token net l). Qed.

Lemma wp_after {A} (m : M A) (Q : world → Prop) w : wp m (λ _ w', Q w') w → Q (after m w).
Proof. done. Qed.
End DemoInvariant.

Lemma enrollNode_inv name w : worldInv w → wp (enrollNode name) (λ _ w', worldInv w') w.
Proof.
  intros Hw. unfold enrollNode. wp_op. eapply wp_mono; [apply (requestEnrollment_spec Anyone "")|].
  intros r w1 [S1 _]. wp_op. eapply wp_mono; [apply (approveHandshake_spec "")|].
  intros r2 w2 [S2 _]. wp_op. eapply wp_mono; [apply (registerNode_spec "")|].
  intros r3 w3 [S3 _]. wp_op. apply S3, S2, S1, Hw.
Qed.

Lemma enrolledWorld_inv : worldInv enrolledWorld.
Proof.
  unfold enrolledWorld. apply (wp_after _ worldInv). wp_op. eapply wp_mono; [apply enrollNode_inv, demoStart_inv|].
  intros u w Hw. by apply enrollNode_inv.
Qed.

(** A request to connect from alpha to beta's service, and its id. *)
Definition connectAlpha : request := signedRequest "alpha" "nonce-1" "/v1/connections/request" "key-1".
Definition connectedWorld : world := after (createConnection connectAlpha) enrolledWorld.
Definition connectionID : string := (map_to_list (Connections (w_state connectedWorld))).*1 !!! 0%nat.

Lemma connectedWorld_inv : worldInv connectedWorld.
Proof.
  unfold connectedWorld. apply (wp_after _ worldInv). eapply wp_mono; [apply (createConnection_spec Anyone "alpha"); [apply enrolledWorld_inv|reflexivity]|].
  intros r w [S _]. apply S, enrolledWorld_inv.
Qed.
