(* ===== verification/ControlTheorems.v ===== *)
(** * Theorems: the coordinator as a system, connections and long polls

    The properties of the concurrent coordinator and of the connection control
    protocol, each with an instance at the concrete history of Demo. *)
From S2P Require Import Prelude GoStd GoNet GoCrypto Types Runtime Validate Wire Registry RateLimit.
From S2P Require Import Auth ConnSpec EnrollSpec World Steps Cleanup Enrollment Directory Connections LongPoll.
From S2P Require Import Http System Demo.

Local Open Scope Z_scope.

(** ** A concrete run with a blocked inbox poll

    Node beta polls its inbox and blocks; then alpha's request arrives. *)

Definition pollBeta : request := signedRequest "beta" "nonce-poll" "/v1/connections/inbox/wait" "5".
Definition pollStarted : world := after (inboxStart pollBeta) enrolledWorld.
Definition pollBlocked : world := after (inboxRound "beta" 0 32) pollStarted.
Definition pollSignal : chan :=
  match answer (inboxRound "beta" 0 32) pollStarted with Wait s _ => s | Answer _ => 0%nat end.
Definition pollAnswer : response :=
  match answer (inboxRound "beta" 0 32) pollStarted with Wait _ r => r | Answer r => r end.
Definition pollThreads : gmap nat thread := {[0%nat := InboxBlocked "beta" 0 32 pollSignal pollAnswer]}.
Definition betaInput : createConnectionInput := mkCreateConnectionInput "key-1" "beta" "ssh" "".
Definition requestArrived : world := after (createLocked betaInput "alpha") pollBlocked.

(** The history as a run of the system. *)

Lemma run_answer {A} (m : M A) w : run m w = (answer m w, after m w).
Proof. unfold answer, after. by destruct (run m w). Qed.

Lemma enrollNode_sections ts name w : wp (enrollNode name) (λ _ w', sections ts w w') w.
Proof.
  unfold enrollNode. wp_op. eapply wp_mono; [apply (requestEnrollment_sections ts)|]. intros r w1 S1.
  wp_op. change (approveHandshake (adminRequest "POST" "/v1/admin/approve" (codeIn r)))
    with (adminHandler (adminRequest "POST" "/v1/admin/approve" (codeIn r))).
  eapply wp_section; [apply (sec_admin _ _ "")|exact S1|]. intros r2 w2 S2.
  wp_op. destruct (node_sections ts (signedRequest name ("nonce-" +:+ name) "/v1/nodes/register" name) w2) as [H _].
  eapply wp_mono; [exact H|]. intros r3 w3 S3. wp_op. unfold sections in *. by etrans.
Qed.

Definition homeLimits : serverLimits := mkServerLimits 0 0 0 0.

Lemma enrolledWorld_reachable : reachable demoToken "home" homeLimits (enrolledWorld, ∅).
Proof.
  unfold reachable, enrolledWorld. apply (wp_after _ (λ w, rtc sysStep (demoStart, ∅) (w, ∅))).
  wp_op. eapply wp_mono; [apply (enrollNode_sections ∅)|]. intros r1 w1 S1.
  eapply wp_mono; [apply (enrollNode_sections ∅)|]. intros r2 w2 S2. unfold sections in *. by etrans.
Qed.

Lemma pollBlocked_reachable : reachable demoToken "home" homeLimits (pollBlocked, pollThreads).
Proof.
  unfold reachable. eapply rtc_r; [eapply rtc_r; [exact enrolledWorld_reachable|]|].
  - apply ss_run, (rs_inbox_start 0%nat pollBeta enrolledWorld ∅ "beta" 0 32 (5 * Time.second) pollStarted); [done|].
    rewrite run_answer. apply (f_equal2 pair); [by vm_compute|done].
  - pose proof (rs_inbox_round 0%nat pollStarted (<[0%nat := InboxPolling "beta" 0 32]> ∅) "beta" 0 32
      (Wait pollSignal pollAnswer) pollBlocked) as H.
    rewrite insert_insert_eq in H. apply ss_run, H; [by rewrite lookup_insert_eq|]. rewrite run_answer. apply (f_equal2 pair); [by vm_compute|done].
Qed.

Lemma requestArrived_reachable : reachable demoToken "home" homeLimits (requestArrived, pollThreads).
Proof.
  unfold reachable. eapply rtc_r; [exact pollBlocked_reachable|]. eapply ss_run, rs_section, sec_create.
Qed.

Lemma pollThreads_beta : ∃ i t, pollThreads !! i = Some t ∧ inboxOf t = Some "beta".
Proof.
  exists 0%nat, (InboxBlocked "beta" 0 32 pollSignal pollAnswer). split; [|reflexivity].
  unfold pollThreads. apply lookup_singleton_eq.
Qed.

(** ** The system *)

(** C1. In every state the coordinator can reach — any interleaving of the
    critical sections of any handlers with long polls, time-outs, lost clients
    and restarts — the state in memory and the one in the state file satisfy
    the invariant of both protocols (unique device codes and request ids,
    capacities, the idempotency index, one status code per state, bounded
    audit, well-formed directory entries of authorized nodes), and no signal
    channel is closed twice. *)
Theorem coordinator_invariant {env : Env} {unique : UniqueTokens env} token net l w ts :
  reachable token net l (w, ts) → worldInv w.
Proof. intros H. exact (sy_world _ (reachable_inv _ _ _ _ H)). Qed.

Lemma coordinator_invariant_witness :
  reachable demoToken "home" homeLimits (requestArrived, pollThreads)
  ∧ size (Connections (w_state requestArrived)) = 1%nat ∧ worldInv requestArrived.
Proof.
  split; [exact requestArrived_reachable|]. split; [by vm_compute|].
  exact (coordinator_invariant demoToken "home" homeLimits requestArrived pollThreads requestArrived_reachable).
Defined.

(** C6. No wake-up is lost: whenever an inbox poll is blocked and a request
    for its node is queued beyond the cursor it asked from, the signal it
    waits for is closed and its next round can run. *)
Theorem no_lost_wakeup {env : Env} {unique : UniqueTokens env} token net l w ts i node from limit s r id c :
  reachable token net l (w, ts) →
  ts !! i = Some (InboxBlocked node from limit s r) →
  Connections (w_state w) !! id = Some c → waiting node from c = true →
  s ∈ closedChans (w_chans w) ∧ sysStep (w, ts) (w, <[i := InboxPolling node from limit]> ts).
Proof.
  intros H Hi Hc Hw. pose proof (reachable_inv _ _ _ _ H) as Hinv.
  destruct (sy_threads _ Hinv i _ Hi) as [_ [Hs|[_ Hn]]].
  - split; [done|]. by eapply ss_run, rs_inbox_woken.
  - rewrite (Hn id c Hc) in Hw. done.
Qed.

Lemma no_lost_wakeup_witness :
  ∃ id c, Connections (w_state requestArrived) !! id = Some c ∧ waiting "beta" 0 c = true
    ∧ pollSignal ∈ closedChans (w_chans requestArrived).
Proof.
  set (id := (map_to_list (Connections (w_state requestArrived))).*1 !!! 0%nat).
  destruct (Connections (w_state requestArrived) !! id) as [c|] eqn:Hc; [|exfalso; by vm_compute in Hc].
  exists id, c. assert (waiting "beta" 0 c = true) as Hw by (vm_compute in Hc; injection Hc as <-; by vm_compute).
  split; [exact Hc|]. split; [exact Hw|].
  exact (proj1 (no_lost_wakeup demoToken "home" homeLimits requestArrived pollThreads 0%nat "beta" 0 32
    pollSignal pollAnswer id c requestArrived_reachable eq_refl Hc Hw)).
Defined.

(** A status poll that is blocked has missed nothing: if its request is no
    longer in the state the client knew, its signal is closed. *)
Theorem status_wait_current {env : Env} {unique : UniqueTokens env} token net l w ts i node id known s r :
  reachable token net l (w, ts) →
  ts !! i = Some (StatusBlocked node id known s r) →
  (cr_State <$> Connections (w_state w) !! id) ≠ Some known ∨ connectionTerminal known = true →
  s ∈ closedChans (w_chans w).
Proof.
  intros H Hi Hchanged. pose proof (reachable_inv _ _ _ _ H) as Hinv.
  destruct (sy_threads _ Hinv i _ Hi) as [Hs|[_ (c & Hc & Hst & Hterm)]]; [done|].
  simpl in Hc. rewrite Hc, <- Hst in Hchanged. simpl in Hchanged. destruct Hchanged as [|]; congruence.
Qed.

(** At most one inbox poll of a node runs at any time, and the node is
    marked as waiting exactly while it does. *)
Theorem inbox_poll_exclusive {env : Env} {unique : UniqueTokens env} token net l w ts :
  reachable token net l (w, ts) →
  (∀ i j t u node, ts !! i = Some t → ts !! j = Some u →
     inboxOf t = Some node → inboxOf u = Some node → i = j)
  ∧ (∀ node, inboxWaiters (w_reg w) !! node = Some true ↔ ∃ i t, ts !! i = Some t ∧ inboxOf t = Some node).
Proof.
  intros H. pose proof (reachable_inv _ _ _ _ H) as Hinv. split; [exact (sy_single _ Hinv)|exact (sy_waiters _ Hinv)].
Qed.

Lemma inbox_poll_exclusive_witness :
  inboxWaiters (w_reg pollBlocked) !! "beta" = Some true
  ∧ (∃ i t, pollThreads !! i = Some t ∧ inboxOf t = Some "beta").
Proof.
  split; [|exact pollThreads_beta].
  exact (proj2 (proj2 (inbox_poll_exclusive demoToken "home" homeLimits pollBlocked pollThreads
    pollBlocked_reachable) "beta") pollThreads_beta).
Defined.

(** ** A blocked status poll, and the decision it waits for *)

Definition statusOfAlpha : request := signedRequest "alpha" "nonce-status" "/v1/connections/status/wait" connectionID.
Definition statusStarted : world := after (statusStart statusOfAlpha) connectedWorld.
Definition statusBlocked : world := after (statusRound "alpha" connectionID "queued" true) statusStarted.
Definition statusSignal : chan :=
  match answer (statusRound "alpha" connectionID "queued" true) statusStarted with Wait s _ => s | Answer _ => 0%nat end.
Definition statusAnswer : response :=
  match answer (statusRound "alpha" connectionID "queued" true) statusStarted with Wait _ r => r | Answer r => r end.
Definition statusThreads : gmap nat thread :=
  {[0%nat := StatusBlocked "alpha" connectionID "queued" statusSignal statusAnswer]}.
Definition decided : world := after (decideLocked "beta" connectionID "welcome" "accepted" 200) statusBlocked.

Lemma connectedWorld_reachable : reachable demoToken "home" homeLimits (connectedWorld, ∅).
Proof.
  unfold reachable, connectedWorld. etrans; [exact enrolledWorld_reachable|].
  apply (wp_after _ (λ w, rtc sysStep (enrolledWorld, ∅) (w, ∅))).
  apply (connection_sections ∅ connectAlpha (createConnection connectAlpha) enrolledWorld). reflexivity.
Qed.

Lemma decided_reachable : reachable demoToken "home" homeLimits (decided, statusThreads).
Proof.
  unfold reachable. eapply rtc_r; [|eapply ss_run, rs_section, sec_accept].
  eapply rtc_r; [eapply rtc_r; [exact connectedWorld_reachable|]|].
  - apply ss_run, (rs_status_start 0%nat statusOfAlpha connectedWorld ∅ true "alpha" connectionID "queued" (5 * Time.second) statusStarted); [done|].
    rewrite run_answer. apply (f_equal2 pair); [by vm_compute|done].
  - pose proof (rs_status_wait 0%nat statusStarted (<[0%nat := StatusPolling "alpha" connectionID "queued" true]> ∅)
      "alpha" connectionID "queued" true statusSignal statusAnswer statusBlocked) as H.
    rewrite insert_insert_eq in H. apply ss_run, H; [by rewrite lookup_insert_eq|].
    rewrite run_answer. apply (f_equal2 pair); [by vm_compute|done].
Qed.

Lemma status_wait_current_witness :
  (cr_State <$> Connections (w_state decided) !! connectionID) = Some "accepted"
  ∧ statusSignal ∈ closedChans (w_chans decided).
Proof.
  assert ((cr_State <$> Connections (w_state decided) !! connectionID) = Some "accepted") as Hacc by (by vm_compute).
  split; [exact Hacc|].
  apply (status_wait_current demoToken "home" homeLimits decided statusThreads 0%nat "alpha" connectionID "queued"
    statusSignal statusAnswer decided_reachable (lookup_singleton_eq _ _)).
  left. rewrite Hacc. discriminate.
Defined.

(** ** Connections *)

(** Every request to the public listener that returns at once is a
    sequence of the critical sections of [section]: interleaving sections is
    interleaving handlers. *)
Theorem public_handlers_are_sections {env : Env} req m w ts :
  servePublic req = Handler m → rtc sysStep (w, ts) ((run m w).2, ts).
Proof. intros H. exact (servePublic_sections ts req m w H). Qed.

Lemma public_handlers_are_sections_witness :
  (∃ m, servePublic connectAlpha = Handler m)
  ∧ rtc sysStep (enrolledWorld, ∅) ((run (createConnection connectAlpha) enrolledWorld).2, ∅).
Proof.
  assert (servePublic connectAlpha = Handler (createConnection connectAlpha)) as H by reflexivity.
  split; [exists (createConnection connectAlpha); exact H|].
  exact (public_handlers_are_sections connectAlpha (createConnection connectAlpha) enrolledWorld ∅ H).
Defined.

(** C2. Refinement: every request to the public listener that is answered at
    once stays, in all its effects, within the connection protocol on behalf of
    the node it names and within the enrollment protocol on at most the
    authority of that node's signature; it keeps the coordinator's invariant and
    wakes every waiter it has news for.  The rounds of the long polls are
    sections of [sysStep]. *)
Theorem public_refinement {env : Env} {unique : UniqueTokens env} req m w :
  worldInv w → servePublic req = Handler m →
  let w' := (run m w).2 in
  connSteps (wLimit w) (requestNode req) (connOf w) (connOf w')
  ∧ enrollSteps (publicAuthority w req) (enrollOf (w_state w)) (enrollOf (w_state w'))
  ∧ worldInv w' ∧ wakes w w'.
Proof.
  intros Hw Hm w'. pose proof (servePublic_steps req m w Hw Hm) as S.
  change (stepsTo (publicAuthority w req) (requestNode req) w w') in S.
  split_and!; [apply S|apply S|by apply S|by apply S].
Qed.

Lemma public_refinement_witness :
  worldInv enrolledWorld ∧
  connSteps (wLimit enrolledWorld) "alpha" (connOf enrolledWorld) (connOf connectedWorld).
Proof.
  split; [exact enrolledWorld_inv|].
  exact (proj1 (public_refinement connectAlpha (createConnection connectAlpha) enrolledWorld enrolledWorld_inv eq_refl)).
Defined.

(** Moves along a step taken for a node. *)
Lemma moves_of_steps {env : Env} {unique : UniqueTokens env} a actor w w1 w' id c d :
  worldInv w → stepsTo a actor w w1 → recorded w' = recorded w1 →
  Connections (w_state w) !! id = Some c → Connections (w_state w') !! id = Some d → requestMoves actor c d.
Proof.
  intros Hw S Hr Hc Hd. injection Hr as Es _ _ _ _. rewrite Es in Hd.
  destruct (connSteps_moves _ _ _ _ (si_conn _ _ _ _ (wi_memory _ Hw)) (to_conn _ _ _ _ S)) as [_ Hmoves].
  destruct (Hmoves id d Hd) as (c' & Hc' & Hmv).
  - apply (ci_used _ _ (si_conn _ _ _ _ (wi_memory _ Hw))). by exists c.
  - simpl in Hc'. congruence.
Qed.

(** A request that moves on behalf of every node is decided and canceled by
    none. *)
Lemma moves_any c d :
  (∀ actor, requestMoves actor c d) →
  (cr_State d = "accepted" ∨ cr_State d = "rejected" → cr_State c = cr_State d)
  ∧ (cr_State d = "canceled" → cr_State c = "canceled").
Proof.
  assert (∀ s, s ≠ s +:+ "'") as Hne.
  { intros s H. apply (f_equal (length ∘ Strings.bytes)) in H. simpl in H. rewrite bytes_app, length_app in H. simpl in H. lia. }
  intros H. split; intros Hst.
  - destruct (rm_decide _ _ _ (H (cr_TargetNode c +:+ "'")) Hst) as [|E]; [done|by apply Hne in E].
  - destruct (rm_cancel _ _ _ (H (cr_SourceNode c +:+ "'")) Hst) as [|E]; [done|by apply Hne in E].
Qed.

(** C13. Who may move a connection request.  Whatever serving a request does —
    a request to the public listener, at once or in any round of a long poll,
    or a request to the admin listener — a connection request that was there
    keeps its identity, follows the life cycle, and once terminal is frozen; it
    becomes accepted or rejected only when its target has signed the request
    that is served, and canceled only when its source has. *)
Theorem connection_authority {env : Env} {unique : UniqueTokens env} req w0 w w' id c d :
  worldInv w → serves req w0 w w' ∨ (w0 = w ∧ w' = (run (serveAdminRequest req) w).2) →
  Connections (w_state w) !! id = Some c → Connections (w_state w') !! id = Some d →
  requestMoves (requestNode req) c d
  ∧ (cr_State d = "accepted" ∨ cr_State d = "rejected" →
       cr_State c = cr_State d ∨ (cr_TargetNode c = requestNode req ∧ signed w0 req))
  ∧ (cr_State d = "canceled" →
       cr_State c = "canceled" ∨ (cr_SourceNode c = requestNode req ∧ signed w0 req)).
Proof.
  intros Hw Hs Hc Hd.
  assert ((signed w0 req ∧ requestMoves (requestNode req) c d) ∨ ∀ actor, requestMoves actor c d) as [[Hsig Hm]|Hany].
  { destruct Hs as [Hs|[-> ->]].
    - destruct (serves_acts _ _ _ _ Hw Hs) as [[Hsig (a & w1 & _ & S & Hr)]|Hany]; [left|right].
      + split; [done|]. by eapply moves_of_steps.
      + intros actor. destruct (Hany actor) as (a & w1 & _ & S & Hr). by eapply moves_of_steps.
    - right. intros actor. eapply moves_of_steps; [done|exact (proj1 (serveAdminRequest_steps actor req w))|done|done|done]. }
  - split; [done|]. split; intros Hst.
    + destruct (rm_decide _ _ _ Hm Hst); auto.
    + destruct (rm_cancel _ _ _ Hm Hst); auto.
  - destruct (moves_any _ _ Hany) as [Hdec Hcan]. split; [apply Hany|]. split; intros Hst; left; auto.
Qed.

Definition acceptBeta : request := signedRequest "beta" "nonce-2" "/v1/connections/accept" connectionID.
Definition acceptedWorld : world := after (decideConnection acceptBeta "accepted" 200) connectedWorld.

Lemma connection_authority_witness :
  ∃ c d, Connections (w_state connectedWorld) !! connectionID = Some c
    ∧ Connections (w_state acceptedWorld) !! connectionID = Some d
    ∧ cr_State c = "queued" ∧ cr_State d = "accepted"
    ∧ cr_TargetNode c = "beta" ∧ signed connectedWorld acceptBeta.
Proof.
  destruct (Connections (w_state connectedWorld) !! connectionID) as [c|] eqn:Hc; [|exfalso; by vm_compute in Hc].
  destruct (Connections (w_state acceptedWorld) !! connectionID) as [d|] eqn:Hd; [|exfalso; by vm_compute in Hd].
  exists c, d. split; [reflexivity|]. split; [reflexivity|].
  assert (cr_State c = "queued") as Ec by (vm_compute in Hc; by injection Hc as <-).
  assert (cr_State d = "accepted") as Ed by (vm_compute in Hd; by injection Hd as <-).
  split; [exact Ec|]. split; [exact Ed|].
  assert (serves acceptBeta connectedWorld connectedWorld acceptedWorld) as Hs.
  { apply (sv_handler acceptBeta connectedWorld (decideConnection acceptBeta "accepted" 200)). reflexivity. }
  destruct (connection_authority acceptBeta connectedWorld connectedWorld acceptedWorld connectionID c d
    connectedWorld_inv (or_introl Hs) Hc Hd) as (_ & H & _).
  destruct (H (or_introl Ed)) as [E|E]; [exfalso; rewrite Ec, Ed in E; discriminate|exact E].
Defined.

(** C12. A request for a connection: 201 creates exactly one queued request, of
    the signing node, to an active node of the same virtual network that
    publishes the service, below both capacities, under the target's next
    cursor, and on disk; 200 returns the request made before with that
    idempotency key and creates nothing. The checks hold of the state the
    handler read: the one the signature check left, cleaned up at that
    moment. *)
Theorem create_connection_correct {env : Env} {unique : UniqueTokens env} req w :
  worldInv w →
  let '(r, w') := run (createConnection req) w in
  rs_Status r = 201 ∨ rs_Status r = 200 →
  ∃ body key input, signedBy w req body key ∧ unmarshalCreateConnection body = Some input ∧ validCreate input = true
    ∧ let wa := (run (authenticatedConnectionBody req) w).2 in w_state wa = w_state w
    ∧ (rs_Status r = 201 → createdBy Anyone (requestNode req) wa input r w')
    ∧ (rs_Status r = 200 → existingBy Anyone (requestNode req) wa input r w').
Proof.
  intros Hw. destruct (run (createConnection req) w) as [r w'] eqn:Hrun.
  exact (proj2 (wp_run _ _ _ _ _ Hrun (createConnection_spec Anyone (requestNode req) req w Hw eq_refl))).
Qed.

Lemma create_connection_correct_witness :
  rs_Status (answer (createConnection connectAlpha) enrolledWorld) = 201
  ∧ (let '(r, w') := run (createConnection connectAlpha) enrolledWorld in
     ∃ body input, unmarshalCreateConnection body = Some input
       ∧ createdBy Anyone "alpha" (run (authenticatedConnectionBody connectAlpha) enrolledWorld).2 input r w').
Proof.
  assert (rs_Status (answer (createConnection connectAlpha) enrolledWorld) = 201) as Hr by (by vm_compute).
  split; [exact Hr|].
  pose proof (create_connection_correct connectAlpha enrolledWorld enrolledWorld_inv) as H.
  unfold answer in Hr. destruct (run (createConnection connectAlpha) enrolledWorld) as [r w'].
  destruct (H (or_introl Hr)) as (body & key & input & _ & Hin & _ & _ & Hc & _).
  exists body, input. split; [exact Hin|exact (Hc Hr)].
Defined.

(** Accept, reject and cancel: a 200 shows the request in the asked state,
    it is so in memory, the caller is its target (its source for a cancel)
    and signed the call; and a state file that was current still is. *)
Theorem settle_connection_correct {env : Env} {unique : UniqueTokens env} req w :
  worldInv w →
  let settled := λ m st role, rs_Status (run m w).1 = 200 →
    ∃ body key input, signedBy w req body key ∧ unmarshalConnectionID body = Some input
      ∧ settledBy (requestNode req) (ii_RequestID input) st role (run m w).1 w (run m w).2 in
  settled (decideConnection req "accepted" 200) "accepted" cr_TargetNode
  ∧ settled (decideConnection req "rejected" 403) "rejected" cr_TargetNode
  ∧ settled (cancelConnection req) "canceled" cr_SourceNode.
Proof.
  intros Hw settled. split_and!.
  - exact (proj2 (decideConnection_spec Anyone (requestNode req) req "accepted" 200 w Hw eq_refl
      (or_introl (conj eq_refl eq_refl)))).
  - exact (proj2 (decideConnection_spec Anyone (requestNode req) req "rejected" 403 w Hw eq_refl
      (or_intror (conj eq_refl eq_refl)))).
  - exact (proj2 (cancelConnection_spec Anyone (requestNode req) req w Hw eq_refl)).
Qed.

Lemma settle_connection_correct_witness :
  rs_Status (run (decideConnection acceptBeta "accepted" 200) connectedWorld).1 = 200
  ∧ ∃ body key input, signedBy connectedWorld acceptBeta body key ∧ unmarshalConnectionID body = Some input
      ∧ settledBy "beta" (ii_RequestID input) "accepted" cr_TargetNode
          (run (decideConnection acceptBeta "accepted" 200) connectedWorld).1 connectedWorld
          (run (decideConnection acceptBeta "accepted" 200) connectedWorld).2.
Proof.
  assert (rs_Status (run (decideConnection acceptBeta "accepted" 200) connectedWorld).1 = 200) as Hr by (by vm_compute).
  split; [exact Hr|].
  exact (proj1 (settle_connection_correct acceptBeta connectedWorld connectedWorld_inv) Hr).
Defined.

(** A round of an inbox poll gives the node its oldest queued requests
    after the cursor, in cursor order, at most the asked number and with none
    skipped; they are offered and on disk, and the answer's cursor is the last
    one's.  It blocks only when there is nothing to give, on the node's
    registered signal. *)
Theorem inbox_round_correct {env : Env} {unique : UniqueTokens env} node from limit w :
  worldInv w → 0 < limit →
  let '(x, w') := run (inboxRound node from limit) w in inboxOutcome Anyone node from limit x w'.
Proof.
  intros Hw Hl. destruct (run (inboxRound node from limit) w) as [x w'] eqn:Hrun.
  exact (proj2 (wp_run _ _ _ _ _ Hrun (inboxRound_spec Anyone node from limit w Hw Hl))).
Qed.

Lemma inbox_round_correct_witness :
  (∃ r, answer (inboxRound "beta" 0 32) connectedWorld = Answer r ∧ rs_Status r = 200)
  ∧ (let '(x, w') := run (inboxRound "beta" 0 32) connectedWorld in inboxOutcome Anyone "beta" 0 32 x w').
Proof.
  split; [|exact (inbox_round_correct "beta" 0 32 connectedWorld connectedWorld_inv eq_refl)].
  destruct (answer (inboxRound "beta" 0 32) connectedWorld) as [r|s r] eqn:E.
  - exists r. split; [reflexivity|]. vm_compute in E. injection E as <-. reflexivity.
  - exfalso. by vm_compute in E.
Defined.

(** A status poll shows a request only to its source and its target, as
    it is; it blocks only while the request is in the state the client knows
    and can still leave it. *)
Theorem status_round_correct {env : Env} {unique : UniqueTokens env} node id known wait w :
  worldInv w →
  let '(x, w') := run (statusRound node id known wait) w in statusOutcome node id known wait x w'.
Proof.
  intros Hw. destruct (run (statusRound node id known wait) w) as [x w'] eqn:Hrun.
  exact (proj2 (wp_run _ _ _ _ _ Hrun (statusRound_spec Anyone node id known wait w Hw))).
Qed.

Lemma status_round_correct_witness :
  (∃ s r, answer (statusRound "alpha" connectionID "queued" true) connectedWorld = Wait s r)
  ∧ (let '(x, w') := run (statusRound "alpha" connectionID "queued" true) connectedWorld in
     statusOutcome "alpha" connectionID "queued" true x w').
Proof.
  split; [|exact (status_round_correct "alpha" connectionID "queued" true connectedWorld connectedWorld_inv)].
  destruct (answer (statusRound "alpha" connectionID "queued" true) connectedWorld) as [r|s r] eqn:E.
  - exfalso. by vm_compute in E.
  - exists s, r. reflexivity.
Defined.

(** Acknowledging an inbox cursor never moves it back and never beyond the
    cursors handed out; the answer is the acknowledged cursor. *)
Theorem ack_correct {env : Env} node cursor w :
  let '(r, w') := run (ackLocked node cursor) w in
  (cursorOf (ConnectionCursors (w_state w)) node < cursor → rs_Status r = 409 ∧ w' = w)
  ∧ (rs_Status r = 200 → cursor ≤ cursorOf (ConnectionCursors (w_state w)) node
      ∧ cursorOf (ConnectionAcks (w_state w')) node = Z.max cursor (cursorOf (ConnectionAcks (w_state w)) node)
      ∧ r = writeJSON 200 (JAcknowledged (cursorOf (ConnectionAcks (w_state w')) node))).
Proof.
  destruct (run (ackLocked node cursor) w) as [r w'] eqn:Hrun. split.
  - intros Hahead. apply Z.ltb_lt in Hahead.
    assert (wp (ackLocked node cursor) (λ r w', rs_Status r = 409 ∧ w' = w) w) as H.
    { unfold ackLocked. wp_op. wp_op. rewrite Hahead. by wp_op. }
    exact (wp_run _ _ _ _ _ Hrun H).
  - intros Hr. destruct (wp_run _ _ _ _ _ Hrun (ackLocked_spec Anyone node cursor w)) as [_ H].
    destruct (H Hr) as (H1 & H2 & H3 & _). by split_and!.
Qed.

(** Inbox cursors: while no counter reaches its last value, every step of
    the protocol keeps cursors positive, at most the target's counter, distinct
    among one target's requests, and acknowledgements behind the counter. *)
Theorem cursors_unique limit actor s s' :
  connStep limit actor s s' → connInv limit s → noOverflow s → cursorInv s → cursorInv s'.
Proof. exact (connStep_cursors limit actor s s'). Qed.

Lemma cursors_unique_witness :
  ∃ c, let s := mkConnState ∅ ∅ ∅ ∅ ∅ in
    let s' := mkConnState {["id" := c]} {[connKey c := "id"]} {["beta" := 1]} ∅ {["id"]} in
    connStep 10 "alpha" s s' ∧ cursorInv s'.
Proof.
  set (c := mkConnectionRequest "id" "k" "alpha" "beta" "ssh" "" "queued" 100 "" 1 0 0 0 Time.zero).
  exists c. cbv zeta. set (s := mkConnState ∅ ∅ ∅ ∅ ∅).
  assert (connStep 10 "alpha" s (mkConnState {["id" := c]} {[connKey c := "id"]} {["beta" := 1]} ∅ {["id"]})) as H.
  { pose proof (cs_create 10 "alpha" ∅ ∅ ∅ ∅ ∅ c eq_refl (not_elem_of_empty _) eq_refl eq_refl eq_refl eq_refl eq_refl
      eq_refl eq_refl) as H. by rewrite union_empty_r_L in H. }
  split; [exact H|].
  apply (cursors_unique 10 "alpha" s _ H).
  - split; simpl; try done. by intros id [x Hx].
  - done.
  - split; simpl; done.
Defined.

(** Idempotency keys of different nodes never meet: the index of node and
    key determines both, for node names without a zero byte (a header value
    has none). *)
Theorem idempotency_index_injective s1 k1 s2 k2 :
  (("000" : ascii)%char ∉ Strings.bytes s1) → (("000" : ascii)%char ∉ Strings.bytes s2) →
  idemKey s1 k1 = idemKey s2 k2 → s1 = s2 ∧ k1 = k2.
Proof.
  unfold idemKey. intros H1 H2 H. apply (f_equal Strings.bytes) in H. rewrite !bytes_app, !bytes_ofBytes in H.
  assert (∀ (l1 l2 r1 r2 : list ascii) z, z ∉ l1 → z ∉ l2 → l1 ++ z :: r1 = l2 ++ z :: r2 → l1 = l2 ∧ r1 = r2) as Hsplit.
  { clear. induction l1 as [|a l1 IH]; intros [|b l2] r1 r2 z H1 H2 H; simpl in *; simplify_eq; try done; [set_solver|set_solver|].
    destruct (IH l2 r1 r2 z) as [-> ->]; [set_solver|set_solver|done|done]. }
  destruct (Hsplit _ _ _ _ _ H1 H2 H) as [E1 E2]. split; by apply bytes_inj.
Qed.

Lemma idempotency_index_injective_witness :
  idemKey "alpha" "key" = idemKey "alpha" "key" ∧ "alpha" = "alpha" ∧ "key" = "key".
Proof.
  split; [reflexivity|].
  apply (idempotency_index_injective "alpha" "key" "alpha" "key"); [| |reflexivity];
    apply (bool_decide_unpack (_ ∉ _)); vm_compute; exact I.
Defined.

(** The wait of a long poll is positive and at most the configured one,
    for every asked number of seconds that does not overflow a duration. *)
Theorem bounded_wait r seconds :
  0 < connectionWait r → seconds * Time.second < 2 ^ 63 →
  0 < boundedConnectionWait r seconds ≤ connectionWait r
  ∧ (0 < seconds → seconds * Time.second ≤ connectionWait r → boundedConnectionWait r seconds = seconds * Time.second).
Proof.
  unfold boundedConnectionWait, Time.second. intros Hr Hs.
  destruct (seconds <=? 0) eqn:E; bool_simpl; [split; [lia|lia]|].
  rewrite wrapInt64_id by lia. destruct (connectionWait r <? _) eqn:E2; bool_simpl; split; lia.
Qed.

Lemma bounded_wait_witness :
  boundedConnectionWait (w_reg demoStart) 5 = 5 * Time.second
  ∧ 0 < boundedConnectionWait (w_reg demoStart) 5 ≤ connectionWait (w_reg demoStart).
Proof.
  split; [by vm_compute|]. apply (bounded_wait (w_reg demoStart) 5); by vm_compute.
Defined.

(** The overflow: ten billion seconds are a negative duration, which is
    not above the maximum, so the deadline has passed before the first round. *)
Theorem bounded_wait_overflow r :
  0 < connectionWait r → boundedConnectionWait r 10000000000 < 0.
Proof.
  unfold boundedConnectionWait. intros Hr. simpl.
  replace (wrapInt64 (10000000000 * Time.second)) with (-8446744073709551616) by (by vm_compute).
  destruct (connectionWait r <? _) eqn:E; bool_simpl; lia.
Qed.

Lemma bounded_wait_overflow_witness :
  connectionWait (w_reg demoStart) = 25 * Time.second ∧ boundedConnectionWait (w_reg demoStart) 10000000000 < 0.
Proof. split; [by vm_compute|]. apply (bounded_wait_overflow (w_reg demoStart)). by vm_compute. Defined.
