(* ===== verification/AccessTheorems.v ===== *)
(** * Theorems: enrollment, administration, authentication, the directory

    Who gets in, and what the others learn of it: the properties of the
    enrollment, admin, discovery and authentication code, each with an
    instance at the concrete history of Demo. *)
From S2P Require Import Prelude GoStd GoNet GoCrypto Types Runtime Validate Wire Registry RateLimit.
From S2P Require Import Auth ConnSpec EnrollSpec World Steps Cleanup Enrollment Directory Connections LongPoll.
From S2P Require Import Http System Demo ControlTheorems.

Local Open Scope Z_scope.

(** ** Credentials *)

(** C8. No public request changes a credential: every request to the public
    listener reaches a handler or a long poll, and the authorized keys are the
    same after whatever serving it does — what its handler does, the start of
    its poll, and every round of it, in any state the poll finds. *)
Theorem public_credentials_fixed {env : Env} {unique : UniqueTokens env} req w0 w w' :
  worldInv w → serves req w0 w w' →
  servePublic req ≠ NoRoute ∧ Authorized (w_state w') = Authorized (w_state w).
Proof.
  intros Hw Hs. split.
  { unfold servePublic. destruct (Strings.HasPrefix _ _); [|by destruct (publicLimit req)]. by destruct (serveConnections req). }
  assert (∃ actor, actsFor actor w w') as (actor & a & w1 & Ha & S & Hr).
  { destruct (serves_acts _ _ _ _ Hw Hs) as [[_ H]|H]; [by eexists|exists ""; apply H]. }
  injection Hr as -> _ _ _ _. exact (enrollSteps_auth _ _ _ Ha (to_enroll _ _ _ _ S)).
Qed.

(** An enrollment request of a node that has a key already, and a round of
    beta's inbox poll. *)
Definition requestGamma : request := publicRequest "/v1/enroll/request" "alpha".

Definition servedBy {env : Env} (req : request) : M response :=
  match servePublic req with Handler m => m | _ => mret notFound end.

Lemma public_credentials_fixed_witness :
  size (Authorized (w_state enrolledWorld)) = 2%nat
  ∧ Authorized (w_state (run (servedBy requestGamma) enrolledWorld).2) = Authorized (w_state enrolledWorld)
  ∧ Authorized (w_state (run (inboxRound "beta" 0 32) connectedWorld).2) = Authorized (w_state connectedWorld).
Proof.
  split; [by vm_compute|]. split.
  - refine (proj2 (public_credentials_fixed requestGamma enrolledWorld enrolledWorld _ enrolledWorld_inv _)).
    apply sv_handler. reflexivity.
  - refine (proj2 (public_credentials_fixed pollBeta enrolledWorld connectedWorld _ connectedWorld_inv _)).
    apply (sv_inbox_round pollBeta enrolledWorld "beta" 0 32 (5 * Time.second) pollStarted connectedWorld eq_refl).
    rewrite run_answer. apply (f_equal2 pair); [by vm_compute|done].
Defined.

(** The admin API acts only for a local client with the token: without
    either, the answer is an error and the state is untouched; with both, what
    it does is within the enrollment protocol on the administrator's
    authority, and keeps the invariant. *)
Theorem admin_authority {env : Env} {unique : UniqueTokens env} req w :
  let '(r, w') := run (serveAdminRequest req) w in
  (isLoopbackRequest req = false ∨ adminAuthorized (w_reg w) req = false →
     400 ≤ rs_Status r ∧ w_state w' = w_state w)
  ∧ enrollSteps (adminRequestAuthority w req) (enrollOf (w_state w)) (enrollOf (w_state w'))
  ∧ (worldInv w → worldInv w').
Proof.
  destruct (run (serveAdminRequest req) w) as [r w'] eqn:Hrun.
  destruct (wp_run _ _ _ _ _ Hrun (serveAdminRequest_steps "" req w)) as [S H].
  split; [exact H|split; apply S].
Qed.

Definition adminPending : request := adminRequest "GET" "/v1/admin/handshakes" "".
Definition remotePending : request :=
  mkRequest "GET" "/v1/admin/handshakes" "203.0.113.5:40000" {["Authorization" := "Bearer " +:+ demoToken]} ∅ "".

Lemma admin_authority_witness :
  rs_Status (answer (serveAdminRequest adminPending) enrolledWorld) = 200
  ∧ 400 ≤ rs_Status (answer (serveAdminRequest remotePending) enrolledWorld).
Proof.
  split; [by vm_compute|]. pose proof (admin_authority remotePending enrolledWorld) as H. unfold answer.
  destruct (run (serveAdminRequest remotePending) enrolledWorld) as [r w']. destruct H as [H _].
  apply H. left. by vm_compute.
Defined.

(** ** Enrollment *)

(** A 201 to an enrollment request: the handshake is stored, pending, under
    a request id and a device code no other pending handshake has, with the digest
    of the secret that only the answer carries; its history says 100; and all
    of it is on disk. *)
Theorem enrollment_request_correct {env : Env} req w :
  let '(r, w') := run (requestEnrollment req) w in
  rs_Status r = 201 → ∃ input secret expires,
    decodeJSON decodeDiscoveryRequest req = Some input
    ∧ dn_VirtualNetwork (dq_Node input) = network (w_reg w)
    ∧ enrolled (mkPendingHandshake "" (Hex.EncodeToString (Sha256.Sum256 secret)) "" (dq_Node input)
        (dq_PublicKey input) (requestSource req) expires false false) secret r w'.
Proof.
  destruct (run (requestEnrollment req) w) as [r w'] eqn:Hrun.
  exact (proj2 (wp_run _ _ _ _ _ Hrun (requestEnrollment_spec Anyone "" req w))).
Qed.

(** A poll answers only to the secret of the handshake, and with the
    handshake's status. *)
Theorem poll_requires_secret {env : Env} req w :
  let '(r, w') := run (pollEnrollment req) w in
  rs_Status r = 200 → ∃ input p, decodeJSON decodePollRequest req = Some input
    ∧ Pending (w_state w') !! pq_RequestID input = Some p
    ∧ ph_SecretHash p = Hex.EncodeToString (Sha256.Sum256 (pq_Secret input))
    ∧ r = writeJSON 200 (JPoll (mkPollResponse (pollStatus p) (ph_ExpiresAt p)
            (hh_Reason (historyOf (History (w_state w')) (pq_RequestID input))))).
Proof.
  destruct (run (pollEnrollment req) w) as [r w'] eqn:Hrun.
  exact (proj2 (wp_run _ _ _ _ _ Hrun (pollEnrollment_spec Anyone "" req w))).
Qed.

(** C15. An answered approval: the administrator's token was given, the code is
    that of an unexpired handshake that was not rejected, another key of an
    authorized node is replaced only when asked to, and the handshake's key is
    now the node's credential, in memory and on disk. *)
Theorem approve_correct {env : Env} req w :
  let '(r, w') := run (approveHandshake req) w in
  rs_Status r = 200 → adminAuthorized (w_reg w) req = true ∧
    ∃ input now b w1, decodeJSON decodeApproveRequest req = Some input
      ∧ cleaned Administrator "" now (tickClock w) b w1
      ∧ approvedBy (normalizeDeviceCode (aq_DeviceCode input)) (aq_Replace input) w1 r w'.
Proof.
  destruct (run (approveHandshake req) w) as [r w'] eqn:Hrun.
  exact (proj2 (wp_run _ _ _ _ _ Hrun (approveHandshake_spec "" req w))).
Qed.

(** An answered rejection leaves every credential alone, marks exactly the
    handshake with that code, and records the trimmed reason, of at most 512
    bytes, in the history on disk. *)
Theorem reject_correct {env : Env} req w :
  let '(r, w') := run (rejectHandshake req) w in
  rs_Status r = 200 → adminAuthorized (w_reg w) req = true ∧
    ∃ input now b w1, decodeJSON decodeApproveRequest req = Some input
      ∧ Z.of_nat (String.length (Strings.TrimSpace (aq_Reason input))) ≤ maxEnrollmentReason
      ∧ cleaned Administrator "" now (tickClock w) b w1
      ∧ rejectedBy (normalizeDeviceCode (aq_DeviceCode input)) (Strings.TrimSpace (aq_Reason input)) w1 r w'.
Proof.
  destruct (run (rejectHandshake req) w) as [r w'] eqn:Hrun.
  exact (proj2 (wp_run _ _ _ _ _ Hrun (rejectHandshake_spec "" req w))).
Qed.

(** An answered revocation removes the credential, the directory entry and
    every pending handshake of exactly that node, on disk.  The directory's
    revision does not move. *)
Theorem revoke_correct {env : Env} req w :
  let '(r, w') := run (revokeNode req) w in
  rs_Status r = 200 → adminAuthorized (w_reg w) req = true ∧
    ∃ input, decodeJSON decodeRevokeRequest req = Some input ∧ revokedBy (rq_NodeID input) w r w'.
Proof.
  destruct (run (revokeNode req) w) as [r w'] eqn:Hrun.
  exact (proj2 (wp_run _ _ _ _ _ Hrun (revokeNode_spec "" req w))).
Qed.

(** ** The directory *)

(** A registration that is answered was signed by the authorized key of
    the node it names, for the coordinator's network; the node is stored as
    admitted, its identity key is the credential's and not what it sent, its
    enrollments are completed, the directory is on disk, and the revision has
    moved by one for a changed topology or a due lease and by one for every
    node that expired or lost a candidate. *)
Theorem registration_correct {env : Env} req w :
  let '(r, w') := run (registerNode req) w in
  rs_Status r = 200 → ∃ n nodes revision, updated w req (n, nodes, revision) w'
    ∧ r = writeJSON 200 (JDiscovery (mkDiscoveryResponse revision true nodes))
    ∧ (∃ key, Authorized (w_state w) !! requestNode req = Some (mkAuthorizedNode key) ∧ dn_IdentityKey n = key).
Proof.
  destruct (run (registerNode req) w) as [r w'] eqn:Hrun. intros Hr.
  destruct (wp_run _ _ _ _ _ Hrun (registerNode_spec "" req w)) as [_ H].
  destruct (H Hr) as (n & nodes & rev & Hu & ->). exists n, nodes, rev. split; [done|]. split; [done|].
  destruct Hu as (body & key & input & n0 & now & w1 & Hs & _ & _ & _ & _ & _ & Hadm & (order & _ & Hx & _)).
  simplify_eq. exists key. split; [apply Hs|].
  destruct (admitNode_same _ _ _ _ Hadm) as (_ & _ & _ & _ & _ & Hkey & _). exact Hkey.
Qed.

(** What a node may publish: an admitted node is well formed — named
    services with valid pins, owned by the node and its segment, at most
    sixteen direct candidates each, sorted, distinct and private, all on the
    same lease; a relay has a valid advertisement and nobody else has one; a
    subnode, and only a subnode, has an upstream. *)
Theorem admitted_node_ok {env : Env} nodes now n n' :
  admitNode nodes now n = inr n' → dn_Name n ≠ "" →
  nodeOk (dn_VirtualNetwork n) (dn_ID n) n'
  ∧ (dn_Role n' = "subnode" → nodesUpstreamOk nodes n' = true)
  ∧ Forall (λ s, Forall (λ c, dc_ExpiresAt c = Time.Add now directCandidateLease) (ps_DirectCandidates s)) (dn_Services n').
Proof.
  intros H Hname. split; [by eapply admitNode_ok|]. split.
  - revert H. unfold admitNode. destruct (mapM _ _) as [services|]; [|done].
    destruct (if (_ =? "relay")%string then _ else _) as [m|]; [|done].
    destruct (dn_Role m =? "subnode")%string eqn:E; [|intros [= <-]; simpl; by bool_simpl].
    destruct (dn_UpstreamRelay m =? "")%string; [done|]. destruct (nodesUpstreamOk nodes m) eqn:Eu; [|done].
    by intros [= <-].
  - destruct (admitNode_same _ _ _ _ H) as (_ & _ & _ & _ & _ & _ & Hm). apply mapM_Some in Hm.
    apply Forall_forall. intros s' Hin. apply list_elem_of_lookup in Hin as [i Hi].
    destruct (Forall2_lookup_r _ _ _ _ _ Hm Hi) as (s & _ & Hs). unfold publishService in Hs.
    destruct (managedDirectCandidates _ _) as [l|] eqn:El; [|done]. destruct (_ || _); [done|].
    injection Hs as <-. simpl. by apply managedDirectCandidates_Some in El as (_ & Hl & _).
Qed.

Lemma admitted_node_ok_witness :
  let n := demoNode "beta" "user" "lan-2" [demoService "ssh"] in
  ∃ n', admitNode ∅ 0 n = inr n' ∧ nodeOk "home" "beta" n'.
Proof.
  cbv zeta. set (n := demoNode "beta" "user" "lan-2" [demoService "ssh"]).
  destruct (admitNode ∅ 0 n) as [e|n'] eqn:E; [exfalso; by vm_compute in E|].
  exists n'. split; [reflexivity|]. exact (proj1 (admitted_node_ok ∅ 0 n n' E ltac:(discriminate))).
Defined.

(** The list of peers a node may be told: other nodes of its own virtual
    network, with the LAN addresses of a service only inside its own segment;
    by name; and, of such nodes, every one in the directory. *)
Definition isolated (node : discoveredNode) (self : string) (nodes : gmap string discoveredNode)
    (l : list discoveredNode) : Prop :=
  (∀ m, m ∈ l → dn_VirtualNetwork m = dn_VirtualNetwork node ∧ dn_ID m ≠ self
     ∧ (dn_Segment m ≠ dn_Segment node → ∀ s, s ∈ dn_Services m → ps_DirectCandidates s = []))
  ∧ StronglySorted (notAfter byName) l
  ∧ ∀ id n, nodes !! id = Some n → dn_VirtualNetwork n = dn_VirtualNetwork node → dn_ID n ≠ self →
      nodeForDiscovery node n ∈ l.

(** C16. Discovery isolation, for both requests that are answered with peers.
    Discovery: the node is told only of other nodes of the virtual network it
    has in the directory, and LAN addresses only inside its segment; every such
    node is listed, by name, or nothing has changed and the list is empty.
    Registration: the same of the coordinator's network and of the segment in
    the body the node has signed.  A heartbeat is answered without peers. *)
Theorem discovery_isolation {env : Env} req w :
  (let '(r, w') := run (discoverNodes req) w in
   rs_Status r = 200 → ∃ node resp, Nodes (w_state w') !! requestNode req = Some node
    ∧ r = writeJSON 200 (JDiscovery resp)
    ∧ if dr_Changed resp then isolated node (requestNode req) (Nodes (w_state w')) (dr_Nodes resp)
      else dr_Nodes resp = [])
  ∧ (let '(r, w') := run (registerNode req) w in
     rs_Status r = 200 → ∃ body key input node resp, signedBy w req body key
      ∧ unmarshalDiscoveryRequest body = Some input
      ∧ dn_VirtualNetwork node = wNetwork w ∧ dn_Segment node = dn_Segment (dq_Node input)
      ∧ r = writeJSON 200 (JDiscovery resp)
      ∧ isolated node (requestNode req) (Nodes (w_state w')) (dr_Nodes resp))
  ∧ (let '(r, w') := run (heartbeatNode req) w in
     rs_Status r = 200 → ∃ beat, r = writeJSON 200 (JHeartbeat beat)).
Proof.
  split_and!.
  - destruct (run (discoverNodes req) w) as [r w'] eqn:Hrun. intros Hr.
    destruct (wp_run _ _ _ _ _ Hrun (discoverNodes_spec "" req w)) as [_ H].
    destruct (H Hr) as (body & key & input & node & _ & _ & Hn & Hcase). exists node.
    destruct (_ =? _); [by eexists|].
    destruct Hcase as (l & Hl & ->). eexists. split; [done|]. split; [reflexivity|]. exact (discovered_spec _ _ _ _ Hl).
  - destruct (run (registerNode req) w) as [r w'] eqn:Hrun. intros Hr.
    destruct (wp_run _ _ _ _ _ Hrun (registerNode_spec "" req w)) as [_ H].
    destruct (H Hr) as (n & nodes & rev & (body & key & input & n0 & now & w1 & Hs & Hin & Hid & Hnet & _ & _ & Hadm & Hst) & ->).
    destruct Hst as (order & Horder & Hx & _). injection Hx as -> -> ->.
    destruct (admitNode_same _ _ _ _ Hadm) as (Hid0 & _ & _ & Hseg & Hnet0 & _).
    exists body, key, input, (setLastSeen now n0). eexists. split; [done|]. split; [done|].
    split; [by etrans|]. split; [done|]. split; [reflexivity|].
    apply discovered_spec. exists order. split; [done|]. simpl in *. by rewrite Hid0, Hid.
  - destruct (run (heartbeatNode req) w) as [r w'] eqn:Hrun. intros Hr.
    destruct (wp_run _ _ _ _ _ Hrun (heartbeatNode_spec "" req w)) as [_ H].
    destruct (H Hr) as (n & nodes & rev & now & w1 & _ & _ & ->). by eexists.
Qed.

(** A heartbeat that only renews leases is quiet: if the node's topology
    without leases is the stored one, no lease is in its latter half and
    nothing expires, the directory's revision does not move, and no peer
    rewrites its configuration. *)
Theorem lease_renewal_quiet {env : Env} n key source now w old :
  nodeOk (wNetwork w) (dn_ID n) n →
  Authorized (w_state w) !! dn_ID n = Some (mkAuthorizedNode key) →
  readAt now w →
  Nodes (w_state w) !! dn_ID n = Some old →
  topologyWithoutLeases old = topologyWithoutLeases (setLastSeen now n) →
  directCandidateRenewalDue old now = false →
  countMap (changedBy now) (<[dn_ID n := setLastSeen now n]> (Nodes (w_state w))) = 0%nat →
  let '(r, w') := run (storeNode n key source now) w in
  match r with
  | inr (_, _, revision) => wrapUint64 revision = wrapUint64 (Revision (w_state w))
      ∧ Revision (w_state w') = revision
  | inl e => 400 ≤ rs_Status e
  end.
Proof.
  intros Hok Hkey Hnow Hold Htop Hdue Hcount. destruct (run (storeNode n key source now) w) as [r w'] eqn:Hrun.
  destruct (wp_run _ _ _ _ _ Hrun (storeNode_spec "" n key source now w Hok Hkey Hnow)) as [_ H].
  destruct r as [e|[[n' l] rev]]; [done|]. destruct H as (order & _ & Hx & _ & Hrev & _).
  rewrite Hcount, Hold in Hrev. simpl in Hrev.
  unfold sameNodeTopology in Hrev. rewrite Htop, String.eqb_refl, Hdue in Hrev. simpl in Hrev.
  rewrite !Z.add_0_r in Hrev. injection Hx as _ _ ->. by split.
Qed.

(** The stored entry of beta, who publishes a service, a moment later. *)
Definition storedBeta : discoveredNode :=
  default (demoNode "beta" "user" "lan-2" []) (Nodes (w_state enrolledWorld) !! "beta").
Definition soon : Z := clock (w_clock enrolledWorld).
Definition laterWorld : world := tickClock enrolledWorld.

Lemma tick_same w : w_state (tickClock w) = w_state w ∧ wNetwork (tickClock w) = wNetwork w.
Proof. done. Qed.

Lemma lease_renewal_quiet_witness :
  length (dn_Services storedBeta) = 1%nat ∧
  let '(r, w') := run (storeNode storedBeta demoKey "203.0.113.5" soon) laterWorld in
  match r with
  | inr (_, _, revision) => wrapUint64 revision = wrapUint64 (Revision (w_state laterWorld))
      ∧ Revision (w_state w') = revision
  | inl e => 400 ≤ rs_Status e
  end.
Proof.
  split; [by vm_compute|].
  assert (w_state laterWorld = w_state enrolledWorld ∧ wNetwork laterWorld = wNetwork enrolledWorld) as [Es En]
    by exact (tick_same enrolledWorld).
  destruct (Nodes (w_state enrolledWorld) !! "beta") as [n|] eqn:Hn; [|exfalso; by vm_compute in Hn].
  assert (storedBeta = n) as Hb by (unfold storedBeta; by rewrite Hn).
  destruct (si_nodes _ _ _ _ (wi_memory _ enrolledWorld_inv) "beta" n Hn) as [Hok _].
  apply (lease_renewal_quiet storedBeta demoKey "203.0.113.5" soon laterWorld storedBeta).
  - rewrite Hb, (no_id _ _ _ Hok), En. exact Hok.
  - by vm_compute.
  - exact (readAt_tick enrolledWorld).
  - rewrite Hb, (no_id _ _ _ Hok), Es. exact Hn.
  - reflexivity.
  - by vm_compute.
  - by vm_compute.
Defined.

(** ** Replays *)

(** A request the coordinator has accepted as signed by the node it names, by
    either of the two code paths that check a signature. *)
Inductive accepted {env : Env} (req : request) (w w' : world) : Prop :=
  | accepted_body x : run (authenticatedConnectionBody req) w = (inr x, w') → accepted req w w'
  | accepted_update x : run (updateNode req) w = (inr x, w') → accepted req w w'.

Definition sentAt (req : request) : Z := Time.Unix (Strconv.ParseInt (headerGet req "X-Mayoiga-Time")).1.

Lemma accepted_signed {env : Env} req w w' :
  accepted req w w' → ∃ body key, signedBy w req body key
    ∧ noncesKept (rememberNonce (headerGet req "X-Mayoiga-Nonce") w) w'.
Proof.
  intros [[body node] Hrun|x Hrun].
  - destruct (wp_run _ _ _ _ _ Hrun (authBody_spec "" Anyone req w)) as (_ & _ & _ & key & Hs).
    exists body, key. split; [done|]. by apply (wp_run _ _ _ _ _ Hrun (authBody_remembers req w) (body, node)).
  - destruct (wp_run _ _ _ _ _ Hrun (updateNode_spec "" req w)) as [_ (body & key & _ & _ & _ & _ & Hs & _ & _ & _ & _ & Hk & _)].
    by exists body, key.
Qed.

Lemma signedBy_sent {env : Env} w req body key :
  signedBy w req body key → clock (w_clock w) - 2 * Time.minute ≤ sentAt req
    ∧ nonceLive (nonces (w_reg w)) (headerGet req "X-Mayoiga-Nonce") (clock (w_clock w)) = false.
Proof.
  intros (_ & _ & Hlive & sent & (ts & pk & sg & Hts & -> & _) & Hwin). split; [|done].
  unfold sentAt. rewrite Hts. simpl. lia.
Qed.

(** C11. No replay while the coordinator runs: once a request dated strictly
    before the coordinator's clock has been accepted, no request with its nonce
    and its date is accepted in any later state of the same run of the
    coordinator, on a clock that does not go back.  Neither bound can go: a
    restart forgets the nonces, and [replay_of_future_date] accepts a request
    dated ahead a second time. *)
Theorem no_replay {env : Env} {unique : UniqueTokens env} token net l w ts w1 w2 ts2 req req' w3 :
  (∀ i j, (i ≤ j)%nat → clock i ≤ clock j) →
  reachable token net l (w, ts) → accepted req w w1 →
  sentAt req < clock (w_clock w) →
  rtc runStep (w1, ts) (w2, ts2) →
  headerGet req' "X-Mayoiga-Nonce" = headerGet req "X-Mayoiga-Nonce" →
  headerGet req' "X-Mayoiga-Time" = headerGet req "X-Mayoiga-Time" →
  ¬ accepted req' w2 w3.
Proof.
  intros Hmono Hreach Hacc Hold Hsteps Hnonce Htime Hacc'.
  destruct (accepted_signed _ _ _ Hacc) as (body & key & Hs & Hk1).
  assert (sysInv (w1, ts)) as Hinv1.
  { apply (sysStep_inv (w, ts)); [|by apply (reachable_inv token net l)]. apply ss_run.
    destruct Hacc as [x Hrun|x Hrun]; [pose proof (rs_section w ts _ "" _ _ (sec_auth w req "")) as H
      |pose proof (rs_section w ts _ "" _ _ (sec_update w req "")) as H]; by rewrite Hrun in H. }
  destruct (runSteps_nonces _ _ Hsteps Hinv1) as [Hk2 _]. simpl in Hk2.
  destruct (accepted_signed _ _ _ Hacc') as (body' & key' & Hs' & _).
  destruct (signedBy_sent _ _ _ _ Hs') as [Hwin Hlive].
  assert (sentAt req' = sentAt req) as He by (unfold sentAt; by rewrite Htime). rewrite He in Hwin.
  destruct (noncesKept_preorder.(PreOrder_Transitive) _ _ _ Hk1 Hk2) as [Hclock Hkept].
  rewrite Hnonce in Hlive.
  destruct (Hkept (headerGet req "X-Mayoiga-Nonce") (Time.Add (clock (w_clock w)) (2 * Time.minute)))
    as [(e & Hfind & Hle)|(i & Hi & Hle)].
  - simpl. apply lookup_insert_eq.
  - unfold nonceLive, Time.After, Time.Add in *. rewrite Hfind in Hlive. bool_simpl. lia.
  - pose proof (Hmono i (w_clock w2) ltac:(lia)). unfold Time.Add in Hle. lia.
Qed.

Definition acceptedAlpha : world := after (authenticatedConnectionBody connectAlpha) enrolledWorld.

Lemma demoClock_mono i j : (i ≤ j)%nat → clock i ≤ clock j.
Proof. simpl. unfold Time.Unix, wrapInt64. lia. Qed.

Lemma no_replay_witness :
  accepted connectAlpha enrolledWorld acceptedAlpha
  ∧ ¬ accepted connectAlpha acceptedAlpha (after (authenticatedConnectionBody connectAlpha) acceptedAlpha).
Proof.
  assert (accepted connectAlpha enrolledWorld acceptedAlpha) as Hacc.
  { destruct (run (authenticatedConnectionBody connectAlpha) enrolledWorld) as [[r|x] w1] eqn:Hrun;
      [exfalso; by vm_compute in Hrun|].
    apply (accepted_body _ _ _ x). unfold acceptedAlpha, after. by rewrite Hrun. }
  split; [exact Hacc|].
  apply (no_replay demoToken "home" homeLimits enrolledWorld ∅ acceptedAlpha acceptedAlpha ∅ connectAlpha connectAlpha
    (after (authenticatedConnectionBody connectAlpha) acceptedAlpha)).
  - exact demoClock_mono.
  - exact enrolledWorld_reachable.
  - exact Hacc.
  - by vm_compute.
  - apply rtc_refl.
  - reflexivity.
  - reflexivity.
Defined.

(** The gap in the protection: a request dated ahead of the coordinator's
    clock is accepted a second time once two minutes have passed since it was
    accepted and until two minutes after its own date, although its nonce is
    still in the coordinator's map. *)
Theorem replay_of_future_date {env : Env} req body key sent w w2 :
  wellSigned req body key sent →
  clock (w_clock w) - 2 * Time.minute ≤ sent ≤ clock (w_clock w) + 2 * Time.minute →
  nonceLive (nonces (w_reg w)) (headerGet req "X-Mayoiga-Nonce") (clock (w_clock w)) = false →
  w_reg w2 = w_reg (rememberNonce (headerGet req "X-Mayoiga-Nonce") w) →
  clock (w_clock w) + 2 * Time.minute ≤ clock (w_clock w2) ≤ sent + 2 * Time.minute →
  (run (verifySignatureLocked req body key) w).1 = true
  ∧ (run (verifySignatureLocked req body key) w2).1 = true.
Proof.
  intros Hsigned Hwin Hlive Hw2 Hlate.
  assert (sent ≤ clock (w_clock w2) + 2 * Time.minute) by (unfold Time.minute, Time.second in *; lia).
  split; (erewrite verifySignature_complete; [done|exact Hsigned|lia|]); [done|].
  rewrite Hw2. unfold nonceLive, Time.After, Time.Add. simpl. rewrite lookup_insert_eq. apply Z.ltb_ge. unfold Time.Add. lia.
Qed.

(** A clock in steps of two minutes. *)
Definition slowClock (i : nat) : Z := Time.Unix 1700000000 + 2 * Time.minute * Z.of_nat i.
Definition slowEnv : Env := {|
  env_unicode := demoUnicode; env_json := demoJson; clock := slowClock; randRead := demoRandom;
  randRead_length := demoRandom_length; fileWrite := λ _, true; mapOrder := λ V _ m, map_to_list m;
  mapOrder_perm := λ V i m, reflexivity (map_to_list m); ed25519Verify := λ key message signature, true;
|}.
(** Dated a hundred seconds ahead. *)
Definition aheadRequest : request :=
  mkRequest "POST" "/v1/nodes/discovery" "203.0.113.5:40000"
    (<["X-Mayoiga-Node" := "alpha"]> (<["X-Mayoiga-Nonce" := "nonce-ahead"]> (<["X-Mayoiga-Time" := "1700000100"]>
      {["X-Mayoiga-Signature" := "AAAA"]}))) ∅ "0".

Lemma replay_of_future_date_witness :
  (run (@verifySignatureLocked slowEnv aheadRequest "0" demoKey) demoStart).1 = true
  ∧ (run (@verifySignatureLocked slowEnv aheadRequest "0" demoKey)
       (@rememberNonce slowEnv "nonce-ahead" demoStart)).1 = true.
Proof.
  apply (@replay_of_future_date slowEnv aheadRequest "0" demoKey (Time.Unix 1700000100)).
  - destruct (Base64.RawStdDecode demoKey) as [pk|] eqn:Hk; [|exfalso; by vm_compute in Hk].
    destruct (Base64.RawStdDecode "AAAA") as [sg|] eqn:Hs; [|exfalso; by vm_compute in Hs].
    exists 1700000100, pk, sg. split_and!; try done.
    vm_compute in Hk. by injection Hk as <-.
  - by vm_compute.
  - by vm_compute.
  - reflexivity.
  - by vm_compute.
Defined.
