(* ===== verification/ServiceTheorems.v ===== *)
(** * Theorems: expiry, rate limits, addresses, codes and error envelopes

    The properties of the services every handler is built on: the sweep that
    starts each of them, the signature check, the rate limiter, the
    validation of addresses and codes, and the error envelope. *)
From S2P Require Import Prelude GoStd GoNet GoCrypto Types Runtime Validate Wire Registry RateLimit.
From S2P Require Import Auth ConnSpec EnrollSpec World Steps Cleanup Enrollment Directory Connections LongPoll.
From S2P Require Import Http System Demo.

Local Open Scope Z_scope.

(** ** The sweep *)

(** After a sweep nothing that has expired is left: exactly the unexpired
    handshakes, the nodes seen in the last two minutes with only their live
    candidates, and the unexpired nonces remain; every connection request that
    was overdue is expired with code 410, every ended offer is back in the
    queue, and every terminal request older than a day is gone; the
    directory's revision has moved once for each node that changed, and the
    credentials and acknowledged cursors are untouched. *)
Theorem cleanup_correct {env : Env} now w :
  readAt now w →
  let '(_, w') := run (cleanupLocked now) w in
  (∀ id p, Pending (w_state w') !! id = Some p ↔ Pending (w_state w) !! id = Some p ∧ now ≤ ph_ExpiresAt p)
  ∧ (∀ id, Nodes (w_state w') !! id = (Nodes (w_state w) !! id) ≫= sweptNode now)
  ∧ wrapUint64 (Revision (w_state w')) = wrapUint64 (Revision (w_state w)
      + Z.of_nat (countMap (λ n, nodeStale now n || nodeChanged now n) (Nodes (w_state w))))
  ∧ (∀ id c, Connections (w_state w) !! id = Some c → sweptConnection now c (Connections (w_state w') !! id))
  ∧ (∀ nonce e, nonces (w_reg w') !! nonce = Some e ↔ nonces (w_reg w) !! nonce = Some e ∧ now ≤ e)
  ∧ Authorized (w_state w') = Authorized (w_state w)
  ∧ ConnectionAcks (w_state w') = ConnectionAcks (w_state w).
Proof.
  intros Hnow. destruct (run (cleanupLocked now) w) as [b w'] eqn:Hrun.
  destruct (wp_run _ _ _ _ _ Hrun (cleanupLocked_spec Anyone "" now w Hnow)) as [_ Hu Hp Hn Hr Hc Hno _].
  unfold untouched in Hu. split_and!; [| |done| | |congruence|congruence].
  - intros id p. rewrite Hp, map_lookup_filter_Some. simpl. unfold handshakeExpired, Time.Before.
    by rewrite Z.ltb_ge.
  - intros id. by rewrite Hn, lookup_omap.
  - intros id c Hid. specialize (Hc id). by rewrite Hid in Hc.
  - intros nonce e. rewrite Hno, map_lookup_filter_Some. simpl. unfold Time.Before. by rewrite Z.ltb_ge.
Qed.

(** Two minutes after the demo's history everything has expired. *)
Definition lateClock (i : nat) : Z := Time.Unix 1700000000 + 180 * Time.second * Z.of_nat i.
Definition lateEnv : Env := {|
  env_unicode := demoUnicode; env_json := demoJson; clock := lateClock; randRead := demoRandom;
  randRead_length := demoRandom_length; fileWrite := λ _, true; mapOrder := λ V _ m, map_to_list m;
  mapOrder_perm := λ V i m, reflexivity (map_to_list m); ed25519Verify := λ key message signature, true;
|}.

Definition lateWorld : world := tickClock connectedWorld.
Definition lateNow : Z := lateClock (w_clock connectedWorld).

Lemma cleanup_correct_witness :
  size (Nodes (w_state lateWorld)) = 2%nat ∧
  let '(_, w') := run (@cleanupLocked lateEnv lateNow) lateWorld in
  size (Nodes (w_state w')) = 0%nat
  ∧ ∀ id, Nodes (w_state w') !! id = (Nodes (w_state lateWorld) !! id) ≫= sweptNode lateNow.
Proof.
  split; [by vm_compute|].
  pose proof (@cleanup_correct lateEnv lateNow lateWorld (@readAt_tick lateEnv connectedWorld)) as H.
  assert (size (Nodes (w_state (run (@cleanupLocked lateEnv lateNow) lateWorld).2)) = 0%nat) as Hsize
    by (by vm_compute).
  destruct (run (@cleanupLocked lateEnv lateNow) lateWorld) as [b w']. split; [exact Hsize|].
  exact (proj1 (proj2 H)).
Defined.

(** ** Authentication *)

(** C10. A request is accepted exactly when it is well signed by the given key,
    its time is within two minutes of the clock, and its nonce is not one in
    use; then the nonce is remembered for two minutes, and otherwise nothing
    but the clock has moved. *)
Theorem signature_check {env : Env} req body key w :
  let now := clock (w_clock w) in
  let '(ok, w') := run (verifySignatureLocked req body key) w in
  (ok = true ↔ (∃ sent, wellSigned req body key sent ∧ now - 2 * Time.minute ≤ sent ≤ now + 2 * Time.minute)
     ∧ nonceLive (nonces (w_reg w)) (headerGet req "X-Mayoiga-Nonce") now = false)
  ∧ (ok = true → w' = rememberNonce (headerGet req "X-Mayoiga-Nonce") w)
  ∧ (ok = false → w_reg w' = w_reg w).
Proof.
  intros now. destruct (run _ w) as [ok w'] eqn:Hrun.
  pose proof (verifySignature_cases _ _ _ _ _ _ Hrun) as H. destruct ok.
  - destruct H as (H1 & H2 & ->). split_and!; [|done|done]. split; [|done]. intros _. by split.
  - split_and!; [|done|by destruct H as [->| ->]]. split; [done|]. intros [(sent & Hs & Hwin) Hn].
    rewrite (verifySignature_complete _ _ _ _ sent Hs Hwin Hn) in Hrun. congruence.
Qed.

(** ** Rate limits *)

(** C40. Within any minute one key gets at most twice its limit through, from
    any windows the limiter can hold. *)
Theorem rate_bound key limit a times m :
  Time.zero < a → 0 ≤ limit → countsNonneg m →
  Forall (λ t, a ≤ t < a + Time.minute) times →
  admitted (allowTimes key limit times m).1 ≤ 2 * limit.
Proof.
  intros Ha Hl Hm Ht. pose proof (allowTimes_two_windows key limit a times m Ha Hl Ht Hm).
  pose proof (windowOf_nonneg key m Hm). lia.
Qed.

Definition demoTimes : list Z := (λ i : nat, Time.Unix 1700000000 + Time.second * Z.of_nat i) <$> seq 0 50.
(** A window that ends within the minute: its limit and a fresh one get through. *)
Definition demoWindows : gmap string rateWindow :=
  {["k" := mkRateWindow (Time.Unix 1700000000 - 45 * Time.second) 2]}.

Lemma rate_bound_witness :
  admitted (allowTimes "k" 5 demoTimes demoWindows).1 = 8
  ∧ admitted (allowTimes "k" 5 demoTimes demoWindows).1 ≤ 2 * 5.
Proof.
  split; [by vm_compute|]. apply (rate_bound "k" 5 (Time.Unix 1700000000) demoTimes demoWindows).
  - reflexivity.
  - discriminate.
  - intros key x Hx. unfold demoWindows in Hx. apply lookup_singleton_Some in Hx as [<- <-]. discriminate.
  - apply Forall_fmap, Forall_forall. intros i [_ Hi]%elem_of_seq. unfold Time.minute, Time.second in *. simpl in *. lia.
Defined.

(** Evicting the windows of idle keys never changes an answer: at any time
    from the eviction on, a request is allowed with the evicted map exactly
    when it is with the full one, and leaves its key the same window. *)
Theorem eviction_transparent key limit m evictedAt now :
  evictedAt ≤ now →
  (allowIn key limit now (evict evictedAt m)).1 = (allowIn key limit now m).1
  ∧ ((allowIn key limit now m).1 = true →
     (allowIn key limit now (evict evictedAt m)).2 !! key = (allowIn key limit now m).2 !! key).
Proof.
  intros Hnow. unfold allowIn. rewrite evict_lookup. destruct (m !! key) as [x|] eqn:E; simpl.
  - destruct ((2 * Time.minute <=? Time.Sub evictedAt (rw_Started x))%Z) eqn:Hev; simpl.
    + assert ((Time.minute <=? Time.Sub now (rw_Started x)) = true) as ->.
      { bool_simpl. apply Z.leb_le. unfold Time.Sub, Time.minute, Time.second in *. lia. }
      rewrite orb_true_r. simpl. destruct (limit <=? 0); simpl; [done|]. by rewrite !lookup_insert_eq.
    + destruct (_ || _); simpl; destruct (limit <=? _); simpl; rewrite ?lookup_insert_eq; done.
  - destruct (limit <=? 0); simpl; [done|]. by rewrite !lookup_insert_eq.
Qed.

Lemma eviction_transparent_witness :
  let now := Time.Unix 1700000300 in
  evict now demoWindows = ∅ ∧
  (allowIn "k" 5 now (evict now demoWindows)).1 = (allowIn "k" 5 now demoWindows).1.
Proof.
  intros now. split; [by vm_compute|].
  exact (proj1 (eviction_transparent "k" 5 demoWindows now now ltac:(lia))).
Defined.

(** ** Device codes *)

(** The code an administrator types is the code that was shown, whatever
    the case of its letters and wherever the hyphens are. *)
Theorem device_code_roundtrip {unicode : Unicode} random typed :
  String.length random = 8%nat →
  Forall2 typedAs (filter (λ a, a ≠ ("-" : ascii)%char) (Strings.bytes typed))
                  (filter (λ a, a ≠ ("-" : ascii)%char) (Strings.bytes (deviceCodeText random))) →
  normalizeDeviceCode typed = deviceCodeText random.
Proof.
  intros Hlen. destruct (deviceCodeText_form random) as (cs & Hcs & Hl & ->).
  rewrite bytes_ofBytes, filter_app, filter_cons_False by (intros H; by apply H).
  rewrite <- filter_app, take_drop, (filter_hyphen_code cs Hcs).
  apply normalizeDeviceCode_typed; [done|lia].
Qed.

Lemma device_code_roundtrip_witness :
  deviceCodeText "12345678" = "TUVW-XYZ2" ∧ @normalizeDeviceCode demoUnicode "tu-vwXYz-2" = "TUVW-XYZ2".
Proof.
  split; [reflexivity|]. change "TUVW-XYZ2" with (deviceCodeText "12345678").
  apply (device_code_roundtrip "12345678" "tu-vwXYz-2"); [reflexivity|].
  vm_compute. repeat (constructor; [first [by left|by right]|]). constructor.
Defined.

(** A private address is in none of the classes [validateDirectCandidate]
    excludes explicitly. *)
Lemma private_not ip :
  Net.IsPrivate ip = true → Net.IsLoopback ip = false ∧ Net.IsUnspecified ip = false ∧ Net.IsMulticast ip = false.
Proof.
  assert (∀ b r, ip = b :: r → Z.land b 254 = 252 → b ≠ 0 ∧ b ≠ 255) as Hfirst.
  { intros b r _ H. split; intros ->; by vm_compute in H. }
  unfold Net.IsPrivate, Net.IsLoopback, Net.IsUnspecified, Net.IsMulticast, Net.To4.
  case_bool_decide as E4.
  - assert (∃ r, ip = 0 :: r) as [r Hr].
    { destruct ip as [|b r]; [done|]. exists r. f_equal. by injection E4. }
    assert (bool_decide (ip = replicate 16 0) = false) as ->.
    { apply bool_decide_eq_false. intros H. rewrite H in E4. done. }
    assert (∀ x, drop 12 ip = x → bool_decide (ip = Net.mapped [0; 0; 0; 0]) = true → x = [0; 0; 0; 0]) as Hmap.
    { intros x <- H%bool_decide_eq_true. rewrite H. done. }
    destruct (drop 12 ip) as [|b [|c l]]; [rewrite Hr; done..|].
    intros H. assert (b = 10 ∨ b = 172 ∨ b = 192) as Hb.
    { apply orb_true_iff in H as [[H|H]%orb_true_iff|H]; [left; by apply Z.eqb_eq|right..];
        apply andb_true_iff in H as [H _]; apply Z.eqb_eq in H; [by left|by right]. }
    rewrite orb_false_r. split_and!.
    + destruct Hb as [-> |[-> | ->]]; done.
    + destruct (bool_decide _) eqn:Ez; [|done]. specialize (Hmap _ eq_refl eq_refl). injection Hmap as ->.
      destruct Hb as [?|[?|?]]; done.
    + destruct Hb as [-> |[-> | ->]]; done.
  - destruct ip as [|b r]; [done|]. intros H%Z.eqb_eq. destruct (Hfirst b r eq_refl H) as [H0 H255].
    split_and!; [apply bool_decide_eq_false; intros [= ? ?]; done| |by apply Z.eqb_neq].
    apply orb_false_iff. split; apply bool_decide_eq_false; intros [= ? ?]; done.
Qed.

(** ** Addresses *)

(** A listen address is accepted exactly when it is a host and a port
    number from 1 to 65535; the admin listener only on a loopback host. *)
Theorem listen_addresses address :
  (validateHostPort address = true ↔ ∃ host portText port, Net.SplitHostPort address = Some (host, portText)
     ∧ Strconv.Atoi portText = (port, true) ∧ 1 ≤ port ≤ 65535)
  ∧ (validateAdminListen address = true ↔ validateHostPort address = true
     ∧ ∃ host port, Net.SplitHostPort address = Some (host, port)
         ∧ (host = "localhost" ∨ ∃ ip, Net.ParseIP host = Some ip ∧ Net.IsLoopback ip = true)).
Proof.
  split; [apply validateHostPort_iff|]. unfold validateAdminListen.
  destruct (validateHostPort address); simpl; [|naive_solver].
  destruct (Net.SplitHostPort address) as [[host port]|]; [|naive_solver].
  rewrite negb_true_iff, andb_false_iff, negb_false_iff, String.eqb_eq. split.
  - intros H. split; [done|]. exists host, port. split; [done|]. destruct H as [H|H]; [by left|right].
    destruct (Net.ParseIP host) as [ip|]; [|done]. exists ip. split; [done|]. by apply negb_false_iff.
  - intros [_ (h & p & [= <- <-] & [H|(ip & -> & ->)])]; [by left|by right].
Qed.

(** Two listen addresses conflict symmetrically, an address conflicts with
    itself, and a wildcard host with every address on its port. *)
Theorem listen_conflict {unicode : Unicode} x y :
  sameListenAddress x y = sameListenAddress y x
  ∧ (validateHostPort x = true → sameListenAddress x x = true)
  ∧ (∀ hx hy port, Net.SplitHostPort x = Some (hx, port) → Net.SplitHostPort y = Some (hy, port) →
       wildcardHost hx = true → sameListenAddress x y = true).
Proof.
  unfold sameListenAddress. split_and!.
  - destruct (Net.SplitHostPort x) as [[hx px]|], (Net.SplitHostPort y) as [[hy py]|]; [|done..].
    rewrite (String.eqb_sym py px), (String.eqb_sym (normalizeListenHost hy)).
    destruct (px =? py)%string, (_ =? _)%string, (wildcardHost hx), (wildcardHost hy); done.
  - intros (h & p & port & -> & _)%validateHostPort_iff. by rewrite !String.eqb_refl.
  - intros hx hy port -> -> Hw. rewrite String.eqb_refl, Hw. by rewrite orb_true_r.
Qed.

(** Ports are compared as text: two spellings of one port are not seen to
    conflict, although both are valid addresses of the same listener. *)
Theorem listen_conflict_textual_ports {unicode : Unicode} :
  sameListenAddress "127.0.0.1:080" "127.0.0.1:80" = false
  ∧ splitAddress "127.0.0.1:080" = splitAddress "127.0.0.1:80"
  ∧ validateHostPort "127.0.0.1:080" = true.
Proof. by split_and!. Qed.

(** The LAN addresses a node publishes for a service are taken over exactly
    when there are at most sixteen of them and each is the host and port of a
    private unicast address; then they are the same addresses, each once, in
    order, on the given lease. *)
Theorem direct_candidates_correct input expiry :
  (managedDirectCandidates input expiry = None ↔
     maxDirectCandidates < Z.of_nat (length input)
     ∨ Exists (λ c, validateDirectCandidate (dc_Address c) = false) input)
  ∧ (∀ out, managedDirectCandidates input expiry = Some out →
       candidatesOk out ∧ Forall (λ c, dc_ExpiresAt c = expiry) out
       ∧ ∀ x, x ∈ dc_Address <$> out ↔ x ∈ dc_Address <$> input).
Proof.
  split; [apply managedDirectCandidates_None|]. intros out. apply managedDirectCandidates_Some.
Qed.

(** What counts as a private address: the host is an IP of 10/8, 172.16/12,
    192.168/16 or fc00::/7, and in particular not a name. *)
Theorem private_candidates address :
  validateDirectCandidate address = true ↔ validateHostPort address = true
  ∧ ∃ host port ip, Net.SplitHostPort address = Some (host, port) ∧ Net.ParseIP host = Some ip
    ∧ match Net.To4 ip with
      | Some (b :: c :: _) => b = 10 ∨ (b = 172 ∧ Z.land c 240 = 16) ∨ (b = 192 ∧ c = 168)
      | _ => match ip with b :: _ => Z.land b 254 = 252 | [] => False end
      end.
Proof.
  unfold validateDirectCandidate. destruct (validateHostPort address); simpl; [|naive_solver].
  destruct (Net.SplitHostPort address) as [[host port]|]; [|naive_solver].
  destruct (Net.ParseIP host) as [ip|] eqn:Hip; [|naive_solver].
  rewrite negb_true_iff, !orb_false_iff, negb_false_iff.
  trans (Net.IsPrivate ip = true).
  - split; [tauto|]. intros H. split_and!; [done|..]; by apply private_not.
  - unfold Net.IsPrivate. split.
    + intros H. split; [done|]. exists host, port, ip. split_and!; [done..|].
      destruct (Net.To4 ip) as [[|b [|c ?]]|]; [destruct ip; [done|by apply Z.eqb_eq in H]..| |destruct ip; [done|by apply Z.eqb_eq in H]].
      rewrite !orb_true_iff, !andb_true_iff, !Z.eqb_eq in H. tauto.
    + intros (_ & h & p & ip' & [= <- <-] & Hip' & H). assert (ip' = ip) as -> by congruence.
      destruct (Net.To4 ip) as [[|b [|c ?]]|]; [destruct ip; [done|by apply Z.eqb_eq]..| |destruct ip; [done|by apply Z.eqb_eq]].
      rewrite !orb_true_iff, !andb_true_iff, !Z.eqb_eq. tauto.
Qed.

(** ** Error envelopes *)

(** Every error leaves as an envelope with the handler's status, a code and
    a message that are never empty for the statuses the coordinator writes;
    the messages of [knownErrors] have a code of their own, whatever the
    status; an answer below 400 passes unchanged. *)
Theorem error_envelope captured :
  match serveStructured captured with
  | (status, Passed b) => status < 400 ∧ captured = Some (mkResponse status b) ∨ captured = None
  | (status, ErrorEnvelope e) => 400 ≤ status ∧ (∃ b, captured = Some (mkResponse status b))
      ∧ ae_Code e ≠ "" ∧ (statusText status ≠ "" → ae_Message e ≠ "")
      ∧ (∀ code, (ae_Message e, code) ∈ knownErrors → ae_Code e = code)
  end.
Proof.
  unfold serveStructured. destruct captured as [[status b]|]; simpl; [|by right].
  destruct (400 <=? status) eqn:Hs; bool_simpl; [|left; split; [lia|done]].
  set (m0 := match b with Text s => Strings.TrimSpace s | Encoded _ => "" end).
  set (m := if (m0 =? "")%string then statusText status else m0).
  split_and!; [done|by exists b| | |].
  - simpl. unfold apiErrorCode.
    destruct ((list_to_map knownErrors : gmap string string) !! m) as [code|] eqn:E.
    + apply elem_of_list_to_map_2 in E. intros ->.
      assert (Forall (λ kv, kv.2 ≠ "") knownErrors) as Hne by (repeat constructor; discriminate).
      rewrite Forall_forall in Hne. by apply (Hne _ E).
    + repeat (destruct (_ =? _); [done|]). done.
  - simpl. intros Ht. unfold m. destruct (m0 =? "")%string eqn:E; bool_simpl; done.
  - simpl. intros code Hin. unfold apiErrorCode.
    rewrite (elem_of_list_to_map_1 knownErrors m code); [done| |done].
    by apply (bool_decide_unpack _).
Qed.
