(* ===== verification/NodeDemo.v ===== *)
(** * A concrete host

    An instance of [HostEnv] in which the theorems about a node and about a
    relay can be evaluated: files that can be read and written, a coordinator
    that answers every path with a fixed status and a text the codec knows, a
    relay that answers OK, a clock in seconds, and the random source of
    Demo.v. *)
From S2P Require Import Prelude GoStd GoNet GoCrypto GoPath Types Runtime Validate Profile Host.
From S2P Require Import Service Embedded NodeClient NodeConfig RelayProtocol Inbox Relay Demo.

Local Open Scope Z_scope.

(** ** Keys and profiles *)

Definition rawKeyOf (a : ascii) (n : nat) : string := Strings.ofBytes (repeat a n).
Definition rawKey : nat → string := rawKeyOf "k".
Definition nodeKey : nodeCredential := mkNodeCredential (Base64.RawStdEncode (rawKey 32)) (Base64.RawStdEncode (rawKey 64)).
Definition demoURL : string := "https://home.example:18443".
Definition demoClient (credential : option nodeCredential) (enrollment : option enrollmentState) : coordinatorClient :=
  mkCoordinatorClient demoURL demoPin credential enrollment.

Definition demoMapping : mapping :=
  mkMapping "ssh" "publish" "10.0.0.7:28022" "10.0.0.9:22" "" "" "" "5f0c" "" "/cfg/ssh.crt" "/cfg/ssh.key" "" demoPin.

Definition demoProfileOf (role id : string) (relay : relayConfig) (mappings : list mapping) : profile :=
  mkProfile profileVersion id false role "lan-1" "home" (mkNodeConfig id (id +:+ "-name")) (demoClient (Some nodeKey) None)
    noServer relay noSubnode mappings.

Definition demoRelay : relayConfig :=
  mkRelayConfig "0.0.0.0:29443" "10.0.0.1:29443" 1 "/cfg/relay.crt" "/cfg/relay.key" demoPin (relayAdmissionTokenHash "open").

(** A client that publishes a service, and the relay of its segment. *)
Definition clientProfile : profile := demoProfileOf "client" "node-a" noRelay [demoMapping].
Definition relayProfile : profile := demoProfileOf "relay" "relay-1" demoRelay [].
(** The client before it has enrolled. *)
Definition newProfile : profile := setCoordinator (demoClient None None) clientProfile.
Definition demoEnrollment : enrollmentState := mkEnrollmentState "request-1" "secret" "ABCD-EFGH" 0 "pending" (Some nodeKey).
Definition waitingProfile : profile := setCoordinator (demoClient None (Some demoEnrollment)) clientProfile.

(** ** What the host knows *)

Definition peerOf (id role : string) (relay : option relayAdvertisement) (upstream : string)
    (services : list publishedService) : discoveredNode :=
  mkDiscoveredNode id (id +:+ "-name") role "lan-1" "home" (nc_PublicKey nodeKey) services relay upstream Time.zero.
Definition nasService : publishedService :=
  mkPublishedService "node-b" "nas" "lan-1" [mkDirectCandidate "10.0.0.9:443" Time.zero] "5f0d" demoPin.
Definition relayAd : option relayAdvertisement := Some (mkRelayAdvertisement "10.0.0.1:29443" demoPin 1).
Definition demoPeers : list discoveredNode :=
  [peerOf "node-a" "client" None "" []; peerOf "node-b" "client" None "" [nasService];
   peerOf "relay-1" "relay" relayAd "" []; peerOf "sub-1" "subnode" None "relay-1" [nasService]].

Definition eventOf (id relay : string) (cursor : Z) : connectionRequest :=
  mkConnectionRequest id ("key-" +:+ id) "node-b" "node-a" "ssh" relay "queued" 0 "" cursor 0 0 0 0.
Definition oldEvent : connectionRequest := eventOf "old" "relay-1" 3.
Definition newEvent : connectionRequest := eventOf "new" "relay-1" 7.

Definition demoHandshake (mode target nonce : string) (stamp : Z) : relayHandshake :=
  mkRelayHandshake 1 mode "home" "node-a" "relay-1" target "nas" "" "" stamp nonce "AAAA".

(** ** The environment *)

(** The texts of the codec: a profile is written as its mappings' names after
    its instance. *)
Definition profileText (p : profile) : string :=
  foldl (λ s m, s +:+ " " +:+ mp_Name m) (pf_Instance p +:+ ":") (pf_Mappings p).

(** A status is written as its numbers, and these in binary. *)
Definition statusNumbers (s : controlPlaneStatus) : list Z :=
  [cp_HeartbeatLastOK s; Z.b2z (cp_HeartbeatError s); cp_DiscoveryLastOK s; Z.b2z (cp_DiscoveryError s); cp_DiscoveryRevision s;
   cp_InboxLastOK s; Z.b2z (cp_InboxError s); cp_InboxCursor s; Z.b2z (cp_InboxWaiting s)].
Definition statusOfNumbers (l : list Z) : controlPlaneStatus :=
  match l with
  | [a; b; c; d; e; f; g; i; j] => mkControlPlaneStatus a (b =? 1) c (d =? 1) e f (g =? 1) i (j =? 1)
  | _ => emptyStatus
  end.

Fixpoint binary (p : positive) : string :=
  match p with xH => "" | xO p => String "0" (binary p) | xI p => String "1" (binary p) end.
Fixpoint unbinary (s : string) : positive :=
  match s with String "0" s => xO (unbinary s) | String "1" s => xI (unbinary s) | _ => xH end.
Definition statusText (s : controlPlaneStatus) : string := binary (encode (statusNumbers s)).
Definition statusOfText (s : string) : controlPlaneStatus := default emptyStatus (statusOfNumbers <$> decode (unbinary s)).

Lemma unbinary_binary p : unbinary (binary p +:+ lineEnd) = p.
Proof. induction p as [p IH|p IH|]; simpl; [by rewrite IH..|done]. Qed.

Lemma statusOfText_text s : statusOfText (statusText s +:+ lineEnd) = s.
Proof.
  unfold statusOfText, statusText. rewrite unbinary_binary, decode_encode. simpl.
  by destruct s as [a [] c [] e f [] i []].
Qed.

Definition demoHostJsonWith (createText : createConnectionInput → string) (connectionOf : string → option connectionRequest)
    (enrollText : discoveryRequest → string) (pollText : pollRequest → string)
    (enrolled : enrollmentState) (polled : pollResponse) : HostJson := {|
  marshalProfile := profileText;
  unmarshalProfile := λ s, if (s =? "node-a: ssh" +:+ lineEnd)%string then Some clientProfile
                           else if (s =? "node-a:" +:+ lineEnd)%string then Some (setMappings [] clientProfile)
                           else if (s =? "relay-1:" +:+ lineEnd)%string then Some relayProfile else None;
  marshalNodes := λ l, foldl (λ s n, s +:+ dn_ID n) "" l;
  unmarshalNodes := λ s, if (s =? "peers")%string then Some demoPeers else None;
  marshalDiscoveryRequest := enrollText;
  marshalDiscoverySync := λ _, "sync";
  marshalPollRequest := pollText;
  decodeEnrollment := λ _, Some enrolled;
  decodePollResponse := λ _, Some polled;
  decodeHeartbeat := λ _, Some (mkHeartbeatResponse 4 0);
  decodeDiscovery := λ _, Some (mkDiscoveryResponse 4 true demoPeers);
  decodeConnection := connectionOf;
  decodeInboxResponse := λ _, Some (mkInboxWaitResponse 7 [newEvent]);
  marshalCreateConnection := createText;
  marshalConnectionID := λ i, ii_RequestID i;
  marshalInboxWait := λ _, "wait";
  marshalInboxAck := λ _, "ack";
  marshalInbox := λ i, foldl (λ s e, s +:+ cr_ID e) "" (ib_Events i);
  unmarshalInbox := λ s, (if (s =? "cached")%string then mkCachedInbox 3 [oldEvent] else mkCachedInbox 0 [], true);
  marshalStatus := statusText;
  unmarshalStatus := λ s, (statusOfText s, true);
  marshalHandshake := λ h, hs_Mode h;
  unmarshalHandshake := λ s, if (s =? "service")%string then Some (demoHandshake "service" "node-b" "n-1" 1700000000) else None;
  marshalStatusWait := λ _, "status";
  marshalConnector := λ s upstream, ps_Name s +:+ upstream;
  stateDecodes := λ _, true;
  marshalApprove := λ a, aq_DeviceCode a;
  marshalRevoke := λ r, rq_NodeID r;
  decodeHistory := λ _, Some [];
  decodeAudit := λ _, Some [];
  marshalDocument := λ _, "{}";
|}.
Definition demoHostJsonOf : (discoveryRequest → string) → (pollRequest → string) → enrollmentState → pollResponse → HostJson :=
  demoHostJsonWith (λ _, "create") (λ _, Some newEvent).
Definition demoHostJson : HostJson :=
  demoHostJsonOf (λ _, "node") (λ _, "poll") demoEnrollment (mkPollResponse "approved" 0 "").

Definition demoTransport (r : outRequest) : option (Z * string) :=
  if (or_URL r =? demoURL +:+ "/v1/enroll/request")%string then Some (201, "") else Some (200, "").

Definition demoParse (s : string) : option url :=
  if (s =? demoURL)%string then Some (mkUrl "https" false "home.example:18443" "" "" "")
  else Some (mkUrl "https" false "home.example:18443" "/v1" "" "").

(** With the answers of the coordinator, a codec, and the byte the keys are
    made of. *)
Program Definition demoHostEnvWith (answers : outRequest → option (Z * string)) (json : HostJson) (a : ascii) : HostEnv := {|
  he_urls := demoParse;
  he_json := json;
  hostClock := λ i, Time.Unix 1700000000 + Time.second * Z.of_nat i;
  hostRand := demoRandom;
  hostRand_length := demoRandom_length;
  readFails := λ _ _, false;
  statFails := λ _ _, false;
  mkdirAll := λ _ _, true;
  writeFile := λ _ _ _, Written;
  renameFile := λ _, true;
  readDir := λ _ _, Entries [("node-a", true); ("relay-1", true); ("notes.txt", false)];
  regularFile := λ _ _, true;
  listenable := λ _ _, true;
  newCertificate := λ _, Some ("der", "certificate", "key");
  newKey := λ _, Some (rawKeyOf a 32, rawKeyOf a 64);
  ed25519Sign := λ _ _, "signature";
  hostVerify := λ _ _ _, true;
  transport := λ _ r, answers r;
  configHome := λ _, Some "/home/user/.config";
  workingDirectory := λ _, Some "/home/user";
  hostName := λ _, "host";
  interfaceAddrs := λ _, Some [];
  tlsProbe := λ _ _ _, true;
  tlsDial := λ _ _ _, true;
  relayAnswer := λ _ _ _, Some ("OK" +:+ Auth.newline);
  tcpDial := λ _ _, true;
  startXray := λ _ _, true;
  loopbackListener := λ _, Some "127.0.0.1:40000";
  keyPair := λ _ _, true;
  reverseArrives := λ _ _, true;
  waiterTakes := λ _ _, true;
  replyWritten := λ _, true;
  sliceRoom := λ _, 3%nat;
  hostOrder := λ V _ m, map_to_list m;
  linux := true;
  windows := false;
  executableBytes := λ _, Some "program";
  userHome := λ _, Some "/home/user";
  removable := λ _ _, true;
  removeTree := λ _ _, None;
  runCommand := λ _ _, true;
  interrupted := λ _, true;
|}.
Next Obligation. intros answers json a i pub priv [= <- <-]. by vm_compute. Qed.
Next Obligation. done. Qed.
Definition demoHostEnvOf : HostJson → ascii → HostEnv := demoHostEnvWith demoTransport.
#[export] Instance demoHostEnv : HostEnv := demoHostEnvOf demoHostJson "k".

(** ** The host *)

Definition nodePath (instance : string) : string := profileIn "/home/user/.config/mayoiga" instance.
Definition demoFiles : gmap string string :=
  {[ nodePath "node-a" := "node-a: ssh" +:+ lineEnd;
     nodePath "relay-1" := "relay-1:" +:+ lineEnd;
     peersFile (nodePath "node-a") := "peers";
     peersFile (nodePath "relay-1") := "peers";
     inboxFile (nodePath "node-a") := "cached" ]}.
Definition emptyMemory : memory := mkMemory ∅ ∅ ∅ ∅ 0 [] ∅ [] [].
Definition demoHost : host := mkHost demoFiles 0 [] [] emptyMemory.
(** Some time later. *)
Definition laterHost (ticks : nat) (h : host) : host :=
  mkHost (h_files h) (ticks + h_tick h) (h_out h) (h_sent h) (h_memory h).

Definition final {A} (m : IO A) (h : host) : host := (exec m h).2.
Definition result {A} (m : IO A) (h : host) : option A := (exec m h).1.

Lemma ran {A} (m : IO A) h a : result m h = Some a → runs m h a (final m h).
Proof. unfold result, final, exec, runs. destruct (m h) as [r h']. by intros [= ->]. Qed.

Lemma ended {A} (m : IO A) h : exec m h = (result m h, final m h).
Proof. unfold result, final. by destruct (exec m h). Qed.
