(* ===== verification/NodeTheorems.v ===== *)
(** * Properties of a node's configuration and of its coordinator client *)
From S2P Require Import Prelude GoStd GoNet GoPath GoCrypto Types Runtime Validate Wire Registry.
From S2P Require Import Auth Profile Options Host NodeClient NodeConfig System Demo NodeDemo.

Local Open Scope Z_scope.

Section Theorems.
Context {unicode : Unicode} {hostEnv : HostEnv}.

Lemma steady_listenConflictIn path dir exclude address l : steady path (listenConflictIn dir exclude address l).
Proof.
  induction l as [|[name isDir] l IH]; simpl; [by apply steady_quiet|].
  destruct (_ || _); [done|]. destruct (_ =? _)%string; [done|].
  apply steady_bind.
  - intros h. pose proof (steady_loadProfile path (profileIn dir name) h) as Hs. unfold attempt.
    by destruct (loadProfile _ h).
  - intros [p|]; [|done]. destruct (conflictingListener address p); [by apply steady_quiet|done].
Qed.

Lemma steady_requireFree path q address : steady path (requireFree q address).
Proof.
  unfold requireFree, configuredListenConflict, configDir. apply steady_bind.
  - apply steady_bind.
    { apply steady_bind; [by apply steady_quiet|]. intros d. apply steady_bind; [by apply steady_quiet|].
      intros d'. by apply steady_quiet. }
    intros dir. apply steady_bind; [by apply steady_quiet|].
    intros [| |l]; [by apply steady_quiet..|]. apply steady_listenConflictIn.
  - intros [o|]; by apply steady_quiet.
Qed.

Lemma steady_available path address : steady path (checkListenAvailable address).
Proof.
  unfold checkListenAvailable. apply steady_bind; [by apply steady_quiet|].
  intros ok. apply steady_refuse. by apply steady_quiet.
Qed.

(** Saving a profile is atomic: whatever fails — the directory, the
    writing of the temporary file at any byte, the rename — the profile keeps
    its old text; on success it has the new text and the temporary file is
    gone; no other file changes.  When the codec round-trips the profile,
    loading gives it back. *)
Theorem save_atomic path p h r h' (Hrun : exec (saveProfile path p) h = (r, h')) :
  (∀ q, q ≠ path → q ≠ path +:+ ".new" → h_files h' !! q = h_files h !! q)
  ∧ (r = None → h_files h' !! path = h_files h !! path)
  ∧ (r ≠ None → h_files h' !! path = Some (marshalProfile p +:+ lineEnd)
       ∧ h_files h' !! (path +:+ ".new") = None
       ∧ (unmarshalProfile (marshalProfile p +:+ lineEnd) = Some p → checkProfile p = Some p →
          readFails (h_tick h') path = false → (exec (loadProfile path) h').1 = Some p)).
Proof.
  unfold exec in *. split_and!.
  - intros q Hq Ht.
    pose proof (touches_saveProfile (λ q, q = path ∨ q = path +:+ ".new") path p
                  (or_introl eq_refl) (or_intror eq_refl) h q) as Hk.
    rewrite Hrun in Hk. apply Hk. by intros [?|?].
  - intros ->. by apply (saveProfile_fails _ _ _ _ Hrun).
  - intros Hr. destruct r as [u|]; [|done]. apply runs_saveProfile in Hrun as [Hf _].
    rewrite Hf. split_and!.
    + by rewrite lookup_insert_eq.
    + rewrite lookup_insert_ne by (intros He; by apply (temp_ne path)). apply lookup_delete_eq.
    + intros Hj Hc Hread. erewrite (loadProfile_runs path p h'); [done|done|].
      unfold profileAt. by rewrite Hf, lookup_insert_eq.
Qed.

(** A mapping action that fails — for a wrong argument, a conflict, a
    failure to read, to make a certificate or to save — leaves the profile as
    it was. *)
Theorem mapping_actions_keep path o name :
  (o_kind o = "publish" → Filepath.Join [Filepath.Dir path; o_name o +:+ ".crt"] ≠ path
                          ∧ Filepath.Join [Filepath.Dir path; o_name o +:+ ".key"] ≠ path) →
  keeps path (addMapping o path) ∧ keeps path (removeMapping name path).
Proof.
  intros Hpub. split.
  - unfold addMapping. apply keeps_refuse, keeps_bind; [apply steady_loadProfile|]. intros p.
    do 3 apply keeps_refuse. apply keeps_bind; [apply steady_requireFree|]. intros _.
    apply keeps_bind; [apply steady_available|]. intros _. apply keeps_bind.
    + destruct (String.eqb_spec (o_kind o) "publish") as [Hk|_]; [|by apply steady_quiet].
      destruct (Hpub Hk) as [Hc Hkey]. unfold randomUUID, hostRandom.
      apply steady_bind.
      { apply steady_bind; [|intros b; by apply steady_quiet].
        apply steady_bind; [by apply steady_quiet|]. intros b. by apply steady_quiet. }
      intros uuid. apply steady_bind; [by apply steady_makeCertificate|].
      intros pin. apply steady_bind; [by apply steady_quiet|]. intros _.
      apply steady_bind; [by apply steady_quiet|]. intros _. by apply steady_quiet.
    + intros m h h'. apply saveProfile_fails.
  - unfold removeMapping. apply keeps_refuse, keeps_bind; [apply steady_loadProfile|]. intros p.
    apply keeps_refuse. intros h h'. apply saveProfile_fails.
Qed.

(** The mapping satisfies what the manager demands of one mapping. *)
Lemma addedMapping_valid reg o path m :
  addedMapping o path m → mappingArguments o = true → validateHostPort (o_listen o) = true →
  (o_kind o = "publish" → reg (mp_Certificate m) = true ∧ reg (mp_Key m) = true) →
  validMapping reg m = true ∧ mp_Name m ≠ "".
Proof.
  intros (Hn & Hk & Hl & Ht & Htn & Hs & Hpub) Hargs Hport Hreg.
  apply andb_true_iff in Hargs as [[Hname Hkind]%andb_true_iff Hrest].
  apply negb_true_iff, orb_false_iff in Hname as [Hname _]. apply String.eqb_neq in Hname.
  unfold validMapping. rewrite Hl, Hport, Hk, Ht, Htn, Hs, Hn. split; [|done].
  destruct (String.eqb_spec (o_kind o) "publish") as [Hp|Hp].
  - destruct (Hpub Hp) as (Hu & [der Hd] & Hc & Hkey). destruct (Hreg Hp) as [Hr1 Hr2].
    apply andb_true_iff in Hrest as [_ Htarget].
    rewrite (proj2 (String.eqb_neq _ _) Hu), Hd, digest_validPin, Htarget. unfold validateManagedFile.
    rewrite Hr1, Hr2, Hc, Hkey, !(proj2 (String.eqb_neq _ _) (join_dir_ne _ _)). done.
  - apply orb_true_iff in Hkind as [Hkind|Hkind]; [|done].
    rewrite Hkind. apply negb_true_iff, orb_false_iff in Hrest as [-> ->]. done.
Qed.

(** Adding a mapping the profile does not have yet. *)
Lemma added_mapping_managed reg o path p m :
  addedMapping o path m → mappingArguments o = true → validateHostPort (o_listen o) = true →
  (o_kind o = "publish" → reg (mp_Certificate m) = true ∧ reg (mp_Key m) = true) →
  (∀ x, x ∈ pf_Mappings p → mp_Name x ≠ o_name o) →
  forallb (λ a, negb (listenersConflict a (o_listen o))) (profileListeners p) = true →
  pf_Disabled p = false → validateManagedProfile reg p = true →
  validateManagedProfile reg (setMappings (pf_Mappings p ++ [m]) p) = true.
Proof.
  intros Hm Hargs Hport Hreg Hnames Hfree Hd Hv.
  destruct (addedMapping_valid reg o path m Hm Hargs Hport Hreg) as [Hvalid Hne].
  destruct Hm as (Hn & _ & Hl & _).
  rewrite (validateManagedProfile_mappings reg p _ Hd Hv).
  destruct (validateManagedProfile_checks reg p Hd Hv) as [Hmaps Hconf].
  apply andb_true_iff. split.
  - unfold validateManagedMappings in *. apply validMappings_iff in Hmaps as [Hnd Hall].
    apply validMappings_iff. simpl. split.
    + rewrite fmap_app. apply NoDup_app. split_and!; [done| |apply NoDup_singleton].
      intros n (x & -> & Hx)%list_elem_of_fmap Hin. apply list_elem_of_singleton in Hin.
      apply (Hnames x Hx). by rewrite Hin.
    + intros x [Hx|Hx]%elem_of_app; [by apply Hall|]. apply list_elem_of_singleton in Hx as ->.
      split_and!; [by apply not_elem_of_empty|done|done].
  - unfold validateManagedListenerConflicts in *.
    replace (profileListeners (setMappings (pf_Mappings p ++ [m]) p)) with (profileListeners p ++ [o_listen o]).
    + by rewrite noConflicts_snoc, Hconf.
    + unfold profileListeners. simpl. by rewrite fmap_app, <- !app_assoc, <- Hl.
Qed.

(** A mapping that was added: the saved profile is the one that was there
    with one mapping more, named and addressed as asked; its name is new, its
    address conflicts with no mapping of the profile and with no listener of
    another readable node of the host; and the manager accepts the new
    profile if it accepted the old one, provided the files just made are
    there and the address is none of the node's own server or relay
    listeners. *)
Theorem add_mapping_correct reg o path h u h' (Hrun : runs (addMapping o path) h u h') :
  ∃ p m, profileAt (h_files h) path p
    ∧ h_files h' !! path = Some (marshalProfile (setMappings (pf_Mappings p ++ [m]) p) +:+ lineEnd)
    ∧ addedMapping o path m
    ∧ (∀ x, x ∈ pf_Mappings p → mp_Name x ≠ o_name o ∧ sameListenAddress (mp_Listen x) (o_listen o) = false)
    ∧ freeOnHost (h_files h) path (o_listen o)
    ∧ (pf_Disabled p = false → validateManagedProfile reg p = true →
       (o_kind o = "publish" → reg (mp_Certificate m) = true ∧ reg (mp_Key m) = true) →
       forallb (λ a, negb (listenersConflict a (o_listen o))) (profileListeners (setMappings [] p)) = true →
       validateManagedProfile reg (setMappings (pf_Mappings p ++ [m]) p) = true).
Proof.
  apply runs_addMapping in Hrun as (p & m & Hp & Hargs & _ & Hfresh & Hport & Hfree & Hm & Hsaved).
  exists p, m. split_and!; [done..|]. intros Hd Hv Hreg Hown.
  eapply added_mapping_managed; [done..| | |done|done].
  - intros x Hx. by apply Hfresh.
  - unfold profileListeners in *. simpl in Hown. rewrite app_nil_r in Hown. rewrite app_assoc, forallb_app, Hown.
    apply forallb_forall. intros a (x & <- & Hx)%in_map_iff. apply list_elem_of_In in Hx.
    unfold listenersConflict. destruct (Hfresh x Hx) as [_ ->]. by rewrite andb_false_r.
Qed.

(** Removing a mapping: the saved profile has exactly the other mappings,
    in their order, and stays acceptable to the manager; removing the mapping
    that was just added to a profile without that name restores its
    mappings. *)
Theorem remove_mapping_correct reg name path h u h' (Hrun : runs (removeMapping name path) h u h') :
  ∃ p rest, profileAt (h_files h) path p
    ∧ rest = filter (λ m, mp_Name m ≠ name) (pf_Mappings p)
    ∧ h_files h' !! path = Some (marshalProfile (setMappings rest p) +:+ lineEnd)
    ∧ (length rest < length (pf_Mappings p))%nat
    ∧ (pf_Disabled p = false → validateManagedProfile reg p = true →
       validateManagedProfile reg (setMappings rest p) = true)
    ∧ (∀ l m, pf_Mappings p = l ++ [m] → mp_Name m = name → name ∉ mp_Name <$> l → rest = l).
Proof.
  apply runs_removeMapping in Hrun as (p & Hp & _ & (m & Hm & Hname) & Hsaved).
  eexists p, _. split_and!; [done|reflexivity|done| | |].
  - apply length_filter_lt with m; [done|]. intros Hn. by apply Hn.
  - intros Hd Hv. rewrite (validateManagedProfile_mappings reg p _ Hd Hv).
    destruct (validateManagedProfile_checks reg p Hd Hv) as [Hmaps Hconf]. apply andb_true_iff. split.
    + unfold validateManagedMappings in *. apply validMappings_iff in Hmaps as [Hnd Hall].
      apply validMappings_iff. simpl. split.
      * eapply sublist_NoDup; [done|]. apply fmap_sublist, sublist_filter.
      * intros x [_ Hx]%list_elem_of_filter. by apply Hall.
    + eapply noConflicts_sublist; [|done]. unfold profileListeners. simpl.
      do 2 (apply sublist_app; [done|]). apply fmap_sublist, sublist_filter.
  - intros l m' -> <- Hl. rewrite filter_app, filter_cons_False, filter_nil by (intros Hn; by apply Hn).
    rewrite app_nil_r. apply filter_keep, Forall_forall. intros x Hx He. apply Hl. rewrite <- He.
    by apply list_elem_of_fmap_2.
Qed.

(** The files a profile's own server and relay need. *)
Definition certificateFiles (p : profile) : list string :=
  (if (pf_Role p =? "coordinator")%string then [sv_Certificate (pf_Server p); sv_Key (pf_Server p)] else [])
  ++ (if (pf_Role p =? "relay")%string then [rl_Certificate (pf_Relay p); rl_Key (pf_Relay p)] else []).

(** A profile with the parts an installation gives it. *)
Lemma installed_managed reg o id name s r n c :
  let base := mkProfile profileVersion (o_instance o) false (o_role o) (o_segment o) (o_network o)
                (mkNodeConfig id name) noCoordinator noServer noRelay noSubnode [] in
  let p := setCoordinator c (setSubnode n (setRelayConfig r (setServer s base))) in
  validateInstance (o_instance o) = true → validNodeRole (o_role o) = true →
  (Strings.TrimSpace (o_network o) =? "")%string || (Strings.TrimSpace (o_segment o) =? "")%string = false →
  (o_role o = "coordinator" → serverReady s) → (o_role o = "relay" → relayReady r) →
  (o_role o = "subnode" → sn_RelayNodeID n ≠ "" ∧ sn_RelayToken n ≠ ""
     ∧ validateHostPort (sn_RelayEndpoint n) = true ∧ validSHA256Pin (sn_RelayPinnedSHA256 n) = true) →
  ((o_role o =? "relay")%string || (o_role o =? "subnode")%string = true → cl_URL c ≠ "") →
  (cl_URL c ≠ "" → validateCoordinatorURL (cl_URL c) = true ∧ validSHA256Pin (cl_PinnedSHA256 c) = true) →
  (∀ f, f ∈ certificateFiles p → reg f = true) →
  validateManagedProfile reg p = true.
Proof.
  intros base p Hinstance Hrole Hnet Hs Hr Hn Hurl Hc Hfiles.
  unfold validateManagedProfile, validateManagedMappings, validateManagedListenerConflicts, profileListeners, validRole,
    certificateFiles, validateManagedFile in *.
  cbn [p base setCoordinator setSubnode setRelayConfig setServer pf_Disabled pf_Instance pf_Role pf_VirtualNetwork
       pf_Segment pf_Coordinator pf_Mappings pf_Server pf_Relay pf_Subnode] in *.
  rewrite Hinstance, Hrole, Hnet. cbn [negb].
  replace (negb (cl_URL c =? "")%string && _) with false; [|symmetry].
  2:{ destruct (String.eqb_spec (cl_URL c) ""); [done|]. by destruct (Hc n0) as [-> ->]. }
  apply bool_decide_eq_true_1 in Hrole. rewrite !elem_of_cons, elem_of_nil in Hrole.
  destruct Hrole as [He|[He|[He|[He|[]]]]]; rewrite He in *; cbn -[validateHostPort validateAdminListen validSHA256Pin
    validRelayAdmissionTokenHash sameListenAddress] in *.
  - done.
  - destruct (Hr eq_refl) as (-> & -> & Hp & -> & Hce & Hk & ->). specialize (Hurl eq_refl).
    rewrite (proj2 (String.eqb_neq _ _) Hurl), (proj2 (String.eqb_neq _ _) Hce), (proj2 (String.eqb_neq _ _) Hk).
    rewrite (proj2 (Z.ltb_ge _ _) Hp), !Hfiles by (rewrite !elem_of_cons; auto). by rewrite andb_false_r.
  - destruct (Hn eq_refl) as (H1 & H2 & -> & ->). specialize (Hurl eq_refl).
    by rewrite (proj2 (String.eqb_neq _ _) Hurl), (proj2 (String.eqb_neq _ _) H1), (proj2 (String.eqb_neq _ _) H2).
  - destruct (Hs eq_refl) as (-> & -> & Hsame & Ht & -> & Hce & Hk & _). unfold listenersConflict.
    rewrite Hsame, (proj2 (String.eqb_neq _ _) Hce), (proj2 (String.eqb_neq _ _) Hk), (proj2 (String.eqb_neq _ _) Ht).
    rewrite !Hfiles by (rewrite !elem_of_cons; auto). by rewrite !andb_false_r.
Qed.

(** C24. A node that add-node has installed is one the manager accepts: for
    every role, the profile it saves passes validateManagedProfile when the
    instance name is valid, the files just made are there, the pin given for
    the upstream coordinator is a pin, the URL without its trailing slash is
    still an origin, and a subnode's admission token is not blank.  The
    installer checks everything else. *)
Theorem install_accepted reg o path h p token needs h'
    (Hrun : runs (installProfile o path false) h (p, token, needs) h')
    (Hnew : h_files h !! path = None)
    (Hinstance : validateInstance (o_instance o) = true)
    (Hfiles : ∀ f, f ∈ certificateFiles p → reg f = true)
    (Hpin : o_coordinator o ≠ "" → validSHA256Pin (o_coordinatorPin o) = true
              ∧ validateCoordinatorURL (trimSlashes (o_coordinator o)) = true)
    (Htoken : o_role o = "subnode" → Strings.TrimSpace (o_upstreamRelayToken o) ≠ "") :
  validateManagedProfile reg p = true ∧ pf_Instance p = o_instance o ∧ pf_Role p = o_role o.
Proof.
  unfold installProfile in Hrun. io_bind (p1 & h1 & H1 & Hrun).
  apply runs_installCommon in H1 as (id & name & -> & Hrole & Hnet); [|done].
  io_bind (p2 & h2 & H2 & Hrun). apply runs_installCoordinator in H2; [|done].
  io_bind ([p3 tk] & h3 & H3 & Hrun). io_bind (p4 & h4 & H4 & Hrun). apply runs_lift in H4 as [H4 ->].
  io_bind ([p5 n5] & h5 & H5 & Hrun). apply runs_lift in H5 as [H5 ->].
  io_bind (u & h6 & _ & Hrun). io_bind (v & h7 & _ & Hrun). apply runs_ret in Hrun as [[= -> -> ->] _].
  set (base := mkProfile profileVersion (o_instance o) false (o_role o) (o_segment o) (o_network o)
                 (mkNodeConfig id name) noCoordinator noServer noRelay noSubnode []) in *.
  assert (∃ s, p2 = setServer s base ∧ (o_role o = "coordinator" → serverReady s)) as (s & -> & Hs).
  { change (pf_Role base) with (o_role o) in H2. destruct (String.eqb_spec (o_role o) "coordinator").
    - destruct H2 as (s & -> & Hs). by exists s.
    - exists noServer. by subst p2. }
  apply runs_installRelay in H3; [|done].
  assert (∃ r, p3 = setRelayConfig r (setServer s base) ∧ (o_role o = "relay" → relayReady r)) as (r & -> & Hr).
  { change (pf_Role (setServer s base)) with (o_role o) in H3. destruct (String.eqb_spec (o_role o) "relay").
    - destruct H3 as (r & -> & Hr & _). by exists r.
    - exists noRelay. by destruct H3 as [-> _]. }
  apply installSubnode_new in H4. apply installUpstream_new in H5 as (c & -> & Hc & Hurl).
  2:{ destruct (_ =? _)%string in H4; [by destruct H4 as [-> _]|by rewrite H4]. }
  assert (∃ n, p4 = setSubnode n (setRelayConfig r (setServer s base))
    ∧ (o_role o = "subnode" → sn_RelayNodeID n ≠ "" ∧ sn_RelayToken n ≠ ""
         ∧ validateHostPort (sn_RelayEndpoint n) = true ∧ validSHA256Pin (sn_RelayPinnedSHA256 n) = true)) as (n & -> & Hn).
  { change (pf_Role (setRelayConfig r (setServer s base))) with (o_role o) in H4.
    destruct (String.eqb_spec (o_role o) "subnode") as [He|].
    - destruct H4 as (-> & ? & ? & Hp). eexists. split; [reflexivity|]. intros _. simpl.
      split_and!; [done|by apply Htoken|done|by apply validPin_normalized].
    - exists noSubnode. by subst p4. }
  split; [|done]. apply installed_managed; try done.
  destruct Hc as [->|(-> & Hne & _)]; [done|]. intros _. destruct (Hpin Hne).
  split; [done|by apply validPin_normalized].
Qed.

Lemma startsBefore_trans : Transitive (notAfter startsBefore).
Proof.
  intros x y z. unfold notAfter, startsBefore.
  destruct (Z.eqb_spec (serviceRoleOrder (mg_role y)) (serviceRoleOrder (mg_role x))) as [E1|E1];
  destruct (Z.eqb_spec (serviceRoleOrder (mg_role z)) (serviceRoleOrder (mg_role y))) as [E2|E2]; cbn [negb].
  - rewrite E2, E1, Z.eqb_refl. cbn [negb]. intros H1 H2.
    exact (notAfter_text_trans mg_instance x y z H1 H2).
  - intros _ H2%Z.ltb_ge. rewrite (proj2 (Z.eqb_neq _ _)) by lia. cbn [negb]. apply Z.ltb_ge. lia.
  - intros H1%Z.ltb_ge _. rewrite (proj2 (Z.eqb_neq _ _)) by lia. cbn [negb]. apply Z.ltb_ge. lia.
  - intros H1%Z.ltb_ge H2%Z.ltb_ge. rewrite (proj2 (Z.eqb_neq _ _)) by lia. cbn [negb]. apply Z.ltb_ge. lia.
Qed.

Lemma startsBefore_total : Total (notAfter startsBefore).
Proof.
  intros x y. unfold notAfter, startsBefore. rewrite (Z.eqb_sym (serviceRoleOrder (mg_role y))).
  destruct (Z.eqb_spec (serviceRoleOrder (mg_role x)) (serviceRoleOrder (mg_role y))); cbn [negb].
  - exact (notAfter_text_total mg_instance x y).
  - rewrite !Z.ltb_ge. lia.
Qed.

(** The manager's scan: one entry for each directory with a valid instance
    name and no other, coordinators before relays before the rest and by name
    within a role; an entry is without error only if its profile was read,
    decoded, carries the name of its directory and passes
    validateManagedProfile, and then its role, its switch and its signature
    are those of that very text.  The scan changes no file. *)
Theorem managed_profiles_correct dir l h h' (Hrun : runs (managedProfiles dir) h l h') :
  h_files h' = h_files h
  ∧ StronglySorted (notAfter startsBefore) l
  ∧ ∃ root j, (dir ≠ "" → root = dir)
    ∧ match readDir j (Filepath.Join [root; "nodes"]) with
      | NoDirectory => l = []
      | DirectoryError => False
      | Entries entries => mg_instance <$> l ≡ₚ managedNames entries ∧ Forall (managedOk (h_files h) root) l
      end.
Proof.
  unfold managedProfiles in Hrun. io_bind (root & h1 & Hroot & Hrun).
  assert (h_files h1 = h_files h ∧ (dir ≠ "" → root = dir)) as [Hf1 Hd].
  { destruct (String.eqb_spec dir "") as [->|]; [|by io_inv]. unfold configDir in Hroot. by io_inv. }
  io_bind (entries & h2 & He & Hrun). apply runs_ask in He as [-> ->].
  destruct (readDir (h_tick h1) (Filepath.Join [root; "nodes"])) as [| |entries] eqn:Hdir.
  - io_inv. split_and!; [done|constructor|]. exists root, (h_tick h1). by rewrite Hdir.
  - io_inv.
  - io_bind (profiles & h3 & Hp & Hrun). io_inv. apply runs_managedEntries in Hp as (Hf & Hall & Hn).
    simpl in Hf, Hall. rewrite Hf1 in Hf, Hall. split_and!; [done| |].
    + pose proof startsBefore_trans. pose proof startsBefore_total. apply StronglySorted_merge_sort; apply _.
    + exists root, (h_tick h1). rewrite Hdir. split_and!; [done| |].
      * rewrite <- Hn. by rewrite sortSlice_perm.
      * by rewrite sortSlice_perm.
Qed.

(** An installed coordinator starts with the limits it was given: the
    durations startCoordinator computes from the profile are exact (no
    overflow, no default in their place), and an offer's lease is shorter
    than a request's lifetime, so a lease can end before its request does. *)
Theorem installed_limits o path h p token needs h' (r : registry)
    (Hrun : runs (installProfile o path false) h (p, token, needs) h')
    (Hnew : h_files h !! path = None) (Hrole : o_role o = "coordinator") :
  let s := pf_Server p in
  let r' := applyLimits (mkServerLimits (sv_ConnectionWaitSeconds s) (sv_ConnectionRequestTTLSeconds s)
                           (sv_ConnectionOfferLeaseSeconds s) (sv_ConnectionMaxPending s)) r in
  connectionWait r' = sv_ConnectionWaitSeconds s * Time.second
  ∧ connectionTTL r' = sv_ConnectionRequestTTLSeconds s * Time.second
  ∧ connectionLease r' = sv_ConnectionOfferLeaseSeconds s * Time.second
  ∧ connectionMax r' = sv_ConnectionMaxPending s
  ∧ Time.second ≤ connectionLease r' < connectionTTL r' ∧ connectionTTL r' ≤ Time.hour
  ∧ Time.second ≤ connectionWait r' ≤ 2 * Time.minute ∧ 1 ≤ connectionMax r' ≤ 100000.
Proof.
  unfold installProfile in Hrun. io_bind (p1 & h1 & H1 & Hrun).
  apply runs_installCommon in H1 as (id & name & -> & _); [|done].
  io_bind (p2 & h2 & H2 & Hrun). apply runs_installCoordinator in H2; [|done]. cbn [pf_Role] in H2.
  rewrite Hrole in H2.
  destruct H2 as (s & -> & Hs). io_bind ([p3 tk] & h3 & H3 & Hrun). apply runs_installRelay in H3; [|done].
  cbn [pf_Role setServer] in H3. destruct H3 as [-> _].
  io_bind (p4 & h4 & H4 & Hrun). apply runs_lift in H4 as [H4%installSubnode_new ->].
  cbn [pf_Role setServer] in H4.
  simpl in H4. subst p4. io_bind ([p5 n5] & h5 & H5 & Hrun). apply runs_lift in H5 as [H5 ->].
  apply installUpstream_new in H5 as (c & -> & _); [|done].
  io_bind (u & h6 & _ & Hrun). io_bind (v & h7 & _ & Hrun). apply runs_ret in Hrun as [[= -> -> ->] _].
  destruct Hs as (_ & _ & _ & _ & _ & _ & _ & Hw & Ht & Hl & Hm).
  cbn [pf_Server setCoordinator setServer]. unfold applyLimits, Time.hour, Time.minute, Time.second in *. simpl.
  rewrite !(proj2 (Z.ltb_lt 0 _)) by lia. rewrite !wrapInt64_id by lia. lia.
Qed.
End Theorems.

(** ** The theorems at a concrete node *)

Definition pathA : string := nodePath "node-a".

Lemma save_atomic_witness :
  (∀ q, q ≠ pathA → q ≠ pathA +:+ ".new" → h_files (final (saveProfile pathA relayProfile) demoHost) !! q = h_files demoHost !! q)
  ∧ (result (saveProfile pathA relayProfile) demoHost ≠ None →
     h_files (final (saveProfile pathA relayProfile) demoHost) !! pathA = Some (marshalProfile relayProfile +:+ lineEnd)).
Proof.
  destruct (save_atomic pathA relayProfile demoHost _ _ (ended _ _)) as (H1 & _ & H3).
  split; [exact H1|]. intros H. exact (proj1 (H3 H)).
Defined.

(** Adding a second mapping, and removing the first. *)
Definition demoOptions : options :=
  mkOptions (λ f, match f with
                  | FRole => "coordinator" | FSegment => "lan-1" | FName => "nas" | FKind => "publish"
                  | FListen => "0.0.0.0:18443" | FAdminListen => "127.0.0.1:18444" | FTarget => "10.0.0.9:5000"
                  | FNetwork => "home" | FNodeName => "host" | FInstance => "hub" | _ => ""
                  end) (λ _, 0) (λ _, false) ∅.
Definition addNas : IO unit := addMapping demoOptions pathA.

Lemma mapping_actions_keep_witness : keeps pathA addNas ∧ keeps pathA (removeMapping "ssh" pathA).
Proof. apply (mapping_actions_keep pathA demoOptions "ssh"). intros _. by vm_compute. Defined.

Lemma add_mapping_correct_witness :
  ∃ p m, profileAt demoFiles pathA p
    ∧ h_files (final addNas demoHost) !! pathA = Some (marshalProfile (setMappings (pf_Mappings p ++ [m]) p) +:+ lineEnd)
    ∧ mp_Name m = "nas".
Proof.
  destruct (add_mapping_correct (λ _, true) demoOptions pathA demoHost tt (final addNas demoHost)) as (p & m & Hp & Hs & Ha & _).
  - apply ran. by vm_compute.
  - exists p, m. split; [exact Hp|]. split; [exact Hs|exact (proj1 Ha)].
Defined.

Lemma remove_mapping_correct_witness :
  ∃ p rest, profileAt demoFiles pathA p
    ∧ h_files (final (removeMapping "ssh" pathA) demoHost) !! pathA = Some (marshalProfile (setMappings rest p) +:+ lineEnd)
    ∧ (length rest < length (pf_Mappings p))%nat.
Proof.
  destruct (remove_mapping_correct (λ _, true) "ssh" pathA demoHost tt (final (removeMapping "ssh" pathA) demoHost))
    as (p & rest & Hp & _ & Hs & Hl & _).
  - apply ran. by vm_compute.
  - exists p, rest. split; [exact Hp|]. split; [exact Hs|exact Hl].
Defined.

(** A coordinator is added to the host. *)
Definition hubPath : string := nodePath "hub".
Definition addHub : IO (profile * string * bool) := installProfile demoOptions hubPath false.
Definition hubProfile : profile := default defaultProfile (fst ∘ fst <$> result addHub demoHost).

Lemma hub_installed : result addHub demoHost = Some (hubProfile, "", false).
Proof. by vm_compute. Qed.

Lemma install_accepted_witness : validateManagedProfile (λ _, true) hubProfile = true ∧ pf_Instance hubProfile = "hub".
Proof.
  destruct (install_accepted (λ _, true) demoOptions hubPath demoHost hubProfile "" false (final addHub demoHost)) as (Hv & Hi & _).
  - exact (ran _ _ _ hub_installed).
  - by vm_compute.
  - by vm_compute.
  - done.
  - done.
  - done.
  - by split.
Defined.

Lemma managed_profiles_correct_witness :
  ∃ l, runs (managedProfiles "/home/user/.config/mayoiga") demoHost l (final (managedProfiles "/home/user/.config/mayoiga") demoHost)
    ∧ StronglySorted (notAfter startsBefore) l ∧ mg_instance <$> l = ["relay-1"; "node-a"].
Proof.
  destruct (result (managedProfiles "/home/user/.config/mayoiga") demoHost) as [l|] eqn:Hl; [|by vm_compute in Hl].
  exists l. split; [exact (ran _ _ _ Hl)|].
  destruct (managed_profiles_correct "/home/user/.config/mayoiga" l demoHost _ (ran _ _ _ Hl)) as (_ & Hs & _).
  split; [exact Hs|]. vm_compute in Hl. injection Hl as <-. reflexivity.
Defined.

Lemma installed_limits_witness :
  let s := pf_Server hubProfile in
  sv_ConnectionMaxPending s = maxConnectionRequests
  ∧ connectionMax (applyLimits (mkServerLimits (sv_ConnectionWaitSeconds s) (sv_ConnectionRequestTTLSeconds s)
      (sv_ConnectionOfferLeaseSeconds s) (sv_ConnectionMaxPending s)) (w_reg demoStart)) = sv_ConnectionMaxPending s.
Proof.
  split; [by vm_compute|].
  apply (installed_limits demoOptions hubPath demoHost hubProfile "" false (final addHub demoHost) (w_reg demoStart)).
  - exact (ran _ _ _ hub_installed).
  - by vm_compute.
  - done.
Defined.
