(* ===== verification/ClientTheorems.v ===== *)
(** * Properties of a node towards its coordinator

    What a node publishes is what the coordinator admits, what it signs is
    what the coordinator accepts, and what it keeps of the answers. *)
From S2P Require Import Prelude GoStd GoNet GoPath GoCrypto Types Runtime Validate Wire Registry.
From S2P Require Import RateLimit Auth Profile Host NodeClient NodeConfig World Enrollment Directory.
From S2P Require Import Effects Demo NodeDemo.

Local Open Scope Z_scope.

(** ** The addresses a node publishes *)

Definition strictlyBefore (x y : string) : Prop := String.compare x y = Lt.

Lemma strictlyBefore_trans : Transitive strictlyBefore.
Proof.
  intros x y z Hxy Hyz. unfold strictlyBefore in *.
  pose proof (string_compare_le_trans x y z ltac:(by rewrite Hxy) ltac:(by rewrite Hyz)) as H.
  destruct (String.compare x z) eqn:E; [|done|done].
  apply String.compare_eq_iff in E as ->. rewrite String.compare_antisym, Hyz in Hxy. done.
Qed.

Lemma le_strict x y : String.compare x y ≠ Gt → x ≠ y → strictlyBefore x y.
Proof.
  intros H Hne. unfold strictlyBefore. destruct (String.compare x y) eqn:E; [|done|done].
  by apply String.compare_eq_iff in E.
Qed.

Lemma strictlySorted_NoDup l : StronglySorted strictlyBefore l → NoDup l.
Proof.
  induction 1 as [|x l _ IH Hall]; constructor; [|done]. intros Hx. rewrite Forall_forall in Hall.
  specialize (Hall x Hx). unfold strictlyBefore in Hall. pose proof (String.compare_antisym x x) as Ha.
  rewrite Hall in Ha. done.
Qed.

Lemma StronglySorted_snoc {A} (R : A → A → Prop) l x :
  StronglySorted R l → Forall (λ y, R y x) l → StronglySorted R (l ++ [x]).
Proof.
  induction 1 as [|y l _ IH Hall]; simpl; intros Hx; [by repeat constructor|].
  apply Forall_cons in Hx as [? Hx]. constructor; [by apply IH|]. apply Forall_app. split; [done|]. by constructor.
Qed.

(** In an ordered output whose last address is not [a], every address is
    before [a] if none is after it. *)
Lemma all_before output a :
  StronglySorted strictlyBefore (dc_Address <$> output) →
  (∀ c x, c ∈ output → x ∈ [a] → notAfter String.ltb (dc_Address c) x) →
  dc_Address <$> last output ≠ Some a →
  Forall (λ y, strictlyBefore y a) (dc_Address <$> output).
Proof.
  destruct output as [|d l _] using rev_ind; [by constructor|]. rewrite last_snoc, fmap_app. intros Hs Hle Hne.
  assert (strictlyBefore (dc_Address d) a) as Hd.
  { apply le_strict.
    - apply (notAfter_text id), (Hle d a); [|by left]. apply elem_of_app. right. by left.
    - intros He. apply Hne. by rewrite <- He. }
  apply Forall_app. split; [|by repeat constructor].
  apply Forall_forall. intros x Hx. apply strictlyBefore_trans with (dc_Address d); [|done].
  clear Hle Hne. simpl in Hs. induction (dc_Address <$> l) as [|y k IH]; [by apply not_elem_of_nil in Hx|].
  inversion Hs as [|? ? Hk Hy]; subst. apply elem_of_cons in Hx as [->|Hx]; [|by apply IH].
  rewrite Forall_forall in Hy. apply Hy, elem_of_app. right. by left.
Qed.

(** The loop, from any output that is already in order. *)
Lemma distinctCandidates_spec addresses output :
  StronglySorted (notAfter String.ltb) addresses →
  StronglySorted strictlyBefore (dc_Address <$> output) →
  (∀ c a, c ∈ output → a ∈ addresses → notAfter String.ltb (dc_Address c) a) →
  Z.of_nat (length output) ≤ maxDirectCandidates →
  let result := distinctCandidates output addresses in
  StronglySorted strictlyBefore (dc_Address <$> result)
  ∧ Z.of_nat (length result) ≤ maxDirectCandidates
  ∧ (∀ c, c ∈ result → c ∈ output ∨ dc_Address c ∈ addresses ∧ dc_ExpiresAt c = Time.zero)
  ∧ (∀ c, c ∈ output → c ∈ result)
  ∧ (Z.of_nat (length result) < maxDirectCandidates → ∀ a, a ∈ addresses → a ∈ dc_Address <$> result).
Proof.
  revert output. induction addresses as [|a rest IH]; intros output Hs Ho Hle Hmax result.
  { split_and!; [done..| |done|]; [by left|]. intros _ a Ha. by apply not_elem_of_nil in Ha. }
  inversion Hs as [|? ? Hrest Hfirst]; subst.
  assert (∀ c x, c ∈ output → x ∈ rest → notAfter String.ltb (dc_Address c) x) as Hle'
    by (intros c x Hc Hx; apply Hle; [done|by right]).
  unfold result. cbn [distinctCandidates].
  destruct (Z.eqb_spec (Z.of_nat (length output)) maxDirectCandidates) as [Hfull|Hroom]; cbn [orb].
  - destruct (IH output Hrest Ho Hle' Hmax) as (H1 & H2 & H3 & H4 & H5). split_and!; [done|done| |done|].
    + intros c Hc. destruct (H3 c Hc) as [?|[? ?]]; [by left|]. right. split; [by right|done].
    + intros Hlt. exfalso.
      assert (length output ≤ length (distinctCandidates output rest))%nat; [|lia].
      rewrite <- (length_fmap dc_Address output), <- (length_fmap dc_Address (distinctCandidates output rest)).
      apply submseteq_length, NoDup_submseteq; [by apply strictlySorted_NoDup|].
      intros x (c & -> & Hc)%list_elem_of_fmap. apply list_elem_of_fmap_2. by apply H4.
  - destruct (decide (dc_Address <$> last output = Some a)) as [Hdup|Hnew].
    + apply fmap_Some in Hdup as (d & Hlast & ->). rewrite Hlast, String.eqb_refl.
      destruct (IH output Hrest Ho Hle' Hmax) as (H1 & H2 & H3 & H4 & H5). split_and!; [done|done| |done|].
      * intros c Hc. destruct (H3 c Hc) as [?|[? ?]]; [by left|]. right. split; [by right|done].
      * intros Hlt x [->|Hx]%elem_of_cons; [|by apply H5].
        apply list_elem_of_fmap_2, H4. by apply last_Some_elem_of.
    + replace (match last output with Some c => (dc_Address c =? a)%string | None => false end) with false.
      2:{ destruct (last output) as [d|]; [|done]. symmetry. apply String.eqb_neq. intros He.
          apply Hnew. simpl. by rewrite He. }
      assert (Forall (λ y, strictlyBefore y a) (dc_Address <$> output)) as Hbefore by ((apply all_before; [done| |done]; intros c x Hc [->|Hx]%elem_of_cons; [by apply Hle; [|left]|by apply not_elem_of_nil in Hx])).
      destruct (IH (output ++ [mkDirectCandidate a Time.zero])) as (H1 & H2 & H3 & H4 & H5).
      * done.
      * rewrite fmap_app. by apply StronglySorted_snoc.
      * intros c x [Hc|Hc]%elem_of_app Hx; [by apply Hle'|]. apply list_elem_of_singleton in Hc as ->.
        rewrite Forall_forall in Hfirst. by apply Hfirst.
      * rewrite length_app. simpl. lia.
      * split_and!; [done|done| | |].
        -- intros c Hc. destruct (H3 c Hc) as [[?|Hc']%elem_of_app|[? ?]]; [by left| |].
           ++ apply list_elem_of_singleton in Hc' as ->. right. split; [by left|done].
           ++ right. split; [by right|done].
        -- intros c Hc. apply H4, elem_of_app. by left.
        -- intros Hlt x [->|Hx]%elem_of_cons; [|by apply H5].
           apply (list_elem_of_fmap_2 dc_Address _ (mkDirectCandidate a Time.zero)), H4, elem_of_app. right.
           by apply list_elem_of_singleton.
Qed.

(** What [localDirectCandidates] makes of the addresses it has collected. *)
Lemma candidatesOf_spec addresses :
  let result := candidatesOf addresses in
  NoDup (dc_Address <$> result)
  ∧ Z.of_nat (length result) ≤ maxDirectCandidates
  ∧ (∀ c, c ∈ result → dc_Address c ∈ addresses ∧ dc_ExpiresAt c = Time.zero)
  ∧ (Z.of_nat (length result) < maxDirectCandidates → ∀ a, a ∈ addresses → a ∈ dc_Address <$> result).
Proof.
  destruct (distinctCandidates_spec (sortSlice String.ltb addresses) []) as (H1 & H2 & H3 & _ & H5).
  - apply (sortSlice_text_sorted id).
  - constructor.
  - intros c a Hc. by apply not_elem_of_nil in Hc.
  - done.
  - unfold candidatesOf. split_and!; [by apply strictlySorted_NoDup|done| |].
    + intros c Hc. destruct (H3 c Hc) as [Hn|[Ha ?]]; [by apply not_elem_of_nil in Hn|].
      split; [by apply sortSlice_elem in Ha|done].
    + intros Hlt a Ha. apply H5; [done|]. by apply sortSlice_elem.
Qed.

Section Published.
Context {env : Env} {hostEnv : HostEnv}.

Lemma localCandidate_valid port ip a :
  localCandidate port ip = Some a → validateDirectCandidate a = true.
Proof. unfold localCandidate. destruct ip as [ip|]; simpl; [|done]. by destruct (validateDirectCandidate _) eqn:E; intros [= <-]. Qed.

Lemma omap_valid port (ips : list (option Net.ip)) a : a ∈ omap (localCandidate port) ips → validateDirectCandidate a = true.
Proof. intros (ip & _ & H)%list_elem_of_omap. by eapply localCandidate_valid. Qed.

(** What a node may publish for a listen address. *)
Definition candidatesOk (l : list directCandidate) : Prop :=
  NoDup (dc_Address <$> l) ∧ Z.of_nat (length l) ≤ maxDirectCandidates
  ∧ Forall (λ c, validateDirectCandidate (dc_Address c) = true) l.

Lemma candidatesOf_ok port (ips : list (option Net.ip)) : candidatesOk (candidatesOf (omap (localCandidate port) ips)).
Proof.
  destruct (candidatesOf_spec (omap (localCandidate port) ips)) as (? & ? & H & _). split_and!; [done..|].
  apply Forall_forall. intros c Hc. destruct (H c Hc) as [Ha _]. by eapply omap_valid.
Qed.

Lemma runs_localDirectCandidates listen l h h' :
  runs (localDirectCandidates listen) h l h' → candidatesOk l ∧ h_files h' = h_files h ∧ h_out h' = h_out h ∧ h_sent h' = h_sent h.
Proof.
  assert (candidatesOk []) as Hnil by (split_and!; [constructor|done|constructor]).
  unfold localDirectCandidates. destruct (Net.SplitHostPort listen) as [[host port]|]; intros H; [|io_inv; done].
  destruct (_ || _).
  - io_bind (found & h1 & Hf & H). io_inv. destruct (interfaceAddrs _); io_inv; split; try done. apply candidatesOf_ok.
  - io_inv. split; [apply (candidatesOf_ok port [Net.ParseIP host])|done].
Qed.

(** A service published for a mapping of the profile. *)
Definition publishedFor (p : profile) (m : mapping) (s : publishedService) : Prop :=
  mp_Kind m = "publish" ∧ ps_Name s = mp_Name m ∧ ps_NodeID s = nd_ID (pf_Node p) ∧ ps_Segment s = pf_Segment p
  ∧ ps_UUID s = mp_UUID m ∧ ps_PinnedSHA256 s = mp_CertificateSHA256 m ∧ candidatesOk (ps_DirectCandidates s).

Lemma runs_localServices p l services h h' :
  runs (localServices p l) h services h' →
  Forall2 (publishedFor p) (filter (λ m, mp_Kind m = "publish") l) services
  ∧ h_files h' = h_files h ∧ h_out h' = h_out h ∧ h_sent h' = h_sent h.
Proof.
  revert services h. induction l as [|m l IH]; intros services h H; simpl in H; [io_inv; by split|].
  rewrite filter_cons. destruct (String.eqb_spec (mp_Kind m) "publish") as [He|He].
  - io_bind (candidates & h1 & Hc & H). io_bind (rest & h2 & Hr & H). io_inv.
    apply runs_localDirectCandidates in Hc as (? & ? & ? & ?). apply IH in Hr as (? & ? & ? & ?).
    rewrite decide_True by done. split; [|split_and!; congruence]. constructor; [|done]. by split_and!.
  - rewrite decide_False by done. by apply IH.
Qed.

(** The node a profile publishes. *)
Definition publishedNode (p : profile) (n : discoveredNode) : Prop :=
  dn_ID n = nd_ID (pf_Node p) ∧ dn_Name n = nd_Name (pf_Node p) ∧ dn_Role n = pf_Role p ∧ dn_Segment n = pf_Segment p
  ∧ dn_VirtualNetwork n = pf_VirtualNetwork p
  ∧ Forall2 (publishedFor p) (filter (λ m, mp_Kind m = "publish") (pf_Mappings p)) (dn_Services n)
  ∧ dn_Relay n = (if (pf_Role p =? "relay")%string
                  then Some (mkRelayAdvertisement (rl_Endpoint (pf_Relay p)) (rl_PinnedSHA256 (pf_Relay p)) (rl_Priority (pf_Relay p)))
                  else None)
  ∧ dn_UpstreamRelay n = (if (pf_Role p =? "subnode")%string then sn_RelayNodeID (pf_Subnode p) else "").

Lemma runs_localDiscoveredNode p n h h' :
  runs (localDiscoveredNode p) h n h' →
  publishedNode p n ∧ h_files h' = h_files h ∧ h_out h' = h_out h ∧ h_sent h' = h_sent h.
Proof.
  unfold localDiscoveredNode. intros H. io_bind (services & h1 & Hs & H). io_inv.
  apply runs_localServices in Hs as (? & ? & ? & ?). split; [by split_and!|done].
Qed.

Lemma collectCandidates_all expiry seen l :
  Forall (λ c, validateDirectCandidate (dc_Address c) = true) l → is_Some (collectCandidates expiry seen l).
Proof.
  intros H. revert seen. induction H as [|c l Hc _ IH]; intros seen; simpl; [by eexists|].
  rewrite Hc. simpl. case_bool_decide; [apply IH|]. by apply fmap_is_Some.
Qed.

(** C39. What a node publishes, the coordinator admits: the node record built
    from a profile the manager accepts — its addresses taken from the
    interfaces of the host, whatever they are — passes every check of
    registration and heartbeat on the published services and on the relay
    advertisement.  A subnode also needs its relay to be active in its
    segment. *)
Theorem published_node_admitted reg p n h h' (nodes : gmap string discoveredNode) now
    (Hrun : runs (localDiscoveredNode p) h n h')
    (Henabled : pf_Disabled p = false) (Hvalid : validateManagedProfile reg p = true)
    (Hup : pf_Role p = "subnode" → nodesUpstreamOk nodes n = true) :
  ∃ stored, admitNode nodes now n = inr stored
    ∧ dn_ID stored = nd_ID (pf_Node p) ∧ dn_Role stored = pf_Role p
    ∧ ps_Name <$> dn_Services stored = mp_Name <$> filter (λ m, mp_Kind m = "publish") (pf_Mappings p).
Proof.
  apply runs_localDiscoveredNode in Hrun as [(Hid & _ & Hrole & Hseg & _ & Hservices & Hrelay & Hupstream) _].
  destruct (validateManagedProfile_checks reg p Henabled Hvalid) as [Hmaps _].
  apply validMappings_iff in Hmaps as [_ Hmaps].
  assert (∃ services, mapM (publishService n (Time.Add now directCandidateLease)) (dn_Services n) = Some services
    ∧ ps_Name <$> services = mp_Name <$> filter (λ m, mp_Kind m = "publish") (pf_Mappings p)) as (services & Hs & Hnames).
  { assert (∀ m, m ∈ filter (λ m, mp_Kind m = "publish") (pf_Mappings p) → mp_Name m ≠ "" ∧ validMapping reg m = true) as Hm.
    { intros m [_ Hm]%list_elem_of_filter. by destruct (Hmaps m Hm) as (_ & ? & ?). }
    clear Hmaps. revert Hm. induction Hservices as [|m s ms ss Hms _ IH]; intros Hm; [by exists []|].
    destruct IH as (services & Hs & Hnames); [intros x Hx; by apply Hm; right|].
    destruct Hms as (Hk & Hn & _ & _ & Hu & Hp & (_ & Hlen & Hall)).
    destruct (Hm m ltac:(left)) as [Hne Hv]. apply publish_mapping_valid in Hv as [Huuid Hpin]; [|done].
    destruct (collectCandidates_all (Time.Add now directCandidateLease) ∅ _ Hall) as [cs Hcs].
    assert (publishService n (Time.Add now directCandidateLease) s = Some
      (mkPublishedService (dn_ID n) (mp_Name m) (dn_Segment n) (sortSlice byAddress cs) (mp_UUID m) (mp_CertificateSHA256 m)))
      as Hpub.
    { unfold publishService, managedDirectCandidates. rewrite (proj2 (Z.ltb_ge _ _) Hlen), Hcs.
      rewrite Hn, Hu, Hp, Hpin, (proj2 (String.eqb_neq _ _) Hne), (proj2 (String.eqb_neq _ _) Huuid). done. }
    eexists (_ :: services). rewrite fmap_cons. simpl. rewrite Hpub. simpl. rewrite Hs. simpl.
    split; [reflexivity|]. by rewrite Hnames. }
  pose proof (validateManagedProfile_role reg p Henabled Hvalid) as Hvr. unfold validRole in Hvr.
  unfold admitNode. rewrite Hs. cbn [setServices dn_Role dn_Relay]. rewrite Hrole, Hrelay.
  destruct (String.eqb_spec (pf_Role p) "relay") as [Hr|Hr].
  - rewrite Hr in Hvr. cbn [String.eqb Stdlib.Strings.Ascii.eqb Bool.eqb] in Hvr. bool_simpl.
    replace (relayOk _) with true.
    2:{ symmetry. unfold relayOk. simpl. repeat (apply andb_true_iff; split); try done. by apply Z.leb_le. }
    cbn [setServices dn_Role dn_UpstreamRelay]. rewrite Hrole, Hr. simpl.
    eexists. split; [reflexivity|]. simpl. by rewrite Hid, Hrole, Hr.
  - cbn [setRelay setServices dn_Role dn_UpstreamRelay]. rewrite Hrole.
    destruct (String.eqb_spec (pf_Role p) "subnode") as [Hsub|Hsub].
    + rewrite Hupstream. specialize (Hup Hsub).
      rewrite Hsub in Hvr. cbn [String.eqb Stdlib.Strings.Ascii.eqb Bool.eqb] in Hvr. bool_simpl.
      change (nodesUpstreamOk nodes _) with (nodesUpstreamOk nodes n). rewrite Hup.
      rewrite (proj2 (String.eqb_neq (sn_RelayNodeID (pf_Subnode p)) "")) by done.
      eexists. split; [reflexivity|]. simpl. by rewrite Hid, Hrole.
    + eexists. split; [reflexivity|]. simpl. by rewrite Hid, Hrole.
Qed.
End Published.

(** ** What a node signs *)

Section Signed.
Context {env : Env} {hostEnv : HostEnv}.

(** A credential whose private key signs what its public key verifies. *)
Definition workingKey (c : nodeCredential) : Prop :=
  validateCredential c = true
  ∧ ∀ pub priv m, Base64.RawStdDecode (nc_PublicKey c) = Some pub → Base64.RawStdDecode (nc_PrivateKey c) = Some priv →
      ed25519Verify pub m (ed25519Sign priv m) = true ∧ ed25519Sign priv m ≠ "".

(** The request carries the headers of the list. *)
Definition carries (req : request) (header : list (string * string)) : Prop :=
  ∀ k v, (k, v) ∈ header → headerGet req k = v.

(** C17. A request a node signs is accepted by the coordinator that holds the
    node's public key, when their clocks differ by less than two minutes
    (119 s on the late side, because the timestamp has whole seconds) and
    the nonce is new: the client's and the server's idea of the signed
    message, of the encodings and of the window agree. *)
Theorem signed_request_accepted c method path body nodeID h header h' req w
    (Hkey : workingKey c)
    (Hrun : runs (signRequest method path body nodeID (nc_PrivateKey c)) h header h')
    (Hreq : rq_Method req = method ∧ rq_Path req = path ∧ carries req header)
    (Htime : 0 ≤ hostClock (h_tick h) < 2 ^ 62)
    (Hclocks : clock (w_clock w) - 2 * Time.minute + Time.second ≤ hostClock (h_tick h) ≤ clock (w_clock w) + 2 * Time.minute)
    (Hnonce : nonceLive (nonces (w_reg w)) (headerGet req "X-Mayoiga-Nonce") (clock (w_clock w)) = false) :
  run (verifySignatureLocked req body (nc_PublicKey c)) w
  = (true, rememberNonce (headerGet req "X-Mayoiga-Nonce") w)
  ∧ headerGet req "X-Mayoiga-Node" = nodeID.
Proof.
  destruct Hkey as [Hvalid Hsign]. unfold validateCredential in Hvalid.
  destruct (Base64.RawStdDecode (nc_PublicKey c)) as [pub|] eqn:Hpub; [|done].
  unfold signRequest in Hrun. destruct (Base64.RawStdDecode (nc_PrivateKey c)) as [priv|] eqn:Hpriv; [|done].
  bool_simpl. destruct (Hsign pub priv (signedMessage method path
    (Strconv.FormatInt (Time.ToUnix (hostClock (h_tick h)))) "" body) eq_refl eq_refl) as [_ _].
  io_guard _. io_bind (now & h1 & Hn & Hrun). apply runs_ask in Hn as [-> ->].
  unfold hostToken in Hrun. io_bind (nonce & h2 & Hnn & Hrun). io_bind (b & h3 & Hb & Hnn).
  apply runs_hostRandom in Hb as [-> Hlen]. io_inv.
  destruct Hreq as (Hm & Hp & Hc). set (now := hostClock (h_tick h)) in *.
  set (nonce := Hex.EncodeToString b) in *. set (stamp := Strconv.FormatInt (Time.ToUnix now)) in *.
  assert (headerGet req "X-Mayoiga-Time" = stamp) as Ht by (apply Hc; right; by left).
  assert (headerGet req "X-Mayoiga-Nonce" = nonce) as Hno by (apply Hc; do 2 right; by left).
  assert (headerGet req "X-Mayoiga-Signature" = Base64.RawStdEncode (ed25519Sign priv (signedMessage method path stamp nonce body)))
    as Hsig by (apply Hc; do 3 right; by left).
  assert (headerGet req "X-Mayoiga-Node" = nodeID) as Hnode by (apply Hc; by left).
  split; [|done].
  destruct (Unix_ToUnix now Htime) as [Hu Hcut].
  apply (verifySignature_complete req body (nc_PublicKey c) w (Time.Unix (Time.ToUnix now))); [| |done].
  - exists (Time.ToUnix now), pub, (ed25519Sign priv (signedMessage method path stamp nonce body)).
    rewrite Ht, Hno, Hsig, Hm, Hp.
    destruct (Hsign pub priv (signedMessage method path stamp nonce body) eq_refl eq_refl) as [Hv Hne].
    split_and!; [apply ParseInt_FormatInt; lia|done| |done|by apply Nat.eqb_eq|apply base64_decode_encode|
      by apply base64_nonempty|done].
    apply hex_nonempty. intros ->. by simpl in Hlen.
  - lia.
Qed.

(** ** Enrollment *)

Lemma runs_send client method url header body answer h h' :
  runs (send client method url header body) h answer h' →
  h_files h' = h_files h ∧ h_out h' = h_out h
  ∧ h_sent h' = h_sent h ++ [mkOutRequest method url header body client.1 client.2].
Proof. unfold send. intros H. io_inv. done. Qed.

(** The transport was asked between two hosts, and said [answer]. *)
Definition answered (h h' : host) (out : outRequest) (answer : Z * string) : Prop :=
  ∃ i, (h_tick h ≤ i < h_tick h')%nat ∧ transport i out = Some answer.

Lemma send_answered client method url header body answer h h' :
  runs (send client method url header body) h answer h' →
  answered h h' (mkOutRequest method url header body client.1 client.2) answer.
Proof. unfold send. intros H. io_inv. eexists. split; [|done]. simpl. lia. Qed.

Lemma answered_within h0 h h' h1 out answer : later h0 h → later h' h1 → answered h h' out answer → answered h0 h1 out answer.
Proof. unfold later. intros H0 H1 (i & Hi & Ht). exists i. split; [lia|done]. Qed.

(** A credential made from a fresh key pair validates. *)
Lemma fresh_credential i pub priv :
  newKey i = Some (pub, priv) →
  validateCredential (mkNodeCredential (Base64.RawStdEncode pub) (Base64.RawStdEncode priv)) = true.
Proof.
  intros H. destruct (newKey_sizes i pub priv H) as (Hpub & Hpriv & Hsuffix). unfold validateCredential.
  cbn [nc_PublicKey nc_PrivateKey]. rewrite !base64_decode_encode, Hpub, Hpriv, !Nat.eqb_refl, bool_decide_eq_true_2; [reflexivity|exact Hsuffix].
Qed.

(** An enrollment request that succeeded has sent exactly one request, for
    a key pair it has just made, was answered 201, and has saved the profile
    with the answer: pending, without an approved credential, holding the key pair whose
    public half was sent.  That pair passes the check made before it is used. *)
Theorem request_enrollment_correct path p p' h h' (Hrun : runs (NodeClient.requestEnrollment path p) h p' h') :
  ∃ credential node enrollment pin via,
    cl_Credential (pf_Coordinator p') = None
    ∧ cl_Enrollment (pf_Coordinator p') = Some (setEnrollmentStatus "pending" (Some credential) enrollment)
    ∧ p' = setCoordinator (pf_Coordinator p') p
    ∧ cl_URL (pf_Coordinator p') = cl_URL (pf_Coordinator p)
    ∧ validateCredential credential = true
    ∧ publishedNode p node
    ∧ coordinatorNodeHTTPClient p = Some (pin, via)
    ∧ h_sent h' = h_sent h ++
        [mkOutRequest "POST" (cl_URL (pf_Coordinator p) +:+ "/v1/enroll/request") [jsonHeader]
           (marshalDiscoveryRequest (mkDiscoveryRequest node (nc_PublicKey credential))) pin via]
    ∧ h_files h' !! path = Some (marshalProfile p' +:+ lineEnd)
    ∧ h_out h' = h_out h ++ ["DEVICE_CODE=" +:+ es_DeviceCode enrollment]
    ∧ ∃ text, decodeEnrollment text = Some enrollment
        ∧ answered h h' (mkOutRequest "POST" (cl_URL (pf_Coordinator p) +:+ "/v1/enroll/request") [jsonHeader]
            (marshalDiscoveryRequest (mkDiscoveryRequest node (nc_PublicKey credential))) pin via) (201, text).
Proof.
  unfold NodeClient.requestEnrollment in Hrun. io_guard _. io_bind ([pin via] & h1 & Hc & Hrun).
  apply runs_lift in Hc as [Hc ->]. io_bind (key & h2 & Hk & Hrun). apply runs_ask in Hk as [-> ->].
  io_bind ([pub priv] & h3 & Hk & Hrun). apply runs_lift in Hk as [Hk ->].
  io_bind (node & h4 & Hn & Hrun). pose proof (along_runs _ _ _ _ _ (later_localDiscoveredNode p) Hn) as Hl4.
  apply runs_localDiscoveredNode in Hn as (Hn & Hf4 & Ho4 & Hs4).
  io_bind (u & h5 & Hu & Hrun). apply runs_lift in Hu as [_ ->].
  io_bind (answer & h6 & Hsend & Hrun). pose proof (send_answered _ _ _ _ _ _ _ _ Hsend) as Hans.
  apply runs_send in Hsend as (Hf6 & Ho6 & Hs6).
  io_guard H201. io_bind (enrollment & h7 & He & Hrun). apply runs_lift in He as [He ->].
  io_bind (v & h8 & Hsave & Hrun). pose proof (along_runs _ _ _ _ _ (later_saveProfile _ _) Hsave) as Hl8. apply runs_saveProfile in Hsave as (Hf8 & Ho8 & Hs8). io_inv.
  eexists _, node, enrollment, pin, via. split_and!; try reflexivity; try done.
  - by apply (fresh_credential (h_tick h)).
  - rewrite Hs8, Hs6, Hs4. reflexivity.
  - rewrite Hf8. by rewrite lookup_insert_eq.
  - by rewrite Ho8, Ho6, Ho4.
  - exists answer.2. split; [done|]. destruct answer as [status text]. bool_simpl. simpl in H201. subst status.
    eapply answered_within, Hans; [|exact Hl8]. etrans; [|exact Hl4]. unfold later. cbn. lia.
Qed.

(** What a poll sends, and that its outcome is the answer. *)
Lemma runs_pollExchange p e h output h' :
  runs (pollExchange p e) h output h' →
  ∃ pin via text, let out := mkOutRequest "POST" (cl_URL (pf_Coordinator p) +:+ "/v1/enroll/poll") [jsonHeader]
      (marshalPollRequest (mkPollRequest (es_RequestID e) (es_Secret e))) pin via in
    h_sent h' = h_sent h ++ [out] ∧ decodePollResponse text = Some output ∧ answered h h' out (200, text).
Proof.
  unfold pollExchange. intros Hrun. io_bind ([pin via] & h1 & Hc & Hrun). apply runs_lift in Hc as [_ ->].
  io_bind (u & h2 & Hu & Hrun). apply runs_lift in Hu as [_ ->].
  io_bind ([status text] & h3 & Hsend & Hrun). pose proof (send_answered _ _ _ _ _ _ _ _ Hsend) as Hans.
  apply runs_send in Hsend as (_ & _ & Hs). io_guard H200. apply runs_lift in Hrun as [Hd ->].
  bool_simpl. simpl in *. subst status. exists pin, via, text. by split_and!.
Qed.

(** A poll of an enrollment never fails half-way: it always returns an
    outcome, and the profile in memory keeps its upstream and gains a
    credential only when the coordinator has answered [approved] and the pair
    stored at enrollment is a valid key pair; that pair is then the
    credential, the pending enrollment is gone, and when the outcome is
    without error the same profile is on disk.  Without an approval the
    credential stays absent. *)
Theorem poll_enrollment_correct path p h r h' (Hrun : exec (NodeClient.pollEnrollment path p) h = (r, h')) :
  ∃ approved p' ok, r = Some (approved, p', ok)
    ∧ p' = setCoordinator (pf_Coordinator p') p
    ∧ cl_URL (pf_Coordinator p') = cl_URL (pf_Coordinator p)
    ∧ cl_PinnedSHA256 (pf_Coordinator p') = cl_PinnedSHA256 (pf_Coordinator p)
    ∧ approved = bool_decide (is_Some (cl_Credential (pf_Coordinator p')))
    ∧ (cl_Credential (pf_Coordinator p) = None → approved = true →
       ∃ e c output, cl_Enrollment (pf_Coordinator p) = Some e ∧ es_Credential e = Some c
         ∧ validateCredential c = true ∧ pr_Status output = "approved"
         ∧ (∃ h1, runs (pollExchange p e) h output h1 ∧ h_sent h' = h_sent h1 ∧ later h1 h')
         ∧ cl_Credential (pf_Coordinator p') = Some c ∧ cl_Enrollment (pf_Coordinator p') = None
         ∧ (ok = true → h_files h' !! path = Some (marshalProfile p' +:+ lineEnd))).
Proof.
  assert (∀ q, q = setCoordinator (pf_Coordinator q) q) as Hset by (intros []; done).
  unfold exec, NodeClient.pollEnrollment in Hrun.
  destruct (cl_Credential (pf_Coordinator p)) as [c|] eqn:Hc.
  { injection Hrun as <- <-. exists true, p, true. split_and!; [done|apply Hset|done|done|by rewrite Hc|by rewrite Hc]. }
  destruct (cl_Enrollment (pf_Coordinator p)) as [e|] eqn:He.
  2:{ injection Hrun as <- <-. exists false, p, false. split_and!; [done|apply Hset|done|done|by rewrite Hc|done]. }
  unfold mbind, IO_bind in Hrun. unfold attempt at 1 in Hrun.
  destruct (pollExchange p e h) as [[output|] h1] eqn:Hex.
  2:{ injection Hrun as <- <-. exists false, p, false. split_and!; [done|apply Hset|done|done|by rewrite Hc|done]. }
  destruct (String.eqb_spec (pr_Status output) "rejected") as [Hr|Hr].
  { unfold attempt in Hrun. destruct (saveProfile _ _ h1) as [r2 h2]. injection Hrun as <- <-.
    eexists false, _, false. split_and!; [done|by destruct p|done..]. }
  destruct (String.eqb_spec (pr_Status output) "approved") as [Ha|Ha]; simpl in Hrun.
  2:{ injection Hrun as <- <-. exists false, p, true. split_and!; [done|apply Hset|done|done|by rewrite Hc|done]. }
  destruct (es_Credential e) as [c|] eqn:Hec.
  2:{ injection Hrun as <- <-. exists false, p, false. split_and!; [done|apply Hset|done|done|by rewrite Hc|done]. }
  destruct (validateCredential c) eqn:Hv; simpl in Hrun.
  2:{ injection Hrun as <- <-. exists false, p, false. split_and!; [done|apply Hset|done|done|by rewrite Hc|done]. }
  unfold attempt in Hrun. destruct (saveProfile _ _ h1) as [r2 h2] eqn:Hsave. injection Hrun as <- <-.
  eexists true, _, _. split_and!; [done|by destruct p|done..|]. intros _ _.
  exists e, c, output. split_and!; [done..| |done|done|].
  - exists h1. split; [exact Hex|]. pose proof (along_exec _ _ _ _ _ (later_saveProfile _ _) Hsave) as Hl.
    split; [|exact Hl]. exact (along_exec _ _ _ _ _ (sent_saveProfile _ _) Hsave).
  - intros Hok%bool_decide_eq_true_1. destruct Hok as [u ->]. apply runs_saveProfile in Hsave as [-> _].
    by rewrite lookup_insert_eq.
Qed.

(** A request changes no file, whatever becomes of it. *)
Lemma steady_signedRequest file p method endpoint body :
  steady file (signedCoordinatorRequest p method endpoint body).
Proof.
  unfold signedCoordinatorRequest.
  apply steady_bind; [by apply steady_quiet|]. intros parsed.
  apply steady_bind; [by apply steady_quiet|]. intros credential.
  apply steady_bind.
  { unfold signRequest. destruct (Base64.RawStdDecode _); [|by apply steady_quiet]. apply steady_refuse.
    apply steady_bind; [by apply steady_quiet|]. intros now.
    apply steady_bind; [|intros nonce; by apply steady_quiet].
    unfold hostToken, hostRandom. apply steady_bind; [|intros b; by apply steady_quiet].
    apply steady_bind; [by apply steady_quiet|]. intros b. by apply steady_quiet. }
  intros header. apply steady_bind; [by apply steady_quiet|]. intros client.
  unfold send. apply steady_bind; [by apply steady_quiet|]. intros _.
  apply steady_bind; [by apply steady_quiet|]. intros answer. by apply steady_quiet.
Qed.

(** Saving and returning: a failure can only come from the saving. *)
Lemma keeps_save_return {A} path (nodes : list discoveredNode) (a : A) :
  keeps (peersFile path) (saveDiscovered path nodes ;; mret a).
Proof.
  intros h h' H. unfold mbind, IO_bind in H. destruct (saveDiscovered path nodes h) as [[u|] h1] eqn:E; [done|].
  injection H as <-. by apply (replaceFile_fails _ _ _ _ E).
Qed.

(** What a discovery leaves behind: only an answer of at least the
    expected revision is used.  A changed answer replaces the file of peers as
    a whole; an unchanged one leaves it and returns what it holds; a refused
    or failed one leaves the file as it was. *)
Theorem discovery_correct path p after expected h r h'
    (Hrun : exec (fetchDiscovery path p after expected) h = (r, h')) :
  (∀ nodes, r = Some nodes →
     ∃ output, (expected = 0 ∨ expected ≤ dr_Revision output)
       ∧ if dr_Changed output
         then nodes = dr_Nodes output ∧ h_files h' !! peersFile path = Some (marshalNodes nodes +:+ lineEnd)
         else h_files h' = h_files h
              ∧ match h_files h !! peersFile path with
                | None => nodes = []
                | Some text => unmarshalNodes text = Some nodes
                end)
  ∧ (r = None → h_files h' !! peersFile path = h_files h !! peersFile path).
Proof.
  split.
  - intros nodes ->. change (runs (fetchDiscovery path p after expected) h nodes h') in Hrun.
    unfold fetchDiscovery in Hrun. io_bind (answer & h1 & Hreq & Hrun).
    assert (h_files h1 = h_files h) as Hf.
    { apply map_eq. intros file. pose proof (steady_signedRequest file p "POST" "/v1/nodes/discovery"
        (marshalDiscoverySync (mkDiscoverySyncRequest after)) h) as Hs. unfold runs in Hreq. by rewrite Hreq in Hs. }
    io_guard _. io_bind (output & h2 & Ho & Hrun). apply runs_lift in Ho as [_ ->]. io_guard Hrev.
    exists output. split.
    { apply andb_false_iff in Hrev as [Hz|Hlt]; [left|right].
      - by apply negb_false_iff, Z.eqb_eq in Hz.
      - by apply Z.ltb_ge in Hlt. }
    destruct (dr_Changed output); simpl in Hrun.
    + io_bind (u & h3 & Hsave & Hrun). io_inv. apply runs_replaceFile in Hsave as [-> _]. split; [done|].
      by rewrite lookup_insert_eq.
    + unfold loadDiscovered in Hrun. io_bind (b & h3 & Hread & Hrun). apply runs_readFile in Hread as [-> ->].
      rewrite Hf in Hrun. destruct (readFails _ _); [io_inv|].
      destruct (h_files h !! peersFile path); io_inv; done.
  - intros ->. revert Hrun. unfold exec. apply (keeps_bind (peersFile path)); [apply steady_signedRequest|].
    intros answer. apply keeps_refuse, keeps_bind; [by apply steady_quiet|]. intros output. apply keeps_refuse.
    destruct (dr_Changed output); simpl.
    + apply keeps_save_return.
    + apply keeps_steady. unfold loadDiscovered. apply steady_bind.
      { unfold readFile. apply steady_bind; [by apply steady_quiet|]. intros fails.
        apply steady_bind; [by apply steady_quiet|]. intros files. by apply steady_quiet. }
      intros [| |text]; by apply steady_quiet.
Qed.
End Signed.

(** ** The theorems at a concrete node *)

Definition nodeA : string := nodePath "node-a".
(** The client's profile with the addresses of its services bound to loopback
    only, so that it publishes no direct address. *)
Definition describe : IO discoveredNode := localDiscoveredNode clientProfile.
Definition describedNode : discoveredNode := default (demoNode "" "" "" []) (result describe demoHost).

Lemma published_node_admitted_witness :
  ∃ stored, admitNode ∅ 0 describedNode = inr stored
    ∧ dn_ID stored = "node-a" ∧ dn_Role stored = "client" ∧ ps_Name <$> dn_Services stored = ["ssh"].
Proof.
  apply (published_node_admitted (λ _, true) clientProfile describedNode demoHost (final describe demoHost) ∅ 0).
  - apply ran. by vm_compute.
  - done.
  - by vm_compute.
  - done.
Defined.

(** The signed request of the node, as the coordinator receives it. *)
Definition signIt : IO (list (string * string)) :=
  signRequest "POST" "/v1/nodes/discovery" "0" "node-a" (nc_PrivateKey nodeKey).
Definition signedHeader : list (string * string) := default [] (result signIt demoHost).
Definition receivedRequest : request :=
  mkRequest "POST" "/v1/nodes/discovery" "203.0.113.5:40000" (list_to_map signedHeader) ∅ "0".

Lemma nodeKey_works : workingKey nodeKey.
Proof.
  split; [by vm_compute|]. intros pub priv m Hp Hs. by split.
Qed.

Lemma signed_request_accepted_witness :
  run (verifySignatureLocked receivedRequest "0" (nc_PublicKey nodeKey)) demoStart
  = (true, rememberNonce (headerGet receivedRequest "X-Mayoiga-Nonce") demoStart)
  ∧ headerGet receivedRequest "X-Mayoiga-Node" = "node-a".
Proof.
  apply (signed_request_accepted nodeKey "POST" "/v1/nodes/discovery" "0" "node-a" demoHost signedHeader (final signIt demoHost)).
  - exact nodeKey_works.
  - apply ran. by vm_compute.
  - split; [done|]. split; [done|]. intros k v Hkv. vm_compute in Hkv. apply list_elem_of_In in Hkv.
    destruct Hkv as [Hkv|[Hkv|[Hkv|[Hkv|[]]]]]; injection Hkv as <- <-; reflexivity.
  - by vm_compute.
  - by vm_compute.
  - by vm_compute.
Defined.

Definition enroll : IO profile := NodeClient.requestEnrollment nodeA newProfile.
Definition enrolledProfile : profile := default defaultProfile (result enroll demoHost).

Lemma request_enrollment_correct_witness :
  cl_Credential (pf_Coordinator enrolledProfile) = None
  ∧ h_files (final enroll demoHost) !! nodeA = Some (marshalProfile enrolledProfile +:+ lineEnd).
Proof.
  destruct (request_enrollment_correct nodeA newProfile enrolledProfile demoHost (final enroll demoHost))
    as (c & n & e & pin & via & Hc & _ & _ & _ & _ & _ & _ & _ & Hf & _).
  - apply ran. by vm_compute.
  - split; [exact Hc|exact Hf].
Defined.

Definition poll : IO (bool * profile * bool) := NodeClient.pollEnrollment nodeA waitingProfile.

Lemma poll_enrollment_correct_witness :
  ∃ p', result poll demoHost = Some (true, p', true)
    ∧ cl_Credential (pf_Coordinator p') = Some nodeKey ∧ cl_Enrollment (pf_Coordinator p') = None.
Proof.
  destruct (poll_enrollment_correct nodeA waitingProfile demoHost (result poll demoHost) (final poll demoHost) (ended _ _))
    as (approved & p' & ok & Hr & _ & _ & _ & Ha & Hok).
  assert (approved = true ∧ ok = true) as [Ht Hk].
  { destruct (result poll demoHost) as [[[a q] o]|] eqn:E; [|done]. injection Hr as <- <- <-.
    split; [apply (f_equal (option_map (fst ∘ fst))) in E|apply (f_equal (option_map snd)) in E]; vm_compute in E; congruence. }
  subst approved ok. destruct (Hok eq_refl Ht) as (e & c & output & He & Hec & _ & _ & _ & Hcred & Hnone & _).
  exists p'. split; [by rewrite Hr, Ht|]. split; [|exact Hnone]. rewrite Hcred. injection He as <-. exact (eq_sym Hec).
Defined.

Definition discover : IO (list discoveredNode) := fetchDiscovery nodeA clientProfile 3 4.

Lemma discovery_correct_witness :
  ∃ nodes, result discover demoHost = Some nodes ∧ dn_ID <$> nodes = dn_ID <$> demoPeers
    ∧ ∃ output, (4 = 0 ∨ 4 ≤ dr_Revision output)
      ∧ if dr_Changed output
        then nodes = dr_Nodes output ∧ h_files (final discover demoHost) !! peersFile nodeA = Some (marshalNodes nodes +:+ lineEnd)
        else h_files (final discover demoHost) = h_files demoHost
             ∧ match h_files demoHost !! peersFile nodeA with None => nodes = [] | Some text => unmarshalNodes text = Some nodes end.
Proof.
  destruct (discovery_correct nodeA clientProfile 3 4 demoHost (result discover demoHost) (final discover demoHost) (ended _ _)) as [H _].
  destruct (result discover demoHost) as [nodes|] eqn:E; [|by vm_compute in E]. exists nodes. split; [done|]. split.
  - vm_compute in E. injection E as <-. reflexivity.
  - destruct (H nodes eq_refl) as (output & Hrev & Hout). exists output. split; [exact Hrev|exact Hout].
Defined.
