(* ===== verification/EndToEnd.v ===== *)
(** * A node and its coordinator together

    The enrollment of a node, from its first request to the credential it keeps,
    against the coordinator of the same repository: whatever else happens at
    the coordinator in between — other nodes, other handshakes, long polls,
    expiry, restarts — the key that is approved is the key the node has. *)
From S2P Require Import Prelude GoStd GoNet GoPath GoCrypto Types Runtime Validate Wire Registry.
From S2P Require Import RateLimit Auth Profile Host NodeClient ConnSpec EnrollSpec World Steps Cleanup.
From S2P Require Import Enrollment Directory LongPoll Http System Effects Demo NodeDemo ClientTheorems.

Local Open Scope Z_scope.

(** ** A handshake along the coordinator's history *)

Section Coordinator.
Context {env : Env} {unique : UniqueTokens env}.

(** Whatever [s] has under [rid] is the handshake [p], as it was made. *)
Definition isHandshake (rid : string) (p : pendingHandshake) (s : coordinatorState) : Prop :=
  ∀ q, Pending s !! rid = Some q → handshakeCore q = handshakeCore p.

Record handshakeOf (rid : string) (p : pendingHandshake) (w : world) : Prop := {
  ho_used : rid ∈ usedTokens w;
  ho_memory : isHandshake rid p (w_state w);
  ho_disk : ∀ s, w_disk w = Some s → isHandshake rid p s;
}.

(** [rid] is approved, in memory or in the file. *)
Definition approvedIn (rid : string) (s : coordinatorState) : bool :=
  match Pending s !! rid with Some q => ph_Approved q | None => false end.
Definition approvedAt (rid : string) (w : world) : bool :=
  approvedIn rid (w_state w) || match w_disk w with Some s => approvedIn rid s | None => false end.

Lemma drawnAfter_unused w rid : drawnAfter w rid → rid ∉ usedTokens w.
Proof.
  intros (i & b & Hi & Hb & ->) (j & b' & Hj & Hb' & Heq)%elem_of_usedTokens.
  apply hex_inj in Heq as ->. specialize (unique _ _ _ Hb Hb'). lia.
Qed.

Lemma originates_isHandshake a w s rid p :
  rid ∈ usedTokens w → isHandshake rid p (w_state w) → originates a w s → isHandshake rid p s.
Proof.
  intros Hu Hw Ho q Hq. destruct (Ho rid q Hq) as [(q0 & Hq0 & <- & _)|[Hd _]]; [by apply Hw|].
  by apply drawnAfter_unused in Hd.
Qed.

Lemma originates_approvedIn a w s rid :
  a ≠ Administrator → originates a w s → approvedIn rid s = true → approvedIn rid (w_state w) = true.
Proof.
  unfold approvedIn. intros Ha Ho H. destruct (Pending s !! rid) as [q|] eqn:Hq; [|done].
  destruct (Ho rid q Hq) as [(q0 & -> & _ & Hq0)|[_ Hn]]; [by destruct Hq0|by apply Hn in H].
Qed.

Lemma handshakesKept_of a w w' rid p : handshakesKept a w w' → handshakeOf rid p w → handshakeOf rid p w'.
Proof.
  intros [Hr Hm Hd] [Hu Hw Hdisk]. split; [by eapply usedTokens_mono|by eapply originates_isHandshake|].
  intros s Hs. destruct (Hd s Hs) as [H|H]; [by apply Hdisk|by eapply originates_isHandshake].
Qed.

Lemma handshakesKept_approved a w w' rid :
  a ≠ Administrator → handshakesKept a w w' → approvedAt rid w' = true → approvedAt rid w = true.
Proof.
  intros Ha [_ Hm Hd]. unfold approvedAt. rewrite !orb_true_iff. intros [H|H].
  - left. by eapply originates_approvedIn.
  - destruct (w_disk w') as [s|]; [|done]. destruct (Hd s eq_refl) as [->|Ho]; [by right|].
    left. by eapply originates_approvedIn.
Qed.

(** The state a restart finds is the file's. *)
Lemma restart_state token net l r w :
  newRegistry token net (readBack (w_disk w)) = Some r →
  w_state (restart (applyLimits l r) w) = match w_disk w with Some s => s | None => emptyState end.
Proof. destruct (w_disk w); simpl; by intros [= <-]. Qed.

Lemma sysStep_of s s' rid p : sysStep s s' → sysInv s → handshakeOf rid p s.1 → handshakeOf rid p s'.1.
Proof.
  intros [s1 s2 H|w ts token net l r Hr _ _] Hinv Ho.
  - destruct (runStep_handshakes _ _ H Hinv) as (a & Hk & _). by eapply handshakesKept_of.
  - destruct Ho as [Hu _ Hd]. split; [exact Hu| |exact Hd]. simpl. rewrite (restart_state _ _ _ _ _ Hr).
    simpl in Hd. destruct (w_disk w) as [saved|]; [by apply Hd|]. intros q Hq. simpl in Hq. by rewrite lookup_empty in Hq.
Qed.

(** An admin request with the token. *)
Definition adminStep (s s' : system) : Prop :=
  ∃ req, adminAuthorized (w_reg s.1) req = true ∧ s'.1 = (run (adminHandler req) s.1).2.

Lemma sysStep_approved s s' rid :
  sysStep s s' → sysInv s → approvedAt rid s.1 = false → approvedAt rid s'.1 = true → adminStep s s'.
Proof.
  intros [s1 s2 H|w ts token net l r Hr _ _] Hinv Hno Hyes.
  - destruct (runStep_handshakes _ _ H Hinv) as (a & Hk & Ha).
    assert (a = Administrator ∨ a ≠ Administrator) as [->|Hne] by (destruct a; auto); [by apply Ha|].
    by rewrite (handshakesKept_approved _ _ _ _ Hne Hk Hyes) in Hno.
  - exfalso. unfold approvedAt in *. cbn [fst] in *. rewrite (restart_state _ _ _ _ _ Hr) in Hyes. simpl in *.
    apply orb_false_iff in Hno as [_ Hno]. destruct (w_disk w) as [saved|]; simpl in *; [by rewrite Hno in Hyes|].
    unfold approvedIn in Hyes. simpl in Hyes. by rewrite lookup_empty in Hyes.
Qed.

(** An approval is found in the history. *)
Lemma approval_found s s' rid :
  rtc sysStep s s' → sysInv s → approvedAt rid s.1 = false → approvedAt rid s'.1 = true →
  ∃ sa sb, rtc sysStep s sa ∧ adminStep sa sb ∧ rtc sysStep sb s'
    ∧ approvedAt rid sa.1 = false ∧ approvedAt rid sb.1 = true.
Proof.
  induction 1 as [s|s1 s2 s3 H12 H23 IH]; intros Hinv Hno Hyes; [congruence|].
  destruct (approvedAt rid s2.1) eqn:H2.
  - exists s1, s2. split_and!; [done|by eapply sysStep_approved|done..].
  - destruct IH as (sa & sb & Ha & Hab & Hb & ?); [by eapply sysStep_inv|done|done|].
    exists sa, sb. split_and!; [by eapply rtc_l|done|done|naive_solver..].
Qed.

Lemma rtc_of s s' rid p : rtc sysStep s s' → sysInv s → handshakeOf rid p s.1 → handshakeOf rid p s'.1 ∧ sysInv s'.
Proof.
  induction 1 as [s|s1 s2 s3 H12 _ IH]; intros Hinv Ho; [done|].
  apply IH; [by eapply sysStep_inv|by eapply sysStep_of].
Qed.
End Coordinator.

(** ** The two exchanges of an enrollment *)

Section Together.
Context {env : Env} {unique : UniqueTokens env} {hostEnv : HostEnv}.

(** Between [h] and [h'] the node sent [out], and got what the coordinator
    answered to it, as [text]. *)
Record exchange (h h' : host) (out : outRequest) (r : response) (text : string) : Prop := {
  ex_sent : h_sent h' = h_sent h ++ [out];
  ex_answer : ∀ answer, answered h h' out answer → answer = (rs_Status r, text);
}.

(** Each side decodes what the other has encoded. *)
Record enrollmentCodec (out : outRequest) (req : request) (r : response) (text : string) : Prop := {
  ec_request : ∀ d, or_Body out = marshalDiscoveryRequest d → decodeJSON decodeDiscoveryRequest req = Some d;
  ec_answer : ∀ e, rs_Body r = Encoded (JEnrollment e) → decodeEnrollment text = Some e;
}.
Record pollCodec (out : outRequest) (req : request) (r : response) (text : string) : Prop := {
  pc_request : ∀ q, or_Body out = marshalPollRequest q → decodeJSON decodePollRequest req = Some q;
  pc_answer : ∀ o, rs_Body r = Encoded (JPoll o) → decodePollResponse text = Some o;
}.

(** After the first exchange the two sides hold the halves of one handshake. *)
Lemma enrollment_exchanged path p p' h h' out req r text w w' :
  runs (NodeClient.requestEnrollment path p) h p' h' →
  run (Enrollment.requestEnrollment req) w = (r, w') →
  exchange h h' out r text → enrollmentCodec out req r text →
  ∃ c e q, cl_Credential (pf_Coordinator p') = None
    ∧ cl_Enrollment (pf_Coordinator p') = Some (setEnrollmentStatus "pending" (Some c) e)
    ∧ validateCredential c = true
    ∧ handshakeOf (es_RequestID e) q w' ∧ approvedAt (es_RequestID e) w' = false
    ∧ ph_PublicKey q = nc_PublicKey c ∧ publishedNode p (ph_Node q)
    ∧ h_out h' = h_out h ++ ["DEVICE_CODE=" +:+ ph_DeviceCode q].
Proof.
  intros Hnode Hserve [Hsent Hans] [Hreq Hresp].
  destruct (request_enrollment_correct path p p' h h' Hnode)
    as (c & n & e & pin & via & Hc & He & _ & _ & Hv & Hpub & _ & Hs & _ & Hout & t & Hdec & Ht).
  rewrite Hsent in Hs. apply app_inj_tail in Hs as [_ ->]. specialize (Hreq _ eq_refl).
  injection (Hans _ Ht) as Hst <-.
  destruct (wp_run _ _ _ _ _ Hserve (requestEnrollment_spec Anyone "" req w)) as [_ H].
  destruct (H (eq_sym Hst)) as (input & secret & expires & Hin & _ & id & code & created & -> & Hq & _ & _ & Hused & Hdisk).
  rewrite Hreq in Hin. injection Hin as <-. specialize (Hresp _ eq_refl). rewrite Hdec in Hresp. injection Hresp as ->.
  cbn [dq_Node dq_PublicKey] in Hq. match type of Hq with _ = Some ?q => exists c, (mkEnrollmentState id secret code expires "" None), q end.
  assert (∀ q q', Pending (w_state w') !! id = Some q → Pending (w_state w') !! id = Some q' → handshakeCore q = handshakeCore q')
    as Hsame by congruence.
  split_and!; [done|exact He|done| | |reflexivity|exact Hpub|exact Hout].
  - split; [exact Hused|intros q Hq'; by eapply Hsame|].
    intros s Hs'. rewrite Hdisk in Hs'. injection Hs' as <-. intros q Hq'. by eapply Hsame.
  - unfold approvedAt, approvedIn. rewrite Hdisk. cbn [es_RequestID]. by rewrite Hq.
Qed.

(** A poll that ends with a credential was answered for an approved handshake. *)
Lemma poll_exchanged path p p' ok h h' e out req r text w w' :
  cl_Credential (pf_Coordinator p) = None → cl_Enrollment (pf_Coordinator p) = Some e →
  exec (NodeClient.pollEnrollment path p) h = (Some (true, p', ok), h') →
  run (Enrollment.pollEnrollment req) w = (r, w') →
  exchange h h' out r text → pollCodec out req r text →
  cl_Credential (pf_Coordinator p') = es_Credential e
  ∧ ∃ q, Pending (w_state w') !! es_RequestID e = Some q ∧ ph_Approved q = true.
Proof.
  intros Hc He Hnode Hserve [Hsent Hans] [Hreq Hresp].
  destruct (poll_enrollment_correct path p h _ h' Hnode) as (approved & p'' & ok' & Hr & _ & _ & _ & _ & Hok).
  injection Hr as <- <- <-. destruct (Hok Hc eq_refl) as (e' & c & output & He' & Hec & _ & Hst & (h1 & Hrun & Hs1 & Hl) & Hcred & _).
  rewrite He in He'. injection He' as <-. split; [congruence|].
  destruct (runs_pollExchange _ _ _ _ _ Hrun) as (pin & via & t & Hs & Hdec & Ht).
  assert (out = mkOutRequest "POST" (cl_URL (pf_Coordinator p) +:+ "/v1/enroll/poll") [jsonHeader]
    (marshalPollRequest (mkPollRequest (es_RequestID e) (es_Secret e))) pin via) as ->.
  { rewrite Hs1, Hs in Hsent. by apply app_inj_tail in Hsent as [_ <-]. }
  specialize (Hreq _ eq_refl). pose proof (answered_within h h h1 h' _ _ ltac:(reflexivity) Hl Ht) as Ht'.
  injection (Hans _ Ht') as Hst200 <-.
  destruct (wp_run _ _ _ _ _ Hserve (pollEnrollment_spec Anyone "" req w)) as [_ H].
  destruct (H (eq_sym Hst200)) as (input & q & Hin & Hq & _ & ->). rewrite Hreq in Hin. injection Hin as <-.
  specialize (Hresp _ eq_refl). rewrite Hdec in Hresp. injection Hresp as ->. exists q. split; [exact Hq|].
  unfold pollStatus in Hst. cbn in Hst. by destruct (ph_Rejected q), (ph_Approved q).
Qed.

(** C3. The key that is approved is the key the node has.  A node enrolls at a
    reachable coordinator; the coordinator then does whatever it does, restarts
    included; and a poll of the node ends with a credential.  Then the
    credential is the key pair of the node's own request, the handshake the
    coordinator holds has its public key and the node's published description,
    the node is authorized, and in between an administrator with the token has
    approved this handshake, whose device code is the one the node printed. *)
Theorem enrollment_agreement token net l path p p1 p2 ok h h1 h2 h3 out1 req1 r1 text1 out2 req2 r2 text2 w ts w1 w2 ts2 w3 :
  reachable token net l (w, ts) →
  runs (NodeClient.requestEnrollment path p) h p1 h1 → run (Enrollment.requestEnrollment req1) w = (r1, w1) →
  exchange h h1 out1 r1 text1 → enrollmentCodec out1 req1 r1 text1 →
  rtc sysStep (w1, ts) (w2, ts2) →
  exec (NodeClient.pollEnrollment path p1) h2 = (Some (true, p2, ok), h3) → run (Enrollment.pollEnrollment req2) w2 = (r2, w3) →
  exchange h2 h3 out2 r2 text2 → pollCodec out2 req2 r2 text2 →
  ∃ c e q sa sb,
    cl_Enrollment (pf_Coordinator p1) = Some (setEnrollmentStatus "pending" (Some c) e)
    ∧ cl_Credential (pf_Coordinator p2) = Some c ∧ validateCredential c = true
    ∧ Pending (w_state w3) !! es_RequestID e = Some q ∧ ph_Approved q = true
    ∧ ph_PublicKey q = nc_PublicKey c ∧ publishedNode p (ph_Node q)
    ∧ is_Some (Authorized (w_state w3) !! nd_ID (pf_Node p))
    ∧ h_out h1 = h_out h ++ ["DEVICE_CODE=" +:+ ph_DeviceCode q]
    ∧ rtc sysStep (w1, ts) sa ∧ adminStep sa sb ∧ rtc sysStep sb (w3, ts2)
    ∧ approvedAt (es_RequestID e) sa.1 = false ∧ approvedAt (es_RequestID e) sb.1 = true.
Proof.
  intros Hreach Hn1 Hc1 Hx1 Hk1 Hsteps Hn2 Hc2 Hx2 Hk2.
  assert (sysInv (w1, ts)) as Hinv1.
  { apply (star_invariant sysStep sysInv sysStep_inv (w, ts)); [|by apply (reachable_inv token net l)].
    pose proof (requestEnrollment_sections ts req1 w) as Hs. unfold wp in Hs. unfold run in Hc1. by rewrite Hc1 in Hs. }
  destruct (enrollment_exchanged _ _ _ _ _ _ _ _ _ _ _ Hn1 Hc1 Hx1 Hk1)
    as (c & e & q & Hcred & Henr & Hv & Hof & Hno & Hkey & Hpub & Hout).
  destruct (poll_exchanged _ _ _ _ _ _ _ _ _ _ _ _ _ Hcred Henr Hn2 Hc2 Hx2 Hk2) as (Hcred2 & q3 & Hq3 & Happ).
  change (es_RequestID (setEnrollmentStatus "pending" (Some c) e)) with (es_RequestID e) in Hq3.
  assert (rtc sysStep (w1, ts) (w3, ts2)) as Hall.
  { eapply rtc_r; [exact Hsteps|]. apply ss_run. pose proof (rs_section w2 ts2 _ "" _ _ (sec_poll w2 req2 "")) as Hs.
    by rewrite Hc2 in Hs. }
  destruct (rtc_of _ _ _ _ Hall Hinv1 Hof) as [[_ Hmem _] Hinv3].
  specialize (Hmem q3 Hq3). injection Hmem as Eid Eh Ecode Enode Ekey Es Eexp.
  assert (approvedAt (es_RequestID e) w3 = true) as Hyes by (unfold approvedAt, approvedIn; by rewrite Hq3, Happ).
  destruct (approval_found _ _ _ Hall Hinv1 Hno Hyes) as (sa & sb & Ha & Hab & Hb & Hna & Hyb).
  exists c, e, q3, sa, sb. rewrite Enode, Ekey, Ecode. split_and!; try done.
  pose proof (ei_authorized _ (si_enroll _ _ _ _ (wi_memory _ (sy_world _ Hinv3))) _ _ Hq3 Happ) as Hauth.
  rewrite Enode in Hauth. by rewrite (proj1 Hpub) in Hauth.
Qed.
End Together.

(** ** A concrete enrollment *)

Definition alphaProfile : profile :=
  setCoordinator (demoClient None None) (demoProfileOf "user" "alpha" noRelay []).

(** The coordinator enrolls alpha, an administrator approves, alpha polls. *)
Definition enrollRequest : request := publicRequest "/v1/enroll/request" "alpha".
Definition enrollWorld : world := after (Enrollment.requestEnrollment enrollRequest) demoStart.
Definition enrollAnswer : response := answer (Enrollment.requestEnrollment enrollRequest) demoStart.
Definition enrollState : enrollmentState :=
  match rs_Body enrollAnswer with Encoded (JEnrollment e) => e | _ => demoEnrollment end.
Definition approveAdminRequest : request := adminRequest "POST" "/v1/admin/approve" (es_DeviceCode enrollState).
Definition approvedWorld : world := after (adminHandler approveAdminRequest) enrollWorld.
Definition pollRequestOf : request := publicRequest "/v1/enroll/poll" (es_RequestID enrollState +:+ es_Secret enrollState).
Definition pollAnswer : response := answer (Enrollment.pollEnrollment pollRequestOf) approvedWorld.
Definition polledState : pollResponse :=
  match rs_Body pollAnswer with Encoded (JPoll o) => o | _ => mkPollResponse "" 0 "" end.

(** The host of alpha: its key is of zeros, and its codec knows the texts. *)
Definition alphaMessage : discoveryRequest := mkDiscoveryRequest (demoNode "alpha" "user" "lan-1" []) demoKey.
Definition alphaHostEnv : HostEnv :=
  demoHostEnvOf (demoHostJsonOf
    (λ d, if bool_decide (dq_Node d = dq_Node alphaMessage) && (dq_PublicKey d =? demoKey)%string then "alpha" else "")
    (λ q, if (pq_RequestID q =? es_RequestID enrollState)%string && (pq_Secret q =? es_Secret enrollState)%string then "poll" else "")
    enrollState polledState) Ascii.zero.

Definition alphaEnrolls : IO profile := NodeClient.requestEnrollment (hostEnv := alphaHostEnv) nodeA alphaProfile.
Definition alphaPending : profile := default alphaProfile (result alphaEnrolls demoHost).
Definition alphaPolls : IO (bool * profile * bool) := NodeClient.pollEnrollment (hostEnv := alphaHostEnv) nodeA alphaPending.
Definition alphaProfile' : profile := match result alphaPolls demoHost with Some (_, p, _) => p | None => alphaProfile end.
Definition lastSent (h : host) : outRequest := default (mkOutRequest "" "" [] "" "" None) (last (h_sent h)).

Lemma alpha_exchange {A} (m : IO A) (r : response) :
  result m demoHost ≠ None → h_sent (final m demoHost) = h_sent demoHost ++ [lastSent (final m demoHost)] →
  transport (HostEnv := alphaHostEnv) 0 (lastSent (final m demoHost)) = Some (rs_Status r, "") →
  exchange (hostEnv := alphaHostEnv) demoHost (final m demoHost) (lastSent (final m demoHost)) r "".
Proof.
  intros _ Hs Ht. split; [exact Hs|]. intros answer (i & _ & Hi). unfold transport, alphaHostEnv, demoHostEnvOf, demoHostEnvWith in *. congruence.
Qed.

Lemma alpha_enrollmentCodec :
  enrollmentCodec (hostEnv := alphaHostEnv) (lastSent (final alphaEnrolls demoHost)) enrollRequest enrollAnswer "".
Proof.
  split.
  - assert (or_Body (lastSent (final alphaEnrolls demoHost)) = "alpha") as -> by (by vm_compute).
    intros [n k] H.
    change ("alpha" = if bool_decide (n = dq_Node alphaMessage) && (k =? demoKey)%string then "alpha" else "") in H.
    destruct (_ && _) eqn:E; [|done]. apply andb_true_iff in E as [->%bool_decide_eq_true_1 ->%String.eqb_eq]. by vm_compute.
  - intros e He. change (Some enrollState = Some e). unfold enrollState. by rewrite He.
Qed.

Lemma alpha_pollCodec :
  pollCodec (hostEnv := alphaHostEnv) (lastSent (final alphaPolls demoHost)) pollRequestOf pollAnswer "".
Proof.
  split.
  - assert (or_Body (lastSent (final alphaPolls demoHost)) = "poll") as -> by (by vm_compute).
    intros [r s] H.
    change ("poll" = if (r =? es_RequestID enrollState)%string && (s =? es_Secret enrollState)%string then "poll" else "") in H.
    destruct (_ && _) eqn:E; [|done]. apply andb_true_iff in E as [->%String.eqb_eq ->%String.eqb_eq]. by vm_compute.
  - intros o Ho. change (Some polledState = Some o). unfold polledState. by rewrite Ho.
Qed.

Lemma alpha_polled : exec alphaPolls demoHost = (Some (true, alphaProfile', true), final alphaPolls demoHost).
Proof.
  rewrite ended. assert (result alphaPolls demoHost = Some (true, alphaProfile', true)) as -> by (by vm_compute). reflexivity.
Qed.

Lemma enrollment_agreement_witness :
  ∃ c q, cl_Credential (pf_Coordinator alphaProfile') = Some c
    ∧ Pending (w_state (after (Enrollment.pollEnrollment pollRequestOf) approvedWorld)) !! es_RequestID enrollState = Some q
    ∧ ph_PublicKey q = nc_PublicKey c
    ∧ h_out (final alphaEnrolls demoHost) = ["DEVICE_CODE=" +:+ ph_DeviceCode q].
Proof.
  destruct (enrollment_agreement (hostEnv := alphaHostEnv) demoToken "home" (mkServerLimits 0 0 0 0)
    nodeA alphaProfile alphaPending alphaProfile' true demoHost (final alphaEnrolls demoHost) demoHost (final alphaPolls demoHost)
    (lastSent (final alphaEnrolls demoHost)) enrollRequest enrollAnswer ""
    (lastSent (final alphaPolls demoHost)) pollRequestOf pollAnswer "" demoStart ∅ enrollWorld approvedWorld ∅
    (after (Enrollment.pollEnrollment pollRequestOf) approvedWorld))
    as (c & e & q & sa & sb & He & Hc & _ & Hq & _ & Hk & _ & _ & Ho & _).
  - apply rtc_refl.
  - apply (ran alphaEnrolls). by vm_compute.
  - apply surjective_pairing.
  - apply (alpha_exchange alphaEnrolls); by vm_compute.
  - exact alpha_enrollmentCodec.
  - apply rtc_once, ss_run. apply (rs_section enrollWorld ∅ _ "" _ _ (sec_admin enrollWorld approveAdminRequest "")).
  - exact alpha_polled.
  - apply surjective_pairing.
  - apply (alpha_exchange alphaPolls); by vm_compute.
  - exact alpha_pollCodec.
  - assert (es_RequestID enrollState = es_RequestID e) as ->.
    { apply (f_equal (option_map es_RequestID)) in He. vm_compute in He. vm_compute. congruence. }
    exists c, q. split_and!; [exact Hc|exact Hq|exact Hk|exact Ho].
Defined.
