(* ===== verification/Agreement.v ===== *)
(** * A connection request from end to end

    A node asks the coordinator of this repository for a connection and later
    asks how it stands: what it is told is its own request, and when it is
    told that the request was accepted, the coordinator has accepted it on
    behalf of the target in between, whatever else it did. *)
From S2P Require Import Prelude GoStd GoNet GoPath GoCrypto Types Runtime Validate Wire Registry.
From S2P Require Import RateLimit Auth Profile Host NodeClient ConnSpec EnrollSpec World Steps Cleanup.
From S2P Require Import Directory Connections LongPoll Http System Effects RelayProtocol Inbox Demo NodeDemo.
From S2P Require Import ClientTheorems EndToEnd ControlTheorems.

Local Open Scope Z_scope.

(** ** A request along the run of the coordinator *)

Section Coordinator.
Context {env : Env} {unique : UniqueTokens env}.

(** A step taken on behalf of [actor]. *)
Definition stepOf (actor : string) (s s' : system) : Prop :=
  runStep s s' ∧ ∃ a w, stepsTo a actor s.1 w ∧ recorded s'.1 = recorded w.

Definition requestIn (s : system) (id : string) : option connectionRequest := Connections (w_state s.1) !! id.
Definition acceptedIn (s : system) (id : string) : Prop := cr_State <$> requestIn s id = Some "accepted".

(** In between, [target] has accepted the request [id]. *)
Definition acceptedBetween (target id : string) (s s' : system) : Prop :=
  ∃ sa sb, rtc runStep s sa ∧ stepOf target sa sb ∧ rtc runStep sb s'
    ∧ ¬ acceptedIn sa id ∧ acceptedIn sb id.

Lemma recorded_connOf w w' : recorded w' = recorded w → connOf w' = connOf w.
Proof. unfold recorded, connOf, usedTokens. intros [= -> _ _ _ ->]. done. Qed.

(** A step on behalf of a node moves the requests as the protocol says. *)
Lemma runStep_moves s s' :
  runStep s s' → sysInv s → ∃ actor, stepOf actor s s' ∧ connMoves actor (connOf s.1) (connOf s'.1).
Proof.
  intros Hstep Hinv. destruct (runStep_section _ _ Hstep Hinv) as (a & actor & w & S & Hr & _).
  exists actor. split; [split; [done|by exists a, w]|]. rewrite (recorded_connOf _ _ Hr).
  exact (connSteps_moves _ _ _ _ (si_conn _ _ _ _ (wi_memory _ (sy_world _ Hinv))) (to_conn _ _ _ _ S)).
Qed.

Lemma runSteps_used s s' : rtc runStep s s' → sysInv s → usedTokens s.1 ⊆ usedTokens s'.1 ∧ sysInv s'.
Proof.
  induction 1 as [s|s1 s2 s3 H12 _ IH]; intros Hinv; [done|].
  destruct (runStep_moves _ _ H12 Hinv) as (actor & _ & [Hused _]).
  destruct (IH (runStep_inv _ _ H12 Hinv)) as [H23 Hinv3]. split; [|done]. etrans; [exact Hused|exact H23].
Qed.

Lemma runSteps_request s s' id d :
  rtc runStep s s' → sysInv s → id ∈ usedTokens s.1 → requestIn s' id = Some d →
  ∃ c, requestIn s id = Some c ∧ sameRequest c d
    ∧ (cr_State d = "accepted" → cr_State c = "accepted" ∨ acceptedBetween (cr_TargetNode c) id s s').
Proof.
  intros Hrun. induction Hrun as [s|s1 s2 s3 H12 H23 IH]; intros Hinv Hid Hd.
  - exists d. split_and!; [done..|]. by left.
  - destruct (runStep_moves _ _ H12 Hinv) as (actor & Hof & [Hused Hmoves]).
    destruct (IH (runStep_inv _ _ H12 Hinv) (Hused _ Hid) Hd) as (c2 & Hc2 & Hsame & Hacc).
    destruct (Hmoves id c2 Hc2 Hid) as (c1 & Hc1 & Hm). change (requestIn s1 id = Some c1) in Hc1.
    exists c1. split; [done|]. split; [etrans; [exact (rm_same _ _ _ Hm)|done]|]. intros Hd'.
    assert (cr_TargetNode c2 = cr_TargetNode c1) as Ht by (destruct (rm_same _ _ _ Hm) as (_ & _ & _ & -> & _); done).
    destruct (Hacc Hd') as [Ha2|(sa & sb & H1 & H2 & H3 & H4 & H5)].
    + destruct (rm_decide _ _ _ Hm (or_introl Ha2)) as [Heq|Htarget]; [left; congruence|].
      destruct (decide (cr_State c1 = "accepted")) as [|Hno]; [by left|]. right. exists s1, s2. rewrite Htarget.
      split; [done|]. split; [done|]. split; [done|]. unfold acceptedIn. rewrite Hc1, Hc2. cbn.
      split; [by intros [=]|by rewrite Ha2].
    + right. exists sa, sb. rewrite <- Ht. split; [by eapply rtc_l|]. by split_and!.
Qed.
End Coordinator.

(** ** The two exchanges *)

Section Together.
Context {env : Env} {unique : UniqueTokens env} {hostEnv : HostEnv}.

(** Each side decodes what the other has encoded. *)
Record createCodec (out : outRequest) (req : request) (r : response) (text : string) : Prop := {
  cc_request : ∀ i, or_Body out = marshalCreateConnection i → unmarshalCreateConnection (rq_Body req) = Some i;
  cc_answer : ∀ c, rs_Body r = Encoded (JConnection c) → decodeConnection text = Some c;
}.
Definition answerCodec (r : response) (text : string) : Prop :=
  ∀ c, rs_Body r = Encoded (JConnection c) → decodeConnection text = Some c.

Lemma readBody_Some req body : readBody req = Some body → body = rq_Body req.
Proof. unfold readBody. by case_match; intros [= <-]. Qed.

Lemma later_sign method path body id key : along later (signRequest method path body id key).
Proof. unfold signRequest, hostToken, hostRandom. lateness. Qed.

(** A signed request that was answered. *)
Lemma signed_answered p method endpoint body a h h' :
  runs (signedCoordinatorRequest p method endpoint body) h a h' →
  ∃ out, h_sent h' = h_sent h ++ [out] ∧ or_Body out = body ∧ answered h h' out a.
Proof.
  unfold signedCoordinatorRequest. cbv zeta. intros H. io_bind (u & h1 & Hu & H). apply runs_lift in Hu as [_ ->].
  io_bind (k & h1 & Hk & H). apply runs_lift in Hk as [_ ->]. io_bind (header & h1 & Hsign & H).
  pose proof (along_runs _ _ _ _ _ (later_sign _ _ _ _ _) Hsign) as Hl.
  assert (constant h_sent (signRequest method (ur_Path u) body (nd_ID (pf_Node p)) (nc_PrivateKey k))) as Hc
    by (unfold signRequest, hostToken, hostRandom; constancy).
  pose proof (along_runs _ _ _ _ _ Hc Hsign) as Hs. unfold same in Hs.
  io_bind (client & h2 & Hclient & H). apply runs_lift in Hclient as [_ ->].
  pose proof (send_answered _ _ _ _ _ _ _ _ H) as Ha. apply runs_send in H as (_ & _ & Hsent).
  eexists. split; [by rewrite Hsent, Hs|]. split; [reflexivity|].
  eapply answered_within; [exact Hl| |exact Ha]. reflexivity.
Qed.

(** The answer of an exchange. *)
Lemma signed_exchange p method endpoint body a h h' out r text :
  runs (signedCoordinatorRequest p method endpoint body) h a h' → exchange h h' out r text →
  or_Body out = body ∧ a = (rs_Status r, text).
Proof.
  intros H [Hsent Hans]. destruct (signed_answered _ _ _ _ _ _ _ H) as (out' & Hs & Hb & Ha).
  rewrite Hs in Hsent. apply app_inj_tail in Hsent as [_ <-]. split; [done|by apply Hans].
Qed.

(** C4. What a node is told of its connection request is true.  A node asks a
    reachable coordinator for a connection to a service of another node and is
    answered 201; while the coordinator runs on, with any requests, polls and
    time-outs, the node asks for the state of the request it was given. Then
    what it is told is its own request — the same identifier, service,
    target and source — and when it is told that it was accepted, it was not
    at first, and a step the coordinator took on behalf of the target node has
    accepted it in between. *)
Theorem connection_agreement token net l p target service relay key known wait
    c c2 h h1 h2 h3 out1 req1 r1 text1 out2 r2 text2 w ts w1 w2 ts2 w3 :
  reachable token net l (w, ts) →
  runs (createConnectionRequest p target service relay key) h c h1 →
  servePublic req1 = Handler (createConnection req1) → run (createConnection req1) w = (r1, w1) →
  exchange h h1 out1 r1 text1 → createCodec out1 req1 r1 text1 → rs_Status r1 = 201 →
  rtc runStep (w1, ts) (w2, ts2) →
  runs (getConnectionStatus p (cr_ID c) known wait) h2 c2 h3 →
  run (statusRound (requestNode req1) (cr_ID c) known wait) w2 = (Answer r2, w3) →
  exchange h2 h3 out2 r2 text2 → answerCodec r2 text2 →
  target ≠ requestNode req1 →
  cr_ID c2 = cr_ID c ∧ cr_TargetNode c2 = target ∧ cr_Service c2 = service ∧ cr_SourceNode c2 = requestNode req1
  ∧ cr_State c = "queued"
  ∧ (cr_State c2 = "accepted" → acceptedBetween target (cr_ID c) (w1, ts) (w2, ts2)).
Proof.
  intros Hreach Hask Hroute Hcreate Hx1 Hc1 H201 Hrun Hstat Hround Hx2 Hc2 Hother.
  pose proof (reachable_inv token net l _ Hreach) as Hinv.
  assert (sysInv (w1, ts)) as Hinv1.
  { apply (star_invariant sysStep sysInv sysStep_inv (w, ts)); [|done].
    pose proof (servePublic_sections ts req1 _ w Hroute) as Hs. unfold wp in Hs. unfold run in Hcreate. by rewrite Hcreate in Hs. }
  (* the first exchange *)
  unfold createConnectionRequest in Hask. io_bind (a & h1' & Hsend & Hask).
  apply runs_refuse in Hask as [_ Hask]. apply runs_lift in Hask as [Hdec ->].
  destruct (signed_exchange _ _ _ _ _ _ _ _ _ _ Hsend Hx1) as [Hbody ->]. cbn [snd] in Hdec.
  destruct (wp_run _ _ _ _ _ Hcreate (createConnection_spec Anyone (requestNode req1) req1 w (sy_world _ Hinv) eq_refl))
    as [_ H]. destruct (H (or_introl H201)) as (body & nodeKey & input & Hsigned & Hin & _ & _ & Hcreated).
  destruct Hsigned as [Hread _]. apply readBody_Some in Hread as ->.
  rewrite (cc_request _ _ _ _ Hc1 _ Hbody) in Hin. injection Hin as <-.
  destruct (proj1 Hcreated H201) as (changed & w0 & b & _ & _ & _ & Hnew). cbv zeta in Hnew.
  remember (newConnection _ _ _ _ _ _) as c' eqn:Hc' in Hnew. destruct Hnew as (-> & Hconns & _). rename Hc' into Hnew.
  rewrite (cc_answer _ _ _ _ Hc1 _ eq_refl) in Hdec. injection Hdec as <-.
  assert (requestIn (w1, ts) (cr_ID c') = Some c') as Hin1 by (unfold requestIn; simpl; by rewrite Hconns, lookup_insert_eq).
  assert (cr_ID c' ∈ usedTokens w1) as Hused
    by (apply (ci_used _ _ (si_conn _ _ _ _ (wi_memory _ (sy_world _ Hinv1)))); by exists c').
  (* the second *)
  unfold getConnectionStatus in Hstat. io_bind (a2 & h2' & Hsend2 & Hstat).
  apply runs_refuse in Hstat as [Hok Hstat]. apply runs_lift in Hstat as [Hdec2 ->].
  destruct (signed_exchange _ _ _ _ _ _ _ _ _ _ Hsend2 Hx2) as [_ ->]. cbn [fst snd] in Hok, Hdec2.
  unfold statusOK in Hok. bool_simpl.
  destruct (runSteps_used _ _ Hrun Hinv1) as [Hmono Hinv2].
  destruct (wp_run _ _ _ _ _ Hround (statusRound_spec Anyone (requestNode req1) (cr_ID c') known wait w2 (sy_world _ Hinv2)))
    as [S Hout]. destruct (Hout Hok) as (d & -> & Hd & _). rewrite (Hc2 _ eq_refl) in Hdec2. injection Hdec2 as <-.
  destruct (connSteps_moves _ _ _ _ (si_conn _ _ _ _ (wi_memory _ (sy_world _ Hinv2))) (to_conn _ _ _ _ S)) as [_ Hmoves].
  destruct (Hmoves _ d Hd (Hmono _ Hused)) as (c3 & Hc3 & Hm).
  destruct (runSteps_request _ _ _ c3 Hrun Hinv1 Hused Hc3) as (c1 & Hc1' & Hsame & Hacc).
  rewrite Hin1 in Hc1'. injection Hc1' as <-.
  destruct (transitivity Hsame (rm_same _ _ _ Hm)) as (Hid & _ & Hsrc & Htgt & Hsvc & _).
  destruct Hsame as (_ & _ & _ & Htgt3 & _). rewrite <- Hid, <- Htgt, <- Hsvc, <- Hsrc. rewrite Hnew. cbn.
  split_and!; try done. rewrite Hnew in Htgt3, Hacc. cbn in Htgt3, Hacc. intros Hd'.
  destruct (rm_decide _ _ _ Hm (or_introl Hd')) as [Heq|Htarget].
  - destruct (Hacc (eq_trans Heq Hd')) as [[=]|Hbetween]. exact Hbetween.
  - congruence.
Qed.
End Together.

(** ** A concrete request *)

(** The coordinator records the request of alpha, accepts it on behalf of
    beta, and shows it. *)
Definition askedAnswer : response := answer (createConnection connectAlpha) enrolledWorld.
Definition askedConnection : connectionRequest :=
  match rs_Body askedAnswer with Encoded (JConnection c) => c | _ => newEvent end.
Definition betaAccepts : M response := decideLocked "beta" connectionID "welcome" "accepted" 200.
Definition shownWorld : world := after betaAccepts connectedWorld.
Definition shownAnswer : response :=
  match answer (statusRound "alpha" connectionID "queued" false) shownWorld with Answer r => r | Wait _ r => r end.
Definition shownConnection : connectionRequest :=
  match rs_Body shownAnswer with Encoded (JConnection c) => c | _ => newEvent end.

(** The host of alpha: the coordinator's two answers and what they mean. *)
Definition askedText (i : createConnectionInput) : string :=
  if (ci_TargetNode i =? "beta")%string && (ci_Service i =? "ssh")%string && (ci_ReturnRelay i =? "")%string
  then ci_IdempotencyKey i else "other".
Definition askingHostEnv : HostEnv :=
  demoHostEnvWith
    (λ out, if (or_Body out =? "key-1")%string then Some (201, "asked") else Some (200, "shown"))
    (demoHostJsonWith askedText
      (λ s, if (s =? "asked")%string then Some askedConnection else Some shownConnection)
      (λ _, "node") (λ _, "poll") demoEnrollment (mkPollResponse "approved" 0 "")) "k".
Definition askingProfile : profile := demoProfileOf "user" "alpha" noRelay [].
Definition alphaAsks : IO connectionRequest :=
  createConnectionRequest (hostEnv := askingHostEnv) askingProfile "beta" "ssh" "" "key-1".
Definition alphaLooks : IO connectionRequest :=
  getConnectionStatus (hostEnv := askingHostEnv) askingProfile (cr_ID askedConnection) "queued" false.

Lemma asking_exchange {A} (m : IO A) (r : response) text :
  h_sent (final m demoHost) = h_sent demoHost ++ [lastSent (final m demoHost)] →
  transport (HostEnv := askingHostEnv) 0 (lastSent (final m demoHost)) = Some (rs_Status r, text) →
  exchange (hostEnv := askingHostEnv) demoHost (final m demoHost) (lastSent (final m demoHost)) r text.
Proof.
  intros Hs Ht. split; [exact Hs|]. intros answer (i & _ & Hi).
  unfold transport, askingHostEnv, demoHostEnvWith in *. congruence.
Qed.

Lemma asked_codec : createCodec (hostEnv := askingHostEnv) (lastSent (final alphaAsks demoHost)) connectAlpha askedAnswer "asked".
Proof.
  split.
  - assert (or_Body (lastSent (final alphaAsks demoHost)) = "key-1") as -> by (by vm_compute).
    intros [key target service relay] H. change ("key-1" = askedText (mkCreateConnectionInput key target service relay)) in H.
    unfold askedText in H. cbn in H. destruct (_ && _) eqn:E; [|done]. bool_simpl. by subst.
  - intros c Hc. change (Some askedConnection = Some c). unfold askedConnection. by rewrite Hc.
Qed.

Lemma connection_agreement_witness :
  result alphaAsks demoHost = Some askedConnection ∧ result alphaLooks demoHost = Some shownConnection
  ∧ cr_State shownConnection = "accepted" ∧ cr_Service shownConnection = "ssh"
  ∧ acceptedBetween "beta" (cr_ID askedConnection) (connectedWorld, ∅) (shownWorld, ∅).
Proof.
  assert (result alphaAsks demoHost = Some askedConnection) as Ha by (by vm_compute).
  assert (result alphaLooks demoHost = Some shownConnection) as Hl by (by vm_compute).
  assert (cr_State shownConnection = "accepted") as Hs by (by vm_compute).
  split; [exact Ha|]. split; [exact Hl|]. split; [exact Hs|].
  destruct (connection_agreement (hostEnv := askingHostEnv) demoToken "home" homeLimits askingProfile "beta" "ssh" "" "key-1"
    "queued" false askedConnection shownConnection demoHost (final alphaAsks demoHost) demoHost (final alphaLooks demoHost)
    (lastSent (final alphaAsks demoHost)) connectAlpha askedAnswer "asked"
    (lastSent (final alphaLooks demoHost)) shownAnswer "shown" enrolledWorld ∅ connectedWorld shownWorld ∅
    (after (statusRound "alpha" connectionID "queued" false) shownWorld))
    as (_ & _ & Hservice & _ & _ & Hbetween).
  - exact enrolledWorld_reachable.
  - exact (ran alphaAsks _ _ Ha).
  - reflexivity.
  - exact (run_answer (createConnection connectAlpha) enrolledWorld).
  - apply asking_exchange; by vm_compute.
  - exact asked_codec.
  - by vm_compute.
  - apply rtc_once. apply (rs_section connectedWorld ∅ _ "beta" _ _ (sec_accept connectedWorld "beta" connectionID "welcome")).
  - exact (ran alphaLooks _ _ Hl).
  - rewrite run_answer. apply (f_equal2 pair); [by vm_compute|].
    assert (cr_ID askedConnection = connectionID) as -> by (by vm_compute). reflexivity.
  - apply asking_exchange; by vm_compute.
  - intros c Hc. change (Some shownConnection = Some c). unfold shownConnection. by rewrite Hc.
  - discriminate.
  - split; [exact Hservice|exact (Hbetween Hs)].
Defined.
