(* ===== verification/RelayTheorems.v ===== *)
(** * Properties of relays and routes *)
From S2P Require Import Prelude GoStd GoNet GoPath GoCrypto Types Runtime Validate Wire Registry.
From S2P Require Import Auth Profile Host NodeClient NodeConfig RelayProtocol Inbox Relay Effects RelayRules.
From S2P Require Import Demo NodeDemo.

Local Open Scope Z_scope.

(** ** Routes *)

Lemma byPriority_trans : Transitive (notAfter byPriority).
Proof.
  intros x y z. unfold notAfter, byPriority.
  set (p := λ n : discoveredNode, match dn_Relay n with Some r => ra_Priority r | None => 0 end).
  fold (p x) (p y) (p z).
  destruct (Z.eqb_spec (p y) (p x)) as [E1|E1], (Z.eqb_spec (p z) (p y)) as [E2|E2]; cbn [negb].
  - rewrite E2, E1, Z.eqb_refl. cbn [negb]. apply (notAfter_text_trans dn_ID x y z).
  - intros _ H2%Z.ltb_ge. rewrite (proj2 (Z.eqb_neq _ _)) by lia. cbn [negb]. apply Z.ltb_ge. lia.
  - intros H1%Z.ltb_ge _. rewrite (proj2 (Z.eqb_neq _ _)) by lia. cbn [negb]. apply Z.ltb_ge. lia.
  - intros H1%Z.ltb_ge H2%Z.ltb_ge. rewrite (proj2 (Z.eqb_neq _ _)) by lia. cbn [negb]. apply Z.ltb_ge. lia.
Qed.

Lemma byPriority_total : Total (notAfter byPriority).
Proof.
  intros x y. unfold notAfter, byPriority.
  set (p := λ n : discoveredNode, match dn_Relay n with Some r => ra_Priority r | None => 0 end).
  fold (p x) (p y). rewrite (Z.eqb_sym (p y)).
  destruct (Z.eqb_spec (p x) (p y)); cbn [negb]; [apply (notAfter_text_total dn_ID x y)|].
  rewrite !Z.ltb_ge. lia.
Qed.

Lemma firstMatch_complete {A} (f : A → bool) l x : x ∈ l → f x = true → ∃ y, firstMatch f l = Some y ∧ f y = true ∧ y ∈ l.
Proof.
  intros Hx Hf. destruct (firstMatch f l) as [y|] eqn:E.
  - destruct (firstMatch_Some _ _ _ E). eauto.
  - rewrite firstMatch_None in E. by rewrite E in Hf.
Qed.

(** Route resolution: a route leads to a known node with the identity and
    to a service of it with the name that were asked for; its relays are
    exactly the other relays of the target's segment that advertise an
    endpoint — for a subnode only the one it is assigned to — lowest priority
    first and by identity among equals.  There is no route exactly when the
    node is unknown, or does not publish the service, or is a subnode whose
    relay is unknown. *)
Theorem route_correct local nodes targetNode serviceName :
  targetNode ≠ "" → serviceName ≠ "" →
  match routeIn local nodes targetNode serviceName with
  | Some (target, service, relays) =>
      target ∈ nodes ∧ dn_ID target = targetNode
      ∧ service ∈ dn_Services target ∧ ps_Name service = serviceName
      ∧ (∀ n, n ∈ relays ↔ n ∈ nodes ∧ relayFor local target n)
      ∧ StronglySorted (notAfter byPriority) relays
      ∧ (dn_Role target = "subnode" → relays ≠ [])
  | None =>
      (∀ n, n ∈ nodes → dn_ID n ≠ targetNode)
      ∨ ∃ target, firstMatch (λ n, (dn_ID n =? targetNode)%string) nodes = Some target
          ∧ ((∀ s, s ∈ dn_Services target → ps_Name s ≠ serviceName)
             ∨ dn_Role target = "subnode" ∧ ∀ n, n ∈ nodes → ¬ relayFor local target n)
  end.
Proof.
  intros Ht Hs. unfold routeIn. destruct (firstMatch _ nodes) as [target|] eqn:Etarget.
  2:{ left. intros n Hn. rewrite firstMatch_None in Etarget. by apply String.eqb_neq, Etarget. }
  destruct (firstMatch_Some _ _ _ Etarget) as [Hin Hid]. apply String.eqb_eq in Hid.
  rewrite Hid, (proj2 (String.eqb_neq _ _) Ht).
  destruct (firstMatch _ (dn_Services target)) as [service|] eqn:Eservice.
  2:{ right. exists target. split; [done|]. left. intros s Hin'. rewrite firstMatch_None in Eservice.
      by apply String.eqb_neq, Eservice. }
  destruct (firstMatch_Some _ _ _ Eservice) as [Hsin Hname]. apply String.eqb_eq in Hname.
  rewrite Hname, (proj2 (String.eqb_neq _ _) Hs).
  assert (∀ n, n ∈ filter (λ n, routeRelay local target n = true) nodes ↔ n ∈ nodes ∧ relayFor local target n) as Hrel.
  { intros n. rewrite list_elem_of_filter, routeRelay_iff. by split; intros [? ?]. }
  destruct ((dn_Role target =? "subnode")%string && _) eqn:Esub.
  - apply andb_true_iff in Esub as [Hsub%String.eqb_eq Hnil%bool_decide_eq_true_1].
    right. exists target. split; [done|]. right. split; [done|]. intros n Hn Hr.
    assert (n ∈ @nil discoveredNode) as Hbad by (rewrite <- Hnil; by apply Hrel). by apply not_elem_of_nil in Hbad.
  - split_and!; [done..| | |].
    + intros n. by rewrite sortSlice_elem.
    + pose proof byPriority_trans. pose proof byPriority_total. apply StronglySorted_merge_sort; apply _.
    + intros Hsub Hnil. apply andb_false_iff in Esub as [He|He].
      * by rewrite Hsub in He.
      * apply bool_decide_eq_false_1 in He. apply He. apply (f_equal length) in Hnil.
        rewrite sortSlice_length in Hnil. by apply nil_length_inv.
Qed.

(** ** The signed handshake *)

(** The fields of a handshake are free of line feeds and its numbers are in
    the range of an int64 clock. *)
Definition plainHandshake (hs : relayHandshake) : Prop :=
  Forall oneLine [hs_Mode hs; hs_Network hs; hs_SourceNode hs; hs_RelayNode hs; hs_TargetNode hs; hs_Service hs;
                  hs_Nonce hs; hs_RequestID hs]
  ∧ 0 ≤ hs_Version hs < 2 ^ 63 ∧ 0 ≤ hs_Timestamp hs < 2 ^ 63.

(** The signed text of a handshake determines it: two handshakes of
    one-line fields have the same signed text only if they agree on the
    version, mode, network, source, relay, target, service, time and nonce,
    and for a reverse connection on the request.  A signature can therefore
    not be moved to another service, relay or mode. *)
Theorem handshake_message_injective a b (Ha : plainHandshake a) (Hb : plainHandshake b)
    (Hsame : relayHandshakeMessage a = relayHandshakeMessage b) :
  hs_Version a = hs_Version b ∧ hs_Mode a = hs_Mode b ∧ hs_Network a = hs_Network b
  ∧ hs_SourceNode a = hs_SourceNode b ∧ hs_RelayNode a = hs_RelayNode b ∧ hs_TargetNode a = hs_TargetNode b
  ∧ hs_Service a = hs_Service b ∧ hs_Timestamp a = hs_Timestamp b ∧ hs_Nonce a = hs_Nonce b
  ∧ (hs_Mode a = "reverse" → hs_RequestID a = hs_RequestID b).
Proof.
  destruct Ha as (Ha & Hav & Hat), Hb as (Hb & Hbv & Hbt).
  rewrite !Forall_cons in Ha, Hb. destruct Ha as (? & ? & ? & ? & ? & ? & ? & ? & _), Hb as (? & ? & ? & ? & ? & ? & ? & ? & _).
  unfold relayHandshakeMessage in Hsame.
  assert (hs_Mode a = hs_Mode b) as Hmode.
  { cbn [app joinLines] in Hsame. apply append_newline_inj in Hsame as [_ Hsame]; [|by apply FormatInt_oneLine..].
    by apply append_newline_inj in Hsame as [? _]. }
  rewrite <- Hmode in Hsame.
  apply joinLines_inj in Hsame.
  - cbn [app] in Hsame. destruct (String.eqb_spec (hs_Mode a) "reverse").
    + injection Hsame as Hver ? ? ? ? ? Htime ? ?. split_and!; try done; by apply FormatInt_inj.
    + injection Hsame as Hver ? ? ? ? ? Htime ?. split_and!; try done; by apply FormatInt_inj.
  - simpl. repeat (constructor; [by try apply FormatInt_oneLine|]). destruct (_ =? _)%string; by repeat constructor.
  - simpl. repeat (constructor; [by try apply FormatInt_oneLine|]). destruct (_ =? _)%string; by repeat constructor.
  - simpl. by destruct (_ =? _)%string.
Qed.

(** ** The relay server *)

Section Server.
Context {unicode : Unicode} {hostEnv : HostEnv}.

(** The relay's check of a handshake: it always answers; the answer is yes
    exactly when every field is present and names this relay and network, the
    date is within two minutes of the relay's clock, the source is a known
    peer whose identity key verifies the signature, and the nonce has not
    been accepted in the last two minutes; the nonce is then remembered for
    two minutes.  No file changes, and a refused forgery leaves no trace. *)
Theorem relay_verify_correct p path hs h (Hclock : Time.zero ≤ hostClock (h_tick h)) :
  ∃ b h', runs (verify p path hs) h b h'
    ∧ (b = true ↔ authentic p path hs h
         ∧ ∀ e, nm_nonces (h_memory h) !! hs_Nonce hs = Some e → e ≤ hostClock (h_tick h))
    ∧ h_files h' = h_files h
    ∧ (b = true → nm_nonces (h_memory h') !! hs_Nonce hs = Some (hostClock (h_tick h) + 2 * Time.minute))
    ∧ (¬ authentic p path hs h → h_memory h' = h_memory h).
Proof. by apply verify_spec. Qed.

(** What happens on the host of a relay: connections handled, and anything
    else that leaves the seen nonces alone, in any order. *)
Inductive relayRuns (p : profile) (path : string) : host → host → Prop :=
  | rr_done h : relayRuns p path h h
  | rr_handle line o h h1 h2 : runs (handle p path line) h o h1 → relayRuns p path h1 h2 → relayRuns p path h h2
  | rr_other h h1 h2 : later h h1 → nm_nonces (h_memory h1) = nm_nonces (h_memory h) →
      relayRuns p path h1 h2 → relayRuns p path h h2.

(** A nonce stays until its time is over. *)
Lemma relayRuns_nonce p path h h' n e :
  (∀ i j, (i ≤ j)%nat → hostClock i ≤ hostClock j) →
  relayRuns p path h h' → nm_nonces (h_memory h) !! n = Some e →
  nm_nonces (h_memory h') !! n = Some e ∨ e ≤ hostClock (h_tick h').
Proof.
  intros Hmono Hruns. induction Hruns as [h|line o h h1 h2 Hrun Hruns IH|h h1 h2 Hlater Hsame Hruns IH]; intros He.
  - by left.
  - pose proof (along_runs later _ _ _ _ (later_handle p path line) Hrun) as Hl.
    assert (later h1 h2) as Hl2.
    { clear - Hruns. induction Hruns as [h|line o h h1 h2 Hrun Hruns IH|h h1 h2 Hlater Hsame Hruns IH];
        [reflexivity| |by etransitivity].
      etransitivity; [|exact IH]. exact (along_runs later _ _ _ _ (later_handle p path line) Hrun). }
    destruct (Z.le_gt_cases e (hostClock (h_tick h))) as [Hle|Hgt].
    { right. pose proof (Hmono (h_tick h) (h_tick h2)). unfold later in *. lia. }
    apply IH. destruct (handle_nonces p path line o h h1 Hrun) as [->|(hs & _ & ->)]; [done|].
    destruct (decide (n = hs_Nonce hs)) as [->|Hne].
    + by apply takeNonce_live.
    + apply takeNonce_other; [done|done|lia].
  - apply IH. by rewrite Hsame.
Qed.

(** C9. No replay at a relay: whatever the relay handles between them, two
    handshakes with the same nonce that it accepts are at least two minutes
    apart on its clock, and the second is dated no earlier than the relay's
    clock showed at the first.  So a handshake that was not dated ahead of
    the relay's clock is accepted once only. *)
Theorem relay_no_replay p path hs hs' h h1 h2 h3
    (Hmono : ∀ i j, (i ≤ j)%nat → hostClock i ≤ hostClock j)
    (Hfirst : runs (verify p path hs) h true h1)
    (Hbetween : relayRuns p path h1 h2)
    (Hsecond : runs (verify p path hs') h2 true h3)
    (Hnonce : hs_Nonce hs' = hs_Nonce hs) :
  hostClock (h_tick h) + 2 * Time.minute ≤ hostClock (h_tick h2)
  ∧ hostClock (h_tick h) ≤ Time.Unix (hs_Timestamp hs').
Proof.
  apply runs_verify in Hfirst as [_ [[Ha Htake]|(_ & ? & _)]]; [|done].
  apply runs_verify in Hsecond as [_ [[Ha' Htake']|(_ & ? & _)]]; [|done].
  pose proof (takeNonce_taken (hostClock (h_tick h)) (hs_Nonce hs) (nm_nonces (h_memory h))) as Htaken.
  rewrite <- Htake in Htaken. simpl in Htaken. specialize (Htaken eq_refl).
  assert (hostClock (h_tick h) + 2 * Time.minute ≤ hostClock (h_tick h2)) as Hlate.
  { destruct (relayRuns_nonce p path h1 h2 _ _ Hmono Hbetween Htaken) as [Hkept|]; [|done].
    destruct (Z.le_gt_cases (hostClock (h_tick h) + 2 * Time.minute) (hostClock (h_tick h2))) as [|Hgt]; [done|].
    rewrite <- Hnonce in Hkept.
    destruct (takeNonce_live _ _ _ _ Hkept Hgt) as [Hno _]. rewrite <- Htake' in Hno. done. }
  split; [done|]. destruct Ha' as (_ & Hw & _). lia.
Qed.
End Server.

(** ** What a relay lets through *)

Section Authority.
Context {unicode : Unicode} {hostEnv : HostEnv}.

(** The source of the handshake is a peer in the relay's file, which signed it
    just now; a subnode only if it is this relay's own. *)
Definition admittedSource (p : profile) (path : string) (hs : relayHandshake) (h : host) : Prop :=
  authentic p path hs h
  ∧ ∃ peers n, knownPeers (h_files h) path = Some peers ∧ findPeer peers (hs_SourceNode hs) = Some n
      ∧ (dn_Role n = "subnode" → ownSubnode p n = true).

(** C5. What a relay lets through.  [handle] answers every connection and
    changes no file, and what it does to the connection is authorised, by the
    peers in the relay's file: a service is bridged only for an admitted
    source in mode [service], along the route to that very service, into the
    relay's own segment or for one of its own subnodes, to a candidate of the
    service that presented the pinned certificate, to a relay of the route that
    answered, or to the target itself, which connected back; a reverse
    connection is handed over only to an expectation of that request by that
    node for that service, which is used up; a coordinator tunnel opens only
    to the holder of the admission token that is not a known node of another
    relay. *)
Theorem relay_handle_authorized p path line h :
  ∃ o h', runs (handle p path line) h o h' ∧ h_files h' = h_files h
    ∧ match o with
      | Refused _ | Vanished => nm_tunnels (h_memory h') = nm_tunnels (h_memory h)
      | Tunnelled => ∃ text hs, line = Some text ∧ unmarshalHandshake text = Some hs ∧ hs_Mode hs = "coordinator"
          ∧ tunnelAdmitted p path hs h
          ∧ nm_tunnels (h_memory h') = nm_tunnels (h_memory h) + 1 ∧ nm_tunnels (h_memory h') ≤ maxCoordinatorTunnels
      | HandedOver request => ∃ text hs, line = Some text ∧ unmarshalHandshake text = Some hs ∧ hs_Mode hs = "reverse"
          ∧ admittedSource p path hs h ∧ request = hs_RequestID hs ∧ request ≠ ""
          ∧ nm_waiting (h_memory h) !! request = Some (hs_SourceNode hs, hs_Service hs)
          ∧ nm_waiting (h_memory h') = delete request (nm_waiting (h_memory h))
      | Bridged t => ∃ text hs, line = Some text ∧ unmarshalHandshake text = Some hs ∧ hs_Mode hs = "service"
          ∧ admittedSource p path hs h ∧ serviceOk p path hs h t
      end.
Proof.
  destruct (returns_handle p path line h) as (o & h' & Hrun). exists o, h'. split; [done|].
  destruct (along_runs onward _ _ _ _ (onward_handle p path line) Hrun) as [_ Hfiles]. split; [done|].
  apply runs_handle in Hrun as [[-> ->]|(text & hs & -> & _ & Hhs & Hrun)]; [done|].
  assert (∀ v g, runs (verify p path hs) h v g → nm_tunnels (h_memory g) = nm_tunnels (h_memory h)
    ∧ nm_waiting (h_memory g) = nm_waiting (h_memory h)) as Hkeep.
  { intros v g Hv. split.
    - exact (along_runs _ _ _ _ _ (part_verify nm_tunnels (λ _ _, eq_refl) p path hs) Hv).
    - exact (along_runs _ _ _ _ _ (part_verify nm_waiting (λ _ _, eq_refl) p path hs) Hv). }
  destruct Hrun as [Hmode Hrun|Hmode Hv ->|h1 Hmode Hv Ha ->|h1 h2 Hmode Hv Ha Hrest].
  - apply runs_openTunnel in Hrun. destruct o; try done. destruct Hrun as (Hadm & Hlt & Hn).
    exists text, hs. split_and!; try done. lia.
  - by apply (Hkeep false).
  - apply runs_acceptsSourceRoute in Ha as [-> _]. exact (proj1 (Hkeep true h1 Hv)).
  - destruct (Hkeep true h1 Hv) as [Ht Hw].
    assert (onward h h1) as Hon.
    { split; [|by destruct (runs_verify _ _ _ _ _ _ Hv) as [? _]].
      apply (along_runs later _ _ _ _ (later_verify p path hs) Hv). }
    apply runs_acceptsSourceRoute in Ha as [-> Ha]. destruct (Ha eq_refl) as (nodes & n & Hp & Hfind & Hrole).
    assert (admittedSource p path hs h) as Hadm.
    { split; [by destruct (runs_verify _ _ _ _ _ _ Hv) as [_ [[? _]|(_ & ? & _)]]|]. exists nodes, n. by rewrite <- (proj2 Hon). }
    destruct Hrest as [[Hm Hr]|[[Hm Hr]|[-> ->]]].
    + pose proof (along_runs _ _ _ _ _ (part_handReverse nm_tunnels (λ _ _, eq_refl) hs) Hr) as Htun.
      unfold same in Htun. apply runs_handReverse in Hr. destruct o as [code| | |request|t]; try done.
      * by rewrite Htun.
      * by rewrite Htun.
      * destruct Hr as (He & Hne & Hexp & Hdel). cbn [tickHost h_memory] in Hexp, Hdel. rewrite Hw in Hexp, Hdel.
        exists text, hs. rewrite He in *. by split_and!.
    + pose proof (along_runs _ _ _ _ _ (part_serve nm_tunnels (λ _ _, eq_refl) (λ _ _, eq_refl) (λ _ _, eq_refl) p path hs) Hr) as Htun.
      unfold same in Htun. destruct o as [code| | |request|t].
      * by rewrite Htun.
      * by rewrite Htun.
      * by destruct (serve_outcome p path hs _ _ _ Hr).
      * by destruct (serve_outcome p path hs _ _ _ Hr).
      * apply runs_serveService in Hr. exists text, hs. split_and!; [done..|]. eapply serviceOk_since; [|exact Hr].
        etransitivity; [exact Hon|]. split; [unfold later; simpl; lia|done].
    + simpl. by rewrite Ht.
Qed.
End Authority.

(** ** The two ends of a handshake *)

Section Agreement.
Context {unicode : Unicode} {hostEnv : HostEnv}.

(** A credential whose private key makes signatures that a relay holding its
    public key verifies. *)
Definition relayKey (c : nodeCredential) : Prop :=
  ∃ pub priv, Base64.RawStdDecode (nc_PublicKey c) = Some pub ∧ Base64.RawStdDecode (nc_PrivateKey c) = Some priv
    ∧ String.length pub = PublicKeySize ∧ String.length priv = PrivateKeySize
    ∧ ∀ m, hostVerify pub m (ed25519Sign priv m) = true ∧ ed25519Sign priv m ≠ "".

Lemma hs_fields_signed q p relay mode target service request nonce priv now :
  pf_VirtualNetwork q = pf_VirtualNetwork p → nd_ID (pf_Node q) = dn_ID relay →
  nd_ID (pf_Node p) ≠ "" → target ≠ "" → service ≠ "" → nonce ≠ "" → (∀ m, ed25519Sign priv m ≠ "") →
  handshakeFields q (signedHandshake p relay mode target service request nonce priv now) = true.
Proof.
  intros Hnet Hid Hsrc Ht Hs Hn Hsig. unfold handshakeFields, signedHandshake.
  cbn [setSignature hs_Version hs_Network hs_SourceNode hs_RelayNode hs_TargetNode hs_Service hs_Nonce hs_Signature].
  rewrite Hnet, Hid, Z.eqb_refl, !String.eqb_refl.
  repeat match goal with |- context [(?s =? "")%string] => rewrite (proj2 (String.eqb_neq s "")); [|first [done|idtac]] end;
    [done|].
  apply base64_nonempty, Hsig.
Qed.

(** C14. The two ends agree: the handshake of a dial that succeeded, in either
    mode, is one that the relay it was meant for accepts — if the relay has
    discovered the node under the public key of its credential, their clocks
    differ by less than two minutes (119 s on the late side), and the nonce is
    new there.  The texts signed and verified, the encodings, the fields and
    the window fit together. *)
Theorem dialed_handshake_accepted p relay mode target service request u h h' q path g nodes n c
    (Hdial : runs (dialSignedRelay p relay mode target service request) h u h')
    (Hc : cl_Credential (pf_Coordinator p) = Some c) (Hkey : relayKey c)
    (Hnet : pf_VirtualNetwork q = pf_VirtualNetwork p) (Hid : nd_ID (pf_Node q) = dn_ID relay)
    (Hnames : nd_ID (pf_Node p) ≠ "" ∧ target ≠ "" ∧ service ≠ "")
    (Hpeers : peersNow path (tickHost g) = Some nodes)
    (Hfind : findPeer nodes (nd_ID (pf_Node p)) = Some n) (Hpub : dn_IdentityKey n = nc_PublicKey c)
    (Htime : 0 ≤ hostClock (2 + h_tick h) < 2 ^ 62) (Hzero : Time.zero ≤ hostClock (h_tick g))
    (Hclocks : hostClock (h_tick g) - 2 * Time.minute + Time.second ≤ hostClock (2 + h_tick h)
               ≤ hostClock (h_tick g) + 2 * Time.minute) :
  ∃ endpoint hs, nm_handshakes (h_memory h') = nm_handshakes (h_memory h) ++ [(endpoint, hs)]
    ∧ hs_Mode hs = mode ∧ hs_SourceNode hs = nd_ID (pf_Node p) ∧ hs_TargetNode hs = target
    ∧ hs_Service hs = service ∧ hs_RequestID hs = request
    ∧ authentic q path hs g
    ∧ (nm_nonces (h_memory g) !! hs_Nonce hs = None → ∃ g', runs (verify q path hs) g true g').
Proof.
  apply runs_dialSigned in Hdial as (adv & c' & priv & b & _ & Hc' & Hpriv & _ & Hlen & Hsent & _).
  assert (c' = c) as -> by congruence. destruct Hkey as (pub & priv' & Hd & Hp & Hplen & _ & Hsign).
  assert (priv' = priv) as -> by congruence. destruct Hnames as (Hsrc & Ht & Hs).
  set (now := hostClock (2 + h_tick h)) in *. set (hs := signedHandshake _ _ _ _ _ _ _ _ _) in Hsent.
  assert (authentic q path hs g) as Ha.
  { split.
    { apply hs_fields_signed; try done; [|intros m; by apply Hsign]. apply hex_nonempty. by intros ->. }
    split.
    + change (hs_Timestamp hs) with (Time.ToUnix now). destruct (Unix_ToUnix now Htime). lia.
    + exists nodes. split; [done|]. exists n, pub, (ed25519Sign priv (relayHandshakeMessage
        (mkRelayHandshake relayHandshakeVersion mode (pf_VirtualNetwork p) (nd_ID (pf_Node p)) (dn_ID relay)
              target service request "" (Time.ToUnix now) (Hex.EncodeToString b) ""))).
      split_and!; [done|by rewrite Hpub|done|apply base64_decode_encode|].
      exact (proj1 (Hsign _)). }
  exists (ra_Endpoint adv), hs. split; [exact Hsent|]. split_and!; [done..|].
  intros Hnew. destruct (verify_spec q path hs g Hzero) as (b' & g' & Hrun & Hiff & _).
  exists g'. destruct b'; [done|]. exfalso. assert (false = true) as Hbad; [|done]. apply Hiff.
  split; [exact Ha|]. intros e He. congruence.
Qed.
End Agreement.

(** ** Pulling a service *)

Section Pull.
Context {unicode : Unicode} {hostEnv : HostEnv}.

Lemma firstMatch_app {A} (f : A → bool) k l x : firstMatch f k = Some x → firstMatch f (k ++ l) = Some x.
Proof. induction k as [|y k IH]; simpl; [done|]. by destruct (f y). Qed.

(** A relay refuses every connection to its own subnodes: the route to a
    subnode must go by its relay, and a relay leaves itself out of the
    routes it resolves, so it answers that the service is missing. *)
Theorem own_subnode_refused p path hs h o h' nodes target
    (Hrun : runs (serveService p path hs) h o h')
    (Hpeers : peersNow path h = Some nodes)
    (Hfind : findPeer nodes (hs_TargetNode hs) = Some target)
    (Hrole : dn_Role target = "subnode") (Hup : dn_UpstreamRelay target = nd_ID (pf_Node p)) :
  o = Refused "target_service_missing".
Proof.
  unfold serveService in Hrun. io_bind (route & h1 & Hr & H). apply runs_attempt in Hr.
  destruct route as [[[t service] relays]|]; [exfalso|by apply runs_ret in H as [-> _]].
  apply runs_resolveRoute in Hr as [_ (nodes' & self & Hn & Hid & Hroute)]. rewrite Hpeers in Hn. injection Hn as <-.
  unfold routeIn in Hroute. unfold findPeer in Hfind. rewrite (firstMatch_app _ _ _ _ Hfind) in Hroute.
  destruct (dn_ID target =? "")%string; [done|]. destruct (firstMatch _ (dn_Services target)); [|done].
  destruct (ps_Name _ =? "")%string; [done|]. rewrite Hrole in Hroute. cbn [String.eqb Stdlib.Strings.Ascii.eqb Bool.eqb andb] in Hroute.
  rewrite bool_decide_eq_true_2 in Hroute; [done|]. apply elem_of_nil_inv. intros n [Hn _]%list_elem_of_filter.
  apply routeRelay_iff in Hn as (Hne & _ & _ & _ & Hsub). apply Hne. rewrite <- Hup. by apply Hsub.
Qed.

Lemma returns_pullRelays current relays target service : returns (pullRelays current relays target service).
Proof. induction relays as [|relay relays IH]; simpl; unfold isCooling, markFailure; returning; apply IH. Qed.

Lemma returns_pullHandle path m : returns (pullHandle path m).
Proof.
  pose proof returns_pullRelays. unfold pullHandle, tryReverse.
  repeat first [match goal with H : _ |- returns _ => solve [apply H] end | returns_step].
Qed.

Lemma onward_pullRelays current relays target service : along onward (pullRelays current relays target service).
Proof.
  induction relays as [|n relays IH]; simpl; [intros h; by split|]. pose proof (onward_dialRelay current n target service).
  unfold isCooling, markFailure.
  repeat first [assumption | along_step ltac:(solve [intros ?; split; [unfold later; simpl; lia|exact eq_refl]])].
Qed.

(** A relay that is passed over. *)
Definition passedOver (p : profile) (target service : string) (h : host) (n : discoveredNode) : Prop :=
  occurs (isCooling (relayEndpoint n)) true h ∨ fails (dialRelay p n target service) h.

Lemma passedOver_since p target service h g n : onward h g → passedOver p target service g n → passedOver p target service h n.
Proof. intros Hg [H|H]; [left; by eapply occurs_since|right; by eapply fails_since]. Qed.

Lemma onward_isCooling endpoint : along onward (isCooling endpoint).
Proof. intros h. split; [unfold later; simpl; lia|done]. Qed.

Lemma runs_pullRelays current relays target service r h h' :
  runs (pullRelays current relays target service) h r h' →
  match r with
  | Some r => relayReached current relays target service r h
  | None => Forall (passedOver current target service h) relays
  end.
Proof.
  revert h. induction relays as [|relay relays IH]; intros h H; simpl in H; [by apply runs_ret in H as [-> _]|].
  assert (∀ g, onward h g → runs (pullRelays current relays target service) g r h' → passedOver current target service h relay →
    match r with
    | Some r => relayReached current (relay :: relays) target service r h
    | None => Forall (passedOver current target service h) (relay :: relays)
    end) as Hrest.
  { intros g Hg Hr Hpass. specialize (IH g Hr). destruct r as [r|]; [by eapply relayReached_rest|]. constructor; [done|].
    eapply Forall_impl; [exact IH|]. intros n. by apply passedOver_since. }
  io_bind (cooling & h1 & Hc & H). pose proof (along_runs _ _ _ _ _ (onward_isCooling _) Hc) as H1.
  destruct cooling; [apply (Hrest h1); [done..|left; by eapply occurs_now]|].
  io_bind (dialed & h2 & Hd & H).
  pose proof (along_runs _ _ _ _ _ (along_attempt _ _ (onward_dialRelay current relay target service)) Hd) as H2.
  destruct dialed as [[]|].
  - apply runs_ret in H as [-> _]. apply runs_attempt in Hd. exists relay. split; [by left|]. split; [done|].
    eapply occurs_since; [exact H1|by eapply occurs_now].
  - io_bind (u & h3 & Hm & H). apply (Hrest h3); [|done|].
    + etransitivity; [exact H1|]. etransitivity; [exact H2|]. unfold markFailure in Hm. io_bind (now & g & Hg & Hm).
      apply runs_ask in Hg as [_ ->]. apply runs_modMemory in Hm as ->. split; [unfold later; simpl; lia|done].
    + right. eapply fails_since; [exact H1|by eapply runs_attempt_None].
Qed.

(** The relays a pull goes through: the target itself when it is one. *)
Definition pullCandidates (target : discoveredNode) (relays : list discoveredNode) : list discoveredNode :=
  if bool_decide (dn_Role target = "relay") then match dn_Relay target with Some _ => [target] | None => [] end else relays.

Lemma pullCandidates_eq target relays : routeRelayCandidates target relays = pullCandidates target relays.
Proof.
  unfold routeRelayCandidates, pullCandidates. destruct (String.eqb_spec (dn_Role target) "relay"); case_bool_decide; try done.
Qed.

(** By which way a connection of the pull [m] may go, along its route: a
    subnode's only over its own relay; any other directly, in the target's
    segment and not to a subnode; else over a relay; else back from the
    target, to a relay that can be reached. *)
Definition pullOk (p : profile) (path : string) (m : mapping) (h : host) (o : pullOutcome) : Prop :=
  ∃ target service relays, routeNow p path h (mp_TargetNode m) (mp_Service m) target service relays
    ∧ let inside := pf_Segment p = dn_Segment target ∧ dn_Role target ≠ "subnode" in
      let direct := inside → fails (dialDirectCandidates service) h in
      match o with
      | PullFailed => True
      | PullUpstream => pf_Role p = "subnode" ∧ ∃ n, dn_ID n = sn_RelayNodeID (pf_Subnode p)
          ∧ dn_Relay n = Some (mkRelayAdvertisement (sn_RelayEndpoint (pf_Subnode p)) (sn_RelayPinnedSHA256 (pf_Subnode p)) 0)
          ∧ occurs (dialRelay p n (mp_TargetNode m) (mp_Service m)) tt h
      | PullDirect a => pf_Role p ≠ "subnode" ∧ inside ∧ candidateReached service a
      | PullRelay r => pf_Role p ≠ "subnode" ∧ direct
          ∧ relayReached p (pullCandidates target relays) (mp_TargetNode m) (mp_Service m) r h
      | PullReverse => pf_Role p = "relay" ∧ rl_Endpoint (pf_Relay p) ≠ "" ∧ direct ∧ dn_Role target ≠ "subnode"
          ∧ Forall (passedOver p (mp_TargetNode m) (mp_Service m) h) (pullCandidates target relays)
          ∧ reverseReached p target service h
      end.

Lemma runs_tryReverse p target service h h' :
  runs (tryReverse p target service) h true h' →
  pf_Role p = "relay" ∧ rl_Endpoint (pf_Relay p) ≠ "" ∧ reverseReached p target service h.
Proof.
  unfold tryReverse. intros H. destruct (_ || _) eqn:Hno; [by apply runs_ret in H as [? _]|]. bool_simpl.
  io_bind (reached & h1 & Hr & H). apply runs_ret in H as [Hb _]. destruct reached as [[]|]; [|done].
  apply runs_attempt in Hr. split_and!; [done..|]. split_and!; [done|by destruct (cl_Credential (pf_Coordinator p))|].
  eexists. by eapply occurs_now.
Qed.

(** The rest of a pull, of a node that is no subnode. *)
Lemma pullOk_relays p path m h g target service relays o h' :
  onward h g → routeNow p path h (mp_TargetNode m) (mp_Service m) target service relays → pf_Role p ≠ "subnode" →
  (pf_Segment p = dn_Segment target ∧ dn_Role target ≠ "subnode" → fails (dialDirectCandidates service) h) →
  runs (via ← pullRelays p (routeRelayCandidates target relays) (mp_TargetNode m) (mp_Service m);
        match via with
        | Some relay => mret (PullRelay relay)
        | None =>
            if negb (bool_decide (routeRelayCandidates target relays = [])) && (dn_Role target =? "subnode")%string
            then mret PullFailed
            else reversed ← tryReverse p target service; mret (if (reversed : bool) then PullReverse else PullFailed)
        end) g o h' → pullOk p path m h o.
Proof.
  intros Hg Hroute Hrole Hdirect H. exists target, service, relays. split; [done|]. cbv zeta.
  io_bind (r & h1 & Hv & H). pose proof (along_runs _ _ _ _ _ (onward_pullRelays _ _ _ _) Hv) as H1.
  rewrite pullCandidates_eq in *. apply runs_pullRelays in Hv. destruct r as [r|].
  - apply runs_ret in H as [-> _]. split_and!; [done..|]. destruct Hv as (n & ? & ? & ?). exists n. split_and!; [done..|by eapply occurs_since].
  - destruct (negb _ && _) eqn:Hsub; [by apply runs_ret in H as [-> _]|].
    io_bind (reversed & h2 & Ht & H). apply runs_ret in H as [-> _]. destruct reversed; [|done].
    apply runs_tryReverse in Ht as (? & ? & Hrev). split_and!; [done..| | |].
    + intros Hs. rewrite Hs, String.eqb_refl, andb_true_r in Hsub. apply negb_false_iff, bool_decide_eq_true_1 in Hsub.
      destruct Hroute as (peers & self & _ & _ & Hrt). apply (rt_subnode _ _ _ _ _ _ _ Hrt Hs).
      unfold pullCandidates in Hsub. by rewrite Hs in Hsub.
    + eapply Forall_impl; [exact Hv|]. intros n. by apply passedOver_since.
    + eapply reverseReached_since; [|exact Hrev]. by etransitivity.
Qed.

(** C19. A pull listener answers every connection, and by an allowed path: along
    the route to its service that follows from the profile and the peers in
    the node's files; a subnode only over its own relay; any other node
    directly only inside its segment and never to a subnode, at a published
    address that presented the pinned certificate; over a relay of the route,
    or over the target when that is a relay, only when no direct path was
    found; and by a reverse connection only when every relay is cooling down or
    has failed, and the node is itself a relay with an endpoint and an approved
    credential. *)
Theorem pull_handle_correct path m h :
  ∃ o h', runs (pullHandle path m) h o h'
    ∧ (o ≠ PullFailed → ∃ p, profileAt (h_files h) path p ∧ pullOk p path m h o).
Proof.
  destruct (returns_pullHandle path m h) as (o & h' & Hrun). exists o, h'. split; [done|]. intros Hne.
  unfold pullHandle in Hrun. io_bind (loaded & h1 & Hl & H).
  pose proof (along_runs _ _ _ _ _ (along_attempt _ _ (onward_loadProfile path)) Hl) as H1. apply runs_attempt in Hl.
  destruct loaded as [p|]; [|by apply runs_ret in H as [-> _]].
  pose proof (runs_loadProfile path p h h1 Hl) as [_ Hat]. exists p. split; [done|].
  io_bind (route & h2 & Hr & H).
  pose proof (along_runs _ _ _ _ _ (along_attempt _ _ (onward_resolve p path (mp_TargetNode m) (mp_Service m))) Hr) as H2.
  apply runs_attempt in Hr. destruct route as [[[target service] relays]|]; [|by apply runs_ret in H as [-> _]].
  assert (onward h h2) as H02 by (by etransitivity).
  assert (routeNow p path h (mp_TargetNode m) (mp_Service m) target service relays) as Hroute.
  { apply runs_resolveRoute in Hr as [(peers & self & Hp & Hs & Hrt) _]. exists peers, self.
    rewrite (proj2 H1) in Hp. split_and!; [done|exact (occurs_since _ _ _ _ H1 Hs)|done]. }
  destruct (String.eqb_spec (pf_Role p) "subnode") as [Hsub|Hsub].
  { io_bind (dialed & h3 & Hd & H). apply runs_ret in H as [-> _]. destruct dialed as [[]|]; [|done]. apply runs_attempt in Hd.
    exists target, service, relays. split; [done|]. split; [done|]. eexists. split; [|split]; [..|eapply occurs_since; [exact H02|by eapply occurs_now]]; done. }
  io_bind (direct & h3 & Hd & H).
  assert (onward h2 h3 ∧ match direct with
    | Some a => (pf_Segment p = dn_Segment target ∧ dn_Role target ≠ "subnode") ∧ candidateReached service a
    | None => pf_Segment p = dn_Segment target ∧ dn_Role target ≠ "subnode" → fails (dialDirectCandidates service) h2
    end) as [H3 Hdirect].
  { destruct (String.eqb_spec (pf_Segment p) (dn_Segment target)); [|by apply runs_ret in Hd as [-> ->]; split; [|intros []]].
    destruct (String.eqb_spec (dn_Role target) "subnode"); [by apply runs_ret in Hd as [-> ->]; split; [|intros []]|].
    split; [exact (along_runs _ _ _ _ _ (along_attempt _ _ (onward_candidates service)) Hd)|].
    destruct direct as [a|]; [|intros _; by eapply runs_attempt_None].
    apply runs_attempt in Hd. split; [done|by eapply runs_dialCandidates]. }
  destruct direct as [a|].
  { apply runs_ret in H as [-> _]. exists target, service, relays. split; [done|]. by destruct Hdirect. }
  eapply (pullOk_relays p path m h h3 target service relays); [by etransitivity|done|done| |exact H].
  intros Hin. eapply fails_since; [exact H02|by apply Hdirect].
Qed.

(** Handshakes are only sent to the given endpoint. *)
Definition dialsOnly (endpoint : string) : relation host := λ h h',
  ∃ l, nm_handshakes (h_memory h') = nm_handshakes (h_memory h) ++ l ∧ Forall (λ x, x.1 = endpoint) l.
#[local] Instance dialsOnly_preorder endpoint : PreOrder (dialsOnly endpoint).
Proof.
  split; [intros h; exists []; by rewrite app_nil_r|]. intros x y z (l & Hl & Hlf) (k & Hk & Hkf).
  exists (l ++ k). split; [by rewrite Hk, Hl, app_assoc|by apply Forall_app].
Qed.

Lemma dialsOnly_relay p relay target service : along (dialsOnly (relayEndpoint relay)) (dialRelay p relay target service).
Proof.
  assert (∀ e, along (dialsOnly e) hostToken) as Htoken.
  { intros e h. exists []. split; [|constructor]. rewrite app_nil_r. exact (f_equal nm_handshakes (constant_hostToken h)). }
  unfold dialRelay, dialSignedRelay, relayEndpoint. destruct (dn_Relay relay) as [a|].
  2:{ intros h. exists []. simpl. by rewrite app_nil_r. }
  match goal with |- along ?R (mbind ?k (lift (Some ?a))) => change (along R (k a)) end.
  unfold exchangeHandshake, recordHandshake.
  repeat first [apply Htoken
    | along_step ltac:(first [solve [intros h; exists []; split; [symmetry; apply app_nil_r|constructor]]
                             | solve [intros h; eexists; split; [reflexivity|by repeat constructor]]])].
Qed.

Lemma later_relay p relay target service : along later (dialRelay p relay target service).
Proof.
  unfold dialRelay, dialSignedRelay, exchangeHandshake, recordHandshake, hostToken, hostRandom.
  repeat along_step ltac:(solve [intros ?; unfold later; simpl; lia]).
Qed.

(** What one turn of the loop does to the cool-downs and the handshakes. *)
Lemma runs_pullTurn current relay target service h d h1 (Hmono : ∀ i j, (i ≤ j)%nat → hostClock i ≤ hostClock j) :
  runs (attempt (dialRelay current relay target service)) h d h1 →
  hostClock (h_tick h) ≤ hostClock (h_tick h1) ∧ nm_cooling (h_memory h1) = nm_cooling (h_memory h)
  ∧ dialsOnly (relayEndpoint relay) h h1.
Proof.
  intros H. split_and!.
  - apply Hmono. exact (along_runs later _ _ _ _ (along_attempt _ _ (later_relay current relay target service)) H).
  - exact (along_runs _ _ _ _ _ (along_attempt _ _ (part_dialSigned nm_cooling (λ _ _, eq_refl) current relay "service" target service "")) H).
  - exact (along_runs _ _ _ _ _ (along_attempt _ _ (dialsOnly_relay current relay target service)) H).
Qed.

(** Cool-down: one pass over the relays sends no handshake to an endpoint
    whose cool-down outlasts the pass, and after a pass that found no relay
    every endpoint it went over is cooling down, as it was or for thirty
    seconds from its failure. *)
Theorem relay_cooling current relays target service h r h' c0
    (Hmono : ∀ i j, (i ≤ j)%nat → hostClock i ≤ hostClock j)
    (Hstart : c0 ≤ hostClock (h_tick h)) (Hzero : Time.zero ≤ c0)
    (Hrun : runs (pullRelays current relays target service) h r h') :
  hostClock (h_tick h) ≤ hostClock (h_tick h')
  ∧ (∃ l, nm_handshakes (h_memory h') = nm_handshakes (h_memory h) ++ l
       ∧ ∀ endpoint hs ends, (endpoint, hs) ∈ l → nm_cooling (h_memory h) !! endpoint = Some ends →
           ends ≤ hostClock (h_tick h'))
  ∧ (∀ endpoint ends, nm_cooling (h_memory h) !! endpoint = Some ends → c0 < ends →
       ∃ ends', nm_cooling (h_memory h') !! endpoint = Some ends' ∧ c0 < ends')
  ∧ (r = None → ∀ n, n ∈ relays → ∃ ends, nm_cooling (h_memory h') !! relayEndpoint n = Some ends ∧ c0 < ends).
Proof.
  revert h Hstart Hrun. induction relays as [|relay relays IH]; intros h Hstart H; simpl in H.
  { apply runs_ret in H as [-> ->]. split_and!; [done| |by eauto|intros _ n Hn; by apply not_elem_of_nil in Hn].
    exists []. rewrite app_nil_r. split; [done|]. intros endpoint hs ends Hin. by apply not_elem_of_nil in Hin. }
  io_bind (cooling & h1 & Hc & H). unfold isCooling in Hc. io_bind (memory & g & Hg & Hc). apply runs_memory in Hg as [-> ->].
  io_bind (now & g & Hg & Hc). apply runs_ask in Hg as [-> ->]. apply runs_ret in Hc as [-> ->].
  set (e := relayEndpoint relay) in *. pose proof (Hmono (h_tick h) (S (h_tick h)) ltac:(lia)) as Htick.
  destruct (Time.After (default Time.zero (nm_cooling (h_memory h) !! e)) (hostClock (h_tick h))) eqn:Hcool; cbv iota in H.
  - apply Z.ltb_lt in Hcool. apply (IH (tickHost h)) in H as (Hlater & Hhs & Hkeep & Hnone); [|simpl; lia].
    cbn [tickHost h_memory h_tick] in Hlater, Hhs, Hkeep. split_and!; [lia|done|done|].
    intros Hr n [->|Hn]%elem_of_cons; [|by apply Hnone]. fold e.
    destruct (nm_cooling (h_memory h) !! e) as [ends|] eqn:Hu; simpl in Hcool; [|lia]. apply (Hkeep e ends Hu). lia.
  - apply Z.ltb_ge in Hcool. io_bind (dialed & h2 & Hd & H). apply runs_pullTurn in Hd as (Hc2 & Hcooling & Hdial); [|done].
    fold e in Hdial. cbn [tickHost h_memory h_tick] in Hc2, Hcooling. destruct Hdial as (l & Hl & Hall). rewrite Forall_forall in Hall.
    cbn [tickHost h_memory] in Hl.
    assert (∀ ends x hs, (x, hs) ∈ l → nm_cooling (h_memory h) !! x = Some ends → ends ≤ hostClock (h_tick h)) as Hold.
    { intros ends x hs Hx Hu. specialize (Hall _ Hx). simpl in Hall. subst x. by rewrite Hu in Hcool. }
    destruct dialed as [u|].
    { apply runs_ret in H as [-> ->]. split_and!; [lia| |rewrite Hcooling; by eauto|done].
      exists l. split; [done|]. intros x hs ends Hx Hu. specialize (Hold ends x hs Hx Hu). lia. }
    unfold markFailure in H. io_bind (v & h3 & Hm & H). io_bind (now & g & Hn & Hm). apply runs_ask in Hn as [-> ->].
    apply runs_modMemory in Hm. subst h3. pose proof (Hmono (h_tick h2) (S (h_tick h2)) ltac:(lia)).
    apply IH in H as (Hlater & (k & Hk & Hkold) & Hkeep & Hnone); [|simpl; lia].
    cbn [tickHost setCooling nm_cooling nm_handshakes h_memory h_tick] in *. rewrite Hcooling in *.
    assert (∀ x ends, nm_cooling (h_memory h) !! x = Some ends → c0 < ends →
      ∃ ends', nm_cooling (h_memory h') !! x = Some ends' ∧ c0 < ends') as Hkept.
    { intros x ends Hu Hlt. destruct (decide (x = e)) as [->|Hne].
      - eapply (Hkeep e); [apply lookup_insert_eq|]. unfold Time.Add, relayFailureCooldown, Time.second. lia.
      - apply (Hkeep x ends); [by rewrite lookup_insert_ne|done]. }
    split_and!; [lia| |done|].
    + exists (l ++ k). split; [by rewrite Hk, Hl, app_assoc|]. intros x hs ends [Hx|Hx]%elem_of_app Hu.
      * specialize (Hold ends x hs Hx Hu). lia.
      * destruct (decide (x = e)) as [->|Hne]; [rewrite Hu in Hcool; simpl in Hcool; lia|].
        apply (Hkold x hs ends Hx). by rewrite lookup_insert_ne.
    + intros Hr n [->|Hn]%elem_of_cons; [|by apply Hnone]. fold e.
      eapply (Hkeep e); [apply lookup_insert_eq|]. unfold Time.Add, relayFailureCooldown, Time.second. lia.
Qed.
End Pull.

(** ** Error lines *)

Section Errors.
Context {unicode : Unicode} {hostEnv : HostEnv}.

(** A code is one word with an underscore; a message ends with a byte that is
    no part of white space. *)
Definition errorCode (code : string) : Prop := space ∉ Strings.bytes code ∧ Net.has "_" (Strings.bytes code) = true.
Definition errorMessage (message : string) : Prop := ∃ m c, Strings.bytes message = m ++ [c] ∧ solid c = true.

Lemma splitThree_words a b r : space ∉ a → space ∉ b → splitThree (a ++ space :: b ++ space :: r) = Some (a, b, r).
Proof.
  intros Ha Hb. unfold splitThree. rewrite (indexByte_app _ _ _ Ha).
  replace (drop (S (length a)) (a ++ space :: b ++ space :: r)) with (b ++ space :: r).
  2:{ rewrite (app_assoc a [space] _ : a ++ space :: b ++ space :: r = _).
      by rewrite drop_app_length' by (rewrite length_app; simpl; lia). }
  rewrite (indexByte_app _ _ _ Hb), take_app_length. f_equal. f_equal; [by rewrite take_app_length|].
  rewrite (app_assoc b [space] r : b ++ space :: r = _). by rewrite drop_app_length' by (rewrite length_app; simpl; lia).
Qed.

Lemma errorLine_parsed code message :
  errorCode code → errorMessage message → relayResponseError (relayErrorLine code message) = Some (code, message).
Proof.
  intros [Hspace Hunder] (m & c & Hm & Hc). unfold relayResponseError.
  assert (relayErrorLine code message
    = Strings.ofBytes (("E"%char :: (["R"; "R"; " "]%char ++ Strings.bytes code ++ space :: m) ++ [c]) ++ [ascii_of_nat 10])) as ->.
  { apply bytes_inj. unfold relayErrorLine, Strings.ofBytes. rewrite !bytes_app, Hm. unfold Strings.bytes at 4.
    rewrite String.list_ascii_of_string_of_list_ascii. simpl. by rewrite <- !app_assoc. }
  rewrite TrimSpace_line by done. unfold Strings.ofBytes, Strings.bytes at 1.
  rewrite String.list_ascii_of_string_of_list_ascii.
  change ("E"%char :: (["R"; "R"; " "]%char ++ Strings.bytes code ++ space :: m) ++ [c])
    with (["E"; "R"; "R"]%char ++ space :: (Strings.bytes code ++ space :: m) ++ [c]).
  rewrite <- app_assoc. cbn [app]. rewrite <- Hm.
  pose proof (splitThree_words ["E"; "R"; "R"]%char (Strings.bytes code) (Strings.bytes message)) as Hsplit.
  cbn [app] in Hsplit. rewrite Hsplit; [| |done].
  2:{ intros Hin. repeat (apply elem_of_cons in Hin as [Hin|Hin]; [done|]). by apply not_elem_of_nil in Hin. }
  rewrite Hunder. simpl. unfold Strings.bytes. by rewrite !String.string_of_list_ascii_of_string.
Qed.

Lemma has_elem c l : c ∈ l → Net.has c l = true.
Proof.
  intros H. unfold Net.has. destruct (Strings.indexByte c l) eqn:E; [done|]. exfalso. revert H E.
  induction l as [|x l IH]; [by intros ?%not_elem_of_nil|]. simpl. case_bool_decide; [done|].
  intros [->|Hin]%elem_of_cons Hx; [done|]. apply fmap_None in Hx. by apply IH.
Qed.

(** The same, as a computation. *)
Definition wellFormedError (e : string * string) : bool :=
  negb (Net.has space (Strings.bytes e.1)) && Net.has "_" (Strings.bytes e.1)
  && match last (Strings.bytes e.2) with Some c => solid c | None => false end.

Lemma wellFormedError_spec e : wellFormedError e = true → errorCode e.1 ∧ errorMessage e.2.
Proof.
  unfold wellFormedError. intros [[Hs Hu]%andb_true_iff Hm]%andb_true_iff. split; [split; [|done]|].
  - intros Hin. apply negb_true_iff in Hs. apply has_elem in Hin. congruence.
  - destruct (last (Strings.bytes e.2)) as [c|] eqn:Hl; [|done]. apply last_Some in Hl as [m Hm']. by exists m, c.
Qed.

(** A node recovers the code and the message of every refusal: [handle]
    refuses only with the codes of the table, and each line it writes is read
    back by the dialing node as that code and that message. *)
Theorem relay_error_roundtrip p path line :
  yields (λ o, match o with Refused code => code ∈ relayErrors.*1 | _ => True end) (handle p path line)
  ∧ Forall (λ e, relayResponseError (relayErrorLine e.1 e.2) = Some e) relayErrors
  ∧ ∀ code message, errorCode code → errorMessage message →
      relayResponseError (relayErrorLine code message) = Some (code, message).
Proof.
  split; [|split].
  - unfold handle, openTunnel, closeTunnel, handReverse, serveService.
    repeat yields_step ltac:(first [exact I | cbn; repeat (first [left; reflexivity | right])]).
  - assert (Forall (λ e, wellFormedError e = true) relayErrors) as H by (unfold relayErrors; by repeat (constructor; [by vm_compute|])).
    eapply Forall_impl; [exact H|]. intros [code message] [Hc Hm]%wellFormedError_spec. by apply errorLine_parsed.
  - intros code message. apply errorLine_parsed.
Qed.
End Errors.

(** ** The theorems at a concrete relay *)

Definition relayPath : string := nodePath "relay-1".
Definition clientPath : string := nodePath "node-a".

Lemma route_correct_witness :
  ∃ target service relays,
    routeIn clientProfile (demoPeers ++ [peerOf "node-a" "client" None "" []]) "sub-1" "nas" = Some (target, service, relays)
    ∧ dn_ID target = "sub-1" ∧ ps_Name service = "nas" ∧ dn_ID <$> relays = ["relay-1"]
    ∧ StronglySorted (notAfter byPriority) relays.
Proof.
  pose proof (route_correct clientProfile (demoPeers ++ [peerOf "node-a" "client" None "" []]) "sub-1" "nas"
                ltac:(done) ltac:(done)) as H.
  destruct (routeIn _ _ _ _) as [[[target service] relays]|] eqn:E; [|by vm_compute in E].
  exists target, service, relays. destruct H as (_ & Hid & _ & Hname & _ & Hsorted & _).
  split; [done|]. split; [exact Hid|]. split; [exact Hname|]. split; [|exact Hsorted].
  vm_compute in E. injection E as <- <- <-. reflexivity.
Defined.

Definition firstText : relayHandshake := demoHandshake "service" "node-b" "n-1" 1700000000.
(** The request identifier is not signed in mode [service]. *)
Definition secondText : relayHandshake :=
  mkRelayHandshake 1 "service" "home" "node-a" "relay-1" "node-b" "nas" "other" "" 1700000000 "n-1" "BBBB".

Lemma handshake_message_injective_witness : hs_TargetNode firstText = hs_TargetNode secondText ∧ hs_Nonce firstText = hs_Nonce secondText.
Proof.
  assert (∀ s, existsb (λ c, bool_decide (c = ascii_of_nat 10)) (Strings.bytes s) = false → oneLine s) as Hline.
  { intros s H Hin. unfold oneLine in Hin. apply list_elem_of_In in Hin.
    assert (existsb (λ c, bool_decide (c = ascii_of_nat 10)) (Strings.bytes s) = true) as Ht; [|congruence].
    apply existsb_exists. exists (ascii_of_nat 10). split; [done|]. by apply bool_decide_eq_true_2. }
  assert (plainHandshake firstText ∧ plainHandshake secondText) as [H1 H2].
  { by split; (split; [repeat (constructor; [by apply Hline; vm_compute|]); constructor|vm_compute; intuition congruence]). }
  destruct (handshake_message_injective firstText secondText H1 H2 eq_refl) as (_ & _ & _ & _ & _ & Ht & _ & _ & Hn & _).
  split; [exact Ht|exact Hn].
Defined.

Lemma demoHost_clock i j : (i ≤ j)%nat → hostClock i ≤ hostClock j.
Proof. simpl. unfold Time.Unix, wrapInt64, Time.second. lia. Qed.

Lemma relay_verify_correct_witness :
  ∃ h', runs (verify relayProfile relayPath firstText) demoHost true h'
    ∧ nm_nonces (h_memory h') !! "n-1" = Some (hostClock 0 + 2 * Time.minute).
Proof.
  destruct (relay_verify_correct relayProfile relayPath firstText demoHost) as (b & h' & Hrun & Hiff & _ & Htaken & _);
    [by vm_compute|].
  assert (b = true) as ->.
  { apply Hiff. split; [|by intros e He]. split; [reflexivity|]. split; [vm_compute; split; discriminate|].
    exists demoPeers. split; [by vm_compute|]. destruct (Base64.RawStdDecode "AAAA") as [signature|] eqn:Hs; [|by vm_compute in Hs].
    exists (peerOf "node-a" "client" None "" []), (rawKey 32), signature. split_and!; try done; by vm_compute. }
  exists h'. split; [exact Hrun|]. exact (Htaken eq_refl).
Defined.

(** The same nonce, five minutes later, in a handshake dated then. *)
Definition firstCheck : IO bool := verify relayProfile relayPath firstText.
Definition lateText : relayHandshake := demoHandshake "service" "node-b" "n-1" 1700000300.
Definition lateHost : host := laterHost 300 (final firstCheck demoHost).
Definition secondCheck : IO bool := verify relayProfile relayPath lateText.

Lemma relay_no_replay_witness :
  runs firstCheck demoHost true (final firstCheck demoHost) ∧ runs secondCheck lateHost true (final secondCheck lateHost)
  ∧ hostClock (h_tick demoHost) + 2 * Time.minute ≤ hostClock (h_tick lateHost)
  ∧ hostClock (h_tick demoHost) ≤ Time.Unix (hs_Timestamp lateText).
Proof.
  assert (runs firstCheck demoHost true (final firstCheck demoHost)) as H1 by (apply ran; by vm_compute).
  assert (runs secondCheck lateHost true (final secondCheck lateHost)) as H2 by (apply ran; by vm_compute).
  split; [exact H1|]. split; [exact H2|].
  apply (relay_no_replay relayProfile relayPath firstText lateText demoHost (final firstCheck demoHost) lateHost
    (final secondCheck lateHost) demoHost_clock H1); [|exact H2|done].
  apply (rr_other _ _ _ lateHost); [|reflexivity|apply rr_done].
  unfold later, lateHost, laterHost. cbn [h_tick]. lia.
Defined.

(** The client dials its relay. *)
Definition relayPeer : discoveredNode := peerOf "relay-1" "relay" relayAd "" [].
Definition dialIt : IO unit := dialSignedRelay clientProfile relayPeer "service" "node-b" "nas" "".

Lemma dialed_handshake_accepted_witness :
  ∃ endpoint hs, nm_handshakes (h_memory (final dialIt demoHost)) = [(endpoint, hs)]
    ∧ hs_TargetNode hs = "node-b" ∧ ∃ g', runs (verify relayProfile relayPath hs) demoHost true g'.
Proof.
  destruct (dialed_handshake_accepted clientProfile relayPeer "service" "node-b" "nas" "" tt demoHost (final dialIt demoHost)
    relayProfile relayPath demoHost demoPeers (peerOf "node-a" "client" None "" []) nodeKey) as (endpoint & hs & Hsent & _ & _ & Ht & _ & _ & _ & Hok).
  - apply ran. by vm_compute.
  - done.
  - destruct (Base64.RawStdDecode (nc_PublicKey nodeKey)) as [pub|] eqn:Hp; [|by vm_compute in Hp].
    destruct (Base64.RawStdDecode (nc_PrivateKey nodeKey)) as [priv|] eqn:Hs; [|by vm_compute in Hs].
    exists pub, priv. split; [exact Hp|]. split; [exact Hs|]. split; [|split; [|intros m; split; [reflexivity|discriminate]]].
    + vm_compute in Hp. by injection Hp as <-.
    + vm_compute in Hs. by injection Hs as <-.
  - done.
  - done.
  - done.
  - by vm_compute.
  - by vm_compute.
  - done.
  - by vm_compute.
  - by vm_compute.
  - by vm_compute.
  - exists endpoint, hs. split; [exact Hsent|]. split; [exact Ht|]. apply Hok. done.
Defined.

(** The relay is asked for the service of its own subnode. *)
Definition subnodeText : relayHandshake := demoHandshake "service" "sub-1" "n-2" 1700000000.
Definition serveIt : IO relayOutcome := serveService relayProfile relayPath subnodeText.

Lemma own_subnode_refused_witness : result serveIt demoHost = Some (Refused "target_service_missing").
Proof.
  destruct (result serveIt demoHost) as [o|] eqn:E; [|by vm_compute in E]. f_equal.
  apply (own_subnode_refused relayProfile relayPath subnodeText demoHost o (final serveIt demoHost) demoPeers
           (peerOf "sub-1" "subnode" None "relay-1" [nasService])).
  - exact (ran _ _ _ E).
  - by vm_compute.
  - by vm_compute.
  - done.
  - done.
Defined.

(** A pass over a relay that is cooling down. *)
Definition coolHost : host :=
  mkHost demoFiles 0 [] [] (setCooling (insert "10.0.0.1:29443" (hostClock 0 + 30 * Time.second)) emptyMemory).
Definition passOver : IO (option string) := pullRelays clientProfile [relayPeer] "node-b" "nas".

Lemma relay_cooling_witness :
  result passOver coolHost = Some None
  ∧ ∃ ends, nm_cooling (h_memory (final passOver coolHost)) !! "10.0.0.1:29443" = Some ends ∧ hostClock 0 < ends.
Proof.
  assert (result passOver coolHost = Some None) as Hr by by vm_compute. split; [exact Hr|].
  destruct (relay_cooling clientProfile [relayPeer] "node-b" "nas" coolHost None (final passOver coolHost) (hostClock 0) demoHost_clock)
    as (_ & _ & _ & Hcool); [done|by vm_compute|exact (ran _ _ _ Hr)|].
  apply (Hcool eq_refl relayPeer). by left.
Defined.
