(* ===== verification/InboxTheorems.v ===== *)
(** * Properties of a node's inbox and of its workers *)
From S2P Require Import Prelude GoStd GoNet GoPath GoCrypto Types Runtime Validate Wire Registry.
From S2P Require Import Auth Profile Host NodeClient NodeConfig RelayProtocol Inbox Relay Effects RelayRules.
From S2P Require Import Demo NodeDemo.

Local Open Scope Z_scope.

(** ** Merging *)

(** The last request of a list with an identifier: the one that a map filled
    in order keeps. *)
Definition lastWith (id : string) (l : list connectionRequest) : option connectionRequest :=
  last (filter (λ e, cr_ID e = id) l).

Definition pendingOf (l : list connectionRequest) : list connectionRequest :=
  filter (λ e, connectionTerminal (cr_State e) = false) l.

Lemma fill_lookup (l : list connectionRequest) id :
  foldl (λ m e, <[cr_ID e := e]> m) (∅ : gmap string connectionRequest) l !! id = lastWith id l.
Proof.
  unfold lastWith. induction l as [|e l IH] using rev_ind; [done|].
  rewrite foldl_app, filter_app. simpl. rewrite filter_cons, filter_nil.
  destruct (decide (cr_ID e = id)) as [<-|Hne].
  - by rewrite lookup_insert_eq, last_snoc.
  - rewrite lookup_insert_ne by done. by rewrite app_nil_r.
Qed.

Lemma lastWith_id id l c : lastWith id l = Some c → cr_ID c = id ∧ c ∈ l.
Proof. intros H%last_Some_elem_of. apply list_elem_of_filter in H as [? ?]. done. Qed.

Lemma lastWith_None id l : lastWith id l = None ↔ id ∉ (cr_ID <$> l).
Proof.
  unfold lastWith. rewrite last_None. split.
  - intros H (c & -> & Hc)%list_elem_of_fmap. assert (c ∈ filter (λ e, cr_ID e = cr_ID c) l) as Hin by by apply list_elem_of_filter.
    rewrite H in Hin. by apply not_elem_of_nil in Hin.
  - intros H. apply elem_of_nil_inv. intros c [<- Hc]%list_elem_of_filter. by apply H, list_elem_of_fmap_2.
Qed.

Lemma lastWith_app id k l :
  lastWith id (k ++ l) = match lastWith id l with Some c => Some c | None => lastWith id k end.
Proof. unfold lastWith. by rewrite filter_app, last_app. Qed.

Lemma merged_lookup existing fresh id :
  mergedByID existing fresh !! id
  = match lastWith id fresh with Some c => Some c | None => lastWith id (pendingOf existing) end.
Proof. unfold mergedByID. by rewrite fill_lookup, lastWith_app. Qed.

Section Order.
Context {hostEnv : HostEnv}.

(** The list [saveInbox] makes of the map, whatever its order. *)
Lemma merged_list i existing fresh :
  let l := (hostOrder i (mergedByID existing fresh)).*2 in
  NoDup (cr_ID <$> l) ∧ ∀ c, c ∈ l ↔ mergedByID existing fresh !! cr_ID c = Some c.
Proof.
  set (m := mergedByID existing fresh). pose proof (hostOrder_perm _ i m) as Hperm. cbv zeta.
  assert (∀ id c, m !! id = Some c → cr_ID c = id) as Hid.
  { intros id c. unfold m. rewrite merged_lookup. destruct (lastWith id fresh) eqn:E.
    - intros [= <-]. by apply lastWith_id in E as [? _].
    - intros H. by apply lastWith_id in H as [? _]. }
  split.
  - rewrite Hperm. assert (cr_ID <$> (map_to_list m).*2 = (map_to_list m).*1) as ->.
    { rewrite <- list_fmap_compose. apply list_fmap_ext. intros j [id c] Hj.
      apply list_elem_of_lookup_2, elem_of_map_to_list in Hj. simpl. by apply Hid. }
    apply NoDup_fst_map_to_list.
  - intros c. rewrite Hperm, list_elem_of_fmap. split.
    + intros ([id c'] & -> & Hin). apply elem_of_map_to_list in Hin. simpl. by rewrite (Hid _ _ Hin).
    + intros H. exists (cr_ID c, c). split; [done|]. by apply elem_of_map_to_list.
Qed.
End Order.

(** ** The cached inbox *)

(** What [loadInbox] makes of the file. *)
Definition inboxAt {hostEnv : HostEnv} (files : gmap string string) (path : string) : cachedInbox :=
  match files !! inboxFile path with
  | None => mkCachedInbox 0 []
  | Some text => (unmarshalInbox text).1
  end.

(** An inbox into which [fresh] has been merged, over [existing]. *)
Definition mergedInbox (existing fresh saved : cachedInbox) : Prop :=
  ib_Cursor saved = Z.max (ib_Cursor existing) (ib_Cursor fresh)
  ∧ NoDup (cr_ID <$> ib_Events saved)
  ∧ StronglySorted (λ x y, cr_Cursor x ≤ cr_Cursor y) (ib_Events saved)
  ∧ ∀ c, c ∈ ib_Events saved ↔
      lastWith (cr_ID c) (ib_Events fresh) = Some c
      ∨ (¬ cr_ID c ∈ (cr_ID <$> ib_Events fresh) ∧ lastWith (cr_ID c) (pendingOf (ib_Events existing)) = Some c).

Section Cache.
Context {unicode : Unicode} {hostEnv : HostEnv}.

Lemma runs_loadInbox path r h h' :
  runs (loadInbox path) h r h' →
  h' = tickHost h ∧ (readFails (h_tick h) (inboxFile path) = false → r.1 = inboxAt (h_files h) path).
Proof.
  unfold loadInbox. intros H. io_bind (b & h1 & Hb & H). apply runs_readFile in Hb as [-> ->].
  apply runs_ret in H as [-> ->]. split; [done|]. intros ->. unfold inboxAt. by destruct (h_files h !! inboxFile path).
Qed.

Lemma runs_saveInbox path fresh events h h' :
  runs (saveInbox path fresh) h events h' →
  ∃ saved order i, let room := sliceRoom i in h_files h' = <[inboxFile path := marshalInbox saved +:+ lineEnd]> (delete (inboxFile path +:+ ".new") (h_files h))
    ∧ h_sent h' = h_sent h
    ∧ events = callerEvents (length (ib_Events fresh) + room) (ib_Events fresh) order
    ∧ ib_Events saved = sortSlice byCursor order
    ∧ ∃ existing, mergedInbox existing fresh saved
        ∧ (readFails (h_tick h) (inboxFile path) = false → existing = inboxAt (h_files h) path).
Proof.
  unfold saveInbox. intros H. io_bind (loaded & h1 & Hl & H). apply runs_loadInbox in Hl as [-> Hl].
  io_bind (order & h2 & Ho & H). apply runs_ask in Ho as [-> ->].
  io_bind (room & h3 & Hr & H). apply runs_ask in Hr as [-> ->].
  io_bind (u & h4 & Hs & H). apply runs_ret in H as [-> ->]. apply runs_replaceFile in Hs as (Hf & _ & Hsent).
  set (i := h_tick (tickHost h)) in *.
  destruct (merged_list i (ib_Events loaded.1) (ib_Events fresh)) as [Hnodup Hin].
  eexists _, _, _. cbv zeta. split; [exact Hf|]. split; [exact Hsent|]. split; [reflexivity|]. split; [reflexivity|].
  exists loaded.1. split; [|done]. split_and!; simpl.
  - destruct (Z.ltb_spec (ib_Cursor fresh) (ib_Cursor loaded.1)); lia.
  - by rewrite sortSlice_perm.
  - apply (sortSlice_key_sorted cr_Cursor).
  - intros c. rewrite sortSlice_elem, Hin, merged_lookup.
    destruct (lastWith (cr_ID c) (ib_Events fresh)) as [c'|] eqn:Hc.
    + split; [by left|]. intros [?|[Hno _]]; [done|]. apply lastWith_None in Hno. congruence.
    + rewrite lastWith_None in Hc. split; [by right|]. by intros [?|[_ ?]].
Qed.

Lemma saveInbox_fails path fresh h h' :
  exec (saveInbox path fresh) h = (None, h') → h_files h' !! inboxFile path = h_files h !! inboxFile path.
Proof.
  assert (steady (inboxFile path) (loadInbox path)) as Hload.
  { unfold loadInbox, readFile. intros g. reflexivity. }
  revert h h'. change (keeps (inboxFile path) (saveInbox path fresh)). unfold saveInbox.
  apply keeps_bind; [exact Hload|]. intros loaded. apply keeps_bind; [by apply steady_quiet|]. intros order.
  apply keeps_bind; [by apply steady_quiet|]. intros room h h' H.
  unfold mbind, IO_bind in H. destruct (replaceFile _ _ h) as [[u|] h1] eqn:E; [done|]. injection H as <-.
  by apply (replaceFile_fails _ _ _ _ E).
Qed.

(** The cached inbox: after a save the file holds one inbox with the
    larger of the two cursors, each identifier once, in the order of the
    cursors; every request of the new batch in its last version, and of the
    old ones exactly those that are not over and are not in the batch.  A
    save that fails leaves the file as it was. *)
Theorem save_inbox_correct path fresh h r h'
    (Hrun : exec (saveInbox path fresh) h = (r, h')) (Hread : readFails (h_tick h) (inboxFile path) = false) :
  match r with
  | Some _ => ∃ saved, h_files h' !! inboxFile path = Some (marshalInbox saved +:+ lineEnd)
      ∧ mergedInbox (inboxAt (h_files h) path) fresh saved
  | None => h_files h' !! inboxFile path = h_files h !! inboxFile path
  end.
Proof.
  destruct r as [events|]; [|exact (saveInbox_fails path fresh h h' Hrun)].
  destruct (runs_saveInbox path fresh events h h' Hrun) as (saved & order & room & Hf & _ & _ & _ & existing & Hm & He).
  exists saved. rewrite Hf, lookup_insert_eq. split; [done|]. by rewrite <- (He Hread).
Qed.
End Cache.

(** ** Waiting for requests *)

Section Wait.
Context {unicode : Unicode} {hostEnv : HostEnv}.

Definition quietly : relation host := λ h h', h_files h' = h_files h ∧ h_sent h' = h_sent h.
#[local] Instance quietly_preorder : PreOrder quietly.
Proof. split; [by split|]. intros x y z [? ?] [? ?]. split; congruence. Qed.

Lemma quietly_signRequest method path body id key : along quietly (signRequest method path body id key).
Proof. unfold signRequest, hostToken, hostRandom. repeat along_step ltac:(solve [intros ?; split; exact eq_refl]). Qed.

(** A request changes no file, and sends at most once: if it gets an answer,
    exactly once. *)
Lemma signed_cases p method endpoint body h :
  let result := exec (signedCoordinatorRequest p method endpoint body) h in
  h_files result.2 = h_files h
  ∧ ((result.1 = None ∧ h_sent result.2 = h_sent h)
     ∨ ∃ i r, h_sent result.2 = h_sent h ++ [r] ∧ or_Body r = body ∧ or_URL r = cl_URL (pf_Coordinator p) +:+ endpoint
         ∧ result.1 = transport i r).
Proof.
  unfold exec, signedCoordinatorRequest, mbind, IO_bind, lift. cbv zeta.
  destruct (parseURL _) as [u|]; [|by split; [|left]].
  destruct (cl_Credential _) as [c|]; [|by split; [|left]].
  pose proof (quietly_signRequest method (ur_Path u) body (nd_ID (pf_Node p)) (nc_PrivateKey c) h) as [Hf Hs].
  revert Hf Hs. generalize (signRequest method (ur_Path u) body (nd_ID (pf_Node p)) (nc_PrivateKey c) h).
  intros [[header|] h1]; cbn [fst snd]; intros Hf Hs; [|by split; [|left]].
  destruct (coordinatorNodeHTTPClient p) as [client|]; [|by split; [|left]].
  split; [done|]. right. eexists _, _. rewrite <- Hs. split; [reflexivity|by split_and!].
Qed.

Lemma runs_signed p method endpoint body a h h' :
  runs (signedCoordinatorRequest p method endpoint body) h a h' →
  h_files h' = h_files h
  ∧ ∃ i r, h_sent h' = h_sent h ++ [r] ∧ or_Body r = body ∧ or_URL r = cl_URL (pf_Coordinator p) +:+ endpoint
      ∧ transport i r = Some a.
Proof.
  intros H. pose proof (signed_cases p method endpoint body h) as Hs. cbv zeta in Hs.
  unfold exec in Hs. rewrite (H : _ = _) in Hs. destruct Hs as [Hf [[? _]|(i & r & ? & ? & ? & ?)]]; [done|].
  split; [exact Hf|]. by exists i, r.
Qed.

(** The way through a successful wait. *)
Lemma runs_waitInbox path p out h h' :
  runs (waitInbox path p) h out h' →
  ∃ body output events saved order room existing h1 h2, decodeInboxResponse body = Some output
    ∧ h_files h1 = h_files h
    ∧ runs (saveInbox path (mkCachedInbox (ir_Cursor output) (ir_Events output))) h1 events h2
    ∧ h_files h2 !! inboxFile path = Some (marshalInbox saved +:+ lineEnd) ∧ h_files h' = h_files h2
    ∧ mergedInbox existing (mkCachedInbox (ir_Cursor output) (ir_Events output)) saved
    ∧ (readFails (h_tick h1) (inboxFile path) = false → existing = inboxAt (h_files h) path)
    ∧ ib_Events saved = sortSlice byCursor order
    ∧ events = callerEvents (length (ir_Events output) + sliceRoom room) (ir_Events output) order
    ∧ out = mkInboxWaitResponse (ir_Cursor output) events.
Proof.
  unfold waitInbox. intros H. io_bind (loaded & g1 & Hl & H). apply runs_loadInbox in Hl as [-> _]. io_guard _.
  io_bind (answer & g2 & Ha & H). apply runs_signed in Ha as [Hf2 _]. io_guard _.
  io_bind (output & g3 & Ho & H). apply runs_lift in Ho as [Ho ->].
  destruct (ir_Events output) as [|e l] eqn:He.
  - change (0 <? Z.of_nat (length (@nil connectionRequest))) with false in H. cbv iota in H.
    io_bind (events & g4 & Hs & H). apply runs_ret in H as [-> ->].
    pose proof (runs_saveInbox _ _ _ _ _ Hs) as (saved & order & room & Hf & _ & Hev & Hsort & existing & Hm & Hex).
    exists answer.2, output, [], saved, order, room, existing, g2, g4.
    change (events = []) in Hev. subst events. rewrite Hf2 in Hex |- *.
    rewrite He. split_and!; [exact Ho|reflexivity|exact Hs| |reflexivity|exact Hm|exact Hex|exact Hsort|reflexivity|].
    + rewrite Hf. apply lookup_insert_eq.
    + destruct output as [cursor evs]. simpl in He. by rewrite He.
  - replace (0 <? Z.of_nat (length (e :: l))) with true in H by (symmetry; apply Z.ltb_lt; simpl; lia).
    io_bind (events & g4 & Hs & H). io_bind (ack & g5 & Hack & H). apply runs_signed in Hack as [Hf5 _].
    io_guard _. apply runs_ret in H as [-> ->].
    pose proof (runs_saveInbox _ _ _ _ _ Hs) as (saved & order & room & Hf & _ & Hev & Hsort & existing & Hm & Hex).
    exists answer.2, output, events, saved, order, room, existing, g2, g4.
    rewrite He, <- Hf5. rewrite Hf2 in Hex. split_and!; [exact Ho|exact Hf2|exact Hs| |reflexivity|exact Hm|exact Hex
      |exact Hsort|exact Hev|reflexivity]. rewrite Hf5, Hf. apply lookup_insert_eq.
Qed.
(** A save sends nothing. *)
Lemma quietly_sent {A} (m : IO A) h : along (same h_sent) m → h_sent (m h).2 = h_sent h.
Proof. intros H. exact (H h). Qed.

Lemma sent_loadInbox path : constant h_sent (loadInbox path).
Proof. unfold loadInbox, readFile. constancy. Qed.

Lemma sent_saveInbox path fresh : constant h_sent (saveInbox path fresh).
Proof. pose proof (sent_loadInbox path). unfold saveInbox, replaceFile, putFile, rename. constancy; try done. Qed.

Lemma merged_ids existing fresh saved e :
  mergedInbox existing fresh saved → e ∈ ib_Events fresh → ∃ c, c ∈ ib_Events saved ∧ cr_ID c = cr_ID e.
Proof.
  intros (_ & _ & _ & Hin) He. destruct (lastWith (cr_ID e) (ib_Events fresh)) as [c|] eqn:Hc.
  - destruct (lastWith_id _ _ _ Hc) as [Hid _]. exists c. split; [|done]. apply Hin. left. by rewrite Hid.
  - apply lastWith_None in Hc. exfalso. by apply Hc, list_elem_of_fmap_2.
Qed.

(** What was sent between two hosts, when an acknowledgement was only sent
    for what the file holds. *)
Definition ackedSafely (path : string) (h g : host) (sent : list outRequest) : Prop :=
  h_sent g = h_sent h ++ sent ∧ (length sent ≤ 2)%nat
  ∧ ∀ first ack, sent = [first; ack] →
     ∃ i body output saved, transport i first = Some (200, body) ∧ decodeInboxResponse body = Some output
       ∧ or_Body ack = marshalInboxAck (mkInboxAckInput (ir_Cursor output))
       ∧ h_files g !! inboxFile path = Some (marshalInbox saved +:+ lineEnd)
       ∧ ir_Cursor output ≤ ib_Cursor saved
       ∧ ∀ e, e ∈ ir_Events output → ∃ c, c ∈ ib_Events saved ∧ cr_ID c = cr_ID e.

Lemma acked_none path h g : h_sent g = h_sent h → ∃ sent, ackedSafely path h g sent.
Proof. intros Hs. exists []. split; [by rewrite app_nil_r|]. by split; [simpl; lia|]. Qed.

Lemma acked_first path h g first : h_sent g = h_sent h ++ [first] → ∃ sent, ackedSafely path h g sent.
Proof. intros Hs. exists [first]. split; [done|]. by split; [simpl; lia|]. Qed.

(** A request that got no answer was sent or not. *)
Lemma signed_unanswered p method endpoint body h h' :
  exec (signedCoordinatorRequest p method endpoint body) h = (None, h') →
  h_files h' = h_files h ∧ (h_sent h' = h_sent h ∨ ∃ r, h_sent h' = h_sent h ++ [r] ∧ or_Body r = body).
Proof.
  intros H. destruct (signed_cases p method endpoint body h) as [Hf Hs]. rewrite H in Hf, Hs. cbn [fst snd] in Hf, Hs.
  split; [exact Hf|]. destruct Hs as [[_ Hs]|(i & r & Hs & Hb & _)]; [by left|right; by exists r].
Qed.

(** The acknowledgement, once the inbox is saved. *)
Lemma acked_after path p h h1 first i output events g r g' (k : Z * string → IO inboxWaitResponse) :
  h_sent h1 = h_sent h ++ [first] →
  (∃ body, transport i first = Some (200, body) ∧ decodeInboxResponse body = Some output) →
  runs (saveInbox path (mkCachedInbox (ir_Cursor output) (ir_Events output))) h1 events g →
  (∀ a g, (exec (k a) g).2 = g) →
  exec (signedCoordinatorRequest p "POST" "/v1/connections/inbox/ack" (marshalInboxAck (mkInboxAckInput (ir_Cursor output)))
        ≫= k) g = (r, g') →
  ∃ sent, ackedSafely path h g' sent.
Proof.
  intros Hs1 (body & Htrans & Hdecode) Hs Hk Hrun.
  apply runs_saveInbox in Hs as (saved & order & room & Hf & Hsent & _ & _ & existing & Hm & _).
  assert (∀ ack, h_files g' = h_files g → h_sent g' = h_sent g ++ [ack] →
    or_Body ack = marshalInboxAck (mkInboxAckInput (ir_Cursor output)) → ∃ sent, ackedSafely path h g' sent) as Hacked.
  { intros ack Hfg Hsg Hbody. exists [first; ack]. split; [by rewrite Hsg, Hsent, Hs1, <- app_assoc|].
    split; [done|]. intros ? ? [= <- <-]. exists i, body, output, saved. split_and!; [done..| | |].
    - rewrite Hfg, Hf. apply lookup_insert_eq.
    - destruct Hm as [-> _]. simpl. lia.
    - intros e He. by apply (merged_ids existing (mkCachedInbox (ir_Cursor output) (ir_Events output)) saved e Hm). }
  apply exec_bind in Hrun as [[-> Hreq]|(ack & g1 & Hreq & Hrun)].
  - apply signed_unanswered in Hreq as [Hfg [Hsg|(ack & Hsg & Hb)]]; [|by apply (Hacked ack)].
    apply (acked_first path h g' first). by rewrite Hsg, Hsent.
  - apply runs_signed in Hreq as (Hfg & j & req & Hsg & Hb & _). specialize (Hk ack g1). rewrite Hrun in Hk. simpl in Hk.
    subst g1. by apply (Hacked req).
Qed.

(** C7. No request is acknowledged before it is safe: a wait sends at most
    two requests, and when it sends the second, the acknowledgement, the file
    already holds the merged inbox — with a cursor no smaller than the one
    acknowledged, which is that of the answer to the first, and every request
    of that answer, by identifier.  A crash after the acknowledgement finds
    them on disk. *)
Theorem ack_after_save path p h r h' (Hrun : exec (waitInbox path p) h = (r, h')) :
  ∃ sent, ackedSafely path h h' sent.
Proof.
  unfold waitInbox in Hrun.
  apply exec_bind in Hrun as [[-> Hl]|(loaded & h1 & Hl & Hrun)].
  { apply (along_exec _ _ _ _ _ (sent_loadInbox path)) in Hl. by apply acked_none. }
  apply (along_runs _ _ _ _ _ (sent_loadInbox path)) in Hl. unfold same in Hl.
  destruct (negb loaded.2); [injection Hrun as <- <-; by apply acked_none|].
  apply exec_bind in Hrun as [[-> Hreq]|(answer & h2 & Hreq & Hrun)].
  { apply signed_unanswered in Hreq as [_ [Hs|(first & Hs & _)]]; rewrite Hl in Hs; [by apply acked_none|by eapply acked_first]. }
  apply runs_signed in Hreq as (_ & i & first & Hs2 & _ & _ & Hanswer). rewrite Hl in Hs2.
  destruct (statusOK answer.1) eqn:Hstatus; cbn [negb] in Hrun; [|injection Hrun as <- <-; by eapply acked_first].
  apply exec_bind in Hrun as [[-> Ho]|(output & h3 & Ho & Hrun)]; [injection Ho as _ <-; by eapply acked_first|].
  apply runs_lift in Ho as [Ho ->].
  destruct (0 <? Z.of_nat (length (ir_Events output))).
  2:{ apply (along_exec (same h_sent)) in Hrun.
      - unfold same in Hrun. eapply acked_first. by rewrite Hrun.
      - pose proof (sent_saveInbox path (mkCachedInbox (ir_Cursor output) [])). constancy. }
  apply exec_bind in Hrun as [[-> Hs]|(events & h4 & Hs & Hrun)].
  { apply (along_exec _ _ _ _ _ (sent_saveInbox _ _)) in Hs. unfold same in Hs. eapply acked_first. by rewrite Hs. }
  refine (acked_after path p h h2 first i output events h4 r h' _ Hs2 _ Hs _ Hrun).
  - apply Z.eqb_eq in Hstatus. destruct answer as [status body]. simpl in *. subst status. by exists body.
  - intros a g. by destruct (negb (statusOK a.1)).
Qed.
End Wait.

(** ** The events that are handed on *)

Section Handed.
Context {unicode : Unicode} {hostEnv : HostEnv}.

Lemma callerEvents_length capacity fresh merged : length (callerEvents capacity fresh merged) = length fresh.
Proof.
  unfold callerEvents. rewrite length_take, length_app, length_drop.
  destruct (_ <=? _)%nat; rewrite ?sortSlice_length; lia.
Qed.

Lemma callerEvents_perm capacity fresh merged :
  merged ≡ₚ fresh → callerEvents capacity fresh merged ≡ₚ fresh.
Proof.
  intros Hp. unfold callerEvents. rewrite (Permutation_length Hp), drop_all, app_nil_r.
  rewrite take_ge; [|destruct (_ <=? _)%nat; rewrite ?sortSlice_length, ?(Permutation_length Hp); lia].
  destruct (_ <=? _)%nat; [by rewrite sortSlice_perm|done].
Qed.

(** What the inbox worker acts on: as many requests as the coordinator
    answered, each of them in the saved inbox when the answer repeats no
    identifier — and exactly those of the answer when no other request is
    pending in the file. *)
Theorem inbox_hands_on path p out h h'
    (Hrun : runs (waitInbox path p) h out h') (Hread : ∀ i, readFails i (inboxFile path) = false) :
  ∃ body output saved, decodeInboxResponse body = Some output ∧ ir_Cursor out = ir_Cursor output
    ∧ length (ir_Events out) = length (ir_Events output)
    ∧ h_files h' !! inboxFile path = Some (marshalInbox saved +:+ lineEnd)
    ∧ mergedInbox (inboxAt (h_files h) path) (mkCachedInbox (ir_Cursor output) (ir_Events output)) saved
    ∧ (NoDup (cr_ID <$> ir_Events output) →
       (∀ c, c ∈ ir_Events out → c ∈ ib_Events saved)
       ∧ ((∀ c, c ∈ pendingOf (ib_Events (inboxAt (h_files h) path)) → cr_ID c ∈ cr_ID <$> ir_Events output) →
          ir_Events out ≡ₚ ir_Events output)).
Proof.
  apply runs_waitInbox in Hrun as (body & output & events & saved & order & room & existing & h1 & h2 & Hd & _ & _ & Hf2 & Hf
    & Hm & Hex & Hsort & Hev & ->).
  specialize (Hex (Hread _)). subst existing. exists body, output, saved. rewrite Hf. simpl.
  split_and!; [done|done|by rewrite Hev, callerEvents_length|done|done|].
  intros Hnodup. destruct Hm as (_ & Hids & _ & Hin). cbn [ib_Events] in Hin.
  assert (∀ c, c ∈ ir_Events output → c ∈ order) as Hfresh.
  { intros c Hc. apply (sortSlice_elem byCursor). rewrite <- Hsort. apply Hin. left.
    destruct (lastWith (cr_ID c) (ir_Events output)) as [c'|] eqn:Hc'.
    - destruct (lastWith_id _ _ _ Hc') as [Hid Hc'in]. f_equal.
      by apply (NoDup_key_inj cr_ID (ir_Events output)).
    - apply lastWith_None in Hc'. exfalso. by apply Hc', list_elem_of_fmap_2. }
  assert (∀ c, c ∈ ib_Events saved ↔ c ∈ order) as Hso by (intros c; by rewrite Hsort, sortSlice_elem).
  split.
  - intros c Hc. apply Hso. rewrite Hev in Hc. unfold callerEvents in Hc. apply elem_of_take in Hc as (j & Hc & _).
    apply list_elem_of_lookup_2, elem_of_app in Hc as [Hc|Hc].
    + destruct (_ <=? _)%nat; [by apply sortSlice_elem in Hc|done].
    + apply Hfresh. apply list_elem_of_lookup in Hc as [k Hc]. rewrite lookup_drop in Hc. by eapply list_elem_of_lookup_2.
  - intros Hnone. rewrite Hev. apply callerEvents_perm, NoDup_Permutation.
    + apply (NoDup_fmap_1 cr_ID). rewrite Hsort, sortSlice_perm in Hids. exact Hids.
    + by apply (NoDup_fmap_1 cr_ID).
    + intros c. split; [|apply Hfresh]. intros Hc%Hso%Hin. destruct Hc as [Hc|[Hno Hc]].
      * by apply lastWith_id in Hc as [_ ?].
      * exfalso. apply lastWith_id in Hc as [_ Hc]. by apply Hno, Hnone.
Qed.

(** A new request may be passed over: when one older request is still
    pending in the file and the coordinator answers with one new request, the
    slice that the worker dispatches — as soon as its array has room for a
    second entry — holds the older request and not the new one, although the
    new one is saved and acknowledged. *)
Theorem new_request_passed_over path p out h h' old fresh
    (Hrun : runs (waitInbox path p) h out h') (Hread : ∀ i, readFails i (inboxFile path) = false)
    (Hroom : ∀ i, (1 ≤ sliceRoom i)%nat)
    (Hcached : pendingOf (ib_Events (inboxAt (h_files h) path)) = [old])
    (Hanswer : ∀ body output, decodeInboxResponse body = Some output → ir_Events output = [fresh])
    (Hids : cr_ID old ≠ cr_ID fresh) (Hcursor : cr_Cursor old < cr_Cursor fresh) :
  ir_Events out = [old].
Proof.
  apply runs_waitInbox in Hrun as (body & output & events & saved & order & room & existing & h1 & h2 & Hd & _ & _ & Hf2 & Hf
    & Hm & Hex & Hsort & Hev & ->). simpl.
  specialize (Hex (Hread _)). subst existing. rewrite (Hanswer _ _ Hd) in Hm, Hev. destruct Hm as (_ & Hids' & _ & Hin).
  cbn [ib_Events] in Hin. rewrite Hcached in Hin.
  assert (order ≡ₚ [old; fresh]) as Horder.
  { rewrite Hsort, sortSlice_perm in Hids'. apply NoDup_Permutation.
    - by apply (NoDup_fmap_1 cr_ID).
    - apply (NoDup_fmap_1 cr_ID). simpl. apply NoDup_cons. split; [by rewrite list_elem_of_singleton|apply NoDup_singleton].
    - intros c. rewrite <- (sortSlice_elem byCursor), <- Hsort, Hin. unfold lastWith.
      rewrite !filter_cons, !filter_nil, !elem_of_cons, elem_of_nil, fmap_cons, fmap_nil, list_elem_of_singleton.
      destruct (decide (cr_ID fresh = cr_ID c)) as [Hf1|Hf1], (decide (cr_ID old = cr_ID c)) as [Ho1|Ho1]; simpl.
      + congruence.
      + split; [intros [[= ->]|[? ?]]; [by right; left|congruence]|]. intros [->|[->|[]]]; [done|by left].
      + split; [intros [?|[_ [= ->]]]; [done|by left]|]. intros [->|[->|[]]]; [by right|congruence].
      + split; [by intros [?|[_ ?]]|]. intros [->|[->|[]]]; congruence. }
  rewrite Hev. unfold callerEvents. rewrite (Permutation_length Horder).
  change (length [fresh]) with 1%nat. change (length [old; fresh]) with 2%nat.
  rewrite (proj2 (Nat.leb_le 2 (1 + sliceRoom room))) by (pose proof (Hroom room); lia).
  pose proof (sortSlice_key_sorted cr_Cursor order) as Hsorted.
  change (sortSlice (λ x y, cr_Cursor x <? cr_Cursor y) order) with (sortSlice byCursor order) in Hsorted.
  assert ([old; fresh] ≡ₚ sortSlice byCursor order) as Hp by (by rewrite sortSlice_perm).
  apply Permutation_length_2_inv in Hp as [Hp | Hp]; rewrite Hp in Hsorted |- *; [done|].
  apply StronglySorted_inv in Hsorted as [_ Hall]. apply Forall_cons in Hall as [Hle _]. lia.
Qed.
End Handed.

(** ** The channel of revisions *)

(** The states of the channel while the two workers run, from an empty
    channel and the first revision. *)
Definition channelRuns (first : Z) (s : revisions) : Prop :=
  rtc revisionStep (mkRevisions None (Sending first) []) s.

Definition channelInv (s : revisions) : Prop :=
  match rv_stage s with
  | Sending _ | Draining _ => True
  | Refilling _ => rv_buffer s = None
  | Sent r => rv_buffer s = Some r ∨ (rv_buffer s = None ∧ last (rv_received s) = Some r)
  | Dropped _ => False
  end.

Lemma revisionStep_inv s t : revisionStep s t → channelInv s → channelInv t.
Proof.
  intros H. destruct H as [r l|x r l|x r l|r l|r l|x r l|r r' b l|x stage l]; unfold channelInv; simpl; try done; try by left.
  destruct stage; try done. intros [[= ->]|[? _]]; [|done]. right. by rewrite last_snoc.
Qed.

(** The heartbeat worker never loses its newest revision and never
    blocks, although the discovery worker may receive at any moment between
    its three selects: the last select always finds room, after each send the
    revision is in the channel or was the last one received, and until then
    the sender can move. *)
Theorem newest_revision_kept first s (Hrun : channelRuns first s) :
  match rv_stage s with
  | Dropped _ => False
  | Sent r => rv_buffer s = Some r ∨ last (rv_received s) = Some r
  | Sending _ | Draining _ | Refilling _ =>
      ∃ t, revisionStep s t ∧ rv_received t = rv_received s
        ∧ (match rv_stage s, rv_stage t with
           | Sending r, (Draining r' | Sent r') | Draining r, Refilling r' | Refilling r, Sent r' => r = r'
           | _, _ => False
           end)
  end.
Proof.
  assert (channelInv s) as Hinv.
  { unfold channelRuns in Hrun. remember (mkRevisions None (Sending first) []) as s0 eqn:Hs.
    assert (channelInv s0) as H0 by (by rewrite Hs). clear Hs.
    induction Hrun as [|s0 s1 s2 H01 _ IH]; [done|]. by apply IH, (revisionStep_inv s0). }
  unfold channelInv in Hinv. destruct s as [b [r|r|r|r|r] l]; simpl in *.
  - destruct b as [x|]; eexists; (split; [constructor|]); by simpl.
  - destruct b as [x|]; eexists; (split; [constructor|]); by simpl.
  - subst b. eexists; (split; [constructor|]); by simpl.
  - destruct Hinv as [?|[_ ?]]; [by left|by right].
  - done.
Qed.

(** ** Offers *)

Section Offers.
Context {unicode : Unicode} {hostEnv : HostEnv}.

(** An event the node serves by itself. *)
Definition servable (p : profile) (e : connectionRequest) : Prop :=
  cr_TargetNode e = nd_ID (pf_Node p) ∧ cr_ReturnRelay e ≠ "".

Lemma runs_dispatchOffers p events h :
  ∃ started h', runs (dispatchOffers p events) h started h'
    ∧ started `sublist_of` events
    ∧ NoDup (cr_ID <$> started)
    ∧ nm_offers (h_memory h') = nm_offers (h_memory h) ∪ list_to_set (cr_ID <$> started)
    ∧ Forall (λ e, servable p e ∧ cr_ID e ∉ nm_offers (h_memory h)) started
    ∧ ∀ e, e ∈ events → servable p e → cr_ID e ∈ nm_offers (h_memory h').
Proof.
  revert h. induction events as [|e events IH]; intros h.
  { exists [], h. split_and!; [done|done|constructor|set_solver|constructor|]. intros e He. by apply not_elem_of_nil in He. }
  assert (∀ (skip : ¬ servable p e ∨ cr_ID e ∈ nm_offers (h_memory h)),
    (dispatchOffers p (e :: events)) h = dispatchOffers p events h →
    ∃ started h', runs (dispatchOffers p (e :: events)) h started h'
    ∧ started `sublist_of` (e :: events) ∧ NoDup (cr_ID <$> started)
    ∧ nm_offers (h_memory h') = nm_offers (h_memory h) ∪ list_to_set (cr_ID <$> started)
    ∧ Forall (λ e, servable p e ∧ cr_ID e ∉ nm_offers (h_memory h)) started
    ∧ ∀ e', e' ∈ e :: events → servable p e' → cr_ID e' ∈ nm_offers (h_memory h')) as Hskip.
  { intros Hs He. destruct (IH h) as (started & h' & Hr & Hsub & Hnd & Hset & Hall & Hin). exists started, h'.
    split; [unfold runs; by rewrite He|]. split_and!; [by constructor|done..|].
    intros e' [->|He']%elem_of_cons Hserv; [|by apply Hin]. destruct Hs as [|Hs]; [done|]. rewrite Hset. set_solver. }
  destruct (negb (cr_TargetNode e =? nd_ID (pf_Node p))%string || (cr_ReturnRelay e =? "")%string) eqn:Hserv.
  { apply Hskip; [left|by (simpl; rewrite Hserv)]. intros [Ht Hr]. apply orb_true_iff in Hserv as [H|H].
    - apply negb_true_iff, String.eqb_neq in H. done.
    - by apply String.eqb_eq in H. }
  assert (servable p e) as He by (bool_simpl; by split).
  destruct (decide (cr_ID e ∈ nm_offers (h_memory h))) as [Hin|Hin].
  { apply Hskip; [by right|]. simpl. rewrite Hserv. unfold mbind, IO_bind, getMemory. by rewrite bool_decide_eq_true_2. }
  set (h1 := mkHost (h_files h) (h_tick h) (h_out h) (h_sent h) (setOffers (union {[cr_ID e]}) (h_memory h))).
  destruct (IH h1) as (started & h' & Hr & Hsub & Hnd & Hset & Hall & Hevents). simpl in Hset, Hall.
  exists (e :: started), h'. split.
  { simpl. rewrite Hserv. unfold runs, mbind, IO_bind, getMemory. rewrite bool_decide_eq_false_2 by done. unfold modOffers, modMemory.
    change (mkHost _ _ _ _ _) with h1. unfold runs in Hr. by rewrite Hr. }
  rewrite Forall_forall in Hall. split_and!.
  - by constructor.
  - rewrite fmap_cons. apply NoDup_cons. split; [|done]. intros (x & Hx & Hxin)%list_elem_of_fmap.
    destruct (Hall x Hxin) as [_ Hno]. rewrite <- Hx in Hno. set_solver.
  - rewrite Hset, fmap_cons. simpl. set_solver.
  - constructor; [done|]. apply Forall_forall. intros x Hx. destruct (Hall x Hx) as [? Hno]. split; [done|]. set_solver.
  - intros e' [->|He']%elem_of_cons Hs; [|by apply Hevents]. rewrite Hset. set_solver.
Qed.

Lemma part_decline {X} (g : memory → X) p id reason : constant (λ h, g (h_memory h)) (declineOffer p id reason).
Proof. unfold declineOffer. apply constant_part. constancy. Qed.

Lemma offers_serve path p e : constant (λ h, nm_offers (h_memory h)) (serveAutomaticConnectionOffer path p e).
Proof.
  pose proof (part_decline nm_offers). pose proof (part_dialSigned nm_offers (λ _ _, eq_refl)).
  unfold serveAutomaticConnectionOffer, dialReverseRelay, removeInboxRequest.
  repeat first [match goal with H : _ |- along _ _ => solve [apply H] end
    | lazymatch goal with
      | |- along _ (loadDiscovered _) => apply (constant_part nm_offers), constant_loadDiscovered
      | |- along _ (decideConnectionRequest _ _ _ _) => apply (constant_part nm_offers), constant_decideRequest
      | |- along _ (replaceFile _ _) => apply (constant_part nm_offers), constant_replaceFile
      | |- along _ (loadInbox _) => apply (constant_part nm_offers); unfold loadInbox; constancy
      end
    | constant_step].
Qed.

(** A goroutine that serves an offer, with the steps it has yet to take. *)
Record offerThread := mkOfferThread { ot_event : connectionRequest; ot_rest : list (IO unit) }.

Definition spawnOffer (path : string) (p : profile) (e : connectionRequest) : offerThread :=
  mkOfferThread e (offerGoroutine path p e).

Definition busy (t : offerThread) : bool := match ot_rest t with [] => false | _ => true end.
(** The offers of the goroutines that have not ended. *)
Definition busyOffers (threads : list offerThread) : list string :=
  (cr_ID ∘ ot_event) <$> filter (λ t, busy t = true) threads.

(** The goroutines of the process: batches are dispatched, and goroutines take
    their steps, in any order. *)
Inductive offersRun (path : string) (p : profile) : list offerThread → host → Prop :=
  | or_start h : nm_offers (h_memory h) = ∅ → offersRun path p [] h
  | or_dispatch threads h events started h' : offersRun path p threads h →
      runs (dispatchOffers p events) h started h' → offersRun path p (threads ++ (spawnOffer path p <$> started)) h'
  | or_step before after e step rest h h' :
      offersRun path p (before ++ mkOfferThread e (step :: rest) :: after) h → runs step h tt h' →
      offersRun path p (before ++ mkOfferThread e rest :: after) h'
  | or_other threads h h' : offersRun path p threads h →
      nm_offers (h_memory h') = nm_offers (h_memory h) → offersRun path p threads h'.

Lemma busyOffers_app l k : busyOffers (l ++ k) = busyOffers l ++ busyOffers k.
Proof. unfold busyOffers. by rewrite filter_app, fmap_app. Qed.

Lemma busyOffers_cons e rest k :
  busyOffers (mkOfferThread e rest :: k) = (if rest is [] then [] else [cr_ID e]) ++ busyOffers k.
Proof. unfold busyOffers. rewrite filter_cons. by destruct rest. Qed.

Lemma busyOffers_spawn path p l : busyOffers (spawnOffer path p <$> l) = cr_ID <$> l.
Proof. induction l as [|e l IH]; [done|]. rewrite !fmap_cons. unfold spawnOffer at 1. by rewrite busyOffers_cons, IH. Qed.

(** A goroutine takes the steps of its code. *)
Definition underway (path : string) (p : profile) (t : offerThread) : Prop :=
  ∃ k, ot_rest t = drop k (offerGoroutine path p (ot_event t)).

Record offersInv (path : string) (p : profile) (threads : list offerThread) (h : host) : Prop := {
  oi_code : Forall (underway path p) threads;
  oi_once : NoDup (busyOffers threads);
  oi_marked : nm_offers (h_memory h) = list_to_set (busyOffers threads);
}.

Lemma offersInv_dispatch path p threads h events started h' :
  offersInv path p threads h → runs (dispatchOffers p events) h started h' →
  offersInv path p (threads ++ (spawnOffer path p <$> started)) h'.
Proof.
  intros [Hc Hn Hs] Hd. destruct (runs_dispatchOffers p events h) as (started' & h'' & Hr & _ & Hn' & Hs' & Hall & _).
  destruct (runs_fun _ _ _ _ _ _ Hd Hr) as [-> ->]. split; rewrite ?busyOffers_app, ?busyOffers_spawn.
  - apply Forall_app. split; [done|]. apply Forall_fmap, Forall_true. intros e. by exists 0%nat.
  - apply NoDup_app. split; [done|]. split; [|done]. intros id Hid (e & -> & He)%list_elem_of_fmap.
    rewrite Forall_forall in Hall. destruct (Hall e He) as [_ Hno]. apply Hno. rewrite Hs. by apply elem_of_list_to_set.
  - by rewrite Hs', Hs, list_to_set_app_L.
Qed.

(** A goroutine serves, and is marked meanwhile; or it forgets its offer, and
    has ended. *)
Lemma offersInv_step path p before after e step rest h h' :
  offersInv path p (before ++ mkOfferThread e (step :: rest) :: after) h → runs step h tt h' →
  offersInv path p (before ++ mkOfferThread e rest :: after) h'.
Proof.
  intros [Hc Hn Hs] Hstep. rewrite busyOffers_app, busyOffers_cons in Hn, Hs. simpl in Hn, Hs.
  apply Forall_app in Hc as [Hb (Hk & Ha)%Forall_cons]. destruct Hk as [k Hk]. simpl in Hk.
  assert (Forall (underway path p) (before ++ mkOfferThread e rest :: after)) as Hcode.
  { apply Forall_app. split; [done|]. apply Forall_cons. split; [|done]. exists (S k). simpl.
    destruct k as [|[|k]]; simpl in *; [by injection Hk as _ ->..|]. by rewrite drop_nil in Hk. }
  split; [done| |]; rewrite busyOffers_app, busyOffers_cons; destruct k as [|[|k]]; simpl in Hk;
    try (by rewrite drop_nil in Hk); injection Hk as Hf Hr; subst step rest; simpl; try done.
  - apply NoDup_app in Hn as (Hnb & Hba & (_ & Hna)%NoDup_cons). apply NoDup_app. split; [done|]. split; [|done].
    intros id Hid Hin. apply (Hba id Hid). by right.
  - io_bind (u & h1 & Hsv & Hstep). apply runs_ret in Hstep as [_ ->].
    pose proof (along_runs _ _ _ _ _ (along_attempt _ _ (offers_serve path p e)) Hsv) as Hkeep. unfold same in Hkeep.
    by rewrite Hkeep.
  - apply runs_modMemory in Hstep. subst h'. cbn [h_memory setOffers nm_offers]. rewrite Hs.
    apply NoDup_app in Hn as (_ & Hba & (Hea & _)%NoDup_cons). apply leibniz_equiv. intros id.
    rewrite elem_of_difference, elem_of_singleton, !elem_of_list_to_set, !elem_of_app, elem_of_cons. split; [tauto|].
    intros Hid. split; [tauto|]. intros ->. destruct Hid as [Hid|Hid]; [|done]. apply (Hba _ Hid). by left.
Qed.

Lemma offersRun_inv path p threads h : offersRun path p threads h → offersInv path p threads h.
Proof.
  intros Hrun. induction Hrun as [h Hh|threads h events started h' _ IH Hd|before after e step rest h h' _ IH Hs|threads h h' _ [Hc Hn Hs] Hk].
  - split; [constructor|constructor|by rewrite Hh].
  - by eapply offersInv_dispatch.
  - by eapply offersInv_step.
  - split; [done|done|by rewrite Hk].
Qed.

(** C20. Each offer is served by one goroutine at a time: however batches of
    events and the steps of the goroutines follow one another, and however
    often the coordinator repeats an offer, no two goroutines that have not
    ended — before they serve, while they do, and until their mark is gone —
    have the same identifier; the process remembers exactly the offers of
    these goroutines; and after a batch every offer of it that this node can
    serve has one. *)
Theorem offers_exclusive path p threads h (Hrun : offersRun path p threads h) :
  NoDup (busyOffers threads) ∧ nm_offers (h_memory h) = list_to_set (busyOffers threads)
  ∧ ∀ events, ∃ started h', runs (dispatchOffers p events) h started h'
      ∧ NoDup (busyOffers (threads ++ (spawnOffer path p <$> started)))
      ∧ ∀ e, e ∈ events → servable p e → cr_ID e ∈ busyOffers (threads ++ (spawnOffer path p <$> started)).
Proof.
  pose proof (offersRun_inv path p threads h Hrun) as [Hc Hnd Hset]. split_and!; [done..|]. intros events.
  destruct (runs_dispatchOffers p events h) as (started & h' & Hr & _ & _ & _ & _ & Hev). exists started, h'.
  destruct (offersInv_dispatch path p threads h events started h' (Build_offersInv _ _ _ _ Hc Hnd Hset) Hr) as [_ Hnd' Hset'].
  split_and!; [done..|]. intros e He Hserv. pose proof (Hev e He Hserv) as Hin. by rewrite Hset', elem_of_list_to_set in Hin.
Qed.

Lemma endpoint_inj (url a b : string) : url +:+ a = url +:+ b → a = b.
Proof.
  intros H. apply (f_equal Strings.bytes) in H. rewrite !bytes_app in H. apply app_inv_head in H. by apply bytes_inj.
Qed.

(** A decision about an offer. *)
Definition decisionURL (p : profile) (decision : string) : string :=
  cl_URL (pf_Coordinator p) +:+ ("/v1/connections/" +:+ decision).

Lemma decide_sends p id decision reason h :
  let h' := (exec (decideConnectionRequest p id decision reason) h).2 in
  h_memory h' = h_memory h
  ∧ (h_sent h' = h_sent h ∨ ∃ q, h_sent h' = h_sent h ++ [q] ∧ or_URL q = decisionURL p decision).
Proof.
  cbv zeta. split; [exact (constant_decideRequest p id decision reason h)|].
  destruct (exec (decideConnectionRequest p id decision reason) h) as [r h'] eqn:Hrun. cbn [snd].
  unfold decideConnectionRequest in Hrun. apply exec_bind in Hrun as [[-> Hreq]|(answer & h1 & Hreq & Hrun)].
  - match type of Hreq with exec (signedCoordinatorRequest ?p ?m ?e ?b) _ = _ =>
      destruct (signed_cases p m e b h) as [_ Hs] end.
    rewrite Hreq in Hs. cbn [fst snd] in Hs. destruct Hs as [[_ ?]|(i & q & ? & _ & ? & _)]; [by left|right; by exists q].
  - apply runs_signed in Hreq as (_ & i & q & Hs & _ & Hu & _). right. exists q. split; [|done].
    assert (h' = h1) as -> by (destruct (negb _); by injection Hrun). done.
Qed.

Lemma decline_sends p id reason h :
  let h' := (exec (declineOffer p id reason) h).2 in
  h_memory h' = h_memory h
  ∧ (h_sent h' = h_sent h ∨ ∃ q, h_sent h' = h_sent h ++ [q] ∧ or_URL q = decisionURL p "reject").
Proof.
  pose proof (decide_sends p id "reject" reason h) as H. unfold exec, declineOffer, attempt, mbind, IO_bind in *.
  by destruct (decideConnectionRequest p id "reject" reason h).
Qed.

Lemma sent_dialSigned p relay mode target service request :
  constant h_sent (dialSignedRelay p relay mode target service request).
Proof. unfold dialSignedRelay, exchangeHandshake, recordHandshake, hostToken, hostRandom. constancy. Qed.

Lemma sent_removeInbox path id : constant h_sent (removeInboxRequest path id).
Proof. pose proof (sent_loadInbox path). unfold removeInboxRequest, replaceFile, putFile, rename. constancy. Qed.

(** The service was connected at both ends before the decision. *)
Definition connectedFor (path : string) (p : profile) (e : connectionRequest) (h h' : host) : Prop :=
  ∃ target nodes relay h1 h2 endpoint hs, localPublishedTarget p (cr_Service e) = Some target
    ∧ peersNow path h = Some nodes ∧ relay ∈ nodes ∧ dn_ID relay = cr_ReturnRelay e ∧ dn_Role relay = "relay"
    ∧ tcpDial (S (h_tick h)) target = true
    ∧ runs (dialReverseRelay p relay (cr_IdempotencyKey e) (cr_Service e)) h1 tt h2
    ∧ nm_handshakes (h_memory h') = nm_handshakes (h_memory h) ++ [(endpoint, hs)]
    ∧ hs_Mode hs = "reverse" ∧ hs_RequestID hs = cr_IdempotencyKey e ∧ hs_Service hs = cr_Service e
    ∧ hs_SourceNode hs = nd_ID (pf_Node p) ∧ hs_RelayNode hs = cr_ReturnRelay e.

Definition decidedOnce (path : string) (p : profile) (e : connectionRequest) (h h' : host) (sent : list outRequest) : Prop :=
  h_sent h' = h_sent h ++ sent ∧ (length sent ≤ 1)%nat
  ∧ ∀ q, q ∈ sent → or_URL q = decisionURL p "reject"
      ∨ or_URL q = decisionURL p "accept" ∧ connectedFor path p e h h'.

Lemma decided_none path p e h h' : h_sent h' = h_sent h → ∃ sent, decidedOnce path p e h h' sent.
Proof.
  intros Hs. exists []. split; [by rewrite app_nil_r|]. split; [simpl; lia|]. intros q Hq. by apply not_elem_of_nil in Hq.
Qed.

Lemma decided_reject path p e id reason h g r h' :
  h_sent g = h_sent h → exec (declineOffer p id reason ;; @failure unit) g = (r, h') → ∃ sent, decidedOnce path p e h h' sent.
Proof.
  intros Hg Hrun. assert (h' = (exec (declineOffer p id reason) g).2) as ->.
  { apply exec_bind in Hrun as [[_ ->]|(u & g1 & Hu & Hrun)]; [done|]. injection Hrun as _ <-. unfold exec. by rewrite Hu. }
  destruct (decline_sends p id reason g) as [_ [Hs|(q & Hs & Hq)]]; rewrite Hg in Hs; [by apply decided_none|].
  exists [q]. split; [done|]. split; [done|]. intros q' ->%list_elem_of_singleton. by left.
Qed.

(** The decision to accept, and the cleaning up after it. *)
Lemma accept_sends path p e h g r h' :
  h_sent g = h_sent h → (∀ g', h_memory g' = h_memory g → connectedFor path p e h g') →
  exec (_ ← decideConnectionRequest p (cr_ID e) "accept" "";
        _ ← attempt (removeInboxRequest path (cr_ID e)); mret tt) g = (r, h') →
  ∃ sent, decidedOnce path p e h h' sent.
Proof.
  intros Hg Hconn Hrun.
  assert (h_memory h' = h_memory g ∧ (h_sent h' = h_sent g ∨ ∃ q, h_sent h' = h_sent g ++ [q] ∧ or_URL q = decisionURL p "accept")) as [Hm Hs].
  { pose proof (decide_sends p (cr_ID e) "accept" "" g) as Hdec. cbv zeta in Hdec.
    apply exec_bind in Hrun as [[-> Ha]|(answer & g1 & Ha & Hrun)]; [by rewrite Ha in Hdec|].
    unfold exec in Hdec. rewrite (Ha : _ = _) in Hdec. cbn [snd] in Hdec.
    assert (h_sent h' = h_sent g1) as ->.
    { apply (along_exec (same h_sent)) in Hrun; [exact Hrun|]. pose proof (sent_removeInbox path (cr_ID e)). constancy. }
    assert (h_memory h' = h_memory g1) as ->; [|exact Hdec].
    apply (along_exec (same h_memory)) in Hrun; [exact Hrun|]. unfold removeInboxRequest, loadInbox. constancy. }
  rewrite Hg in Hs. destruct Hs as [Hs|(q & Hs & Hq)]; [by apply decided_none|].
  exists [q]. split; [done|]. split; [done|]. intros q' ->%list_elem_of_singleton. right. split; [done|by apply Hconn].
Qed.

(** C21. An offer is accepted only when it can be served: serving one tells
    the coordinator at most one decision; it is to accept only after the
    service's own target was dialled and the relay the offer names answered
    the reverse handshake for this very request and service; otherwise it is
    to reject. *)
Theorem accept_after_connect path p e h r h' (Hrun : exec (serveAutomaticConnectionOffer path p e) h = (r, h')) :
  ∃ sent, decidedOnce path p e h h' sent.
Proof.
  unfold serveAutomaticConnectionOffer in Hrun.
  destruct (localPublishedTarget p (cr_Service e)) as [target|] eqn:Htarget; [|by eapply decided_reject in Hrun].
  apply exec_bind in Hrun as [[-> Hn]|(nodes & h1 & Hn & Hrun)]; unfold exec, runs in Hn; rewrite exec_loadDiscovered in Hn.
  { injection Hn as _ <-. by apply decided_none. }
  injection Hn as Hn <-. destruct (firstMatch _ nodes) as [relay|] eqn:Hrelay.
  2:{ injection Hrun as <- <-. by apply decided_none. }
  destruct (firstMatch_Some _ _ _ Hrelay) as [Hin Hmatch]. unfold isReturnRelay in Hmatch. bool_simpl.
  destruct (dn_ID relay =? "")%string; [injection Hrun as <- <-; by apply decided_none|].
  apply exec_bind in Hrun as [[_ Hl]|(local & h2 & Hl & Hrun)]; [done|]. apply runs_ask in Hl as [Hl ->].
  destruct local; cbn [negb] in Hrun; [|by eapply decided_reject in Hrun].
  apply exec_bind in Hrun as [[_ Hd]|(reverse & h3 & Hd & Hrun)].
  { unfold exec, attempt in Hd. by destruct (dialReverseRelay _ _ _ _ _). }
  pose proof (along_runs _ _ _ _ _ (along_attempt _ _ (sent_dialSigned p relay "reverse" (nd_ID (pf_Node p)) (cr_Service e)
    (cr_IdempotencyKey e))) Hd) as Hs3. unfold same in Hs3. cbn [tickHost h_sent] in Hs3.
  apply runs_attempt in Hd. destruct reverse as [[]|]; [|by eapply decided_reject in Hrun].
  assert (∀ g, h_memory g = h_memory h3 → connectedFor path p e h g) as Hconn.
  { intros g Hg. pose proof (runs_dialSigned _ _ _ _ _ _ _ _ _ Hd) as (adv & c & priv & b & _ & _ & _ & _ & _ & Hhs & _).
    exists target, nodes, relay, (tickHost (tickHost h)), h3. eexists _, _. rewrite Hg. by split_and!. }
  apply (accept_sends path p e h h3 r h'); [by rewrite Hs3|exact Hconn|exact Hrun].
Qed.
End Offers.

(** ** Turns of the workers *)

Section Turns.
Context {unicode : Unicode} {hostEnv : HostEnv}.

Lemma returns_loadStatus path : returns (loadControlStatus path).
Proof. unfold loadControlStatus, readFile. repeat first [returns_step | solve [intros h; by eexists _, _]]. Qed.
#[local] Hint Resolve returns_loadStatus : returning.

Lemma returns_updateStatus path update : returns (updateControlStatus path update).
Proof. unfold updateControlStatus. returning. Qed.
#[local] Hint Resolve returns_updateStatus : returning.

Lemma returns_dispatchOffers p events : returns (dispatchOffers p events).
Proof. intros h. destruct (runs_dispatchOffers p events h) as (started & h' & H & _). by exists started, h'. Qed.
#[local] Hint Resolve returns_dispatchOffers : returning.

(** The inbox worker never stops on an error, and its pause is bounded:
    every turn ends; after an answer the next pause is one second and the
    answer's offers are dispatched, after a failure nothing is dispatched and
    the pause doubles; so after [n] failures in a row it is exactly
    min(2^n, 32) seconds. *)
Theorem inbox_backoff path p :
  (∀ backoff h, ∃ started next h', runs (inboxTurn path p backoff) h (started, next) h'
     ∧ (next = Time.second ∨ (started = [] ∧ next = nextBackoff backoff)))
  ∧ ∀ n, Nat.iter n nextBackoff Time.second = Z.min (2 ^ Z.of_nat n) 32 * Time.second.
Proof.
  split.
  - intros backoff h.
    assert (returns (inboxTurn path p backoff)) as Hret by (unfold inboxTurn; returning).
    destruct (Hret h) as ([started next] & h' & Hrun). exists started, next, h'. split; [exact Hrun|].
    unfold inboxTurn in Hrun. io_bind (u & h1 & _ & H). io_bind (output & h2 & _ & H). io_bind (now & h3 & _ & H).
    io_bind (v & h4 & _ & H). destruct output as [output|].
    + io_bind (l & h5 & _ & H). apply runs_ret in H as [[= -> ->] _]. by left.
    + apply runs_ret in H as [[= -> ->] _]. by right.
  - assert (∀ n, (n < 5)%nat → Nat.iter n nextBackoff Time.second = 2 ^ Z.of_nat n * Time.second) as Hsmall.
    { intros n Hn. do 5 (destruct n as [|n]; [reflexivity|]). lia. }
    assert (∀ n, Nat.iter (5 + n) nextBackoff Time.second = 32 * Time.second) as Hbig.
    { intros n. rewrite Nat.add_comm, Nat.iter_add. change (Nat.iter 5 nextBackoff Time.second) with (32 * Time.second).
      induction n as [|n IH]; [done|]. rewrite Nat.iter_succ, IH. reflexivity. }
    intros n. destruct (Nat.lt_ge_cases n 5) as [Hn|Hn].
    + rewrite Hsmall by done. f_equal. rewrite Z.min_l; [done|].
      pose proof (Z.pow_le_mono_r 2 (Z.of_nat n) 5). lia.
    + assert (∃ k, n = 5 + k)%nat as [k ->] by (exists (n - 5)%nat; lia). rewrite Hbig. f_equal.
      rewrite Z.min_r; [done|]. pose proof (Z.pow_le_mono_r 2 5 (Z.of_nat (5 + k))). lia.
Qed.

(** The unbounded loop of [connectionStatusCLI], as a relation: it ends after
    [n] polls with a terminal state, or with an error. *)
Inductive polls (p : profile) (id : string) : connectionRequest → host → nat → option connectionRequest → host → Prop :=
  | polls_done c h : connectionTerminal (cr_State c) = true → polls p id c h 0 (Some c) h
  | polls_failed c h h' : connectionTerminal (cr_State c) = false →
      exec (getConnectionStatus p id (cr_State c) true) h = (None, h') → polls p id c h 1 None h'
  | polls_again c h c' h1 n r h' : connectionTerminal (cr_State c) = false →
      runs (getConnectionStatus p id (cr_State c) true) h c' h1 → polls p id c' h1 n r h' → polls p id c h (S n) r h'.

(** Waiting for a request to end is the loop of the program: with fuel for
    [fuel] polls the function gives the loop's result exactly when the loop
    ends within that many polls, with a terminal state or with the error of a
    poll; otherwise it says that the request was still open after the last
    poll.  More fuel never changes a result. *)
Theorem await_terminal_terminates fuel p id c h r h' :
  exec (awaitTerminal fuel p id c) h = (inr <$> r, h') ↔ ∃ n, (n ≤ fuel)%nat ∧ polls p id c h n r h'.
Proof.
  revert c h. induction fuel as [|fuel IH]; intros c h; simpl; destruct (connectionTerminal (cr_State c)) eqn:Hc.
  1,3: split; [intros [= Hr <-]; exists 0%nat; split; [lia|]; destruct r; [injection Hr as <-; by constructor|done]
    |intros (n & _ & Hp); inversion Hp; subst; [done|congruence|congruence]].
  - split; [intros H; by destruct r|]. intros (n & Hn & Hp). assert (n = 0)%nat as -> by lia. inversion Hp. congruence.
  - split.
    + intros [[Hr Hg]|(c' & h1 & Hg & Hrest)]%exec_bind.
      * exists 1%nat. split; [lia|]. destruct r; [done|]. by apply polls_failed.
      * apply IH in Hrest as (n & Hn & Hp). exists (S n). split; [lia|]. by eapply polls_again.
    + intros (n & Hn & Hp). inversion Hp as [? ? Ht|? ? ? Hf Hg|? ? c' h1 m ? ? Hf Hg Hp']; subst; [congruence| |].
      * unfold exec, mbind, IO_bind in *. by rewrite Hg.
      * assert (exec (awaitTerminal fuel p id c') h1 = (inr <$> r, h')) as Hrest by (apply IH; exists m; split; [lia|done]).
        unfold exec, mbind, IO_bind in *. unfold runs in Hg. by rewrite Hg.
Qed.
End Turns.

(** ** The theorems at a concrete node *)

Definition nodeFile : string := nodePath "node-a".
Definition freshInbox : cachedInbox := mkCachedInbox 7 [newEvent].
Definition saveFresh : IO (list connectionRequest) := saveInbox nodeFile freshInbox.

Lemma save_inbox_correct_witness :
  ∃ saved, h_files (final saveFresh demoHost) !! inboxFile nodeFile = Some (marshalInbox saved +:+ lineEnd)
    ∧ mergedInbox (mkCachedInbox 3 [oldEvent]) freshInbox saved.
Proof.
  destruct (result saveFresh demoHost) as [l|] eqn:E; [|by vm_compute in E].
  pose proof (save_inbox_correct nodeFile freshInbox demoHost (Some l) (final saveFresh demoHost)
                (ran _ _ _ E) eq_refl) as H. cbv iota in H.
  assert (inboxAt (h_files demoHost) nodeFile = mkCachedInbox 3 [oldEvent]) as He by by vm_compute.
  rewrite He in H. exact H.
Defined.

Definition waitIt : IO inboxWaitResponse := waitInbox nodeFile clientProfile.
Definition handedOn : inboxWaitResponse := default (mkInboxWaitResponse 0 []) (result waitIt demoHost).

Lemma ack_after_save_witness :
  ∃ sent, ackedSafely nodeFile demoHost (final waitIt demoHost) sent ∧ (or_Body <$> sent) = ["wait"; "ack"].
Proof.
  destruct (ack_after_save nodeFile clientProfile demoHost (result waitIt demoHost) (final waitIt demoHost) (ended _ _)) as (sent & Hs).
  exists sent. split; [exact Hs|]. destruct Hs as [Hs _].
  change (h_sent demoHost ++ sent) with sent in Hs. rewrite <- Hs. by vm_compute.
Defined.

Lemma waitIt_ran : runs waitIt demoHost handedOn (final waitIt demoHost).
Proof. apply ran. by vm_compute. Qed.

Lemma inbox_hands_on_witness :
  ∃ output saved, length (ir_Events handedOn) = length (ir_Events output)
    ∧ mergedInbox (inboxAt (h_files demoHost) nodeFile) (mkCachedInbox (ir_Cursor output) (ir_Events output)) saved.
Proof.
  destruct (inbox_hands_on nodeFile clientProfile handedOn demoHost (final waitIt demoHost) waitIt_ran (λ _, eq_refl))
    as (body & output & saved & _ & _ & Hl & _ & Hm & _).
  exists output, saved. split; [exact Hl|exact Hm].
Defined.

(** The new request is answered, the old one is dispatched. *)
Lemma new_request_passed_over_witness : ir_Events handedOn = [oldEvent] ∧ oldEvent ≠ newEvent.
Proof.
  split; [|discriminate].
  apply (new_request_passed_over nodeFile clientProfile handedOn demoHost (final waitIt demoHost) oldEvent newEvent waitIt_ran (λ _, eq_refl)).
  - intros i. simpl. lia.
  - by vm_compute.
  - intros body output [= <-]. reflexivity.
  - discriminate.
  - reflexivity.
Defined.

(** The receiver takes the old revision between the sender's selects. *)
Lemma newest_revision_kept_witness :
  ∃ s, channelRuns 4 s ∧ rv_stage s = Sent 5 ∧ (rv_buffer s = Some 5 ∨ last (rv_received s) = Some 5).
Proof.
  exists (mkRevisions (Some 5) (Sent 5) [4]).
  assert (channelRuns 4 (mkRevisions (Some 5) (Sent 5) [4])) as H.
  { unfold channelRuns. eapply rtc_l; [apply rv_send|]. eapply rtc_l; [apply (rv_next 4 5)|]. eapply rtc_l; [apply rv_full|].
    eapply rtc_l; [apply rv_receive|]. eapply rtc_l; [apply rv_empty|]. eapply rtc_l; [apply rv_refill|]. apply rtc_refl. }
  split; [exact H|]. split; [done|]. exact (newest_revision_kept 4 _ H).
Defined.

Definition dispatchBoth : IO (list connectionRequest) := dispatchOffers clientProfile [newEvent; newEvent; oldEvent].

(** Two offers are dispatched, of three events; the first goroutine serves,
    and the batch comes again before it ends. *)
Lemma offers_exclusive_witness :
  ∃ threads h, offersRun nodeFile clientProfile threads h
    ∧ busyOffers threads = ["new"; "old"] ∧ (length <$> (ot_rest <$> threads)) = [1%nat; 2%nat]
    ∧ NoDup (busyOffers threads) ∧ nm_offers (h_memory h) = list_to_set ["new"; "old"].
Proof.
  destruct (result dispatchBoth demoHost) as [started|] eqn:E; [|by vm_compute in E].
  assert (started = [newEvent; oldEvent]) as Hs by (vm_compute in E; by injection E as <-). subst started.
  set (serve := _ ← attempt (serveAutomaticConnectionOffer nodeFile clientProfile newEvent); mret tt).
  set (threads := [mkOfferThread newEvent (drop 1 (offerGoroutine nodeFile clientProfile newEvent));
                   spawnOffer nodeFile clientProfile oldEvent]).
  set (h0 := final dispatchBoth demoHost).
  assert (result serve h0 = Some tt) as Es by (by vm_compute).
  assert (result dispatchBoth (final serve h0) = Some []) as Eb by (by vm_compute).
  pose proof (ran _ _ _ E) as R. pose proof (ran _ _ _ Es) as Rs. pose proof (ran _ _ _ Eb) as Rb.
  fold h0 in R. set (h1 := final serve h0) in *. set (h := final dispatchBoth h1) in *. clearbody h h1 h0.
  assert (offersRun nodeFile clientProfile threads h) as Hrun.
  { rewrite <- (app_nil_r threads). apply (or_dispatch nodeFile clientProfile threads h1 [newEvent; newEvent; oldEvent] [] h); [|exact Rb].
    apply (or_step nodeFile clientProfile [] [spawnOffer nodeFile clientProfile oldEvent] newEvent serve
        (drop 1 (offerGoroutine nodeFile clientProfile newEvent)) h0); [|exact Rs].
    apply (or_dispatch nodeFile clientProfile [] demoHost [newEvent; newEvent; oldEvent] [newEvent; oldEvent]); [by apply or_start|exact R]. }
  destruct (offers_exclusive nodeFile clientProfile threads h Hrun) as (Hnd & Hset & _).
  exists threads, h. split; [exact Hrun|]. split; [reflexivity|]. split; [reflexivity|]. split; [exact Hnd|exact Hset].
Defined.

Definition serveNew : IO unit := serveAutomaticConnectionOffer nodeFile clientProfile newEvent.

Lemma accept_after_connect_witness :
  ∃ q, h_sent (final serveNew demoHost) = [q] ∧ or_URL q = decisionURL clientProfile "accept"
    ∧ connectedFor nodeFile clientProfile newEvent demoHost (final serveNew demoHost).
Proof.
  destruct (accept_after_connect nodeFile clientProfile newEvent demoHost (result serveNew demoHost) (final serveNew demoHost) (ended _ _))
    as (sent & Hs & _ & Hq).
  change (h_sent demoHost ++ sent) with sent in Hs.
  assert (or_URL <$> h_sent (final serveNew demoHost) = [decisionURL clientProfile "accept"]) as Hurl by by vm_compute.
  rewrite Hs in Hurl. destruct sent as [|q [|]]; [done| |done]. injection Hurl as Hurl. exists q. split; [exact Hs|].
  split; [exact Hurl|]. destruct (Hq q) as [Hr|[_ Hc]]; [by left| |exact Hc].
  rewrite Hurl in Hr. by apply endpoint_inj in Hr.
Defined.
