(* ===== verification/ManagerTheorems.v ===== *)
(** * Properties of the host's management

    The parts of a running node, the administrator's client, the service of
    the manager, the connectors and the menus. *)
From S2P Require Import Prelude GoStd GoNet GoPath GoCrypto Types Runtime Validate Wire Registry.
From S2P Require Import Auth Profile Xray Options Host Service Embedded NodeClient AdminClient NodeConfig.
From S2P Require Import NodeRuntime Menu RelayProtocol Inbox Command Relay Effects Demo NodeDemo ClientTheorems.

Local Open Scope Z_scope.

(** ** The parts of a node *)

Section Parts.
Context {unicode : Unicode} {hostEnv : HostEnv}.

Definition partsOf (h : host) : list runningPart := nm_parts (h_memory h).

Lemma closeOne_perm x l : x ∈ l → l ≡ₚ x :: closeOne x l.
Proof.
  induction l as [|y l IH]; intros Hx; [by apply elem_of_nil in Hx|]. cbn. destruct (decide (x = y)) as [->|Hne]; [done|].
  apply elem_of_cons in Hx as [?|Hx]; [done|]. rewrite (IH Hx) at 1. apply perm_swap.
Qed.

Definition connectorsOf (h : host) : gmap string string := nm_connectors (h_memory h).

Lemma close_spec x h :
  ∃ h', runs (close x) h tt h' ∧ h_files h' = h_files h ∧ partsOf h' = closeOne x (partsOf h)
    ∧ connectorsOf h' = if hasCache x then ∅ else connectorsOf h.
Proof.
  unfold close. destruct (hasCache x); [|by eexists].
  destruct (runs_closeConnectors (modMemory (setParts (closeOne x)) h).2) as (h' & Hr & Hf & Hp & Hc).
  exists h'. split; [exact Hr|]. split; [exact Hf|]. split; [exact Hp|exact Hc].
Qed.

Lemma closeAll_spec l : ∀ h k, partsOf h ≡ₚ l ++ k →
  ∃ h', runs (closeAll l) h tt h' ∧ partsOf h' ≡ₚ k
    ∧ connectorsOf h' = if existsb hasCache l then ∅ else connectorsOf h.
Proof.
  induction l as [|x l IH]; intros h k Hp; [by exists h|].
  destruct (close_spec x h) as (h1 & H1 & _ & Hparts & Hc1). destruct (IH h1 k) as (h' & Hr & Hk & Hc).
  - rewrite Hparts. assert (x ∈ partsOf h) as Hx by (rewrite Hp; left).
    apply (Permutation_cons_inv (a := x)). rewrite <- (closeOne_perm x _ Hx). exact Hp.
  - exists h'. split; [by apply runs_bind; exists tt, h1|]. split; [done|]. rewrite Hc, Hc1. cbn.
    by destruct (hasCache x), (existsb hasCache l).
Qed.

(** The part that runs a mapping. *)
Definition partFor (m : mapping) : runningPart :=
  if (mp_Kind m =? "pull")%string && negb (mp_TargetNode m =? "")%string then PullPart m else EmbeddedPart m.

(** [start] opens [x], or fails and opens nothing. *)
Definition starts (start : IO runningPart) (x : runningPart) : Prop :=
  ∀ h, match exec start h with
       | (Some y, h') => y = x ∧ partsOf h' = partsOf h ++ [x]
       | (None, h') => partsOf h' = partsOf h
       end.

Lemma starts_opened (m : IO unit) x : constant partsOf m → starts (m ;; opened x) x.
Proof.
  intros Hm h. specialize (Hm h). unfold same in Hm. unfold exec, opened, mbind, IO_bind.
  destruct (m h) as [[[]|] h']; cbn in Hm |- *; [|done]. split; [done|]. unfold partsOf in *. cbn. by rewrite Hm.
Qed.

Lemma starts_startPart m : starts (startPart m) (partFor m).
Proof.
  unfold startPart, partFor, startSmartPull. destruct (_ && _); apply starts_opened.
  - unfold listenTCP. constancy.
  - apply (constant_part nm_parts), constant_startMapping.
Qed.

Lemma starts_relay p : starts (startRelayServer p) RelayPart.
Proof.
  intros h. unfold startRelayServer.
  set (m := certificate ← fileText (rl_Certificate (pf_Relay p)); key ← fileText (rl_Key (pf_Relay p));
            refuse negb (keyPair certificate key) ;; listenTCP (rl_Listen (pf_Relay p))).
  assert (constant partsOf m) as Hm by (unfold m, listenTCP, fileText; constancy; by apply (constant_part nm_parts), constant_readFile).
  pose proof (starts_opened m RelayPart Hm h) as Hs. revert Hs. unfold m, exec, mbind, IO_bind.
  destruct (fileText _ h) as [[c|] h1]; [|done]. destruct (fileText _ h1) as [[k|] h2]; [|done].
  by destruct (negb _).
Qed.

Lemma starts_coordinator path p : starts (startCoordinator path p) CoordinatorPart.
Proof.
  intros h. unfold startCoordinator. cbn zeta. destruct (_ || _); [done|]. destruct (negb (validateAdminListen _)); [done|].
  set (file := Filepath.Join _). pose proof (constant_part nm_parts _ (constant_readFile file) h) as Hc. unfold same in Hc.
  unfold stateLoads, exec, mbind, IO_bind. destruct (readFile file h) as [[r|] h1]; cbn in Hc |- *; [|done].
  unfold mbind, IO_bind. destruct (negb _); cbn; [exact Hc|]. split; [done|]. unfold partsOf. cbn. by rewrite Hc.
Qed.

(** A start under the code that closes what already runs. *)
Lemma parts_startIf wanted start add x instances k h :
  starts start x → add x instances ≡ₚ x :: instances → partsOf h ≡ₚ instances ++ k →
  match exec (startIf wanted start add instances) h with
  | (Some xs, h') => xs = (if wanted then add x instances else instances) ∧ partsOf h' ≡ₚ xs ++ k
  | (None, h') => partsOf h' ≡ₚ k
  end.
Proof.
  intros Hs Hadd Hp. unfold startIf. destruct wanted; cbn [negb]; [|done].
  specialize (Hs h). unfold exec, mbind, IO_bind, attempt in *. destruct (start h) as [[y|] h1]; cbn.
  - destruct Hs as [-> ->]. split; [done|]. by rewrite Hp, Hadd, (Permutation_app_comm _ [x]).
  - destruct (closeAll_spec instances h1 k) as (h2 & Hr & Hk & _); [by rewrite Hs|]. unfold runs in Hr. by rewrite Hr.
Qed.

Lemma parts_startMappings l : ∀ instances k h,
  partsOf h ≡ₚ instances ++ k →
  match exec (startMappings l instances) h with
  | (Some xs, h') => xs = instances ++ (partFor <$> l) ∧ partsOf h' ≡ₚ xs ++ k
  | (None, h') => partsOf h' ≡ₚ k
  end.
Proof.
  induction l as [|m l IH]; intros instances k h Hp; cbn; [by rewrite app_nil_r|].
  pose proof (starts_startPart m h) as Hs. unfold exec, mbind, IO_bind, attempt in *. destruct (startPart m h) as [[y|] h1]; cbn.
  - destruct Hs as [-> Hp1]. specialize (IH (instances ++ [partFor m]) k h1). rewrite <- !app_assoc in IH. apply IH.
    by rewrite Hp1, Hp, <- app_assoc, (Permutation_app_comm k).
  - destruct (closeAll_spec instances h1 k) as (h2 & Hr & Hk & _); [by rewrite Hs|]. unfold runs in Hr. by rewrite Hr.
Qed.

(** The parts a node of this profile runs. *)
Definition partsFor (p : profile) : list runningPart :=
  (if (pf_Role p =? "coordinator")%string then [CoordinatorPart] else [])
  ++ (partFor <$> pf_Mappings p) ++ (if (pf_Role p =? "relay")%string then [RelayPart] else []).

Lemma parts_startProfile path h :
  match exec (startProfile path) h with
  | (Some (p, xs), h') => xs = partsFor p ∧ partsOf h' ≡ₚ xs ++ partsOf h
  | (None, h') => partsOf h' ≡ₚ partsOf h
  end.
Proof.
  unfold startProfile. pose proof (constant_part nm_parts _ (constant_loadProfile path) h) as Hc. unfold same in Hc.
  unfold exec, mbind, IO_bind. destruct (loadProfile path h) as [[p|] h1]; cbn in Hc; [|unfold partsOf; by rewrite Hc].
  pose proof (parts_startMappings (pf_Mappings p) [] (partsOf h) h1) as H1. unfold exec in H1.
  destruct (startMappings _ [] h1) as [[xs1|] h2]; [|apply H1; unfold partsOf; by rewrite Hc].
  destruct H1 as [-> H1]; [unfold partsOf; by rewrite Hc|]. cbn in H1.
  pose proof (parts_startIf (pf_Role p =? "relay")%string _ (λ x l, l ++ [x]) _ _ _ h2 (starts_relay p)
    (Permutation_app_comm _ _) H1) as H2. unfold exec in H2. cbn [app].
  destruct (startIf _ (startRelayServer p) _ _ h2) as [[xs2|] h3]; [|done]. destruct H2 as [-> H2].
  pose proof (parts_startIf (pf_Role p =? "coordinator")%string _ cons _ _ _ h3 (starts_coordinator path p) (Permutation_refl _) H2) as H3.
  unfold exec in H3. destruct (startIf _ (startCoordinator path p) _ _ h3) as [[xs3|] h4]; [|done]. destruct H3 as [-> H3].
  cbn. split; [|done]. unfold partsFor. by destruct (_ =? "relay")%string, (_ =? "coordinator")%string; rewrite ?app_nil_r.
Qed.

(** C29. A running node: a node that started runs exactly one part for each of
    its mappings (a listener with routes for an automatic pull, an embedded
    Xray for the rest), with the relay server of a relay and the servers of a
    coordinator; and whatever fails on the way, and however the run ends,
    every part that was opened is closed again, and the connectors of the
    pull listeners and of the relay server with them. *)
Theorem run_profile_releases path h :
  nm_parts (h_memory (runProfile path h).2) ≡ₚ nm_parts (h_memory h)
  ∧ (∀ p instances h', exec (startProfile path) h = (Some (p, instances), h') → existsb hasCache instances = true →
       nm_connectors (h_memory (runProfile path h).2) = ∅)
  ∧ match exec (startProfile path) h with
    | (Some (p, instances), h') =>
        profileAt (h_files h) path p ∧ instances = partsFor p
        ∧ nm_parts (h_memory h') ≡ₚ instances ++ nm_parts (h_memory h)
    | (None, h') => nm_parts (h_memory h') ≡ₚ nm_parts (h_memory h)
    end.
Proof.
  pose proof (parts_startProfile path h) as Hs. unfold exec in *. apply and_assoc. split.
  - unfold runProfile, mbind, IO_bind. destruct (startProfile path h) as [[[p xs]|] h1]; [|by split; [exact Hs|]].
    destruct Hs as [_ Hp]. unfold ask. cbn.
    destruct (closeAll_spec xs (tickHost h1) (partsOf h)) as (h2 & Hr & Hk & Hc); [exact Hp|]. unfold runs in Hr. unfold tickHost in Hr.
    rewrite Hr. split; [by destruct (_ && _)|]. intros ? ? ? [= <- <- <-] Hcache. rewrite Hcache in Hc. by destruct (_ && _).
  - destruct (startProfile path h) as [[[p xs]|] h1] eqn:Hrun; [|exact Hs]. split; [|exact Hs].
    unfold startProfile in Hrun. change (runs (p0 ← loadProfile path; instances ← startMappings (pf_Mappings p0) [];
      instances ← startIf (pf_Role p0 =? "relay")%string (startRelayServer p0) (λ x l, l ++ [x]) instances;
      instances ← startIf (pf_Role p0 =? "coordinator")%string (startCoordinator path p0) cons instances; mret (p0, instances)) h (p, xs) h1) in Hrun.
    io_bind (q & h2 & Hl & Hrun). apply runs_loadProfile in Hl as [_ Hl].
    io_bind (? & ? & _ & Hrun). io_bind (? & ? & _ & Hrun). io_bind (? & ? & _ & Hrun). by apply runs_ret in Hrun as [[= -> _] _].
Qed.
End Parts.

(** ** The administrator's client *)

Section Admin.
Context {env : Env} {hostEnv : HostEnv}.

(** The token that follows the scheme of an Authorization header. *)
Lemma TrimPrefix_append (a b : string) : Strings.TrimPrefix (a +:+ b) a = b.
Proof.
  assert (Strings.HasPrefix (a +:+ b) a = true ∧ drop (String.length a) (Strings.bytes (a +:+ b)) = Strings.bytes b) as [Hp Hd].
  { induction a as [|c a [IH1 IH2]]; [done|]. split; [|exact IH2].
    change (bool_decide (c = c) && Strings.HasPrefix (a +:+ b) a = true). by rewrite bool_decide_eq_true_2, IH1. }
  unfold Strings.TrimPrefix. rewrite Hp, Hd. apply String.string_of_list_ascii_of_string.
Qed.

(** The request [q] goes to the admin API of the coordinator [p], which
    accepts it. *)
Definition adminRequestOf (p : profile) (q : outRequest) : Prop :=
  pf_Role p = "coordinator"
  ∧ Hex.DecodeString (normalizePin (sv_PinnedSHA256 (pf_Server p))) = Some (or_Pin q) ∧ or_Via q = None
  ∧ (∃ host port endpoint,
      Net.SplitHostPort (sv_AdminListen (pf_Server p)) = Some (host, port) ∧ endpoint ∈
        ["/v1/admin/handshakes"; "/v1/admin/audit"; "/v1/admin/approve"; "/v1/admin/reject"; "/v1/admin/revoke"] ∧
      ∃ query, or_URL q = "https://" +:+ Net.JoinHostPort (if wildcardHost host then "127.0.0.1" else host) port +:+ endpoint +:+ query)
  ∧ ∀ reg req, adminToken reg = sv_AdminToken (pf_Server p) → carries req (or_Header q) → adminAuthorized reg req = true.

(** [m] changes no file and sends at most one request, which is one to the
    admin API of the coordinator saved at [path]; it sends it when it
    succeeds. *)
Definition administers {A} (path : string) (m : IO A) : Prop :=
  ∀ h, h_files (m h).2 = h_files h
       ∧ ((m h).1 = None ∧ h_sent (m h).2 = h_sent h
          ∨ ∃ p q, profileAt (h_files h) path p ∧ adminRequestOf p q ∧ h_sent (m h).2 = h_sent h ++ [q]).

Definition talk (h : host) : gmap string string * list outRequest := (h_files h, h_sent h).

Lemma administers_then {A B} path (m : IO A) (k : A → IO B) :
  administers path m → (∀ a, constant talk (k a)) → administers path (m ≫= k).
Proof.
  intros Hm Hk h. specialize (Hm h) as [Hf Hs]. unfold mbind, IO_bind. destruct (m h) as [[a|] h1]; cbn in *; [|split; [done|destruct Hs as [[_ Hs]|Hs]; [by left|by right]]].
  specialize (Hk a h1). injection Hk as Hf1 Hs1. rewrite Hf1, Hs1. split; [done|]. destruct Hs as [[? _]|Hs]; [done|]. by right.
Qed.

Lemma constant_talk_loadProfile path : constant talk (loadProfile path).
Proof. unfold loadProfile, readFile. constancy. Qed.

Lemma talk_send {B} client method url header body (k : _ → IO B) h :
  (∀ a, constant talk (k a)) →
  let h' := ((a ← send client method url header body; k a) h).2 in
  h_files h' = h_files h ∧ h_sent h' = h_sent h ++ [mkOutRequest method url header body client.1 client.2].
Proof.
  intros Hk. unfold send, mbind, IO_bind. cbn. destruct (transport _ _) as [a|]; cbn; [|done].
  match goal with |- context [k a ?h1] => specialize (Hk a h1) end. injection Hk as Hf Hs. by rewrite Hf, Hs.
Qed.

Lemma administers_refuse {A} path (b : bool) (m : IO A) : administers path m → administers path (refuse b ;; m).
Proof. intros Hm h. destruct b; [|apply Hm]. split; [done|]. by left. Qed.

Lemma administers_exchange path method endpoint query header body :
  endpoint ∈ ["/v1/admin/handshakes"; "/v1/admin/audit"; "/v1/admin/approve"; "/v1/admin/reject"; "/v1/admin/revoke"] →
  administers path (adminExchange path method (endpoint +:+ query) header body).
Proof.
  intros He h. unfold adminExchange, coordinatorAdminClient, mbind, IO_bind.
  pose proof (constant_talk_loadProfile path h) as Hc. injection Hc as Hf Hs.
  destruct (loadProfile path h) as [[p|] h1] eqn:Hl; cbn in Hf, Hs |- *; [|by split; [|left]].
  apply runs_loadProfile in Hl as [_ Hp]. destruct (String.eqb_spec (pf_Role p) "coordinator") as [Hrole|_]; cbn; [|by split; [|left]].
  destruct (_ =? "")%string; cbn; [by split; [|left]|]. unfold coordinatorHTTPClient.
  destruct (Hex.DecodeString _) as [pin|] eqn:Hpin; cbn; [|by split; [|left]]. destruct (_ =? _)%nat; cbn; [|by split; [|left]].
  destruct (Net.SplitHostPort _) as [[host port]|] eqn:Ha; cbn; [|by split; [|left]].
  destruct (parseURL _); cbn; [|by split; [|left]].
  match goal with |- context [send ?c method ?url ?hd body h1] =>
    destruct (talk_send c method url hd body (λ a, refuse negb (a.1 =? 200) ;; mret a.2) h1) as [Hf' Hs'];
      [intros a; by destruct (negb _)|unfold mbind, IO_bind in Hf', Hs'; rewrite Hf', Hs'] end.
  split; [done|]. right. eexists p, _. split; [done|]. rewrite Hs. split; [|reflexivity].
  split_and!; [done|exact Hpin|done| |].
  - exists host, port, endpoint. split_and!; [done|done|]. exists query. cbn [or_URL]. reflexivity.
  - intros reg req Ht Hc. unfold adminAuthorized. rewrite (Hc "Authorization" ("Bearer " +:+ sv_AdminToken (pf_Server p)) ltac:(by left)).
    rewrite TrimPrefix_append, Ht, Nat.eqb_refl. cbn. apply Z.eqb_eq. by apply ConstantTimeCompare_1.
Qed.

(** C31. The administrator's actions: each changes no file and sends at most
    one request, exactly one when it succeeds.  That request goes over a
    connection pinned to the coordinator's own certificate, to the admin
    address saved in its profile (on the loopback address when that is a
    wildcard) and to a path of the admin API, and the coordinator accepts the
    token it carries. *)
Theorem admin_requests_accepted path :
  (∀ status, administers path (listPendingHandshakes path status))
  ∧ administers path (listAuditEvents path)
  ∧ (∀ code replace, administers path (approveDeviceCode path code replace))
  ∧ (∀ code reason, administers path (rejectDeviceCode path code reason))
  ∧ (∀ nodeID, administers path (revokeNodeID path nodeID)).
Proof.
  split_and!; intros; repeat apply administers_refuse; (eapply administers_then; [|constancy]).
  - apply administers_exchange. left.
  - apply (administers_exchange path "GET" "/v1/admin/audit" ""). right. left.
  - apply (administers_exchange path "POST" "/v1/admin/approve" ""). do 2 right. left.
  - apply (administers_exchange path "POST" "/v1/admin/reject" ""). do 3 right. left.
  - apply (administers_exchange path "POST" "/v1/admin/revoke" ""). do 4 right. left.
Qed.
End Admin.

(** ** The manager's service *)

Section ManagerService.
Context {unicode : Unicode} {hostEnv : HostEnv}.

(** Where the copy of the program lies that the unit runs. *)
Definition managedBinary (home : string) : string := Filepath.Join [Filepath.Join [home; "mayoiga"]; "bin"; executableName].

Lemma removeFile_keeps path h :
  h_memory (removeFile path h).2 = h_memory h ∧ ∀ q, q ≠ path → h_files (removeFile path h).2 !! q = h_files h !! q.
Proof.
  unfold removeFile, mbind, IO_bind. cbn. destruct (negb _); [done|]. case_bool_decide; [|done].
  split; [done|]. intros q Hq. cbn. by apply lookup_delete_ne.
Qed.

(** Staging: the program's bytes replace the managed copy in one step.  When
    it fails, no file but the staged one differs from before. *)
Lemma stage_spec h :
  let h' := (stageManagedBinary h).2 in
  h_memory h' = h_memory h ∧
  match (stageManagedBinary h).1 with
  | None => ∀ path, (∀ home i, configHome i = Some home → path ≠ managedBinary home +:+ ".new") → h_files h' !! path = h_files h !! path
  | Some bin => ∃ home i source, configHome i = Some home ∧ executableBytes (h_tick h) = Some source ∧ bin = managedBinary home
      ∧ h_files h' = <[bin := source]> (delete (bin +:+ ".new") (h_files h))
  end.
Proof.
  unfold stageManagedBinary, configDir, rename, mbind, IO_bind, attempt. cbn.
  destruct (executableBytes (h_tick h)) as [source|] eqn:Hsource; cbn; [|done].
  destruct (configHome (S (h_tick h))) as [home|] eqn:Hhome; cbn; [|done].
  fold (managedBinary home). set (staged := managedBinary home +:+ ".new"). destruct (mkdirAll _ _); cbn; [|done].
  assert (∀ x k, h_memory k = h_memory h → h_files k = <[staged := x]> (h_files h) →
    h_memory (removeFile staged k).2 = h_memory h
    ∧ ∀ path, (∀ home i, configHome i = Some home → path ≠ managedBinary home +:+ ".new") →
        h_files (removeFile staged k).2 !! path = h_files h !! path) as Hundo.
  { intros x k Hm Hf. destruct (removeFile_keeps staged k) as [-> Hk]. split; [done|]. intros path Hp.
    specialize (Hp home _ Hhome). rewrite Hk, Hf by done. by apply lookup_insert_ne. }
  destruct (writeFile _ _ _) as [| |copied]; cbn; [|done|].
  - rewrite lookup_insert_eq. destruct (renameFile _); cbn.
    + split; [done|]. eexists home, _, source. split_and!; [exact Hhome|done|done|]. cbn. by rewrite delete_insert_eq.
    + match goal with |- context [removeFile staged ?k] => pose proof (Hundo source k eq_refl eq_refl) as H end.
      by destruct (removeFile staged _) as [[?|] ?].
  - match goal with |- context [removeFile staged ?k] => pose proof (Hundo copied k eq_refl eq_refl) as H end.
    by destruct (removeFile staged _) as [[?|] ?].
Qed.

Definition commandsOf (h : host) : list (list string) := nm_commands (h_memory h).

Section Constant.
Context (home config source : string).
Context (Hlinux : linux = true) (Hhome : ∀ i, userHome i = Some home) (Hconfig : ∀ i, configHome i = Some config).
Context (Hsource : ∀ i, executableBytes i = Some source) (Hapart : unitFile home ≠ managedBinary config).

(** The managed copy is the old or the new one. *)
Definition copyWhole (h h' : host) : Prop :=
  h_files h' !! managedBinary config = h_files h !! managedBinary config ∨ h_files h' !! managedBinary config = Some source.

(** The service is installed: the copy, the unit, and the reload. *)
Definition serviceInstalled (h h' : host) : Prop :=
  h_files h' = <[unitFile home := unitText (managedBinary config)]>
                 (<[managedBinary config := source]> (delete (managedBinary config +:+ ".new") (h_files h)))
  ∧ commandsOf h' = commandsOf h ++ [["systemctl"; "--user"; "daemon-reload"]].

(** The installation has failed: the copy is whole, and the unit is as it was,
    or as much of it as a failing write left, or complete but never loaded. *)
Definition serviceFailed (h h' : host) : Prop :=
  copyWhole h h'
  ∧ (h_files h' !! unitFile home = h_files h !! unitFile home
     ∨ (∃ i part, writeFile i (unitFile home) (unitText (managedBinary config)) = Partial part
          ∧ h_files h' !! unitFile home = Some part)
     ∨ (∃ i, runCommand i ["systemctl"; "--user"; "daemon-reload"] = false
          ∧ h_files h' !! unitFile home = Some (unitText (managedBinary config)))).

Lemma install_service_spec h :
  unitFile home ≠ managedBinary config +:+ ".new" →
  match (installManagerService h).1 with
  | Some _ => serviceInstalled h (installManagerService h).2
  | None => serviceFailed h (installManagerService h).2
  end.
Proof.
  intros Hstaged.
  unfold installManagerService, mbind, IO_bind. rewrite Hlinux. cbn. destruct (stage_spec h) as [Hm Hs].
  destruct (stageManagedBinary h) as [[bin|] h1]; cbn in Hm, Hs |- *.
  2:{ split; [left|left]; apply Hs; intros home' i Hc; rewrite Hconfig in Hc; injection Hc as <-; [apply not_eq_sym, temp_ne|done]. }
  destruct Hs as (c & i & source' & Hc & Hb & -> & Hf). rewrite Hconfig in Hc. injection Hc as <-. rewrite Hsource in Hb. injection Hb as <-.
  assert (h_files h1 !! managedBinary config = Some source) as Hcopy by (rewrite Hf; apply lookup_insert_eq).
  assert (h_files h1 !! unitFile home = h_files h !! unitFile home) as Hunit
    by (rewrite Hf, lookup_insert_ne, lookup_delete_ne by done; done).
  rewrite Hhome. cbn. destruct (mkdirAll _ _); cbn; [|split; [by right|by left]]. unfold putFile, command, mbind, IO_bind. cbn.
  destruct (writeFile _ _ _) as [| |part] eqn:Hwrite; cbn;
    [|split; [by right|by left]|split; [right; cbn; by rewrite lookup_insert_ne|right; left; cbn; rewrite lookup_insert_eq; eauto]].
  destruct (runCommand _ _) eqn:Hload; cbn;
    [|split; [right; cbn; by rewrite lookup_insert_ne|right; right; cbn; rewrite lookup_insert_eq; eauto]].
  split; cbn; [by rewrite Hf|unfold commandsOf; cbn; by rewrite Hm].
Qed.

Lemma ensure_there h :
  is_Some (h_files h !! unitFile home) →
  h_files (ensureManagerService h).2 = h_files h ∧ commandsOf (ensureManagerService h).2 = commandsOf h.
Proof.
  intros Hk. unfold ensureManagerService, mbind, IO_bind. rewrite Hlinux. cbn. rewrite Hhome. cbn.
  destruct (statFails _ _); cbn; [done|]. by rewrite bool_decide_eq_true_2.
Qed.

(** Whatever unit is there, it is taken for the service. *)
Lemma ensure_taken h :
  is_Some (h_files h !! unitFile home) → (∀ i, statFails i (unitFile home) = false) → (ensureManagerService h).1 = Some tt.
Proof.
  intros Hk Hstat. unfold ensureManagerService, mbind, IO_bind. rewrite Hlinux. cbn. rewrite Hhome. cbn.
  rewrite Hstat. cbn. by rewrite bool_decide_eq_true_2.
Qed.

Lemma ensure_new h :
  unitFile home ≠ managedBinary config +:+ ".new" → h_files h !! unitFile home = None →
  match (ensureManagerService h).1 with
  | Some _ => serviceInstalled h (ensureManagerService h).2
  | None => serviceFailed h (ensureManagerService h).2
  end.
Proof.
  intros Hstaged Hk. unfold ensureManagerService, mbind, IO_bind. rewrite Hlinux. cbn. rewrite Hhome. cbn.
  destruct (statFails _ _); cbn; [by split; left|]. rewrite bool_decide_eq_false_2 by (rewrite Hk; by intros []).
  by apply (install_service_spec (tickHost (tickHost h))).
Qed.

(** C35. The manager's service, when the system's answers about its
    directories and its own program do not change.  Where no unit is there, a
    success leaves the program's bytes as the managed copy, the unit that runs
    that copy, nothing of the staged copy, and a reload of the units; a failure
    leaves the managed copy whole, the old one or the new one, and the unit
    absent, or as much of it as a failing write left, or complete but not
    loaded.  Where a unit is there, of whatever content, nothing changes, no
    command is run, and success is reported: after a success it never does
    anything again, and neither does it after a failure that has left a unit
    behind, which is not repaired. *)
Theorem ensure_service_correct h (Hstaged : unitFile home ≠ managedBinary config +:+ ".new") :
  let h' := (ensureManagerService h).2 in
  match h_files h !! unitFile home with
  | Some _ => h_files h' = h_files h ∧ commandsOf h' = commandsOf h
  | None => match (ensureManagerService h).1 with
            | Some _ => serviceInstalled h h'
            | None => serviceFailed h h'
            end
  end
  ∧ ∀ text k, h_files h' !! unitFile home = Some text → h_files k = h_files h' →
      h_files (ensureManagerService k).2 = h_files k ∧ commandsOf (ensureManagerService k).2 = commandsOf k
      ∧ ((∀ i, statFails i (unitFile home) = false) → (ensureManagerService k).1 = Some tt).
Proof.
  cbn zeta. split.
  - destruct (h_files h !! unitFile home) as [old|] eqn:Hold; [apply ensure_there; by rewrite Hold|by apply ensure_new].
  - intros text k Htext Hk. assert (is_Some (h_files k !! unitFile home)) as Hthere by (rewrite Hk; by eexists).
    destruct (ensure_there k Hthere) as [Hf Hc]. split; [done|]. split; [done|]. by apply ensure_taken.
Qed.
End Constant.

Lemma runs_command args b h h' :
  runs (command args) h b h' →
  (∃ i, b = runCommand i args) ∧ h_files h' = h_files h ∧ commandsOf h' = commandsOf h ++ [args].
Proof. unfold command. intros H. io_inv. split; [by eexists|done]. Qed.

Definition unitOf (name : string) : string := "mayoiga@" +:+ name +:+ ".service".
Definition systemctl (args : list string) : list string := "systemctl" :: "--user" :: args.
Definition retiring (unit : string) : list string := systemctl ["disable"; "--now"; unit].

Section Retire.
Context (enabled active : string → bool).
Context (Henabled : ∀ i u, runCommand i (systemctl ["is-enabled"; "--quiet"; u]) = enabled u).
Context (Hactive : ∀ i u, runCommand i (systemctl ["is-active"; "--quiet"; u]) = active u).

(** The instances whose own unit is still in use. *)
Definition legacy (entries : list (string * bool)) (name : string) : Prop :=
  (name, true) ∈ entries ∧ validateInstance name = true ∧ enabled (unitOf name) || active (unitOf name) = true.

(** The commands of [l] that disable a unit are those of legacy instances. *)
Definition retires (entries : list (string * bool)) (l : list (list string)) : Prop :=
  ∀ unit, retiring unit ∈ l ↔ ∃ name, legacy entries name ∧ unit = unitOf name.

Lemma retires_cons name isDir rest pre l :
  (∀ unit, retiring unit ∈ pre ↔
    isDir = true ∧ validateInstance name = true ∧ enabled (unitOf name) || active (unitOf name) = true ∧ unit = unitOf name) →
  retires rest l → retires ((name, isDir) :: rest) (pre ++ l).
Proof.
  intros Hpre Hl unit. rewrite elem_of_app, (Hl unit), Hpre. unfold legacy. split.
  - intros [(-> & ? & ? & ->)|(n & (? & ? & ?) & ->)]; [exists name|exists n]; split_and!; try done; [by left|by right].
  - intros (n & ([[= -> <-]|?]%elem_of_cons & ? & ?) & ->); [by left|right; by exists n].
Qed.

Lemma retireUnits_spec entries : ∀ h u h',
  runs (retireUnits entries) h u h' → h_files h' = h_files h ∧ ∃ l, commandsOf h' = commandsOf h ++ l ∧ retires entries l.
Proof.
  induction entries as [|[name isDir] rest IH]; intros h u h' H; cbn [retireUnits] in H.
  { io_inv1. split; [done|]. exists []. rewrite app_nil_r. split; [done|]. intros unit.
    split; [by intros ?%not_elem_of_nil|by intros (? & [?%not_elem_of_nil _] & _)]. }
  destruct (negb isDir || negb (validateInstance name)) eqn:Hskip.
  { destruct (IH h u h' H) as (Hf & l & Hc & Hl). split; [done|]. exists l. split; [done|]. apply (retires_cons name isDir rest []); [|done].
    intros unit. split; [by intros ?%not_elem_of_nil|]. intros (-> & Hv & _). by rewrite Hv in Hskip. }
  apply orb_false_iff in Hskip as [->%negb_false_iff Hv%negb_false_iff].
  io_bind (e & h1 & He & H). apply runs_command in He as ((i & ->) & Hf1 & Hc1).
  io_bind (a & h2 & Ha & H). apply runs_command in Ha as ((j & ->) & Hf2 & Hc2).
  pose proof (Henabled i) as Hne. pose proof (Hactive j) as Hna. unfold systemctl in Hne, Hna.
  fold (unitOf name) in *. rewrite Hne, Hna in H. destruct (_ || _) eqn:Hused.
  - io_bind (d & h3 & Hd & H). apply runs_command in Hd as (_ & Hf3 & Hc3). io_guard _.
    destruct (IH h3 u h' H) as (Hf & l & Hc & Hl). split; [congruence|].
    exists ([systemctl ["is-enabled"; "--quiet"; unitOf name]; systemctl ["is-active"; "--quiet"; unitOf name]; retiring (unitOf name)] ++ l).
    split; [by rewrite Hc, Hc3, Hc2, Hc1, <- !app_assoc|]. apply retires_cons; [|done]. intros unit. split.
    + intros [?|[?|[[=->]|?%not_elem_of_nil]%elem_of_cons]%elem_of_cons]%elem_of_cons; done.
    + intros (_ & _ & _ & ->). do 2 right. left.
  - destruct (IH h2 u h' H) as (Hf & l & Hc & Hl). split; [congruence|].
    exists ([systemctl ["is-enabled"; "--quiet"; unitOf name]; systemctl ["is-active"; "--quiet"; unitOf name]] ++ l).
    split; [by rewrite Hc, Hc2, Hc1, <- !app_assoc|]. apply retires_cons; [|done]. intros unit. split.
    + intros [?|[?|?%not_elem_of_nil]%elem_of_cons]%elem_of_cons; done.
    + intros (_ & _ & Hu & _). by rewrite Hu in Hused.
Qed.

Lemma runs_removeFile path o h h' :
  runs (removeFile path) h o h' → o ≠ RemoveError → h_files h' = delete path (h_files h) ∧ commandsOf h' = commandsOf h.
Proof.
  unfold removeFile. intros H Ho. io_bind (ok & h1 & H1 & H). apply runs_ask in H1 as [-> ->].
  io_bind (f & h2 & H2 & H). apply runs_files in H2 as [-> ->].
  destruct (removable _ _); cbn [negb] in H; [|by io_inv]. case_bool_decide as Hp; io_inv; split; try done.
  symmetry. apply delete_id. by apply eq_None_not_Some.
Qed.

Lemma runs_retireLegacy config entries dir h h' :
  (∀ i, configHome i = Some config) →
  (∀ i, readDir i (Filepath.Join [Filepath.Join [config; "mayoiga"]; "nodes"]) = Entries entries) →
  runs (retireLegacyNodeServices dir) h tt h' →
  ∃ l, commandsOf h' = commandsOf h ++ l ∧ retires entries l
       ∧ h_files h' = delete (Filepath.Join [dir; "mayoiga@.service"]) (h_files h).
Proof.
  intros Hconfig Hentries H. unfold retireLegacyNodeServices, configDir in H.
  io_bind (d & h1 & Hd & H). io_bind (c & h2 & Hc & Hd). apply runs_ask in Hc as [-> ->].
  io_bind (c & h3 & Hc & Hd). apply runs_lift in Hc as [Hc ->]. rewrite Hconfig in Hc. injection Hc as <-.
  apply runs_ret in Hd as [-> ->]. io_bind (found & h4 & Hfound & H). apply runs_ask in Hfound as [-> ->]. rewrite Hentries in H.
  io_bind (? & h5 & Hu & H). apply retireUnits_spec in Hu as (Hf & l & Hc & Hl). io_bind (o & h6 & Ho & H).
  apply runs_removeFile in Ho as [Hf6 Hc6]; [|by intros ->; io_inv1].
  exists l. destruct o; io_inv1; split_and!; [by rewrite Hc6|done|by rewrite Hf6, Hf|by rewrite Hc6|done|by rewrite Hf6, Hf].
Qed.

(** Starting the manager, when the answers about the directories and the
    old units do not change: a start that succeeds has first disabled and
    stopped the unit of its own of every instance where such a unit of an
    earlier release was enabled or active, and of no other, has removed their
    template, reloaded, and only then enabled the manager. *)
Theorem start_retires_units home config entries h h'
    (Hhome : ∀ i, userHome i = Some home) (Hconfig : ∀ i, configHome i = Some config)
    (Hentries : ∀ i, readDir i (Filepath.Join [Filepath.Join [config; "mayoiga"]; "nodes"]) = Entries entries)
    (Hrun : runs (controlManagerService "start") h tt h') :
  linux = true
  ∧ (∃ l, commandsOf h' = commandsOf h ++ l ++ [systemctl ["daemon-reload"]; systemctl ["enable"; "--now"; "mayoiga.service"]]
          ∧ retires entries l)
  ∧ h_files h' = delete (Filepath.Join [unitDir home; "mayoiga@.service"]) (h_files h).
Proof.
  unfold controlManagerService in Hrun. destruct linux; [|by apply runs_failure in Hrun]. cbn [negb] in Hrun. split; [done|].
  io_bind ([] & h1 & H1 & Hrun). io_bind (b & h2 & Hcmd & Hrun). apply runs_command in Hcmd as (_ & Hf2 & Hc2). io_guard _. io_inv1.
  change ("start" =? "start")%string with true in H1, Hc2. cbn iota in H1, Hc2.
  io_bind (o & h3 & Ho & H1). apply runs_ask in Ho as [-> ->]. io_bind (d & h4 & Hd & H1). apply runs_lift in Hd as [Hd ->].
  rewrite Hhome in Hd. injection Hd as <-. io_bind ([] & h5 & Hr & H1). io_bind (b' & h6 & Hcmd & H1).
  apply runs_command in Hcmd as (_ & Hf6 & Hc6). io_guard _. io_inv1.
  destruct (runs_retireLegacy config entries (unitDir home) (tickHost h) h5 Hconfig Hentries Hr) as (l & Hc & Hl & Hf).
  split; [|by rewrite Hf2, Hf6, Hf]. exists l. split; [|done]. rewrite Hc2, Hc6, Hc, <- !app_assoc. reflexivity.
Qed.
End Retire.
End ManagerService.

(** ** Mappings inside the process *)

Section Embedding.
Context {unicode : Unicode} {hostEnv : HostEnv}.


End Embedding.

(** ** Connectors *)

Section Connectors.
Context {unicode : Unicode} {hostEnv : HostEnv}.

(** The configuration forwards what arrives at [address] to the service, by
    the upstream address, under the service's identity, over TLS with the
    service's pin. *)
Definition connects (cfg : xrayConfig) (address upstream : string) (service : publishedService) : Prop :=
  (∃ host, splitAddress address = Some (host, xr_Port cfg) ∧ xr_Listen cfg = ParseAddress host)
  ∧ xr_Inbound cfg = Some (DokodemoIn LocalHostIP 1 [Network_TCP])
  ∧ ∃ host port pin, splitAddress upstream = Some (host, port)
      ∧ xr_Outbound cfg = VlessOut (ParseAddress host) port (mkVlessAccount (ps_UUID service) "none")
      ∧ xr_Sender cfg = Some (streamConfigOf (mkTlsConfig "mayoiga" "1.3" true [pin] []))
      ∧ Hex.DecodeString (ps_PinnedSHA256 service) = Some pin ∧ String.length pin = Sha256.Size.

Lemma mappingConfig_route key address upstream service cfg :
  mappingConfig (routeMapping key address upstream service) None = Some cfg → connects cfg address upstream service.
Proof.
  unfold mappingConfig, typedVLESSOutbound, clientStream, connects. cbn -[Hex.DecodeString Sha256.Size].
  destruct (splitAddress address) as [[lh lp]|]; [|done]. cbn -[Hex.DecodeString Sha256.Size].
  destruct (splitAddress upstream) as [[uh up]|]; [|done]. cbn -[Hex.DecodeString Sha256.Size].
  destruct (Hex.DecodeString _) as [pin|]; [|done]. destruct (Nat.eqb_spec (String.length pin) Sha256.Size); [|done].
  cbn. intros [= <-]. split_and!; [by exists lh|done|]. by exists uh, up, pin.
Qed.

Lemma startMapping_pull m h :
  mp_Kind m = "pull" →
  h_files (startMapping m h).2 = h_files h ∧ h_sent (startMapping m h).2 = h_sent h ∧ h_memory (startMapping m h).2 = h_memory h
  ∧ (is_Some (startMapping m h).1 → ∃ cfg i, mappingConfig m None = Some cfg ∧ startXray i cfg = true).
Proof.
  intros Hk. unfold startMapping, embeddedConfig, mbind, IO_bind. destruct (splitAddress _); cbn; [|split_and!; [done..|by intros []]].
  rewrite Hk. cbn. destruct (mappingConfig m None) as [cfg|]; cbn; [|split_and!; [done..|by intros []]].
  destruct (startXray _ cfg) eqn:Hs; cbn; (split_and!; [done..|]); [eauto|by intros []].
Qed.

(** Connectors: no service is reached by two embedded Xrays of the same
    key.  A connection whose key has a connector starts nothing, it only
    connects to the connector's address.  Without one, either the connection
    fails and no connector is kept, or exactly one is added: an Xray was started
    on a loopback address that forwards to the given upstream address with
    the service's identity and certificate pin; it stays also when
    connecting to it fails. *)
Theorem connector_correct service upstream h :
  let key := marshalConnector service upstream in
  let r := (dial service upstream h).1 in
  let h' := (dial service upstream h).2 in
  h_files h' = h_files h ∧ h_sent h' = h_sent h
  ∧ match nm_connectors (h_memory h) !! key with
    | Some address =>
        h_memory h' = h_memory h ∧ h_tick h' = S (h_tick h) ∧ r = (if tcpDial (h_tick h) address then Some tt else None)
    | None =>
        r = None ∧ h_memory h' = h_memory h
        ∨ ∃ address cfg i j k, h_memory h' = setConnectors (insert key address) (h_memory h)
            ∧ loopbackListener i = Some address ∧ connects cfg address upstream service ∧ startXray j cfg = true
            ∧ r = (if tcpDial k address then Some tt else None)
    end.
Proof.
  cbn zeta. unfold dial, mbind, IO_bind. cbn. set (key := marshalConnector service upstream).
  destruct (nm_connectors (h_memory h) !! key) as [address|]; cbn; [by destruct (tcpDial _ _)|].
  unfold freeLoopbackAddress, mbind, IO_bind. cbn. destruct (loopbackListener _) as [address|] eqn:Ha; cbn; [|split_and!; by try left].
  match goal with |- context [startMapping ?m ?h1] => destruct (startMapping_pull m h1 eq_refl) as (Hf & Hs & Hm & Hx);
    destruct (startMapping m h1) as [[[]|] h2]; cbn in * end; [|split_and!; [done..|by left]].
  destruct (Hx ltac:(done)) as (cfg & i & Hcfg & Hstart). apply mappingConfig_route in Hcfg.
  destruct (tcpDial (h_tick h2) address) eqn:Hd; cbn; (split_and!; [done..|]); right;
    eexists address, cfg, _, i, (h_tick h2); rewrite Hd, Hm; eauto 10.
Qed.
End Connectors.

(** A pin written with colons, as certificate tools show it, is valid for the
    coordinator, for the manager and for a probe, which strip the colons; the
    connector's own decoder refuses it, so that no service with such a pin is
    ever reached. *)
Definition colonPin : string := "00:00:00:00:00:00:00:00:00:00:00:00:00:00:00:00:00:00:00:00:00:00:00:00:00:00:00:00:00:00:00:ff".
Theorem colon_pin_refused :
  validSHA256Pin (unicode := demoUnicode) colonPin = true
  ∧ pinnedTLSConfig (unicode := demoUnicode) colonPin ≠ None
  ∧ ∀ m certificate, mp_PinnedSHA256 m = colonPin → mp_Kind m = "pull" → mappingConfig m certificate = None.
Proof.
  split_and!; [by vm_compute|by vm_compute|]. intros m certificate Hpin Hkind.
  assert (clientStream m = None) as Hc by (unfold clientStream; rewrite Hpin; by vm_compute).
  unfold mappingConfig, typedVLESSOutbound. rewrite Hkind, Hc. destruct (splitAddress (mp_Listen m)) as [[lh lp]|]; [|done].
  cbn. by destruct (splitAddress (mp_Upstream m)) as [[h port]|].
Qed.

(** ** Examples *)

Lemma ensure_service_correct_witness :
  result ensureManagerService demoHost = Some tt
  ∧ serviceInstalled "/home/user" "/home/user/.config" "program" demoHost (final ensureManagerService demoHost).
Proof.
  split; [vm_compute; reflexivity|].
  pose proof (ensure_service_correct (hostEnv := demoHostEnv) "/home/user" "/home/user/.config" "program" eq_refl (λ _, eq_refl) (λ _, eq_refl)
    (λ _, eq_refl) ltac:(vm_compute; discriminate) demoHost ltac:(vm_compute; discriminate)) as H.
  cbn zeta in H. replace ((ensureManagerService demoHost).1) with (Some tt) in H by (vm_compute; reflexivity).
  replace (h_files demoHost !! unitFile "/home/user") with (@None string) in H by (vm_compute; reflexivity). exact (proj1 H).
Defined.

Lemma start_retires_units_witness :
  result (controlManagerService "start") demoHost = Some tt
  ∧ ∃ l, commandsOf (final (controlManagerService "start") demoHost)
         = commandsOf demoHost ++ l ++ [systemctl ["daemon-reload"]; systemctl ["enable"; "--now"; "mayoiga.service"]]
         ∧ retiring (unitOf "node-a") ∈ l.
Proof.
  assert (result (controlManagerService "start") demoHost = Some tt) as Hrun by (vm_compute; reflexivity). split; [exact Hrun|].
  destruct (start_retires_units (hostEnv := demoHostEnv) (λ _, true) (λ _, true) (λ _ _, eq_refl) (λ _ _, eq_refl) "/home/user" "/home/user/.config"
    [("node-a", true); ("relay-1", true); ("notes.txt", false)] demoHost (final (controlManagerService "start") demoHost)) as (_ & (l & Hc & Hl) & _).
  - intros i. reflexivity.
  - intros i. reflexivity.
  - intros i. reflexivity.
  - exact (ran (controlManagerService "start") demoHost tt Hrun).
  - exists l. split; [exact Hc|]. apply Hl. exists "node-a". split; [|reflexivity]. split; [left|]. split; vm_compute; reflexivity.
Defined.


