(* ===== verification/MenuTheorems.v ===== *)
(** * Properties of the menus and the actions

    What an action that comes from the menus is, and that configure-node
    answered with blank lines leaves a node as it is. *)
From stdpp Require Import functions.
From S2P Require Import Prelude GoStd GoNet GoPath GoCrypto Types Runtime Validate Profile Options.
From S2P Require Import Host Service NodeClient AdminClient NodeConfig NodeRuntime Menu Inbox Command Demo.
From S2P Require Import NodeDemo.

Local Open Scope Z_scope.

Section Blank.
Context {unicode : Unicode} {hostEnv : HostEnv}.

Definition blank (lines : list string) : Prop := Forall (λ s, Strings.TrimSpace s = "") lines.

(** On blank lines [m] changes nothing but the lines, and returns [a]. *)
Definition blankly {A} (m : Ask A) (a : A) : Prop :=
  ∀ lines h, blank lines → ∃ rest, blank rest ∧ runs (m lines) h (a, rest) h.

Lemma blankly_ret {A} (a : A) : blankly (mret a) a.
Proof. intros lines h Hb. exists lines. by split. Qed.

Lemma blankly_bind {A B} (m : Ask A) (k : A → Ask B) a b : blankly m a → blankly (k a) b → blankly (m ≫= k) b.
Proof.
  intros Hm Hk lines h Hb. destruct (Hm lines h Hb) as (l1 & Hb1 & H1). destruct (Hk l1 h Hb1) as (l2 & Hb2 & H2).
  exists l2. split; [done|]. unfold runs, mbind, Ask_bind, mbind, IO_bind in *. by rewrite H1.
Qed.

Lemma blankly_askTrimmed : blankly askTrimmed "".
Proof.
  intros lines h Hb. exists (tl lines). destruct lines as [|s l]; [by split|]. inversion Hb as [|? ? Hs Hl]; subst.
  split; [done|]. unfold runs, askTrimmed, readLine, mbind, Ask_bind, mbind, IO_bind. cbn -[Strings.TrimSpace]. by rewrite Hs.
Qed.

Lemma blankly_askEdit f flag o : blankly (askEdit f flag o) o.
Proof. eapply blankly_bind; [apply blankly_askTrimmed|]. apply blankly_ret. Qed.

Lemma blankly_askIntEdit f flag o : blankly (askIntEdit f flag o) o.
Proof. eapply blankly_bind; [apply blankly_askTrimmed|]. apply blankly_ret. Qed.

Ltac blankly_step :=
  lazymatch goal with
  | |- blankly (mbind _ _) _ => eapply blankly_bind
  | |- blankly (askEdit _ _ _) _ => apply blankly_askEdit
  | |- blankly (askIntEdit _ _ _) _ => apply blankly_askIntEdit
  | |- blankly askTrimmed _ => apply blankly_askTrimmed
  | |- blankly (mret _) _ => apply blankly_ret
  end.

Lemma blankly_coordinator o : blankly (askCoordinator o) o.
Proof. unfold askCoordinator. repeat blankly_step. Qed.
Lemma blankly_relay o : blankly (askRelay o) o.
Proof. unfold askRelay. repeat blankly_step. Qed.
Lemma blankly_subnode o : blankly (askSubnode o) o.
Proof. unfold askSubnode. repeat blankly_step. Qed.

Lemma blankly_role o : o_role o ≠ "" → blankly (askRole o) o.
Proof.
  intros Hr. unfold askRole. eapply blankly_bind; [apply blankly_askTrimmed|]. cbn zeta.
  change (negb (choice menuRoles "" =? "")%string) with false. cbn iota. rewrite (proj2 (String.eqb_neq _ _) Hr).
  do 3 (eapply blankly_bind; [apply blankly_askEdit|]). destruct (_ =? "coordinator")%string; [apply blankly_coordinator|].
  eapply blankly_bind; [destruct (_ =? "relay")%string; [apply blankly_relay|apply blankly_ret]|].
  eapply blankly_bind; [destruct (_ =? "subnode")%string; [apply blankly_subnode|apply blankly_ret]|].
  eapply blankly_bind; [apply blankly_askEdit|]. destruct (_ =? "")%string; [apply blankly_ret|apply blankly_askEdit].
Qed.

(** ** configure-node without a given flag *)

(** A node whose configuration is complete. *)
Definition settled (p : profile) : Prop :=
  pf_Version p = profileVersion ∧ validNodeRole (pf_Role p) = true
  ∧ Strings.TrimSpace (pf_VirtualNetwork p) ≠ "" ∧ Strings.TrimSpace (pf_Segment p) ≠ "" ∧ nd_ID (pf_Node p) ≠ ""
  ∧ (pf_Role p = "coordinator" → sv_AdminToken (pf_Server p) ≠ "")
  ∧ (pf_Role p = "relay" → relayReady (pf_Relay p))
  ∧ (pf_Role p = "subnode" →
       let s := pf_Subnode p in
       sn_RelayNodeID s ≠ "" ∧ sn_RelayToken s ≠ "" ∧ validateHostPort (sn_RelayEndpoint s) = true
       ∧ validSHA256Pin (sn_RelayPinnedSHA256 s) = true ∧ normalizePin (sn_RelayPinnedSHA256 s) = sn_RelayPinnedSHA256 s
       ∧ Strings.TrimSpace (sn_RelayToken s) = sn_RelayToken s)
  ∧ (pf_Role p = "relay" ∨ pf_Role p = "subnode" → cl_URL (pf_Coordinator p) ≠ "").

(** The options that give no flag. *)
Definition unflagged (o : options) : Prop := o_set o = ∅ ∧ o_rotateRelayToken o = false.

Lemma unflagged_isSet o flag : unflagged o → isSet o flag = false.
Proof. intros [Hs _]. unfold isSet. rewrite Hs. by apply bool_decide_eq_false_2. Qed.

(** A host on which the profile can be read and written. *)
Definition healthy (path : string) : Prop :=
  ∀ i, readFails i path = false ∧ mkdirAll i (Filepath.Dir path) = true ∧ renameFile i = true
       ∧ ∀ text, writeFile i (path +:+ ".new") text = Written.

Lemma refuse_runs {A} (b : bool) (m : IO A) h a h' : b = false → runs m h a h' → runs (refuse b ;; m) h a h'.
Proof. by intros ->. Qed.

Lemma configure_common o path p h :
  healthy path → unflagged o → settled p → profileAt (h_files h) path p → o_instance o = pf_Instance p →
  runs (installCommon o path true) h p (tickHost h).
Proof.
  intros Hok Hu (_ & Hrole & Hnet & Hseg & Hid & _) Hp Hi. unfold installCommon. apply runs_bind. exists p, (tickHost h).
  split; [by apply loadProfile_runs; [apply Hok|]|]. cbn zeta. rewrite !(unflagged_isSet o) by done. cbn [negb orb].
  apply refuse_runs; [apply String.eqb_neq; by intros He; rewrite He in Hrole|]. apply refuse_runs; [by rewrite Hrole|].
  apply refuse_runs; [by rewrite (proj2 (String.eqb_neq _ _) Hnet), (proj2 (String.eqb_neq _ _) Hseg)|].
  rewrite (proj2 (String.eqb_neq _ _) Hid). unfold runs, mbind, IO_bind. cbn. rewrite Hi. by destruct p as [? ? ? ? ? ? []].
Qed.

Lemma configure_coordinator o path p h :
  unflagged o → settled p → runs (installCoordinator o path true p) h p h.
Proof.
  intros Hu (_ & _ & _ & _ & _ & Hs & _). unfold installCoordinator. cbn zeta. rewrite !(unflagged_isSet o) by done.
  destruct (String.eqb_spec (pf_Role p) "coordinator") as [Hr|]; [|done]. cbn.
  by rewrite (proj2 (String.eqb_neq _ _) (Hs Hr)).
Qed.

Lemma validHostPort_nonempty s : validateHostPort s = true → s ≠ "".
Proof. by intros H ->. Qed.

Lemma configure_relay o path p h :
  unflagged o → settled p →
  ∃ h', runs (installRelay o path true p) h (p, "") h' ∧ h_files h' = h_files h ∧ h_sent h' = h_sent h.
Proof.
  intros Hu (_ & _ & _ & _ & _ & _ & Hs & _). unfold installRelay. cbn zeta. rewrite !(unflagged_isSet o) by done. destruct Hu as [_ ->].
  destruct (String.eqb_spec (pf_Role p) "relay") as [Hr|]; cbn [negb andb]; [|by exists h].
  destruct (Hs Hr) as (Hl & He & Hp & _ & Hc & _ & Hh).
  eexists. split; [|split].
  - apply refuse_runs; [apply orb_false_iff; split; apply String.eqb_neq; by apply validHostPort_nonempty|].
    apply refuse_runs; [by rewrite Hl|]. apply refuse_runs; [by rewrite He|]. apply refuse_runs; [by apply Z.ltb_ge|].
    rewrite (proj2 (String.eqb_neq _ _) Hc). replace (rl_AdmissionTokenHash (pf_Relay p) =? "")%string with false.
    2:{ symmetry. apply String.eqb_neq. intros Ha. by rewrite Ha in Hh. }
    rewrite Hh. unfold runs, mbind, IO_bind. cbn. by destruct p as [? ? ? ? ? ? ? ? ? [] ? ?].
  - done.
  - done.
Qed.

Lemma configure_subnode o p : unflagged o → settled p → installSubnode o true p = Some p.
Proof.
  intros Hu (_ & _ & _ & _ & _ & _ & _ & Hs & _). unfold installSubnode. cbn zeta. rewrite !(unflagged_isSet o) by done.
  destruct (String.eqb_spec (pf_Role p) "subnode") as [Hr|]; cbn [negb andb]; [|done].
  destruct (Hs Hr) as (H1 & H2 & H3 & H4 & H5 & H6). rewrite H3, H4, H5, H6.
  rewrite (proj2 (String.eqb_neq _ _) H1), (proj2 (String.eqb_neq _ _) H2).
  replace (sn_RelayEndpoint (pf_Subnode p) =? "")%string with false.
  2:{ symmetry. apply String.eqb_neq. by apply validHostPort_nonempty. }
  replace (sn_RelayPinnedSHA256 (pf_Subnode p) =? "")%string with false.
  2:{ symmetry. apply String.eqb_neq. intros He. by rewrite He in H4. }
  cbn. f_equal. by destruct p as [? ? ? ? ? ? ? ? ? ? [] ?].
Qed.

Lemma configure_upstream o p : unflagged o → settled p → installUpstream o true p = Some (p, false).
Proof.
  intros Hu (_ & _ & _ & _ & _ & _ & _ & _ & Hs). unfold installUpstream. cbn zeta. rewrite !(unflagged_isSet o) by done. cbn [negb orb andb].
  cbn. destruct (String.eqb_spec (cl_URL (pf_Coordinator p)) "") as [Hurl|]; [|by rewrite andb_false_r].
  destruct (String.eqb_spec (pf_Role p) "relay"); [by destruct Hs; [left|]|].
  destruct (String.eqb_spec (pf_Role p) "subnode"); [by destruct Hs; [right|]|]. done.
Qed.

Lemma saveProfile_runs path p h :
  healthy path →
  ∃ h', runs (saveProfile path p) h tt h' ∧ h_out h' = h_out h ∧ h_sent h' = h_sent h
        ∧ h_files h' = <[path := marshalProfile p +:+ lineEnd]> (delete (path +:+ ".new") (h_files h)).
Proof.
  intros Hok. destruct (Hok (h_tick h)) as (_ & Hm & _ & _). destruct (Hok (S (h_tick h))) as (_ & _ & _ & Hw).
  destruct (Hok (S (S (h_tick h)))) as (_ & _ & Hr & _).
  assert (∃ h', runs (saveProfile path p) h tt h') as [h' Hrun].
  { unfold saveProfile, replaceFile, putFile, rename, runs, mbind, IO_bind. cbn. rewrite Hm. cbn. rewrite Hw. cbn.
    rewrite Hr, lookup_insert_eq. cbn. by eexists. }
  exists h'. split; [done|]. apply runs_saveProfile in Hrun as (? & ? & ?). done.
Qed.

(** Without a given flag, configure-node saves what it finds. *)
Lemma configure_keeps o path p h :
  healthy path → unflagged o → settled p → profileAt (h_files h) path p → o_instance o = pf_Instance p →
  ∃ h', runs (installProfile o path true) h (p, "", false) h' ∧ h_sent h' = h_sent h
        ∧ h_files h' = <[path := marshalProfile p +:+ lineEnd]> (delete (path +:+ ".new") (h_files h)).
Proof.
  intros Hok Hu Hp Hat Hi. destruct (configure_relay o path p (tickHost h) Hu Hp) as (h1 & H1 & Hf1 & Hs1).
  destruct (saveProfile_runs path p h1 Hok) as (h2 & H2 & _ & Hs2 & Hf2).
  exists h2. split; [|rewrite Hs2, Hs1, Hf2, Hf1; done]. unfold installProfile.
  apply runs_bind. exists p, (tickHost h). split; [by apply configure_common|].
  apply runs_bind. exists p, (tickHost h). split; [by apply configure_coordinator|].
  apply runs_bind. exists (p, ""), h1. split; [done|]. rewrite (configure_subnode o p) by done.
  apply runs_bind. exists p, h1. split; [done|]. rewrite (configure_upstream o p) by done. apply runs_bind. exists (p, false), h1. split; [done|].
  apply runs_bind. exists tt, h2. split; [done|]. done.
Qed.

Lemma asks_bind {A B} (m : Ask A) (k : A → Ask B) lines h a l1 h1 r h2 :
  runs (m lines) h (a, l1) h1 → runs (k a l1) h1 r h2 → runs ((m ≫= k) lines) h r h2.
Proof. intros H1 H2. unfold mbind, Ask_bind. apply runs_bind. by exists (a, l1), h1. Qed.

(** C33. The menus and the installer agree about configure-node: answered with
    blank lines, however many, the menu asks for the instance, reads its
    profile and returns options that name the action and the instance and
    give no flag, touching nothing; and configure-node with these options
    saves the very profile that was there, generates no token and asks for
    no enrollment.  The profile is complete and the host lets it be read and
    written. *)
Theorem blank_menu_keeps config line p lines h
    (Hconfig : ∀ i, configHome i = Some config) (Hinstance : validateInstance (Strings.TrimSpace line) = true)
    (Hblank : blank lines) (Hok : healthy (profileIn (Filepath.Join [config; "mayoiga"]) (Strings.TrimSpace line)))
    (Hat : profileAt (h_files h) (profileIn (Filepath.Join [config; "mayoiga"]) (Strings.TrimSpace line)) p)
    (Hp : settled p) (Hname : pf_Instance p = Strings.TrimSpace line) :
  let path := profileIn (Filepath.Join [config; "mayoiga"]) (Strings.TrimSpace line) in
  ∃ o rest h1 h2, runs (interactive noOptions ("3" :: line :: lines)) h (o, rest) h1
    ∧ o_action o = "configure-node" ∧ o_instance o = Strings.TrimSpace line ∧ o_set o = ∅
    ∧ h_files h1 = h_files h ∧ h_sent h1 = h_sent h
    ∧ runs (installProfile o path true) h1 (p, "", false) h2 ∧ h_sent h2 = h_sent h
    ∧ h_files h2 = <[path := marshalProfile p +:+ lineEnd]> (delete (path +:+ ".new") (h_files h)).
Proof.
  intros path. set (asked := setText FInstance (Strings.TrimSpace line) (setText FAction "configure-node" noOptions)).
  set (o := prefill p asked).
  assert (unflagged o ∧ o_action o = "configure-node" ∧ o_instance o = Strings.TrimSpace line ∧ o_role o = pf_Role p) as (Hu & Ha & Hi & Hr)
    by done.
  destruct (blankly_role o) with (lines := lines) (h := tickHost (tickHost h)) as (rest & _ & Hrun).
  - rewrite Hr. destruct Hp as (_ & Hrole & _). intros He. by rewrite He in Hrole.
  - done.
  - destruct (configure_keeps o path p (tickHost (tickHost h)) Hok Hu Hp Hat) as (h2 & H2 & Hs & Hf); [by rewrite Hi|].
    exists o, rest, (tickHost (tickHost h)), h2. split_and!; try done.
    unfold interactive. eapply asks_bind; [reflexivity|]. cbn zeta. change (choice menuActions "3") with "configure-node".
    change (o_action _) with "configure-node" at 1 2. change (withoutInstance "configure-node") with false. cbn iota.
    eapply asks_bind; [reflexivity|]. change (o_instance _) with (Strings.TrimSpace line) at 1. rewrite Hinstance. cbn [negb].
    change (acting "add-node" _ || acting "configure-node" _) with true. change (acting "configure-node" _) with true.
    cbn iota. unfold askNode. eapply asks_bind; [|eapply asks_bind; [|exact Hrun]].
    + unfold runs, perform, attempt, configDir, mbind, IO_bind. cbn -[Filepath.Join]. by rewrite Hconfig.
    + unfold perform. apply runs_bind. exists p, (tickHost (tickHost h)). split; [|done]. apply loadProfile_runs; [apply Hok|exact Hat].
Qed.
End Blank.

(** ** What the menus ask for *)

Section Chosen.
Context {unicode : Unicode} {hostEnv : HostEnv}.

Definition names (o : options) : string * string := (o_action o, o_instance o).

(** Whatever is typed, [m] returns options with the action and the instance
    of [o]. *)
Definition keepsNames (o : options) (m : Ask options) : Prop :=
  ∀ lines h o' rest h', runs (m lines) h (o', rest) h' → names o' = names o.

Lemma keepsNames_ret o o' : names o' = names o → keepsNames o (mret o').
Proof. intros H lines h o2 rest h' [[= -> _] _]%runs_ret. done. Qed.
Lemma keepsNames_reject o : keepsNames o reject.
Proof. intros lines h o2 rest h' H. by apply runs_failure in H. Qed.

Lemma keepsNames_read {A} o (m : Ask A) (k : A → Ask options) : (∀ a, keepsNames o (k a)) → keepsNames o (m ≫= k).
Proof. intros Hk lines h o' rest h' ([a l] & h1 & _ & H)%runs_bind. by apply (Hk a) in H. Qed.

Lemma keepsNames_bind o (m : Ask options) (k : options → Ask options) :
  keepsNames o m → (∀ o', names o' = names o → keepsNames o' (k o')) → keepsNames o (m ≫= k).
Proof.
  intros Hm Hk lines h o' rest h' ([o1 l] & h1 & H1 & H)%runs_bind. apply Hm in H1. by rewrite (Hk o1 H1 _ _ _ _ _ H).
Qed.

Lemma names_setText f v o : f ≠ FAction → f ≠ FInstance → names (setText f v o) = names o.
Proof. intros Ha Hi. unfold names, o_action, o_instance, setText. cbn. by rewrite !fn_lookup_insert_ne. Qed.

Lemma keepsNames_askEdit f flag o : f ≠ FAction → f ≠ FInstance → keepsNames o (askEdit f flag o).
Proof.
  intros Ha Hi. apply keepsNames_read. intros v. apply keepsNames_ret. destruct (_ =? _)%string; [done|].
  exact (names_setText f _ o Ha Hi).
Qed.

Lemma keepsNames_askIntEdit f flag o : keepsNames o (askIntEdit f flag o).
Proof.
  apply keepsNames_read. intros v. destruct (_ =? _)%string; [by apply keepsNames_ret|].
  destruct (Strconv.Atoi v) as [n []]; [by apply keepsNames_ret|apply keepsNames_reject].
Qed.

Lemma keepsNames_askText f o : f ≠ FAction → f ≠ FInstance → keepsNames o (askText f o).
Proof. intros Ha Hi. apply keepsNames_read. intros v. apply keepsNames_ret. exact (names_setText f v o Ha Hi). Qed.

Lemma keepsNames_askTrimmedText f o : f ≠ FAction → f ≠ FInstance → keepsNames o (askTrimmedText f o).
Proof. intros Ha Hi. apply keepsNames_read. intros v. apply keepsNames_ret. exact (names_setText f v o Ha Hi). Qed.

Lemma keepsNames_askWhen b m o : keepsNames o (m o) → keepsNames o (askWhen b m o).
Proof. intros Hm. destruct b; [done|by apply keepsNames_ret]. Qed.

Lemma keepsNames_from o o1 m : names o1 = names o → keepsNames o1 m → keepsNames o m.
Proof. unfold keepsNames. by intros ->. Qed.

Ltac keeps_step :=
  lazymatch goal with
  | |- ∀ _, names _ = _ → _ => intros ? _
  | |- ∀ _, _ => intros ?
  | |- keepsNames _ (mret _) => apply keepsNames_ret; reflexivity
  | |- keepsNames _ reject => apply keepsNames_reject
  | |- keepsNames _ (askEdit _ _ _) => by apply keepsNames_askEdit
  | |- keepsNames _ (askIntEdit _ _ _) => apply keepsNames_askIntEdit
  | |- keepsNames _ (askText _ _) => by apply keepsNames_askText
  | |- keepsNames _ (askTrimmedText _ _) => by apply keepsNames_askTrimmedText
  | |- keepsNames _ (askWhen _ _ _) => apply keepsNames_askWhen
  | |- keepsNames _ (if ?b then _ else _) => destruct b
  | |- keepsNames _ (@mbind _ _ options _ _ _) => apply keepsNames_bind
  | |- keepsNames _ (mbind _ _) => apply keepsNames_read
  end.
Ltac keeps := repeat keeps_step.

Lemma keepsNames_askRole o : keepsNames o (askRole o).
Proof.
  unfold askRole. apply keepsNames_read. intros chosen. cbn zeta.
  set (o1 := if negb _ then _ else o). assert (names o1 = names o) as Ho by (unfold o1; by destruct (negb _)).
  clearbody o1. apply (keepsNames_from o o1 _ Ho). unfold askCoordinator, askRelay, askSubnode. keeps.
Qed.

Lemma keepsNames_asked o : keepsNames o (if acting "add-node" o || acting "configure-node" o
                                        then askNode (acting "configure-node" o) o else askOther o).
Proof.
  destruct (_ || _).
  - unfold askNode. destruct (acting _ _); [|apply keepsNames_askRole]. do 2 (apply keepsNames_read; intros ?).
    eapply keepsNames_from, keepsNames_askRole. done.
  - unfold askOther, askDecision, askMapping. keeps.
Qed.

Lemma choice_in table key : choice table key = "" ∨ choice table key ∈ table.*2.
Proof.
  unfold choice. destruct (firstMatch _ _) as [[k v]|] eqn:H; [|by left]. right. apply firstMatch_Some in H as [H _].
  by apply (list_elem_of_fmap_2 snd _ (k, v)).
Qed.

(** The actions among which one is executed. *)
Definition knownAs (action : string) : list string := if withoutInstance action then "quit" :: managerActions else nodeActions.

(** Every action the menus can return, whatever is typed, is one the
    program executes or the end of the program, and for an action on a node
    the instance is a valid name. *)
Theorem menus_offer_actions o lines h o' rest h' (Hrun : runs (interactive o lines) h (o', rest) h') :
  (withoutInstance (o_action o') = true → o_action o' = "quit" ∨ o_action o' ∈ managerActions)
  ∧ (withoutInstance (o_action o') = false → o_action o' ∈ nodeActions ∧ validateInstance (o_instance o') = true).
Proof.
  unfold interactive in Hrun. apply runs_bind in Hrun as ([line l1] & h1 & _ & Hrun). cbn zeta in Hrun. cbn [fst snd] in Hrun.
  change (o_action (setText _ _ _)) with (choice menuActions line) in Hrun. pose proof (choice_in menuActions line) as Hin.
  destruct (String.eqb_spec (choice menuActions line) "") as [|Hne]; [by apply runs_failure in Hrun|]. destruct Hin as [|Hin]; [done|].
  assert (choice menuActions line ∈ knownAs (choice menuActions line)) as Hknown.
  { apply list_elem_of_fmap in Hin as (kv & -> & Hkv%list_elem_of_In).
    assert (forallb (λ kv, bool_decide (kv.2 ∈ knownAs kv.2)) menuActions = true) as Hall by reflexivity.
    rewrite forallb_forall in Hall. exact (bool_decide_eq_true_1 _ (Hall kv Hkv)). }
  unfold knownAs in Hknown. destruct (withoutInstance (choice menuActions line)) eqn:Hw.
  - apply runs_ret in Hrun as [[= -> ->] ->]. change (o_action (setText _ _ _)) with (choice menuActions line). rewrite Hw.
    split; [|done]. intros _. by apply elem_of_cons in Hknown.
  - apply runs_bind in Hrun as ([o1 l2] & h2 & H1 & Hrun). cbn [fst snd] in Hrun.
    apply runs_bind in H1 as ([v l3] & h3 & _ & [[= -> ->] ->]%runs_ret).
    change (o_instance (setText FInstance v _)) with v in Hrun. destruct (validateInstance v) eqn:Hv; [|by apply runs_failure in Hrun].
    cbn [negb] in Hrun. apply keepsNames_asked in Hrun. injection Hrun as Ha Hi.
    change (o_action o' = choice menuActions line) in Ha. change (o_instance o' = v) in Hi. by rewrite Ha, Hi, Hw.
Qed.
End Chosen.

(** ** Examples *)

Definition blankLines : list string := ["3"; " node-a "; ""; " "; ""].

Lemma blank_menu_keeps_witness :
  ∃ o rest h1 h2, runs (interactive noOptions blankLines) demoHost (o, rest) h1
    ∧ runs (installProfile o (nodePath "node-a") true) h1 (clientProfile, "", false) h2
    ∧ h_files h2 = <[nodePath "node-a" := "node-a: ssh" +:+ lineEnd]> (delete (nodePath "node-a" +:+ ".new") demoFiles).
Proof.
  destruct (blank_menu_keeps "/home/user/.config" " node-a " clientProfile [""; " "; ""] demoHost)
    as (o & rest & h1 & h2 & H1 & _ & _ & _ & _ & _ & H2 & _ & Hf).
  - reflexivity.
  - vm_compute. reflexivity.
  - repeat constructor; vm_compute; reflexivity.
  - intros i. repeat split.
  - vm_compute. split; reflexivity.
  - vm_compute. repeat split; try discriminate; intros; try discriminate; try (destruct H; discriminate).
  - vm_compute. reflexivity.
  - exists o, rest, h1, h2. split; [exact H1|]. split; [exact H2|exact Hf].
Defined.

(** The menu's thirteenth action, on a node. *)
Definition chooseAudit : Ask options := interactive noOptions.
Definition auditLines : list string := ["13"; "node-a"].

Lemma menus_offer_actions_witness :
  ∃ o rest, result (chooseAudit auditLines) demoHost = Some (o, rest) ∧ o_action o = "audit"
    ∧ o_action o ∈ nodeActions ∧ validateInstance (o_instance o) = true.
Proof.
  destruct (result (chooseAudit auditLines) demoHost) as [[o rest]|] eqn:Hr; [|vm_compute in Hr; discriminate Hr].
  exists o, rest. split; [reflexivity|]. assert (o_action o = "audit") as Ha by (vm_compute in Hr; injection Hr as <- _; vm_compute; reflexivity).
  split; [exact Ha|]. apply ran in Hr. destruct (menus_offer_actions _ _ _ _ _ _ Hr) as [_ H]. apply H. rewrite Ha. reflexivity.
Defined.
