(* ===== verification/Isolation.v ===== *)
(** * What an action on a node may change

    The files every action and worker of a node writes lie in the directory of
    the node, but for those of the manager's service. *)
From S2P Require Import Prelude GoStd GoNet GoPath GoCrypto Types Runtime Validate Paths Profile.
From S2P Require Import Xray Options Host Service Embedded NodeClient AdminClient NodeConfig NodeRuntime.
From S2P Require Import Menu RelayProtocol Inbox Registry Command Effects Demo NodeDemo ManagerTheorems.

Local Open Scope Z_scope.

(** ** Computations that change only some files *)

(** [touches S m], for the rules of [Effects]. *)
Definition changes (S : string → Prop) : relation host :=
  λ h h', ∀ path, ¬ S path → h_files h' !! path = h_files h !! path.

#[export] Instance changes_preorder S : PreOrder (changes S).
Proof. split; [by intros h path|]. intros x y z Hxy Hyz path Hp. by rewrite Hyz, Hxy. Qed.

Lemma along_files {A} S (m : IO A) : constant h_files m → along (changes S) m.
Proof. intros H h path _. by rewrite (H h : h_files _ = h_files _). Qed.

Create HintDb changing.

Ltac changing_leaf :=
  first [ solve [auto with changing]
        | solve [apply along_files; auto with constancy]
        | solve [intros ? ? ?; exact eq_refl] ].
Ltac changing := repeat along_step ltac:(changing_leaf).

Section Reading.
Context {unicode : Unicode} {hostEnv : HostEnv}.

Lemma files_readFile path : constant h_files (readFile path).
Proof. unfold readFile. constancy. Qed.
#[local] Hint Resolve files_readFile : constancy.
Lemma files_loadProfile path : constant h_files (loadProfile path).
Proof. unfold loadProfile. constancy. Qed.
Lemma files_loadDiscovered path : constant h_files (loadDiscovered path).
Proof. unfold loadDiscovered. constancy. Qed.
Lemma files_loadInbox path : constant h_files (loadInbox path).
Proof. unfold loadInbox. constancy. Qed.
Lemma files_loadControlStatus path : constant h_files (loadControlStatus path).
Proof. unfold loadControlStatus. constancy. Qed.
Lemma files_hostToken : constant h_files hostToken.
Proof. unfold hostToken, hostRandom. constancy. Qed.
#[local] Hint Resolve files_hostToken files_loadProfile : constancy.
Lemma files_localDirectCandidates listen : constant h_files (localDirectCandidates listen).
Proof. unfold localDirectCandidates. constancy. Qed.
#[local] Hint Resolve files_localDirectCandidates : constancy.
Lemma files_localServices p l : constant h_files (localServices p l).
Proof. induction l as [|m l IH]; simpl; constancy; apply IH. Qed.
#[local] Hint Resolve files_localServices : constancy.
Lemma files_localDiscoveredNode p : constant h_files (localDiscoveredNode p).
Proof. unfold localDiscoveredNode. constancy. Qed.
#[local] Hint Resolve files_localDiscoveredNode : constancy.
Lemma files_signedRequest p method endpoint body : constant h_files (signedCoordinatorRequest p method endpoint body).
Proof. unfold signedCoordinatorRequest, signRequest, send. constancy. Qed.
#[local] Hint Resolve files_signedRequest : constancy.
Lemma files_adminExchange path method endpoint header body : constant h_files (adminExchange path method endpoint header body).
Proof. unfold adminExchange, coordinatorAdminClient, send. constancy. Qed.
Lemma files_configuredListenConflict path address : constant h_files (configuredListenConflict path address).
Proof.
  unfold configuredListenConflict, configDir. constancy.
  match goal with |- along _ (listenConflictIn _ _ _ ?l) => induction l end; simpl; constancy; auto.
Qed.
Lemma files_checkListenAvailable address : constant h_files (checkListenAvailable address).
Proof. unfold checkListenAvailable. constancy. Qed.
Lemma files_createRequest p target service relay key : constant h_files (createConnectionRequest p target service relay key).
Proof. unfold createConnectionRequest. constancy. Qed.
Lemma files_decideRequest p id decision reason : constant h_files (decideConnectionRequest p id decision reason).
Proof. unfold decideConnectionRequest. constancy. Qed.
Lemma files_getStatus p id state wait : constant h_files (getConnectionStatus p id state wait).
Proof. unfold getConnectionStatus. constancy. Qed.
Lemma files_sendHeartbeat p : constant h_files (sendHeartbeat p).
Proof. unfold sendHeartbeat. constancy. Qed.
Lemma files_startMapping m : constant h_files (startMapping m).
Proof. unfold startMapping, embeddedConfig, serverStream, fileText. constancy. Qed.
End Reading.
#[export] Hint Resolve files_readFile files_loadProfile files_loadDiscovered files_loadInbox files_loadControlStatus files_hostToken
  files_localDiscoveredNode files_signedRequest files_adminExchange files_configuredListenConflict files_checkListenAvailable
  files_createRequest files_decideRequest files_getStatus files_startMapping files_sendHeartbeat : constancy.

(** ** The directory of a node *)

Lemma prefix_spec p q : String.prefix p q = true ↔ ∃ s, q = p +:+ s.
Proof.
  revert q. induction p as [|a p IH]; intros q; cbn; [split; [by exists q|by destruct q]|].
  destruct q as [|b q]; [split; [done|by intros (s & ?)]|].
  cbn. destruct (Ascii.ascii_dec a b) as [->|Hne]; [|split; [done|intros (s & H); by injection H]].
  rewrite IH. split; intros (s & H); exists s; [by rewrite H|by injection H as ->].
Qed.

Lemma absolutePath_app l e : l ≠ [] → absolutePath (l ++ [Strings.bytes e]) = absolutePath l +:+ "/" +:+ e.
Proof.
  intros Hl. apply bytes_inj. unfold absolutePath. rewrite !bytes_app, !bytes_ofBytes, joinSlash_app by done. done.
Qed.

(** A file right below a directory, whatever its name ends with. *)
Lemma inside_child l e s : l ≠ [] → inside (absolutePath l) (absolutePath (l ++ [Strings.bytes e]) +:+ s) = true.
Proof.
  intros Hl. apply prefix_spec. exists (e +:+ s). by rewrite absolutePath_app, !append_assoc.
Qed.

(** Two names before a slash are equal when what they start is. *)
Lemma before_slash a b x y :
  Filepath.slash ∉ a → Filepath.slash ∉ b → a ++ Filepath.slash :: x = b ++ Filepath.slash :: y → a = b.
Proof.
  revert b. induction a as [|c a IH]; intros [|d b] Ha Hb H; cbn in H; [done| | |].
  - injection H as <- _. by apply not_elem_of_cons in Hb as [? _].
  - injection H as -> _. by apply not_elem_of_cons in Ha as [? _].
  - injection H as <- H. apply not_elem_of_cons in Ha as [_ Ha]. apply not_elem_of_cons in Hb as [_ Hb]. f_equal. by apply (IH b).
Qed.

Lemma inside_siblings l i j q :
  l ≠ [] → plain (Strings.bytes i) → plain (Strings.bytes j) →
  inside (absolutePath (l ++ [Strings.bytes i])) q = true → inside (absolutePath (l ++ [Strings.bytes j])) q = true → i = j.
Proof.
  intros Hl (_ & _ & _ & Hi) (_ & _ & _ & Hj) (x & ->)%prefix_spec (y & H)%prefix_spec.
  rewrite !absolutePath_app, !append_assoc in H by done. apply append_inj_r in H. injection H as H.
  apply bytes_inj. apply (f_equal Strings.bytes) in H. rewrite !bytes_app in H. cbn in H. by eapply before_slash.
Qed.

Lemma validateInstance_plain i : validateInstance i = true → plain (Strings.bytes i).
Proof.
  unfold validateInstance. destruct (_ || _) eqn:He; [done|]. intros H. apply orb_false_iff in He as [He _]. apply String.eqb_neq in He.
  rewrite forallb_forall in H.
  assert (∀ k a, Strings.bytes i !! k = Some a → instanceByte k a = true) as Hb.
  { intros k a Hk. apply (H (k, a)). apply list_elem_of_In, list_elem_of_lookup. exists k. by rewrite list_lookup_imap, Hk. }
  assert (∀ a, a ∈ Strings.bytes i → a ≠ "."%char ∧ a ≠ Filepath.slash) as Ha.
  { intros a (k & Hk)%list_elem_of_lookup. apply Hb in Hk. split; intros ->; destruct k; vm_compute in Hk; discriminate. }
  split_and!.
  - intros Hn. apply He, bytes_inj. by rewrite Hn.
  - intros Hn. rewrite Hn in Ha. by destruct (Ha "."%char ltac:(by left)).
  - intros Hn. rewrite Hn in Ha. by destruct (Ha "."%char ltac:(by left)).
  - intros Hs. by destruct (Ha _ Hs).
Qed.

(** ** What the operations of a node change *)

(** The turns of the goroutines of a running node that use its files. *)
Inductive workerTurn {unicode : Unicode} {hostEnv : HostEnv} (path : string) : ∀ A, IO A → Prop :=
  | wt_heartbeat p : workerTurn path _ (heartbeatTurn path p)
  | wt_discovery p current revision : workerTurn path _ (discoveryTurn path p current revision)
  | wt_inbox p backoff : workerTurn path _ (inboxTurn path p backoff)
  | wt_offer p event : workerTurn path _ (runOffer path p event)
  | wt_control : workerTurn path _ (controlPlaneTurn path).

Section Node.
Context {unicode : Unicode} {hostEnv : HostEnv}.

(** [S] holds the files in the directory of the profile [path]. *)
Context (l : list (list ascii)) (Hl : l ≠ []) (Hplain : Forall plain l).
Context (S : string → Prop) (Hinside : ∀ q, inside (absolutePath l) q = true → S q).

Definition profileOf : string := absolutePath (l ++ [Strings.bytes "profile.json"]).

Lemma Dir_profile : Filepath.Dir profileOf = absolutePath l.
Proof. apply Dir_absolute; [done..|]. by apply plain_check. Qed.

Lemma own_profile s : S (profileOf +:+ s).
Proof. apply Hinside. by apply inside_child. Qed.

Lemma own_file f s : plain (Strings.bytes f) → S (Filepath.Join [Filepath.Dir profileOf; f] +:+ s).
Proof.
  intros Hf. apply Hinside. rewrite Dir_profile, Join_absolute by (done || by constructor). by apply inside_child.
Qed.

Lemma append_empty (s : string) : s +:+ "" = s.
Proof. apply bytes_inj. by rewrite bytes_app, app_nil_r. Qed.

Lemma own_file' f : plain (Strings.bytes f) → S (Filepath.Join [Filepath.Dir profileOf; f]).
Proof. intros Hf. rewrite <- append_empty. by apply own_file. Qed.

Lemma changes_putFile path text : S path → along (changes S) (putFile path text).
Proof. exact (touches_putFile S path text). Qed.

Lemma changes_replaceFile path text : S path → S (path +:+ ".new") → along (changes S) (replaceFile path text).
Proof. exact (touches_replaceFile S path text). Qed.

Lemma changes_saveProfile p : along (changes S) (saveProfile profileOf p).
Proof. apply (touches_saveProfile S); [rewrite <- append_empty|]; apply own_profile. Qed.

Lemma changes_makeCertificate c k : S c → S k → along (changes S) (makeCertificate c k).
Proof. intros Hc Hk. unfold makeCertificate. pose proof changes_putFile. changing. Qed.

Lemma plain_certificate f : f ∈ ["coordinator.crt"; "coordinator.key"; "relay.crt"; "relay.key"] → plain (Strings.bytes f).
Proof. intros Hf. repeat (apply elem_of_cons in Hf as [->|Hf]; [by apply plain_check|]). by apply not_elem_of_nil in Hf. Qed.

#[local] Hint Resolve changes_putFile changes_saveProfile changes_makeCertificate own_file' : changing.

Lemma changes_requestEnrollment p : along (changes S) (requestEnrollment profileOf p).
Proof. unfold requestEnrollment, send. changing. Qed.

Lemma changes_pollEnrollment p : along (changes S) (pollEnrollment profileOf p).
Proof. unfold pollEnrollment, pollExchange, send. changing. Qed.

Lemma changes_saveDiscovered nodes : along (changes S) (saveDiscovered profileOf nodes).
Proof.
  unfold saveDiscovered, peersFile. apply changes_replaceFile; [apply own_file'|apply own_file]; by apply plain_check.
Qed.
#[local] Hint Resolve changes_requestEnrollment changes_pollEnrollment changes_saveDiscovered : changing.

Lemma changes_fetchDiscovery p after expected : along (changes S) (fetchDiscovery profileOf p after expected).
Proof. unfold fetchDiscovery. changing. Qed.
#[local] Hint Resolve changes_fetchDiscovery : changing.

Lemma changes_syncDiscovery p : along (changes S) (syncDiscovery profileOf p).
Proof. unfold syncDiscovery. changing. Qed.

Lemma changes_removeInboxRequest id : along (changes S) (removeInboxRequest profileOf id).
Proof.
  unfold removeInboxRequest, inboxFile. changing.
  all: apply changes_replaceFile; [apply own_file'|apply own_file]; by apply plain_check.
Qed.
#[local] Hint Resolve changes_syncDiscovery changes_removeInboxRequest : changing.

(** *** Configuration *)

Lemma own_certificate f : f ∈ ["coordinator.crt"; "coordinator.key"; "relay.crt"; "relay.key"] → S (Filepath.Join [Filepath.Dir profileOf; f]).
Proof. intros Hf. by apply own_file', plain_certificate. Qed.

Ltac certificates := apply changes_makeCertificate; apply own_certificate; apply (bool_decide_eq_true_1 _); reflexivity.

Lemma changes_installCommon o configure : along (changes S) (installCommon o profileOf configure).
Proof. unfold installCommon, randomUUID, hostRandom. changing. Qed.

Lemma changes_requireFree address : along (changes S) (requireFree profileOf address).
Proof. unfold requireFree. changing. Qed.
#[local] Hint Resolve changes_requireFree changes_installCommon : changing.

Lemma changes_installCoordinator o configure p : along (changes S) (installCoordinator o profileOf configure p).
Proof. unfold installCoordinator. changing. all: certificates. Qed.

Lemma changes_installRelay o configure p : along (changes S) (installRelay o profileOf configure p).
Proof. unfold installRelay. changing. all: certificates. Qed.
#[local] Hint Resolve changes_installCoordinator changes_installRelay : changing.

Lemma changes_installProfile o configure : along (changes S) (installProfile o profileOf configure).
Proof. unfold installProfile. changing. Qed.
#[local] Hint Resolve changes_installProfile : changing.

(** *** The manager's service *)

(** [S] holds the files of the service, too. *)
Context (Hunit : ∀ i home, userHome i = Some home → S (unitFile home) ∧ S (Filepath.Join [unitDir home; "mayoiga@.service"])).
Context (Hbinary : ∀ i home, configHome i = Some home → S (managedBinary home) ∧ S (managedBinary home +:+ ".new")).

Lemma changes_stage : along (changes S) stageManagedBinary.
Proof.
  intros h q Hq. destruct (stage_spec h) as [_ Hs]. destruct ((stageManagedBinary h).1) as [bin|].
  - destruct Hs as (home & i & source & Hc & _ & -> & ->). destruct (Hbinary i home Hc).
    rewrite lookup_insert_ne, lookup_delete_ne; [done| |]; by intros <-.
  - apply Hs. intros home i Hc ->. by destruct (Hbinary i home Hc).
Qed.

(** A computation on the user's home directory. *)
Lemma along_home {A} (R : relation host) {pre : PreOrder R} (k : string → IO A) :
  (∀ h, R h (tickHost h)) → (∀ i home, userHome i = Some home → along R (k home)) →
  along R (home ← ask userHome; home ← lift home; k home).
Proof.
  intros Ht Hk h. unfold mbind, IO_bind. cbn. destruct (userHome (h_tick h)) as [home|] eqn:Hh; cbn; [|apply Ht].
  etransitivity; [apply Ht|]. by apply (Hk _ _ Hh (tickHost h)).
Qed.

Lemma changes_removeFile path : S path → along (changes S) (removeFile path).
Proof. intros Hs h q Hq. apply removeFile_keeps. by intros ->. Qed.

Lemma files_command args : constant h_files (command args).
Proof. unfold command. constancy. Qed.
#[local] Hint Resolve files_command : constancy.
#[local] Hint Resolve changes_stage changes_removeFile : changing.

Lemma files_retireUnits entries : constant h_files (retireUnits entries).
Proof. induction entries as [|[name isDir] rest IH]; cbn [retireUnits]; constancy; exact IH. Qed.
#[local] Hint Resolve files_retireUnits : constancy.

Lemma changes_installService : along (changes S) installManagerService.
Proof.
  unfold installManagerService. along_step ltac:(idtac); [changing|]. apply along_bind; [apply _|apply changes_stage|]. intros bin.
  apply along_home; [apply _|by intros h q|]. intros i home Hh. destruct (Hunit i home Hh). changing.
Qed.

Lemma changes_ensureService : along (changes S) ensureManagerService.
Proof.
  unfold ensureManagerService. pose proof changes_installService. destruct (negb linux); [done|].
  apply along_home; [apply _|by intros h q|]. intros i home Hh. changing.
Qed.

Lemma changes_retireLegacy dir : S (Filepath.Join [dir; "mayoiga@.service"]) → along (changes S) (retireLegacyNodeServices dir).
Proof. intros Hs. unfold retireLegacyNodeServices, configDir. changing. Qed.

Lemma changes_controlService action : along (changes S) (controlManagerService action).
Proof.
  unfold controlManagerService. destruct (negb linux); [changing|]. apply along_bind; [apply _| |changing].
  destruct (_ =? _)%string; [|changing]. apply along_home; [apply _|by intros h q|]. intros i home Hh.
  destruct (Hunit i home Hh). apply along_bind; [apply _|by apply changes_retireLegacy|changing].
Qed.

Lemma changes_uninstallService : along (changes S) uninstallManagerService.
Proof.
  unfold uninstallManagerService. destruct (negb linux); [changing|]. apply along_bind; [apply _|changing|]. intros _.
  apply along_home; [apply _|by intros h q|]. intros i home Hh. destruct (Hunit i home Hh). changing.
Qed.
#[local] Hint Resolve changes_installService changes_ensureService changes_controlService changes_uninstallService : changing.

(** *** The actions *)

Lemma changes_install o configure : along (changes S) (install o profileOf configure).
Proof. unfold install, profileExists. changing. Qed.

Lemma changes_setNodeDisabled b : along (changes S) (setNodeDisabled profileOf b).
Proof. unfold setNodeDisabled. changing. Qed.
#[local] Hint Resolve changes_install changes_setNodeDisabled : changing.

Lemma lookup_filter_keep (P : string * string → Prop) `{∀ x, Decision (P x)} (m : gmap string string) q :
  (∀ x, P (q, x)) → filter P m !! q = m !! q.
Proof. intros HP. apply option_eq. intros x. rewrite map_lookup_filter_Some. naive_solver. Qed.

Lemma outside q : ¬ S q → inside (absolutePath l) q = false.
Proof. intros Hq. apply not_true_iff_false. intros Hi. by apply Hq, Hinside. Qed.

Lemma plain_suffix (a b : list ascii) : plain b → (2 < length b)%nat → Filepath.slash ∉ a → plain (a ++ b).
Proof.
  intros (_ & _ & _ & Hb) Hlen Ha. split_and!.
  - intros H. apply (f_equal length) in H. rewrite length_app in H. cbn in H. lia.
  - intros H. apply (f_equal length) in H. rewrite length_app in H. cbn in H. lia.
  - intros H. apply (f_equal length) in H. rewrite length_app in H. cbn in H. lia.
  - rewrite elem_of_app. naive_solver.
Qed.

Lemma changes_start managed : along (changes S) (start profileOf managed).
Proof. unfold start. changing. Qed.
Lemma changes_stop managed : along (changes S) (stop profileOf managed).
Proof. unfold stop. changing. Qed.

Lemma changes_uninstall managed : along (changes S) (uninstall profileOf managed).
Proof.
  unfold uninstall. destruct managed.
  - cbn zeta. rewrite Dir_profile. apply along_bind; [apply _|changing|]. intros [removed|].
    + apply along_bind; [apply _| |changing]. intros h q Hq. apply lookup_filter_keep. intros x. left. by apply outside.
    + intros h q Hq. apply lookup_filter_keep. intros x. by apply outside.
  - apply along_bind; [apply _| |changing]. apply changes_removeFile. rewrite <- append_empty. apply own_profile.
Qed.

Lemma changes_addMapping o : Filepath.slash ∉ Strings.bytes (o_name o) → along (changes S) (addMapping o profileOf).
Proof.
  intros Hname. unfold addMapping, randomUUID, hostRandom. changing.
  all: apply changes_makeCertificate; apply own_file'; rewrite bytes_app; (apply plain_suffix; [by apply plain_check|cbn; lia|done]).
Qed.

Lemma changes_removeMapping name : along (changes S) (removeMapping name profileOf).
Proof. unfold removeMapping. changing. Qed.

Lemma changes_renderFile : along (changes S) (renderFile profileOf "").
Proof. unfold renderFile. change (("" =? "")%string) with true. changing. Qed.
#[local] Hint Resolve changes_start changes_stop changes_uninstall changes_removeMapping changes_renderFile : changing.

Lemma files_listPendingHandshakes path status : constant h_files (listPendingHandshakes path status).
Proof. unfold listPendingHandshakes. constancy. Qed.
Lemma files_listAuditEvents path : constant h_files (listAuditEvents path).
Proof. unfold listAuditEvents. constancy. Qed.
Lemma files_decideDeviceCode path code decision replace reason : constant h_files (decideDeviceCode path code decision replace reason).
Proof. unfold decideDeviceCode. constancy. Qed.
Lemma files_revokeNodeID path id : constant h_files (revokeNodeID path id).
Proof. unfold revokeNodeID. constancy. Qed.

Lemma changes_requestConnectionCLI target service key : along (changes S) (requestConnectionCLI profileOf target service key).
Proof. unfold requestConnectionCLI. changing. Qed.

Lemma files_awaitTerminal fuel p id c : constant h_files (awaitTerminal fuel p id c).
Proof. revert c. induction fuel as [|fuel IH]; intros c; simpl; constancy. Qed.
#[local] Hint Resolve files_awaitTerminal : constancy.

Lemma changes_decideConnectionCLI id decision reason : along (changes S) (decideConnectionCLI profileOf id decision reason).
Proof. unfold decideConnectionCLI. changing. Qed.

Lemma changes_connectionStatusCLI fuel id wait : along (changes S) (connectionStatusCLI fuel profileOf id wait).
Proof. unfold connectionStatusCLI. changing. Qed.
#[local] Hint Resolve changes_requestConnectionCLI changes_decideConnectionCLI changes_connectionStatusCLI : changing.

Lemma files_runProfile path : constant h_files (runProfile path).
Proof.
  assert (∀ x, constant h_files (close x)) as Hpart.
  { intros x h. destruct (close_spec x h) as (h1 & Hr & Hf & _). unfold same, runs in *. by rewrite Hr. }
  assert (∀ k, constant h_files (closeAll k)) as Hclose by (induction k as [|x k IH]; simpl; constancy; auto).
  assert (∀ wanted m add instances, constant h_files m → constant h_files (startIf wanted m add instances)) as Hif
    by (intros; unfold startIf; constancy; auto).
  assert (∀ k instances, constant h_files (startMappings k instances)) as Hmaps.
  { induction k as [|m k IH]; intros instances; simpl; [constancy|].
    assert (constant h_files (startPart m)) by (unfold startPart, startSmartPull, listenTCP, opened; constancy).
    constancy; auto. }
  unfold runProfile, startProfile. constancy; auto.
  - apply Hif. unfold startRelayServer, fileText, listenTCP, opened. constancy.
  - apply Hif. unfold startCoordinator, stateLoads, opened. constancy.
Qed.

Lemma files_listNodes : constant h_files listNodes.
Proof.
  assert (∀ dir entries, constant h_files (listedNodes dir entries)) as Hlisted
    by (intros dir entries; induction entries as [|[name isDir] rest IH]; simpl; constancy; apply IH).
  assert (∀ k, constant h_files (printLines k)) as Hprint by (induction k as [|x k IH]; simpl; constancy; apply IH).
  unfold listNodes, configDir. constancy; auto.
Qed.
#[local] Hint Resolve files_listPendingHandshakes files_listAuditEvents files_decideDeviceCode files_revokeNodeID files_runProfile
  files_listNodes : constancy.

Lemma changes_syncAndPrint : along (changes S) (syncAndPrint profileOf).
Proof. unfold syncAndPrint. changing. Qed.
Lemma files_status path : constant h_files (status path).
Proof. unfold status. constancy. Qed.
Lemma files_printConnectionInbox path : constant h_files (printConnectionInbox path).
Proof. unfold printConnectionInbox. constancy. Qed.
#[local] Hint Resolve files_status files_printConnectionInbox : constancy.
#[local] Hint Resolve changes_syncAndPrint : changing.

(** The options name no file outside. *)
Definition namesOwnFiles (o : options) : Prop :=
  (o_action o = "add" → Filepath.slash ∉ Strings.bytes (o_name o)) ∧ (o_action o = "render" → o_output o = "").

(** *** The workers *)

Lemma changes_updateControlStatus update : along (changes S) (updateControlStatus profileOf update).
Proof.
  unfold updateControlStatus, statusFile. changing. apply changes_replaceFile; [apply own_file'|apply own_file]; by apply plain_check.
Qed.
#[local] Hint Resolve changes_updateControlStatus : changing.

Lemma changes_waitInbox p : along (changes S) (waitInbox profileOf p).
Proof.
  unfold waitInbox, saveInbox, inboxFile. changing.
  all: apply changes_replaceFile; [apply own_file'|apply own_file]; by apply plain_check.
Qed.

Lemma files_dispatchOffers p events : constant h_files (dispatchOffers p events).
Proof. unfold modOffers. induction events as [|e rest IH]; simpl; unfold modOffers; constancy; apply IH. Qed.
Lemma files_dialReverse p relay request service : constant h_files (dialReverseRelay p relay request service).
Proof. unfold dialReverseRelay, dialSignedRelay, exchangeHandshake. constancy. Qed.
#[local] Hint Resolve files_dispatchOffers files_dialReverse : constancy.
#[local] Hint Resolve changes_waitInbox : changing.

Lemma changes_workers {A} (m : IO A) : workerTurn profileOf A m → along (changes S) m.
Proof.
  destruct 1.
  - unfold heartbeatTurn. changing.
  - unfold discoveryTurn. changing.
  - unfold inboxTurn. changing.
  - unfold runOffer, offerGoroutine. cbn [foldr]. unfold serveAutomaticConnectionOffer, declineOffer, modOffers. changing.
  - unfold controlPlaneTurn. changing.
Qed.

Lemma along_acting {A} a o (m k : IO A) :
  (o_action o = a → along (changes S) m) → along (changes S) k → along (changes S) (if acting a o then m else k).
Proof. unfold acting. destruct (String.eqb_spec (o_action o) a); auto. Qed.

Lemma changes_executeNode fuel o : namesOwnFiles o → along (changes S) (executeNode fuel o profileOf).
Proof.
  intros [Hadd Hrender]. unfold executeNode, finish, connectionResult, approveDeviceCode, rejectDeviceCode. cbn zeta.
  repeat (apply along_acting; [intros Ho|]).
  all: try (rewrite (Hrender Ho)).
  all: try (apply along_bind; [apply _|apply changes_addMapping; exact (Hadd Ho)|]).
  all: changing.
Qed.
End Node.

(** ** The actions of one node and the files of another *)

Section Execute.
Context {unicode : Unicode} {hostEnv : HostEnv}.

(** The files of the manager's service, outside the configuration. *)
Definition serviceFile (q : string) : Prop :=
  ∃ i home, userHome i = Some home ∧ (q = unitFile home ∨ q = Filepath.Join [unitDir home; "mayoiga@.service"]).

(** The directory of an instance below the user's configuration. *)
Definition nodeDir (config instance : string) : string :=
  Filepath.Dir (profileIn (Filepath.Join [config; "mayoiga"]) instance).

(** What an action on [instance] may change. *)
Definition owned (config instance q : string) : Prop :=
  (validateInstance instance = true ∧ inside (nodeDir config instance) q = true) ∨ serviceFile q ∨ q = managedBinary config ∨ q = managedBinary config +:+ ".new".

Context (config : string) (Hconstant : ∀ i home, configHome i = Some home → home = config).
Context (Habsolute : Strings.HasPrefix config "/" = true).

Lemma configuration : ∃ D, D ≠ [] ∧ Forall plain D ∧ Filepath.Join [config; "mayoiga"] = absolutePath D.
Proof.
  destruct (Join_last config "mayoiga") as (l & Hl & HJ); [done|by apply plain_check|].
  exists (l ++ [Strings.bytes "mayoiga"]). split_and!; [by destruct l| |done]. apply Forall_app. split; [done|].
  constructor; [by apply plain_check|done].
Qed.

Lemma profileIn_of D i : D ≠ [] → Forall plain D → plain (Strings.bytes i) →
  profileIn (absolutePath D) i = profileOf (D ++ [Strings.bytes "nodes"; Strings.bytes i]).
Proof.
  intros HD Hp Hi. unfold profileIn, profileOf. rewrite Join_absolute; [by rewrite <- app_assoc|done..|].
  repeat constructor; try (by apply plain_check); apply Hi.
Qed.

Lemma node_elements D i : Forall plain D → plain (Strings.bytes i) → Forall plain (D ++ [Strings.bytes "nodes"; Strings.bytes i]).
Proof. intros Hp Hi. apply Forall_app. split; [done|]. repeat constructor; try (by apply plain_check); apply Hi. Qed.

Lemma nodeDir_of D i : D ≠ [] → Forall plain D → plain (Strings.bytes i) → Filepath.Join [config; "mayoiga"] = absolutePath D →
  nodeDir config i = absolutePath (D ++ [Strings.bytes "nodes"; Strings.bytes i]).
Proof.
  intros HD Hp Hi HJ. unfold nodeDir. rewrite HJ, profileIn_of by done. apply Dir_profile; [by destruct D|by apply node_elements].
Qed.

Lemma changes_execute fuel o :
  o_config o = "" → namesOwnFiles o → along (changes (owned config (o_instance o))) (execute fuel o).
Proof.
  intros Hc Hlocal. set (S := owned config (o_instance o)). unfold execute.
  assert (∀ i home, userHome i = Some home → S (unitFile home) ∧ S (Filepath.Join [unitDir home; "mayoiga@.service"])) as Hunit.
  { intros i home Hh. split; right; left; exists i, home; auto. }
  assert (∀ i home, configHome i = Some home → S (managedBinary home) ∧ S (managedBinary home +:+ ".new")) as Hbinary.
  { intros i home ->%Hconstant. split; right; right; auto. }
  destruct (executeManager o) as [m|] eqn:Hm.
  { revert Hm. unfold executeManager, finish. pose proof files_listNodes.
    pose proof (changes_installService S Hunit Hbinary). pose proof (changes_uninstallService S Hunit).
    pose proof (changes_controlService S Hunit).
    repeat (destruct (acting _ o); [intros [= <-]; changing|]). done. }
  unfold profilePathFor. rewrite Hc. change (negb ("" =? "")%string) with false. cbn [negb].
  destruct (validateInstance (o_instance o)) eqn:Hv; [|intros h q Hq; exact eq_refl].
  destruct configuration as (D & HD & Hp & HJ). pose proof (validateInstance_plain _ Hv) as Hi.
  intros h. unfold mbind, IO_bind, configDir, ask, lift. cbn -[Filepath.Join profileIn executeNode].
  unfold mbind, IO_bind. cbn -[Filepath.Join profileIn executeNode].
  destruct (configHome (h_tick h)) as [home|] eqn:Hh; cbn -[Filepath.Join profileIn executeNode]; [|by intros q].
  rewrite (Hconstant _ _ Hh), HJ, profileIn_of by done.
  transitivity (tickHost h); [by intros q|].
  refine (changes_executeNode _ _ _ S _ Hunit Hbinary fuel o Hlocal (tickHost h)); [by destruct D|by apply node_elements|].
  intros q Hq. left. split; [done|]. by rewrite (nodeDir_of D).
Qed.

Lemma changes_workerTurn i {A} (m : IO A) :
  validateInstance i = true → workerTurn (profileIn (Filepath.Join [config; "mayoiga"]) i) A m → along (changes (owned config i)) m.
Proof.
  intros Hv. pose proof (validateInstance_plain _ Hv) as Hi. destruct configuration as (D & HD & Hp & HJ).
  rewrite HJ, profileIn_of by done. apply changes_workers; [by destruct D|by apply node_elements|].
  intros q Hq. left. split; [done|]. by rewrite (nodeDir_of D).
Qed.

Lemma binary_outside j s : plain (Strings.bytes j) → inside (nodeDir config j) (managedBinary config +:+ s) = false.
Proof.
  intros Hj. destruct configuration as (D & HD & Hp & HJ). rewrite (nodeDir_of D) by done. unfold managedBinary.
  assert (plain (Strings.bytes executableName)) as He by (unfold executableName; destruct windows; by apply plain_check).
  rewrite HJ, Join_absolute; [|done..|repeat constructor; try (by apply plain_check); apply He].
  apply not_true_iff_false. intros (x & H)%prefix_spec.
  change ([Strings.bytes "nodes"; Strings.bytes j]) with ([Strings.bytes "nodes"] ++ [Strings.bytes j]) in H.
  change (Strings.bytes <$> ["bin"; executableName]) with ([Strings.bytes "bin"] ++ [Strings.bytes executableName]) in H.
  rewrite !app_assoc, !absolutePath_app, !append_assoc in H by (done || by destruct D).
  apply append_inj_r in H. discriminate.
Qed.

(** Nothing one instance owns is another's, the service's files apart. *)
Lemma owned_siblings i j q :
  validateInstance j = true → j ≠ i → inside (nodeDir config j) q = true → ¬ serviceFile q → ¬ owned config i q.
Proof.
  intros Hj Hne Hq Hs. pose proof (validateInstance_plain _ Hj) as Hpj. intros [[Hv Ho]|[Ho|[->| ->]]]; [|done| |].
  - pose proof (validateInstance_plain _ Hv) as Hpi. destruct configuration as (D & HD & Hp & HJ).
    rewrite (nodeDir_of D) in Ho, Hq by done.
    apply Hne. symmetry. apply (inside_siblings (D ++ [Strings.bytes "nodes"]) _ _ q); [by destruct D|done..| |]; by rewrite <- app_assoc.
  - rewrite <- (append_empty (managedBinary config)), binary_outside in Hq; done.
  - by rewrite binary_outside in Hq.
Qed.

(** C25. The nodes of a host are isolated, for an action that names its node by
    [--instance] and not by the path of a profile ([--config]): unless it adds a
    mapping under a name with a slash, or renders to a file it is given
    ([--output]), whatever it does to the profile, the mappings, the
    certificates, the caches, the enrollment, or the manager's program and
    service, and whatever a turn of a worker of that node saves, every file in
    the directory of another valid instance, other than the service's own, is
    afterwards what it was.  A mapping's name with a slash does escape:
    [mapping_name_escapes]. *)
Theorem actions_isolated fuel o j q h :
  o_config o = "" → namesOwnFiles o → validateInstance j = true → j ≠ o_instance o →
  inside (nodeDir config j) q = true → ¬ serviceFile q →
  h_files (exec (execute fuel o) h).2 !! q = h_files h !! q
  ∧ (validateInstance (o_instance o) = true → ∀ A (turn : IO A),
       workerTurn (profileIn (Filepath.Join [config; "mayoiga"]) (o_instance o)) A turn →
       h_files (exec turn h).2 !! q = h_files h !! q).
Proof.
  intros Hc Hlocal Hj Hne Hq Hs. pose proof (owned_siblings (o_instance o) j q Hj Hne Hq Hs) as Hout. split.
  - by apply (changes_execute fuel o Hc Hlocal).
  - intros Hv A turn Ht. by apply (changes_workerTurn (o_instance o) turn Hv Ht).
Qed.
End Execute.

(** ** Concrete actions *)

Definition nodeAction (action name : string) : options :=
  mkOptions (λ f, match f with
                  | FAction => action | FInstance => "node-a" | FName => name | FKind => "publish"
                  | FListen => "0.0.0.0:18443" | FTarget => "10.0.0.9:5000" | _ => ""
                  end) (λ _, 0) (λ f, match f with FYes => true | _ => false end) ∅.
Definition relayProfilePath : string := nodePath "relay-1".

Lemma demo_service_file q : serviceFile (hostEnv := demoHostEnv) q →
  q ∈ [unitFile "/home/user"; Filepath.Join [unitDir "/home/user"; "mayoiga@.service"]].
Proof. intros (i & home & [= <-] & [->| ->]); [by left|by right; left]. Qed.

Lemma actions_isolated_witness :
  (h_files (exec (execute 1 (nodeAction "delete-node" "")) demoHost).2 !! relayProfilePath = h_files demoHost !! relayProfilePath
   ∧ h_files (exec (inboxTurn (nodePath "node-a") clientProfile 0) demoHost).2 !! relayProfilePath = h_files demoHost !! relayProfilePath)
  ∧ h_files (exec (execute 1 (nodeAction "delete-node" "")) demoHost).2 !! nodePath "node-a" = None.
Proof.
  split; [|by vm_compute].
  destruct (actions_isolated (hostEnv := demoHostEnv) "/home/user/.config" ltac:(by intros i home [= <-]) eq_refl 1
    (nodeAction "delete-node" "") "relay-1" relayProfilePath demoHost) as [Haction Hturn].
  - reflexivity.
  - split; discriminate.
  - reflexivity.
  - discriminate.
  - reflexivity.
  - intros H%demo_service_file. revert H. apply (bool_decide_eq_false_1 _). by vm_compute.
  - split; [exact Haction|]. apply (Hturn eq_refl). apply wt_inbox.
Defined.

(** The hypothesis on the name of a mapping is needed: [addMapping] takes any
    name, and this one writes a key into the directory of another node. *)
Theorem mapping_name_escapes :
  let o := nodeAction "add" "../relay-1/relay" in let key := Filepath.Join [Filepath.Dir relayProfilePath; "relay.key"] in
  (exec (execute 1 o) demoHost).1 = Some Finished
  ∧ inside (nodeDir "/home/user/.config" "relay-1") key = true
  ∧ h_files demoHost !! key = None ∧ h_files (exec (execute 1 o) demoHost).2 !! key = Some "key".
Proof. by vm_compute. Qed.
