(* ===== verification/CommandTheorems.v ===== *)
(** * Theorems on the program's arguments

    What is written on a command line is what the program does: flags read
    back as they were spelled, and the processes the manager and systemd start
    run what they were started for. *)
From S2P Require Import Prelude GoStd GoNet GoPath GoCrypto GoFlag Types Runtime Locale Validate.
From S2P Require Import Paths Profile Options Host Service Embedded NodeConfig NodeRuntime Menu Command.
From S2P Require Import CommandLine Demo NodeDemo.

Local Open Scope Z_scope.

(** ** Spelling flags *)

(** A value for a flag. *)
Inductive assignment := GiveText (f : textField) (v : string) | GiveNumber (f : numberField) (n : Z) | GiveSwitch (f : switchField) (b : bool).

Definition targetOf (a : assignment) : flagTarget :=
  match a with GiveText f _ => TextFlag f | GiveNumber f _ => NumberFlag f | GiveSwitch f _ => SwitchFlag f end.

Definition given (o : options) (a : assignment) : options :=
  match a with GiveText f v => setText f v o | GiveNumber f n => setNumber f n o | GiveSwitch f b => setSwitch f b o end.

(** How each field is named on the command line. *)
Definition nameOf (t : flagTarget) : string :=
  match t with
  | TextFlag FLang => "lang" | TextFlag FRole => "role" | TextFlag FAction => "action"
  | TextFlag FInstance => "instance" | TextFlag FSegment => "segment" | TextFlag FNetwork => "network"
  | TextFlag FCoordinator => "coordinator" | TextFlag FCoordinatorPin => "coordinator-pin"
  | TextFlag FDeviceCode => "device-code" | NumberFlag FHandshakeStatus => "handshake-status"
  | TextFlag FNodeName => "node-name" | TextFlag FNodeID => "node-id" | TextFlag FRequestID => "request-id"
  | TextFlag FIdempotencyKey => "idempotency-key" | TextFlag FReason => "reason" | TextFlag FName => "name"
  | TextFlag FKind => "kind" | TextFlag FListen => "listen" | TextFlag FAdminListen => "admin-listen"
  | TextFlag FTarget => "target" | TextFlag FTargetNode => "target-node" | TextFlag FService => "service"
  | TextFlag FTransitListen => "transit-listen" | TextFlag FTransitEndpoint => "transit-endpoint"
  | TextFlag FUpstreamRelayNode => "upstream-relay-node"
  | TextFlag FUpstreamRelayEndpoint => "upstream-relay-endpoint"
  | TextFlag FUpstreamRelayPin => "upstream-relay-pin" | TextFlag FUpstreamRelayToken => "upstream-relay-token"
  | NumberFlag FRelayPriority => "relay-priority"
  | NumberFlag FConnectionWaitSeconds => "connection-wait-seconds"
  | NumberFlag FConnectionTTLSeconds => "connection-request-ttl-seconds"
  | NumberFlag FConnectionLeaseSeconds => "connection-offer-lease-seconds"
  | NumberFlag FConnectionMaxPending => "connection-max-pending" | TextFlag FConfig => "config"
  | TextFlag FManagerDir => "manager-dir" | TextFlag FOutput => "output" | SwitchFlag FYes => "yes"
  | SwitchFlag FReplaceExisting => "replace-existing" | SwitchFlag FRotateRelayToken => "rotate-relay-token"
  | SwitchFlag FShowVersion => "version"
  end.
Definition flagName (a : assignment) : string := nameOf (targetOf a).

Definition valueText (a : assignment) : string :=
  match a with
  | GiveText _ v => v
  | GiveNumber _ n => Strconv.FormatInt n
  | GiveSwitch _ true => "true"
  | GiveSwitch _ false => "false"
  end.

(** Two dashes or one; the value after an equals sign, or, where Go allows
    it, apart. *)
Record spelling := mkSpelling { sp_two : bool; sp_joined : bool }.

Definition spell (x : spelling * assignment) : list string :=
  let '(s, a) := x in
  let flag := (if sp_two s then "--" else "-") +:+ flagName a in
  let joined := [flag +:+ "=" +:+ valueText a] in
  if sp_joined s then joined
  else match a with
       | GiveSwitch _ true => [flag]
       | GiveSwitch _ false => joined
       | _ => [flag; valueText a]
       end.

Definition fits (a : assignment) : Prop := match a with GiveNumber _ n => - 2 ^ 63 ≤ n < 2 ^ 63 | _ => True end.

Lemma flag_known t : formalFlag (nameOf t) = Some t ∧ plainName (nameOf t) = true.
Proof. by destruct t as [[]|[]|[]]. Qed.

Lemma flag_set a o : fits a → setFlag (targetOf a) (valueText a) o = Some (given o a).
Proof. destruct a as [f v|f n|f []]; intros H; simpl; [done| |done..]. by rewrite literal_FormatInt. Qed.

Lemma parse_spell x rest o actual :
  fits x.2 →
  Flag.Parse formalFlag isSwitch setFlag (spell x ++ rest) o actual
  = Flag.Parse formalFlag isSwitch setFlag rest (given o x.2) ({[flagName x.2]} ∪ actual).
Proof.
  destruct x as [s a]. intros Hfit. destruct (flag_known (targetOf a)) as [Hknown Hplain]. fold (flagName a) in *.
  pose proof (flag_set a o Hfit) as Hset.
  assert (Flag.Parse formalFlag isSwitch setFlag ((((if sp_two s then "--" else "-") +:+ flagName a) +:+ "=" +:+ valueText a) :: rest) o actual
    = Flag.Parse formalFlag isSwitch setFlag rest (given o a) ({[flagName a]} ∪ actual)) as Hjoined.
  { cbn [Flag.Parse]. rewrite append_assoc, classify_joined, Hknown by done. cbn -[setFlag isSwitch].
    destruct (isSwitch (targetOf a)); by rewrite Hset. }
  unfold spell. destruct (sp_joined s); [exact Hjoined|].
  destruct a as [f v|f n|f []]; [| | |exact Hjoined]; cbn [app Flag.Parse];
    rewrite classify_plain, Hknown by done; cbn [targetOf isSwitch snd]; cbn [targetOf] in Hset;
    [rewrite Hset; done..|change (default "true" None) with (valueText (GiveSwitch f true)); by rewrite Hset].
Qed.

(** The names of the flags given. *)
Definition namesOf (l : list (spelling * assignment)) : gset string := list_to_set ((λ x, flagName x.2) <$> l).

Lemma parse_spells l rest o known :
  Forall (λ x, fits x.2) l →
  Flag.Parse formalFlag isSwitch setFlag (concat (spell <$> l) ++ rest) o known
  = Flag.Parse formalFlag isSwitch setFlag rest (foldl given o (snd <$> l)) (namesOf l ∪ known).
Proof.
  intros Hl. revert o known. induction Hl as [|x l Hx Hl IH]; intros o known.
  - unfold namesOf. simpl. by rewrite union_empty_l_L.
  - cbn [fmap list_fmap concat foldl]. rewrite <- app_assoc, parse_spell, IH by done. f_equal. unfold namesOf. simpl. set_solver.
Qed.

Lemma flag_unknown name : (∀ t, nameOf t ≠ name) → formalFlag name = None.
Proof.
  intros H. unfold formalFlag. destruct (firstMatch _ _) as [[k t]|] eqn:E; [|done]. exfalso.
  apply firstMatch_Some in E as [Hin Hk]. simpl in Hk. apply String.eqb_eq in Hk as ->. apply (H t).
  assert (Forall (λ kv, nameOf kv.2 = kv.1) flagTable) as Hall by (repeat constructor).
  rewrite Forall_forall in Hall. by apply (Hall _ Hin).
Qed.

(** Arguments that make the program refuse its flags, whatever comes after: a
    flag that is none of the program's, and a number or a switch that cannot be
    read. *)
Inductive wrongFlag : list string → Prop :=
  | wf_unknown (two : bool) name :
      plainName name = true → (∀ t, nameOf t ≠ name) → name ≠ "help" → name ≠ "h" →
      wrongFlag [(if two then "--" else "-") +:+ name]
  | wf_number (two : bool) f v :
      Literal.ParseInt v = None → wrongFlag [(if two then "--" else "-") +:+ nameOf (NumberFlag f); v]
  | wf_switch (two : bool) f v :
      Literal.ParseBool v = None → wrongFlag [(if two then "--" else "-") +:+ nameOf (SwitchFlag f) +:+ "=" +:+ v].

Lemma parse_wrong wrong rest o known :
  wrongFlag wrong → Flag.Parse formalFlag isSwitch setFlag (wrong ++ rest) o known = Flag.Misused.
Proof.
  destruct 1 as [two name Hplain Hnone H1 H2|two f v Hv|two f v Hv]; cbn [app Flag.Parse].
  - rewrite classify_plain, (flag_unknown name) by done. by rewrite (proj2 (String.eqb_neq _ _) H1), (proj2 (String.eqb_neq _ _) H2).
  - destruct (flag_known (NumberFlag f)) as [Hk Hp]. rewrite classify_plain, Hk by done. cbn [isSwitch setFlag]. by rewrite Hv.
  - destruct (flag_known (SwitchFlag f)) as [Hk Hp]. rewrite classify_joined, Hk by done. cbn -[Literal.ParseBool]. by rewrite Hv.
Qed.

(** C34. What is written on the command line is what the program runs on:
    whatever values are given to whatever flags, under the names of the manual,
    in any order and as often as one likes, with one dash or two and with the
    value joined or apart, [Run] goes on with exactly those values over the
    declared defaults, a later one over an earlier, and with the names of
    exactly the flags that were given, up to the first operand or a terminator;
    a flag that is not the program's, or a number or switch that cannot be
    read, is refused wherever it stands among them. *)
Theorem flags_roundtrip {unicode : Unicode} {hostEnv : HostEnv} l operands fuel lines :
  Forall (λ x, fits x.2) l →
  match operands with [] => True | arg :: _ => Flag.classify arg = Flag.Operand ∨ Flag.classify arg = Flag.Terminator end →
  Run fuel (concat (spell <$> l) ++ operands) lines
    = runOptions fuel (withSet (foldl given noOptions (snd <$> l)) (namesOf l)) lines
  ∧ ∀ wrong rest, wrongFlag wrong → Run fuel (concat (spell <$> l) ++ wrong ++ rest) lines = mret FlagsRefused.
Proof.
  intros Hl Hop. unfold Run, parseFlags. split.
  - rewrite parse_spells, union_empty_r_L by done. destruct operands as [|arg rest]; [done|]. cbn [Flag.Parse].
    by destruct Hop as [-> | ->].
  - intros wrong rest Hw. by rewrite parse_spells, parse_wrong.
Qed.

Lemma flags_roundtrip_witness :
  Run 1 ["--action=stop"; "-relay-priority"; "-5"; "-yes"; "--version=false"; "-action"; "add"; "host"; "--instance"; "a"] []
    = runOptions 1 (withSet (setText FAction "add" (setSwitch FShowVersion false (setSwitch FYes true
        (setNumber FRelayPriority (-5) (setText FAction "stop" noOptions))))) (list_to_set ["action"; "relay-priority"; "yes"; "version"])) []
  ∧ Run 1 ["--action=stop"; "--listening"; "a"] [] = mret FlagsRefused.
Proof.
  set (l := [(mkSpelling true true, GiveText FAction "stop"); (mkSpelling false false, GiveNumber FRelayPriority (-5));
    (mkSpelling false false, GiveSwitch FYes true); (mkSpelling true false, GiveSwitch FShowVersion false);
    (mkSpelling false false, GiveText FAction "add")]).
  assert (Forall (λ x, fits x.2) l) as Hl by (repeat constructor; simpl; lia).
  split.
  - rewrite (proj1 (flags_roundtrip l ["host"; "--instance"; "a"] 1 [] Hl (or_introl eq_refl))). f_equal.
  - refine (proj2 (flags_roundtrip [(mkSpelling true true, GiveText FAction "stop")] [] 1 [] _ I) ["--listening"] ["a"] _).
    + repeat constructor.
    + apply (wf_unknown true "listening"); [reflexivity| |discriminate|discriminate]. by intros [[]|[]|[]].
Defined.

(** ** The processes that are started *)

Lemma Clean_fixed path : Strings.HasPrefix path "/" = true → Filepath.Clean (Filepath.Clean path) = Filepath.Clean path.
Proof.
  intros H. destruct (Clean_absolute path H) as (l & Hl & ->). destruct l as [|e l]; [done|].
  rewrite Clean_elements; [by rewrite filter_plain|by apply slash_plain|done|].
  eapply Forall_impl; [done|]. intros k Hk. by right.
Qed.

Lemma Clean_rooted path : Strings.HasPrefix path "/" = true → Strings.HasPrefix (Filepath.Clean path) "/" = true.
Proof. intros H. destruct (Clean_absolute path H) as (l & _ & ->). unfold absolutePath, Strings.HasPrefix. by rewrite bytes_ofBytes. Qed.

(** A profile below an absolute directory is named by a clean absolute path. *)
Lemma profileIn_clean dir instance :
  Strings.HasPrefix dir "/" = true →
  Strings.HasPrefix (profileIn dir instance) "/" = true
  ∧ Filepath.Clean (profileIn dir instance) = profileIn dir instance.
Proof.
  intros H. assert (dir ≠ "") as Hne by (by intros ->).
  assert (∃ path, Strings.HasPrefix path "/" = true ∧ profileIn dir instance = Filepath.Clean path) as (path & Hp & ->).
  { unfold profileIn, Filepath.Join. rewrite filter_cons_True by done. cbn [fmap list_fmap]. eexists. split; [|reflexivity].
    unfold Strings.HasPrefix in *. rewrite bytes_ofBytes. destruct (Strings.bytes dir) as [|c k]; [done|].
    cbn in H. rewrite andb_true_r in H. apply bool_decide_eq_true_1 in H as <-.
    destruct (Strings.bytes <$> _); by cbn. }
  split; [by apply Clean_rooted|by apply Clean_fixed].
Qed.

(** What follows the program in the unit's command line. *)
Definition serviceArgs : list string := ["--action"; "service-run"].
Definition unitArgs : string := foldr (λ arg rest, " " +:+ arg +:+ rest) "" serviceArgs.

Section Started.
Context {unicode : Unicode} {hostEnv : HostEnv}.

Lemma managedProfiles_paths dir l h h' :
  runs (managedProfiles dir) h l h' →
  (∀ i home, configHome i = Some home → Strings.HasPrefix home "/" = true) →
  dir = "" ∨ Strings.HasPrefix dir "/" = true →
  ∀ m, m ∈ l → validateInstance (mg_instance m) = true
    ∧ ∃ root, Strings.HasPrefix root "/" = true ∧ mg_path m = profileIn root (mg_instance m).
Proof.
  intros Hrun Hhome Hdir m Hm. unfold managedProfiles in Hrun. io_bind (root & h1 & Hroot & Hrun).
  assert (Strings.HasPrefix root "/" = true) as Habs.
  { destruct (String.eqb_spec dir "") as [->|Hne].
    - unfold configDir in Hroot. io_bind (d & h2 & Hd & Hroot). apply runs_ask in Hd as [-> ->].
      io_bind (d & h2 & Hd & Hroot). apply runs_lift in Hd as [Hd ->]. apply runs_ret in Hroot as [-> _].
      destruct (Join_last d "mayoiga") as (k & _ & ->); [by eapply Hhome|by apply plain_check|].
      unfold absolutePath, Strings.HasPrefix. by rewrite bytes_ofBytes.
    - apply runs_ret in Hroot as [-> _]. by destruct Hdir. }
  io_bind (entries & h2 & He & Hrun). apply runs_ask in He as [-> ->].
  destruct (readDir _ _) as [| |entries]; [io_inv; by apply not_elem_of_nil in Hm|io_inv|].
  io_bind (profiles & h3 & Hp & Hrun). apply runs_ret in Hrun as [-> _].
  apply runs_managedEntries in Hp as (_ & Hall & _). rewrite sortSlice_perm in Hm.
  rewrite Forall_forall in Hall. destruct (Hall m Hm) as (Hv & Hpath & _). split; [done|]. by exists root.
Qed.

Lemma flags_parse_supervised m :
  ∃ actual, parseFlags (superviseArgs m)
    = Flag.Parsed (setText FConfig (mg_path m) (setText FInstance (mg_instance m) (setText FAction "run" noOptions))) actual [].
Proof. by eexists. Qed.

(** The action run, on a clean absolute path. *)
Lemma execute_run fuel o path h :
  o_action o = "run" → o_config o = path → validateInstance (o_instance o) = true → path ≠ "" →
  Strings.HasPrefix path "/" = true → Filepath.Clean path = path →
  execute fuel o h = finish (runProfile path) h.
Proof.
  intros Ha Hc Hv Hne%String.eqb_neq Habs Hclean.
  assert (executeManager o = None) as Hm by (unfold executeManager, acting; by rewrite Ha).
  assert (executeNode fuel o path = finish (runProfile path)) as Hn by (unfold executeNode, acting; by rewrite Ha).
  unfold execute. rewrite Hm. unfold profilePathFor, absolute. rewrite Hc, Hv, Hne, Habs, Hclean.
  unfold mbind at 1, IO_bind at 1. cbn [negb mret IO_ret]. by rewrite Hn.
Qed.

Lemma languageOf_action o lines :
  o_lang o = "" → o_action o ≠ "" → languageOf o lines = (setText FLang "en" o, lines).
Proof. intros Hl Ha%String.eqb_neq. unfold languageOf. rewrite Hl, Ha. cbn. by rewrite Hl. Qed.

(** A command line that names an action other than quit. *)
Lemma Run_action fuel args o actual rest lines h :
  parseFlags args = Flag.Parsed o actual rest → o_showVersion o = false → o_lang o = "" →
  o_action o ≠ "" → o_action o ≠ "quit" →
  Run fuel args lines h = (r ← execute fuel (setText FLang "en" (withSet o actual)); mret (Executed (loadLocale "en").1 r)) h.
Proof.
  intros Hargs Hversion Hlang Ha Hq%String.eqb_neq. unfold Run. rewrite Hargs. unfold runOptions.
  change (o_showVersion (withSet o actual)) with (o_showVersion o). rewrite Hversion.
  rewrite languageOf_action by done. apply String.eqb_neq in Ha.
  change (o_action (setText FLang "en" (withSet o actual))) with (o_action o). rewrite Ha.
  unfold mbind at 1, IO_bind at 1. cbn [mret IO_ret fst].
  change (o_action (setText FLang "en" (withSet o actual))) with (o_action o). by rewrite Hq.
Qed.

Lemma Run_supervised fuel m lines h :
  validateInstance (mg_instance m) = true → mg_path m ≠ "" → Strings.HasPrefix (mg_path m) "/" = true →
  Filepath.Clean (mg_path m) = mg_path m →
  Run fuel (superviseArgs m) lines h
  = (_ ← runProfile (mg_path m); mret (Executed (loadLocale "en").1 Finished)) h.
Proof.
  intros Hv Hne Habs Hclean.
  destruct (flags_parse_supervised m) as (actual & Hargs).
  rewrite (Run_action fuel _ _ _ _ lines h Hargs) by done. unfold mbind, IO_bind.
  rewrite (execute_run fuel _ (mg_path m)) by done. unfold finish, mbind, IO_bind. by destruct (runProfile (mg_path m) h) as [[]].
Qed.

(** C26. What is started runs what it was started for.  For every profile a
    scan of the manager finds below an absolute directory, the program run on
    the arguments superviseProfile builds does exactly what running that very
    profile file does, on every state of the host, and ends with it; and the
    arguments of the systemd unit's command line start the manager on the
    user's configuration. *)
Theorem started_processes dir l h h' fuel lines h0
    (Hrun : runs (managedProfiles dir) h l h')
    (Hhome : ∀ i home, configHome i = Some home → Strings.HasPrefix home "/" = true)
    (Hdir : dir = "" ∨ Strings.HasPrefix dir "/" = true) :
  (∀ m, m ∈ l →
     Run fuel (superviseArgs m) lines h0 = (_ ← runProfile (mg_path m); mret (Executed (loadLocale "en").1 Finished)) h0)
  ∧ (∀ bin, ("ExecStart=" +:+ bin +:+ unitArgs) ∈ unitLines bin)
  ∧ Run fuel serviceArgs lines h0 = (Some (Executed (loadLocale "en").1 (ManagerRuns "")), h0).
Proof.
  split_and!.
  - intros m Hm. destruct (managedProfiles_paths dir l h h' Hrun Hhome Hdir m Hm) as (Hv & root & Hroot & Hpath).
    destruct (profileIn_clean root (mg_instance m) Hroot) as [Habs Hclean]. rewrite <- Hpath in Habs, Hclean.
    apply Run_supervised; [done| |done..]. intros E. by rewrite E in Habs.
  - intros bin. do 5 right. left.
  - assert (∃ actual, parseFlags serviceArgs = Flag.Parsed (setText FAction "service-run" noOptions) actual [])
      as (actual & Hargs) by (by eexists).
    by rewrite (Run_action fuel _ _ _ _ lines h0 Hargs).
Qed.

End Started.

Lemma started_processes_witness :
  ∃ l, mg_instance <$> l = ["relay-1"; "node-a"]
    ∧ ∀ m, m ∈ l → Run (hostEnv := demoHostEnv) 0 (superviseArgs m) [] demoHost
        = (_ ← runProfile (mg_path m); mret (Executed (loadLocale "en").1 Finished)) demoHost.
Proof.
  destruct (result (managedProfiles "/home/user/.config/mayoiga") demoHost) as [l|] eqn:Hl; [|by vm_compute in Hl].
  exists l. split; [vm_compute in Hl; by injection Hl as <-|].
  apply (started_processes "/home/user/.config/mayoiga" l demoHost _ 0 [] demoHost (ran _ _ _ Hl)).
  - intros i home H. by injection H as <-.
  - by right.
Defined.
