(* ===== verification/Workers.v ===== *)
(** * The workers of a running node

    runControlPlane, runAuthenticatedControlPlane and the loops of its three
    workers (connection_workers.go), interleaved.  A step is a stretch of one
    goroutine between two points where others may run: an exchange with the
    coordinator, an update of control-status.json under its mutex, one select on
    the channel of revisions.  The turns of [Inbox] are sequences of steps. *)
From S2P Require Import Prelude GoStd GoNet GoPath GoCrypto Types Runtime Validate Paths Profile Xray.
From S2P Require Import Host NodeClient RelayProtocol Inbox Registry Effects Isolation InboxTheorems ManagerTheorems.
From S2P Require Import NodeDemo Demo.

Local Open Scope Z_scope.

(** ** State *)

(** Where the heartbeat worker is: before an exchange, with its outcome, or at
    one of the three selects with a revision. *)
Inductive beatStage := BeatReady | BeatNoting (outcome : option Z) | BeatSending (r : Z) | BeatDraining (r : Z) | BeatRefilling (r : Z) | BeatEnded.
(** The discovery worker: at its select, with a revision to fetch, or with
    the outcome of fetching it. *)
Inductive discoveryStage := DiscoveryReady | DiscoveryFetching (r : Z) | DiscoveryNoting (r : Z) (ok : bool) | DiscoveryEnded.
(** The inbox worker: at the top of its loop, in the long poll, with its
    outcome, or in the pause after a failure. *)
Inductive inboxStage := InboxReady | InboxPolling | InboxNoting (output : option inboxWaitResponse) | InboxPausing | InboxEnded.

(** [ws_sent] is the last revision put into the channel, [ws_failed] the
    revision of the last fetch when it failed, [ws_beat_ok] and [ws_inbox_ok]
    the outcomes last noted: for the theorems. *)
Record workers := mkWorkers {
  ws_host : host;
  ws_buffer : option Z;
  ws_beat : beatStage;
  ws_discovery : discoveryStage;
  ws_current : Z;
  ws_inbox : inboxStage;
  ws_backoff : Z;
  ws_sent : option Z;
  ws_failed : option Z;
  ws_beat_ok : bool;
  ws_inbox_ok : bool;
}.

Section Workers.
Context {unicode : Unicode} {hostEnv : HostEnv}.
Context (profilePath : string) (p : profile).

(** ** The stretches *)

(** An exchange whose outcome the loop looks at later. *)
Definition heartbeatExchange : IO (option Z) := attempt (sendHeartbeat p).
Definition heartbeatNote (outcome : option Z) : IO unit :=
  now ← ask hostClock;
  updateControlStatus profilePath (noteHeartbeat (bool_decide (is_Some outcome)) now).

Definition discoveryFetch (current r : Z) : IO bool :=
  fetched ← attempt (fetchDiscovery profilePath p current r);
  mret (bool_decide (is_Some fetched)).
Definition discoveryNote (r : Z) (ok : bool) : IO unit :=
  now ← ask hostClock;
  updateControlStatus profilePath (noteDiscovery ok now r).

Definition inboxPoll : IO (option inboxWaitResponse) := attempt (waitInbox profilePath p).
(** The offers it starts are run by goroutines of their own. *)
Definition inboxNote (output : option inboxWaitResponse) : IO (list connectionRequest) :=
  now ← ask hostClock;
  updateControlStatus profilePath (noteInbox output now) ;;
  match output with Some output => dispatchOffers p (ir_Events output) | None => mret [] end.

(** ** The loops

    [elsewhere]: what the other goroutines of the node do to the host (offers,
    listeners, relays) leaves the status file alone. *)
Definition elsewhere (h h' : host) : Prop := h_files h' !! statusFile profilePath = h_files h !! statusFile profilePath.

Inductive workerStep : workers → workers → Prop :=
  | st_elsewhere h h' b x d c i k s f bo io :
      elsewhere h h' →
      workerStep (mkWorkers h b x d c i k s f bo io) (mkWorkers h' b x d c i k s f bo io)
  (* runHeartbeatWorker *)
  | st_heartbeat h b d c i k s f bo io outcome h' :
      runs heartbeatExchange h outcome h' →
      workerStep (mkWorkers h b BeatReady d c i k s f bo io) (mkWorkers h' b (BeatNoting outcome) d c i k s f bo io)
  | st_beat_note h b d c i k s f bo io outcome h' :
      runs (heartbeatNote outcome) h tt h' →
      workerStep (mkWorkers h b (BeatNoting outcome) d c i k s f bo io)
        (mkWorkers h' b (match outcome with Some r => BeatSending r | None => BeatReady end) d c i k s f
           (bool_decide (is_Some outcome)) io)
  | st_send h d c i k s f bo io r :
      workerStep (mkWorkers h None (BeatSending r) d c i k s f bo io) (mkWorkers h (Some r) BeatReady d c i k (Some r) f bo io)
  | st_full h x d c i k s f bo io r :
      workerStep (mkWorkers h (Some x) (BeatSending r) d c i k s f bo io) (mkWorkers h (Some x) (BeatDraining r) d c i k s f bo io)
  | st_drain h b d c i k s f bo io r :
      workerStep (mkWorkers h b (BeatDraining r) d c i k s f bo io) (mkWorkers h None (BeatRefilling r) d c i k s f bo io)
  | st_refill h d c i k s f bo io r :
      workerStep (mkWorkers h None (BeatRefilling r) d c i k s f bo io) (mkWorkers h (Some r) BeatReady d c i k (Some r) f bo io)
  | st_drop h x d c i k s f bo io r :
      workerStep (mkWorkers h (Some x) (BeatRefilling r) d c i k s f bo io) (mkWorkers h (Some x) BeatReady d c i k (Some r) f bo io)
  | st_beat_end h b d c i k s f bo io :
      workerStep (mkWorkers h b BeatReady d c i k s f bo io) (mkWorkers h b BeatEnded d c i k s f bo io)
  (* runDiscoveryWorker *)
  | st_receive h r x c i k s f bo io :
      workerStep (mkWorkers h (Some r) x DiscoveryReady c i k s f bo io)
        (mkWorkers h None x (if r =? c then DiscoveryReady else DiscoveryFetching r) c i k s f bo io)
  | st_fetch h b x c i k s f bo io r ok h' :
      runs (discoveryFetch c r) h ok h' →
      workerStep (mkWorkers h b x (DiscoveryFetching r) c i k s f bo io) (mkWorkers h' b x (DiscoveryNoting r ok) c i k s f bo io)
  | st_discovery_note h b x c i k s f bo io r ok h' :
      runs (discoveryNote r ok) h tt h' →
      workerStep (mkWorkers h b x (DiscoveryNoting r ok) c i k s f bo io)
        (mkWorkers h' b x DiscoveryReady (if ok then r else c) i k s (if ok then None else Some r) bo io)
  | st_discovery_end h b x c i k s f bo io :
      workerStep (mkWorkers h b x DiscoveryReady c i k s f bo io) (mkWorkers h b x DiscoveryEnded c i k s f bo io)
  (* runInboxWorker *)
  | st_inbox_begin h b x d c k s f bo io h' :
      runs (updateControlStatus profilePath noteWaiting) h tt h' →
      workerStep (mkWorkers h b x d c InboxReady k s f bo io) (mkWorkers h' b x d c InboxPolling k s f bo io)
  | st_poll h b x d c k s f bo io output h' :
      runs inboxPoll h output h' →
      workerStep (mkWorkers h b x d c InboxPolling k s f bo io) (mkWorkers h' b x d c (InboxNoting output) k s f bo io)
  | st_inbox_note h b x d c k s f bo io output started h' :
      runs (inboxNote output) h started h' →
      workerStep (mkWorkers h b x d c (InboxNoting output) k s f bo io)
        (mkWorkers h' b x d c (match output with Some _ => InboxReady | None => InboxPausing end)
           (match output with Some _ => Time.second | None => k end) s f bo (bool_decide (is_Some output)))
  | st_pause h b x d c k s f bo io :
      workerStep (mkWorkers h b x d c InboxPausing k s f bo io) (mkWorkers h b x d c InboxReady (nextBackoff k) s f bo io)
  | st_inbox_end h b x d c i k s f bo io :
      i = InboxReady ∨ i = InboxPausing →
      workerStep (mkWorkers h b x d c i k s f bo io) (mkWorkers h b x d c InboxEnded k s f bo io).

(** [runAuthenticatedControlPlane]: the channel is empty and the discovery
    worker has read the status file. *)
Definition runAuthenticatedControlPlane : host → option workers := λ h,
  match loadControlStatus profilePath h with
  | (Some loaded, h') =>
      let s := loaded.1 in
      Some (mkWorkers h' None BeatReady DiscoveryReady (cp_DiscoveryRevision s) InboxReady Time.second None None
              (cp_HeartbeatError s) (cp_InboxError s))
  | (None, _) => None
  end.

(** [runControlPlane]: polls for at most [fuel] turns, then starts the
    workers; [None] when it returns without them. *)
Fixpoint runControlPlane (fuel : nat) : IO (option profile) :=
  match fuel with
  | O => mret None
  | S fuel =>
      turn ← controlPlaneTurn profilePath;
      match turn with
      | None => mret None
      | Some (false, p) => mret (Some p)
      | Some (true, _) =>
          stopped ← ask interrupted;
          if (stopped : bool) then mret None else runControlPlane fuel
      end
  end.
End Workers.

(** ** The turns are sequences of stretches *)

Section Turns.
Context {unicode : Unicode} {hostEnv : HostEnv} (profilePath : string) (p : profile).

Lemma bind_assoc {A B C} (m : IO A) (k : A → IO B) (j : B → IO C) h : ((m ≫= k) ≫= j) h = (m ≫= λ a, k a ≫= j) h.
Proof. unfold mbind, IO_bind. by destruct (m h) as [[]]. Qed.

Lemma heartbeatTurn_stretches h :
  heartbeatTurn profilePath p h = (r ← heartbeatExchange p; heartbeatNote profilePath r ;; mret r) h.
Proof. unfold heartbeatTurn, heartbeatExchange, heartbeatNote, mbind, IO_bind. by destruct (attempt (sendHeartbeat p) h) as [[]]. Qed.

Lemma discoveryTurn_stretches current r h :
  r ≠ current →
  discoveryTurn profilePath p current r h
  = (ok ← discoveryFetch profilePath p current r; discoveryNote profilePath r ok ;; mret (if (ok : bool) then r else current)) h.
Proof.
  intros Hne%Z.eqb_neq. unfold discoveryTurn. rewrite Hne. unfold discoveryFetch, discoveryNote, mbind, IO_bind.
  by destruct (attempt (fetchDiscovery profilePath p current r) h) as [[]].
Qed.

Lemma inboxTurn_stretches backoff h :
  inboxTurn profilePath p backoff h
  = (updateControlStatus profilePath noteWaiting ;;
     output ← inboxPoll profilePath p;
     started ← inboxNote profilePath p output;
     mret (started, match (output : option inboxWaitResponse) with Some _ => Time.second | None => nextBackoff backoff end)) h.
Proof.
  unfold inboxTurn, inboxPoll, inboxNote, mbind, IO_bind. destruct (updateControlStatus _ _ h) as [[[]|] h1]; [|done].
  destruct (attempt (waitInbox profilePath p) h1) as [[[output|]|] h2]; [| |done];
    cbn -[updateControlStatus dispatchOffers noteInbox];
    match goal with |- context [updateControlStatus ?path ?update ?h] => destruct (updateControlStatus path update h) as [[[]|] h3] end;
    try done; by destruct (dispatchOffers _ _ h3) as [[]].
Qed.
End Turns.

(** ** What follows the heartbeat *)

Section Follow.
Context {unicode : Unicode} {hostEnv : HostEnv} (profilePath : string) (p : profile).

(** Nothing is on its way: the last revision sent was taken up. *)
Definition settled (w : workers) (r : Z) : Prop :=
  ws_discovery w = DiscoveryFetching r ∨ (∃ ok, ws_discovery w = DiscoveryNoting r ok)
  ∨ (ws_discovery w = DiscoveryReady ∨ ws_discovery w = DiscoveryEnded) ∧ (ws_current w = r ∨ ws_failed w = Some r).

Definition channelOf (w : workers) : Prop :=
  (∀ r, ws_beat w = BeatRefilling r → ws_buffer w = None)
  ∧ match ws_sent w with
    | None => ws_buffer w = None
    | Some r => ws_buffer w = Some r ∨ ws_buffer w = None ∧ ((∃ r', ws_beat w = BeatRefilling r') ∨ settled w r)
    end.

Lemma channelOf_step w w' : workerStep profilePath p w w' → channelOf w → channelOf w'.
Proof.
  intros H. destruct H;
    repeat match goal with |- context [match ?x with _ => _ end] => destruct x eqn:? end; bool_simpl;
    destruct s; unfold channelOf, settled;
    cbn [ws_beat ws_buffer ws_sent ws_discovery ws_current ws_failed]; naive_solver.
Qed.
End Follow.

(** ** The status file follows the workers *)

(** A disk that writes, and a codec that reads back what it wrote. *)
Class Healthy {hostEnv : HostEnv} (file : string) : Prop := {
  healthy_read : ∀ i, readFails i file = false;
  healthy_write : ∀ i path text, writeFile i path text = Written;
  healthy_rename : ∀ i, renameFile i = true;
  healthy_codec : ∀ s, unmarshalStatus (marshalStatus s +:+ lineEnd) = (s, true);
}.

Section Status.
Context {unicode : Unicode} {hostEnv : HostEnv}.
Context (l : list (list ascii)) (Hl : l ≠ []) (Hplain : Forall plain l) (p : profile).
Notation path := (profileOf l).
Context `{healthy : !Healthy (statusFile path)}.

(** What loadControlStatus reads. *)
Definition statusIn (files : gmap string string) : controlPlaneStatus :=
  match files !! statusFile path with Some text => (unmarshalStatus text).1 | None => emptyStatus end.
Notation statusOf h := (statusIn (h_files h)).

Lemma runs_loadStatus s h h' : runs (loadControlStatus path) h s h' → s.1 = statusOf h ∧ h' = tickHost h.
Proof.
  unfold loadControlStatus. intros H. io_bind (r & h1 & Hr & H). apply runs_readFile in Hr as [-> ->].
  apply runs_ret in H as [-> ->]. split; [|done]. rewrite healthy_read. unfold statusIn. by destruct (h_files h !! _).
Qed.

Lemma runs_updateStatus update h h' :
  runs (updateControlStatus path update) h tt h' → statusOf h' = update (statusOf h).
Proof.
  unfold updateControlStatus. intros H. io_bind (s & h1 & Hs & H). apply runs_loadStatus in Hs as [Hs ->].
  io_bind (w & h2 & Hw & H). apply runs_attempt in Hw. apply runs_ret in H as [_ ->].
  set (text := marshalStatus (update s.1) +:+ lineEnd) in *.
  assert (∃ h3, runs (replaceFile (statusFile path) text) (tickHost h) tt h3) as (h3 & H3).
  { unfold replaceFile, putFile, rename, runs, mbind, IO_bind, ask. cbn. rewrite healthy_write. cbn.
    rewrite lookup_insert_eq, healthy_rename. cbn. by eexists. }
  assert (h2 = h3) as -> by (unfold runs in H3; congruence).
  apply runs_replaceFile in H3 as (Hf & _). unfold statusIn. rewrite Hf, lookup_insert_eq. unfold text.
  by rewrite healthy_codec, Hs.
Qed.

Lemma runs_noted update h h' :
  runs (now ← ask hostClock; updateControlStatus path (update now)) h tt h' →
  statusOf h' = update (hostClock (h_tick h)) (statusOf h).
Proof. intros H. io_bind (now & h1 & Hn & H). apply runs_ask in Hn as [-> ->]. by apply runs_updateStatus in H. Qed.

(** The files beside the status file. *)
Lemma beside f s : plain (Strings.bytes f) → f +:+ s ≠ "control-status.json" →
  Filepath.Join [Filepath.Dir path; f] +:+ s ≠ statusFile path.
Proof.
  intros Hf Hne H. apply Hne. unfold statusFile in H. rewrite (Dir_profile l), !Join_absolute in H;
    try done; try (by constructor); try (by constructor; [by apply plain_check|constructor]).
  cbn [fmap list_fmap] in H. rewrite !absolutePath_app, !append_assoc in H by done.
  apply append_inj_r in H. by injection H.
Qed.

Lemma beside' f : plain (Strings.bytes f) → f ≠ "control-status.json" → Filepath.Join [Filepath.Dir path; f] ≠ statusFile path.
Proof. intros Hf Hne H. apply (beside f "" Hf); by rewrite append_empty. Qed.

Notation others := (λ q, q ≠ statusFile path).

Lemma others_status {A} (m : IO A) h a h' : along (changes others) m → runs m h a h' → statusOf h' = statusOf h.
Proof.
  intros Hm Hr. pose proof (along_runs _ m h a h' Hm Hr) as Hc. unfold statusIn. rewrite Hc; [done|]. by intros ?.
Qed.

Lemma others_saveDiscovered nodes : along (changes others) (saveDiscovered path nodes).
Proof.
  unfold saveDiscovered, peersFile. apply changes_replaceFile; [apply beside'|apply beside]; (done || by apply plain_check).
Qed.
#[local] Hint Resolve others_saveDiscovered : changing.

Lemma others_fetch current r : along (changes others) (discoveryFetch path p current r).
Proof. unfold discoveryFetch, fetchDiscovery. changing. Qed.

Lemma others_poll : along (changes others) (inboxPoll path p).
Proof.
  unfold inboxPoll, waitInbox, saveInbox, inboxFile. changing.
  all: apply changes_replaceFile; [apply beside'|apply beside]; (done || by apply plain_check).
Qed.

(** What the file says while the workers are where they are. *)
Definition statusFollows (w : workers) : Prop :=
  let s := statusOf (ws_host w) in
  cp_DiscoveryRevision s = ws_current w
  ∧ cp_HeartbeatError s = ws_beat_ok w
  ∧ cp_InboxError s = ws_inbox_ok w
  ∧ (is_Some (ws_failed w) → cp_DiscoveryError s = false)
  ∧ match ws_inbox w with
    | InboxPolling | InboxNoting _ => cp_InboxWaiting s = true
    | InboxPausing => cp_InboxWaiting s = false
    | InboxReady | InboxEnded => True
    end.

Lemma runs_inboxNote output h started h' :
  runs (inboxNote path p output) h started h' → statusOf h' = noteInbox output (hostClock (h_tick h)) (statusOf h).
Proof.
  unfold inboxNote. intros H. io_bind (now & h1 & Hn & H). apply runs_ask in Hn as [-> ->].
  io_bind (u & h2 & Hu & H). destruct u. apply runs_updateStatus in Hu.
  change (statusOf h) with (statusOf (tickHost h)). rewrite <- Hu. unfold statusIn.
  assert (h_files h' = h_files h2) as ->; [|done]. destruct output as [output|]; [|by apply runs_ret in H as [_ ->]].
  exact (along_runs _ _ _ _ _ (files_dispatchOffers p (ir_Events output)) H).
Qed.

Lemma files_exchange : constant h_files (heartbeatExchange p).
Proof. unfold heartbeatExchange. constancy. Qed.

Lemma statusFollows_step w w' : workerStep path p w w' → statusFollows w → statusFollows w'.
Proof.
  intros H. destruct H as [h h' b x d c i k s f bo io He|h b d c i k s f bo io outcome h' Hr|h b d c i k s f bo io outcome h' Hr
    |?|?|?|?|?|?|?|h b x c i k s f bo io r ok h' Hr|h b x c i k s f bo io r ok h' Hr|?|h b x d c k s f bo io h' Hr
    |h b x d c k s f bo io output h' Hr|h b x d c k s f bo io output started h' Hr|?|h b x d c i k s f bo io Hi];
    unfold statusFollows; cbn [ws_host ws_current ws_beat_ok ws_inbox_ok ws_failed ws_inbox]; try done.
  - unfold statusIn. by rewrite He.
  - assert (h_files h' = h_files h) as ->; [|done]. exact (along_runs _ _ _ _ _ files_exchange Hr).
  - apply runs_noted in Hr. rewrite Hr. cbn. naive_solver.
  - apply (others_status _ _ _ _ (others_fetch c r)) in Hr. by rewrite Hr.
  - apply runs_noted in Hr. rewrite Hr. destruct ok; cbn; [|naive_solver]. intros (? & ? & ? & _ & ?). by split_and!.
  - apply runs_updateStatus in Hr. rewrite Hr. cbn. naive_solver.
  - apply (others_status _ _ _ _ others_poll) in Hr. by rewrite Hr.
  - apply runs_inboxNote in Hr. rewrite Hr. destruct output as [output|]; cbn; naive_solver.
  - naive_solver.
  - naive_solver.
Qed.
End Status.

(** C23. control-status.json says where the workers are, however their steps
    and those of the other goroutines interleave: the revision in it is the one
    the discovery worker holds, the error flags of the heartbeat and of the
    inbox are those of their last finished exchange, the discovery's is set
    when its last fetch failed, and the inbox waits exactly from the start of a
    poll to its outcome.  No worker loses what another has written. *)
Theorem control_status_follows {unicode : Unicode} {hostEnv : HostEnv} l p h0 w0 w
    (Hl : l ≠ []) (Hplain : Forall plain l) (Hhealthy : Healthy (statusFile (profileOf l)))
    (Hstart : runAuthenticatedControlPlane (profileOf l) h0 = Some w0)
    (Hsteps : rtc (workerStep (profileOf l) p) w0 w) :
  let s := statusIn l (h_files (ws_host w)) in
  cp_DiscoveryRevision s = ws_current w
  ∧ cp_HeartbeatError s = ws_beat_ok w
  ∧ cp_InboxError s = ws_inbox_ok w
  ∧ (is_Some (ws_failed w) → cp_DiscoveryError s = false)
  ∧ match ws_inbox w with
    | InboxPolling | InboxNoting _ => cp_InboxWaiting s = true
    | InboxPausing => cp_InboxWaiting s = false
    | InboxReady | InboxEnded => True
    end.
Proof.
  assert (statusFollows l w0) as H0.
  { unfold runAuthenticatedControlPlane in Hstart. destruct (loadControlStatus (profileOf l) h0) as [[s|] h1] eqn:E; [|done].
    injection Hstart as <-. apply runs_loadStatus in E as [-> ->]; [|done]. unfold statusFollows. cbn. naive_solver. }
  clear Hstart. change (statusFollows l w). induction Hsteps as [w|w0 w1 w Hstep _ IH]; [done|].
  apply IH. by eapply statusFollows_step.
Qed.

(** C22. Every revision a heartbeat has passed on is taken up or overtaken:
    until the heartbeat worker replaces it by a newer one it is in the channel,
    then with the discovery worker, which ends with it as its current
    revision or with a failed fetch; so when the channel is empty and both
    workers are between two rounds, the last revision passed on is the current
    one or its fetch failed.  The third select of the heartbeat worker always
    finds room. *)
Theorem newest_revision_followed {unicode : Unicode} {hostEnv : HostEnv} path p h0 w0 w
    (Hstart : runAuthenticatedControlPlane path h0 = Some w0)
    (Hsteps : rtc (workerStep path p) w0 w) :
  (∀ r, ws_beat w = BeatRefilling r → ws_buffer w = None)
  ∧ ∀ r, ws_sent w = Some r →
      (ws_buffer w = Some r ∨ (∃ newer, ws_beat w = BeatRefilling newer)
       ∨ ws_discovery w = DiscoveryFetching r ∨ (∃ ok, ws_discovery w = DiscoveryNoting r ok)
       ∨ ws_current w = r ∨ ws_failed w = Some r)
      ∧ (ws_buffer w = None → ws_beat w = BeatReady → ws_discovery w = DiscoveryReady →
         ws_current w = r ∨ ws_failed w = Some r).
Proof.
  assert (channelOf w0) as H0.
  { unfold runAuthenticatedControlPlane in Hstart. destruct (loadControlStatus path h0) as [[s|] h1]; [|done].
    by injection Hstart as <-. }
  clear Hstart. assert (channelOf w) as [Hroom Hsent].
  { induction Hsteps as [w|w0 w1 w Hstep _ IH]; [done|]. apply IH. by eapply channelOf_step. }
  split; [done|]. intros r Hr. rewrite Hr in Hsent. unfold settled in Hsent. split; [naive_solver|]. intros Hn Hb Hd.
  destruct Hsent as [?|[_ [[r' ?]|[?|[[ok ?]|[_ ?]]]]]]; congruence.
Qed.

(** ** The theorems at a concrete node *)

Definition demoDirectory : list (list ascii) := Strings.bytes <$> ["home"; "user"; ".config"; "mayoiga"; "nodes"; "node-a"].
Definition demoPath : string := profileOf demoDirectory.

#[local] Instance demo_healthy : Healthy (hostEnv := demoHostEnv) (statusFile demoPath).
Proof. split; [done..|]. intros s. cbn. by rewrite statusOfText_text. Qed.

Definition demoWorkers : option workers := runAuthenticatedControlPlane demoPath demoHost.

(** A heartbeat is sent, noted and passed on, received and fetched. *)
Lemma demo_steps :
  ∃ w0 w, demoWorkers = Some w0 ∧ rtc (workerStep demoPath clientProfile) w0 w
    ∧ ws_sent w = Some 4 ∧ ws_discovery w = DiscoveryFetching 4.
Proof.
  destruct (returns_loadStatus demoPath demoHost) as (loaded & h1 & Hload).
  destruct (runs_loadStatus demoDirectory loaded demoHost h1 Hload) as [Hs ->].
  assert (cp_DiscoveryRevision loaded.1 = 0) as Hzero by (rewrite Hs; by vm_compute). clear Hs.
  assert (result (heartbeatExchange clientProfile) (tickHost demoHost) = Some (Some 4)) as Hbeat%ran by (by vm_compute).
  destruct (returns_bind (ask hostClock) (λ now, updateControlStatus demoPath (noteHeartbeat true now)) (returns_ask _)
    (λ now, returns_updateStatus _ _) (final (heartbeatExchange clientProfile) (tickHost demoHost))) as ([] & h3 & Hnote).
  revert Hload Hbeat Hnote. generalize (final (heartbeatExchange clientProfile) (tickHost demoHost)). intros h2 Hload Hbeat Hnote.
  eexists _, _. unfold demoWorkers, runAuthenticatedControlPlane, runs in Hload |- *. rewrite Hload. cbv zeta beta iota.
  split; [reflexivity|]. rewrite Hzero. split.
  - eapply rtc_l; [apply st_heartbeat, Hbeat|]. eapply rtc_l; [apply (st_beat_note _ _ _ _ _ _ _ _ _ _ _ _ (Some 4)), Hnote|].
    eapply rtc_l; [apply st_send|]. eapply rtc_l; [apply st_receive|]. apply rtc_refl.
  - split; reflexivity.
Qed.

Lemma control_status_follows_witness :
  ∃ w, ws_sent w = Some 4 ∧ cp_DiscoveryRevision (statusIn demoDirectory (h_files (ws_host w))) = ws_current w
    ∧ cp_HeartbeatError (statusIn demoDirectory (h_files (ws_host w))) = ws_beat_ok w.
Proof.
  destruct demo_steps as (w0 & w & Hstart & Hsteps & Hsent & _). exists w. split; [exact Hsent|].
  destruct (control_status_follows demoDirectory clientProfile demoHost w0 w ltac:(done)
    ltac:(repeat constructor; by apply plain_check) demo_healthy Hstart Hsteps) as (H1 & H2 & _).
  split; [exact H1|exact H2].
Defined.

Lemma newest_revision_followed_witness :
  ∃ w, ws_sent w = Some 4
    ∧ (ws_buffer w = Some 4 ∨ (∃ newer, ws_beat w = BeatRefilling newer)
       ∨ ws_discovery w = DiscoveryFetching 4 ∨ (∃ ok, ws_discovery w = DiscoveryNoting 4 ok)
       ∨ ws_current w = 4 ∨ ws_failed w = Some 4).
Proof.
  destruct demo_steps as (w0 & w & Hstart & Hsteps & Hsent & _). exists w. split; [exact Hsent|].
  exact (proj1 (proj2 (newest_revision_followed (hostEnv := demoHostEnv) demoPath clientProfile demoHost w0 w Hstart Hsteps) 4 Hsent)).
Defined.
